(* ===== verification/_CoqProject ===== *)
-Q . S2P
Prelude.v
Riscv.v
Mem.v
KString.v
Kalloc.v
Vm.v
Uvm.v
Uvmfree.v
Ucopy.v
Usermem.v
Spinlock.v
Sleeplock.v
Pipe.v
Bio.v
Bcache.v
Layout.v
Log.v
Txn.v
Crash.v
Logspace.v
Fs.v
Fsblk.v
Path.v
Balloc.v
Inode.v
Contents.v
Filedata.v
Dir.v
Mkfs.v
Image.v
Printf.v
Virtio.v
Uart.v
Console.v
File.v
Procs.v
Proc.v
Syscall.v
Exec.v
Sysfile.v
Frames.v
Fdref.v
Sched.v
Ulib.v
Grep.v
Umalloc.v
Shell.v
Runcmd.v
Shmain.v
Trap.v
