(* ===== verification/Prelude.v ===== *)
(** * A verification library for the xv6-riscv kernel and its user programs

    A shallow embedding of the C sources under src/kernel, src/mkfs and the
    larger programs of src/user, with the theorems that make each component
    correct.  C integers are [Z] with their wrap-around written out ([u8] to
    [u64], [s16], [s32]); memory is a finite map from addresses to bytes or,
    where the code only uses objects, a record per object; a function that
    changes state is a computation of the monad [M] below.  [panic] and
    [sleep] are outcomes of a run; so is running out of fuel, which the
    theorems exclude wherever they say that the code returns.

    ** The system and the files that model it

    Foundations.  Prelude: integers, the monad, its Hoare triples [wp] (total)
    and [wlp] (partial), frames [keeps], tactics and hints.  Riscv: riscv.h,
    memlayout.h, param.h.  Mem: byte memory.  Layout: on-disk structures as
    little-endian fields.  KString: string.c.

    Memory.  Kalloc: kalloc.c, the free list threaded through free pages.  Vm,
    Uvm, Uvmfree, Ucopy: vm.c, from page-table walks to [copyinstr].  Usermem:
    the class [UserMem] through which pipes, console, file system and system
    calls reach user memory, with its laws and its instance over vm.c.

    Locks and processes.  Spinlock: spinlock.c, CPUs interleaved at the atomic
    swaps.  Sleeplock: sleeplock.c.  Procs, Proc: proc.h and the functions of
    proc.c that create, end and wake processes.  Sched: [scheduler], [sched],
    [yield], [sleep], [wakeup] as steps of CPUs.  Trap: trap.c, plic.c and
    start.c over the control registers of a CPU; system calls, drivers and
    [yield] are an interface there ([kernel_ok]).

    Storage.  Virtio: virtio_disk.c together with the device, interleaved.
    Bio, Bcache: bio.c and its laws as the layers above use them.  Log, Txn,
    Crash, Logspace: log.c; Txn is the class [Blocks] of logged block
    operations with its laws and the instance over log.c and bio.c.  Fs:
    fs.c; Fsblk, Path, Balloc, Inode, Contents, Filedata and Dir hold its
    proofs, made against [Blocks].  Mkfs, Image: mkfs.c and the image it writes.

    Devices and files.  Uart: uart.c over the registers of the device.
    Console: console.c.  Printf: printf.c as the characters printed.  Pipe:
    pipe.c.  File: file.c, the file table over inodes, pipes and devices.

    System calls.  Syscall: syscall.c and sysproc.c.  Exec: exec.c.  Sysfile:
    sysfile.c and the dispatch.  Frames, Fdref: what each of them leaves
    alone, and the reference counts of open files.

    User programs.  Ulib: ulib.c, printf.c and wc.c.  Umalloc: umalloc.c.
    Grep: grep.c.  Shell, Runcmd, Shmain: sh.c, its parser, the system calls
    of a command, and the loop over the input.

    A definition has the name of the function it translates; a loop of the
    source is a [Fixpoint] named after its function.  A section of code under
    a spinlock is one step of the model, which Spinlock.v and Sched.v justify;
    a run ends at its return or where it sleeps, and a run that sleeps is
    resumed by another step where that matters (pipes, disk driver, sleep
    locks, scheduler).  Pointers to table entries are indices.

    ** What the theorems show

    Crash safety: a power failure at any disk write of a commit leaves, after
    recovery, all of a transaction or none of it, and recovery may itself be
    interrupted (Crash); the reservation of log space suffices (Logspace).
    Concurrency: mutual exclusion and absence of panics for spin and sleep
    locks, the scheduler and the pipe; no lost wakeup; the disk driver refines
    a disk that serves each request once, and its interrupt handler
    terminates.  Memory safety: page tables stay trees of owned pages, address
    spaces are copied, grown and freed without losing a page; the user
    allocator never hands out overlapping blocks.  Functional correctness:
    reading and writing files against their contents as functions from offsets
    to bytes; what is entered in a directory is found there, and nothing else
    changes; bread and brelse; line editing; traps resume the right
    instruction; the shell's parser against a grammar, grep's matcher against
    regular expressions, the programs a command executes.  Composition: the
    image of mkfs satisfies the invariant from which the theorems on fs.c
    start, and the kernel reads from it what was put in; every system call
    keeps the reference counts of open files exact.  Errors: three theorems
    state faults of the code ([recovery_unpins_unpinned],
    [reservation_exceeds_log], [consolewrite_full_panics]); the lemmas
    [grep_long_line] and [mkfs_root_hole] state two more.

    ** Bounds and fuel

    Loops with a bound in the code recurse on the iterations left.  The others
    take fuel, and the theorem fixes an amount that is enough: for the shell's
    parser four times the length of the line plus four (each level of the
    descent consumes a character or returns); for [malloc] and [free] the break
    (there are fewer free blocks than bytes); for the disk interrupt handler the size of the ring; for
    chains of descriptors [NUM + 1]; for [iappend] the number of bytes plus
    one (each turn writes at least one); for reads and writes of files the
    number of blocks touched plus two; for directories the entries plus one;
    for the digits of an integer 32; for grep the length of the input.  String
    functions that run to a NUL return as soon as the fuel exceeds the length
    of the string.

    ** Hypotheses

    Code that is not here is a parameter with its documented behaviour as a
    hypothesis, and each theorem with hypotheses has a witness: the device
    registers of the UART; the virtio device, which serves requests as its
    specification says; [sbrk], which may refuse; in Trap the handlers, which
    return and leave the saved program counter to system calls; in mkfs the
    host's file operations, which succeed.

    ** Not modelled

    Assembly (entry.S, swtch.S, trampoline.S, kernelvec.S, usys.pl, initcode.S)
    saves and restores registers, which have no place in this embedding;
    swtch is a step of Sched.v.  main.c is the sequence of initialisations
    whose functions are each modelled; forkret's call of [fsinit] and
    kvminithart's write of satp are left out.  ramdisk.c is not built.  The
    test programs (usertests.c, grind.c and others) are tests; cat, ls, echo
    and the like are a few system calls each.  Weak memory is not modelled:
    the fences of the source are taken to give the interleavings assumed. *)

From Stdlib Require Export ZArith Lia.
From stdpp Require Export base numbers list gmap strings option decidable.

From stdpp Require Export list_relations list_basics list_misc list.

#[export] Set Default Goal Selector "!".
#[global] Open Scope Z_scope.

(** ** Machine integers

    A C integer of width [w] is a [Z] in its range; every operation of the
    source that can leave the range is followed by one of these wraps. *)

Definition u8 (z : Z) : Z := z mod 2 ^ 8.
Definition u16 (z : Z) : Z := z mod 2 ^ 16.
Definition u32 (z : Z) : Z := z mod 2 ^ 32.
Definition u64 (z : Z) : Z := z mod 2 ^ 64.

(** Conversion to a signed type of [w] bits (two's complement). *)
Definition signed (w z : Z) : Z :=
  (z + 2 ^ (w - 1)) mod 2 ^ w - 2 ^ (w - 1).
Definition s16 (z : Z) : Z := signed 16 z.
Definition s32 (z : Z) : Z := signed 32 z.

Lemma u8_range z : 0 <= u8 z < 256.
Proof. apply Z.mod_pos_bound. lia. Qed.

Lemma u16_range z : 0 <= u16 z < 2 ^ 16.
Proof. apply Z.mod_pos_bound. lia. Qed.

Lemma u32_range z : 0 <= u32 z < 2 ^ 32.
Proof. apply Z.mod_pos_bound. lia. Qed.

Lemma u64_range z : 0 <= u64 z < 2 ^ 64.
Proof. apply Z.mod_pos_bound. lia. Qed.

Lemma u8_small z : 0 <= z < 256 -> u8 z = z.
Proof. apply Z.mod_small. Qed.

Lemma u32_small z : 0 <= z < 2 ^ 32 -> u32 z = z.
Proof. apply Z.mod_small. Qed.

Lemma u64_small z : 0 <= z < 2 ^ 64 -> u64 z = z.
Proof. apply Z.mod_small. Qed.

Lemma signed_small w z :
  0 < w -> - 2 ^ (w - 1) <= z < 2 ^ (w - 1) -> signed w z = z.
Proof.
  intros Hw Hz. unfold signed.
  assert (2 ^ w = 2 * 2 ^ (w - 1)) as He.
  { rewrite <- Z.pow_succ_r by lia. f_equal. lia. }
  rewrite Z.mod_small; lia.
Qed.

Lemma s32_small z : - 2 ^ 31 <= z < 2 ^ 31 -> s32 z = z.
Proof. intros. by apply (signed_small 32). Qed.

Lemma s32_range z : - 2 ^ 31 <= s32 z < 2 ^ 31.
Proof.
  unfold s32, signed.
  pose proof (Z.mod_pos_bound (z + 2 ^ (32 - 1)) (2 ^ 32)). lia.
Qed.

Create HintDb mach.
#[export] Hint Resolve u8_range u16_range u32_range u64_range s32_range : mach.

(** ** Outcomes and the kernel monad

    A kernel function reads and writes a state [S].  It returns, calls
    [panic], parks the process on a channel ([sleep] in proc.c; the state is
    the one in which the process gives up the CPU), or, where a loop of the
    source has no static bound, runs out of the fuel given to its model. *)

(** What the source passes to [sleep] and [wakeup]: an address. *)
Inductive chan :=
  | ChTicks                    (* &ticks *)
  | ChProc (p : nat)           (* a struct proc *)
  | ChLog                      (* &log *)
  | ChLock (id : Z)            (* a struct sleeplock *)
  | ChPipeRead (pi : Z)        (* &pi->nread *)
  | ChPipeWrite (pi : Z)       (* &pi->nwrite *)
  | ChCons                     (* &cons.r *)
  | ChUart                     (* &uart_tx_r *)
  | ChDiskFree                 (* &disk.free[0] *)
  | ChBuf (b : nat).           (* a struct buf *)

#[export] Instance chan_eq_dec : EqDecision chan.
Proof. solve_decision. Defined.

Inductive outcome (S A : Type) :=
  | Ok (a : A) (s : S)
  | Panic (msg : string)
  | Sleeps (c : chan) (s : S)
  | OutOfFuel.
Arguments Ok {S A} a s.
Arguments Panic {S A} msg.
Arguments Sleeps {S A} c s.
Arguments OutOfFuel {S A}.

Definition M (S A : Type) : Type := S -> outcome S A.

Section monad.
Context {S : Type}.

Definition ret {A} (a : A) : M S A := fun s => Ok a s.
Definition bind {A B} (m : M S A) (k : A -> M S B) : M S B := fun s =>
  match m s with
  | Ok a s' => k a s'
  | Panic msg => Panic msg
  | Sleeps c s' => Sleeps c s'
  | OutOfFuel => OutOfFuel
  end.
Definition get : M S S := fun s => Ok s s.
Definition gets {A} (f : S -> A) : M S A := fun s => Ok (f s) s.
Definition put (s : S) : M S unit := fun _ => Ok tt s.
Definition modify (f : S -> S) : M S unit := fun s => Ok tt (f s).
Definition panic {A} (msg : string) : M S A := fun _ => Panic msg.
Definition sleep_on {A} (c : chan) : M S A := fun s => Sleeps c s.
Definition out_of_fuel {A} : M S A := fun _ => OutOfFuel.
End monad.

Declare Scope kern_scope.
Delimit Scope kern_scope with kern.
Notation "'let!' x := c 'in' k" := (bind c (fun x => k))
  (at level 10, x name, c at level 100, k at level 200,
   format "'[v' 'let!'  x  :=  c  'in' '/' k ']'") : kern_scope.
Notation "'let!' ' p := c 'in' k" := (bind c (fun x => match x with p => k end))
  (at level 10, p pattern, c at level 100, k at level 200)
  : kern_scope.
Notation "c ;;; k" := (bind c (fun _ => k))
  (at level 199, k at level 200, right associativity,
   format "'[v' c ;;; '/' k ']'") : kern_scope.
#[global] Open Scope kern_scope.

(** [zoom] runs a component's function inside a state that contains it. *)
Definition zoom {S T A} (proj : S -> T) (inj : T -> S -> S) (m : M T A) : M S A :=
  fun s =>
    match m (proj s) with
    | Ok a t => Ok a (inj t s)
    | Panic msg => Panic msg
    | Sleeps c t => Sleeps c (inj t s)
    | OutOfFuel => OutOfFuel
    end.

(** [for (i = lo; i < lo + n; i++) body], left early with [Some r]. *)
Fixpoint for_range {S R} (n : nat) (lo : Z) (body : Z -> M S (option R)) : M S (option R) :=
  match n with
  | O => ret None
  | Datatypes.S n' =>
      let! r := body lo in
      match r with
      | Some v => ret (Some v)
      | None => for_range n' (lo + 1) body
      end
  end.

(** ** Total and partial correctness of outcomes *)

Definition wp {S A} (m : M S A) (Q : A -> S -> Prop) (s : S) : Prop :=
  match m s with Ok a s' => Q a s' | _ => False end.

Definition wlp {S A} (m : M S A) (Q : A -> S -> Prop) (s : S) : Prop :=
  match m s with Ok a s' => Q a s' | _ => True end.

Section wp.
Context {S : Type}.
Implicit Types s : S.

Lemma wp_ret {A} (a : A) Q s : Q a s -> wp (ret a) Q s.
Proof. done. Qed.

Lemma wp_bind {A B} (m : M S A) (k : A -> M S B) Q s :
  wp m (fun a => wp (k a) Q) s -> wp (bind m k) Q s.
Proof. unfold wp, bind. by destruct (m s). Qed.

Lemma wp_bind_inv {A B} (m : M S A) (k : A -> M S B) Q s :
  wp (bind m k) Q s -> wp m (fun a => wp (k a) Q) s.
Proof. unfold wp, bind. by destruct (m s). Qed.

Lemma wp_gets {A} (f : S -> A) Q s : Q (f s) s -> wp (gets f) Q s.
Proof. done. Qed.

Lemma wp_modify (f : S -> S) (Q : unit -> S -> Prop) s : Q tt (f s) -> wp (modify f) Q s.
Proof. done. Qed.

Lemma wp_mono {A} (m : M S A) (Q Q' : A -> S -> Prop) s :
  wp m Q s -> (forall a s', Q a s' -> Q' a s') -> wp m Q' s.
Proof. unfold wp. destruct (m s); naive_solver. Qed.

Lemma wp_ok {A} (m : M S A) Q s :
  wp m Q s <-> exists a s', m s = Ok a s' /\ Q a s'.
Proof.
  unfold wp. split.
  - destruct (m s) eqn:E; naive_solver.
  - intros (a & s' & -> & H). done.
Qed.

Lemma wp_det {A} (m : M S A) Q s a s' : m s = Ok a s' -> wp m Q s -> Q a s'.
Proof. unfold wp. by intros ->. Qed.

Lemma wlp_bind {A B} (m : M S A) (k : A -> M S B) Q s :
  wlp m (fun a => wlp (k a) Q) s -> wlp (bind m k) Q s.
Proof. unfold wlp, bind. by destruct (m s). Qed.

Lemma wlp_mono {A} (m : M S A) (Q Q' : A -> S -> Prop) s :
  wlp m Q s -> (forall a s', Q a s' -> Q' a s') -> wlp m Q' s.
Proof. unfold wlp. destruct (m s); naive_solver. Qed.

Lemma wp_wlp {A} (m : M S A) Q s : wp m Q s -> wlp m Q s.
Proof. unfold wp, wlp. by destruct (m s). Qed.

Lemma wlp_ret {A} (a : A) Q s : Q a s -> wlp (ret a) Q s.
Proof. done. Qed.

Lemma wlp_gets {A} (f : S -> A) Q s : Q (f s) s -> wlp (gets f) Q s.
Proof. done. Qed.

Lemma wlp_modify (f : S -> S) (Q : unit -> S -> Prop) s : Q tt (f s) -> wlp (modify f) Q s.
Proof. done. Qed.

Lemma wlp_intro {A} (m : M S A) Q s : (forall a s', m s = Ok a s' -> Q a s') -> wlp m Q s.
Proof. unfold wlp. destruct (m s); eauto. Qed.

Lemma wlp_elim {A} (m : M S A) (Q : A -> S -> Prop) s a s' : wlp m Q s -> m s = Ok a s' -> Q a s'.
Proof. unfold wlp. intros Hw E. by rewrite E in Hw. Qed.

(** The invariant rule for [for_range]: [I i] holds before the iteration
    with counter [i]; an early exit establishes the postcondition. *)
Lemma wp_for_range {R} (body : Z -> M S (option R)) (I : Z -> S -> Prop)
    (Q : option R -> S -> Prop) (n : nat) (lo : Z) s :
  I lo s ->
  (forall i s1, lo <= i < lo + Z.of_nat n -> I i s1 ->
     wp (body i) (fun r s2 => match r with
                              | None => I (i + 1) s2
                              | Some v => Q (Some v) s2
                              end) s1) ->
  (forall s1, I (lo + Z.of_nat n) s1 -> Q None s1) ->
  wp (for_range n lo body) Q s.
Proof.
  revert lo s. induction n as [|n IH]; intros lo s HI Hbody Hend; cbn [for_range].
  - apply wp_ret, Hend. by rewrite Z.add_0_r.
  - apply wp_bind. eapply wp_mono; [apply (Hbody lo); [lia | done] |].
    intros [v|] s2 H2; cbn; [by apply wp_ret |].
    apply IH; [done | intros; apply Hbody; [lia | done] |].
    intros s1 H1. apply Hend. by replace (lo + Z.of_nat (Datatypes.S n))
      with (lo + 1 + Z.of_nat n) by lia.
Qed.
End wp.

(** ** Frames

    [keeps R m]: a run of [m] that returns relates its states by [R]. *)
Definition keeps {S A} (R : S -> S -> Prop) (m : M S A) : Prop :=
  forall s a s', m s = Ok a s' -> R s s'.

Section keeps.
Context {S : Type} (R : S -> S -> Prop) `{!PreOrder R}.

Lemma keeps_ret {A} (a : A) : keeps R (ret a).
Proof. by intros s b s' [= _ <-]. Qed.
Lemma keeps_gets {A} (f : S -> A) : keeps R (gets f).
Proof. by intros s b s' [= _ <-]. Qed.
Lemma keeps_panic {A} msg : keeps R (panic (A := A) msg).
Proof. done. Qed.
Lemma keeps_sleep_on {A} c : keeps R (sleep_on (A := A) c).
Proof. done. Qed.
Lemma keeps_out_of_fuel {A} : keeps R (out_of_fuel (A := A)).
Proof. done. Qed.
Lemma keeps_modify f : (forall s, R s (f s)) -> keeps R (modify f).
Proof. intros Hf s b s' [= _ <-]. apply Hf. Qed.
Lemma keeps_bind {A B} (m : M S A) (k : A -> M S B) : keeps R m -> (forall a, keeps R (k a)) -> keeps R (bind m k).
Proof.
  intros Hm Hk s b s'. unfold bind. destruct (m s) as [a s1| | |] eqn:E; try done. intros Hr.
  transitivity s1; [by eapply Hm | by eapply Hk].
Qed.
Lemma keeps_for_range {B} n lo (body : Z -> M S (option B)) : (forall i, keeps R (body i)) -> keeps R (for_range n lo body).
Proof.
  intros Hb. revert lo. induction n as [|n IH]; intros lo; cbn [for_range]; [apply keeps_ret |].
  apply keeps_bind; [done |]. intros [v|]; [apply keeps_ret | apply IH].
Qed.
End keeps.

Lemma keeps_zoom {S T A} (R : S -> S -> Prop) (proj : S -> T) (inj : T -> S -> S) (m : M T A) :
  (forall s a t, m (proj s) = Ok a t -> R s (inj t s)) -> keeps R (zoom proj inj m).
Proof.
  intros Hm s a s'. unfold zoom. destruct (m (proj s)) as [b t| | |] eqn:E; try done. intros [= -> <-]. by eapply Hm.
Qed.

(** [panic] reached after a run that returns. *)
Lemma bind_panic {S A B} (m : M S A) (k : A -> M S B) msg s :
  wp m (fun a s' => k a s' = Panic msg) s -> bind m k s = Panic msg.
Proof. unfold wp, bind. by destruct (m s). Qed.

Lemma wp_zoom {S T A} (proj : S -> T) (inj : T -> S -> S) (m : M T A) Q s :
  wp m (fun a t => Q a (inj t s)) (proj s) -> wp (zoom proj inj m) Q s.
Proof. unfold wp, zoom. by destruct (m (proj s)). Qed.

Lemma wp_eq {S A} (m m' : M S A) Q s : m s = m' s -> wp m' Q s -> wp m Q s.
Proof. unfold wp. by intros ->. Qed.

#[global] Opaque wp wlp.

(** [run_step] symbolically executes one bind of a concrete program. *)
Ltac kunfold := cbv beta iota delta [bind ret get gets put modify panic zoom] in *.
Ltac inv_ok :=
  repeat match goal with
  | H : Ok _ _ = Ok _ _ |- _ => injection H as H; subst
  | H : Panic _ = Ok _ _ |- _ => discriminate H
  | H : Sleeps _ _ = Ok _ _ |- _ => discriminate H
  | H : OutOfFuel = Ok _ _ |- _ => discriminate H
  end.

Lemma bind_ok {S A B} (m : M S A) (k : A -> M S B) s b s' :
  bind m k s = Ok b s' -> exists a s1, m s = Ok a s1 /\ k a s1 = Ok b s'.
Proof. unfold bind. destruct (m s) eqn:E; naive_solver. Qed.

Lemma bind_run {S A B} (m : M S A) (k : A -> M S B) s a s1 : m s = Ok a s1 -> bind m k s = k a s1.
Proof. unfold bind. by intros ->. Qed.

Lemma bind_gets {S A B} (f : S -> A) (k : A -> M S B) s : bind (gets f) k s = k (f s) s.
Proof. done. Qed.

(** [keeps_tac] walks through the code of a function; the functions it calls
    are in the database [keeps]. *)
Create HintDb keeps.
Ltac keeps_step :=
  first [ solve [eauto with keeps]
        | apply keeps_ret; apply _ | apply keeps_gets; apply _
        | apply keeps_panic | apply keeps_sleep_on | apply keeps_out_of_fuel
        | apply keeps_bind; [apply _ | | intro]
        | match goal with |- keeps _ (match ?x with _ => _ end) => destruct x end ].
Ltac keeps_tac := repeat (intros; keeps_step).

(** ** Constants of the source

    Constants are definitions, so that terms read like the code; [klia]
    unfolds those registered in [consts] and calls [lia]. *)
Create HintDb consts.
Ltac klia := autounfold with consts in *; lia.
Ltac knia := autounfold with consts in *; nia.

(** ** Functions changed at one point *)

Definition upd {K A} `{EqDecision K} (f : K -> A) (i : K) (a : A) : K -> A :=
  fun j => if decide (j = i) then a else f j.

Lemma upd_eq {K A} `{EqDecision K} (f : K -> A) i a : upd f i a i = a.
Proof. unfold upd. by rewrite decide_True. Qed.

Lemma upd_ne {K A} `{EqDecision K} (f : K -> A) i a j : j <> i -> upd f i a j = f j.
Proof. intros. unfold upd. by rewrite decide_False. Qed.

(** ** Bits *)

Lemma land_low_mul (a b k : Z) :
  0 <= k -> 0 <= b < 2 ^ k -> Z.land (a * 2 ^ k) b = 0.
Proof.
  intros Hk Hb. apply Z.bits_inj'. intros n Hn. rewrite Z.land_spec, Z.bits_0.
  destruct (decide (n < k)).
  - rewrite Z.mul_pow2_bits_low by lia. done.
  - assert (Z.testbit b n = false) as ->; [| by rewrite andb_false_r].
    rewrite <- (Z.mod_small b (2 ^ k)) by lia. apply Z.mod_pow2_bits_high. lia.
Qed.

Lemma lor_add (a b k : Z) :
  0 <= k -> 0 <= b < 2 ^ k -> Z.lor (a * 2 ^ k) b = a * 2 ^ k + b.
Proof. intros Hk Hb. symmetry. apply Z.add_nocarry_lor, land_low_mul; lia. Qed.

Lemma land_mask (a k : Z) : 0 <= k -> Z.land a (2 ^ k - 1) = a mod 2 ^ k.
Proof.
  intros. rewrite <- Z.land_ones by lia. by rewrite Z.ones_equiv, Z.sub_1_r.
Qed.

Lemma land_lnot_mask (a k : Z) :
  0 <= k -> Z.land a (Z.lnot (2 ^ k - 1)) = a - a mod 2 ^ k.
Proof. intros. by rewrite <- Z.sub_land_same_l, land_mask. Qed.

Lemma lor_low_range (a b k : Z) :
  0 <= k -> 0 <= a < 2 ^ k -> 0 <= b < 2 ^ k -> 0 <= Z.lor a b < 2 ^ k.
Proof.
  intros Hk Ha Hb.
  rewrite <- (Z.mod_small a (2 ^ k)), <- (Z.mod_small b (2 ^ k)) by lia.
  rewrite <- !Z.land_ones, <- Z.land_lor_distr_l, Z.land_ones by lia.
  apply Z.mod_pos_bound. lia.
Qed.
