(* ===== verification/Riscv.v ===== *)
(** * Machine parameters: riscv.h, memlayout.h and param.h

    Page sizes, page-table-entry fields, the virtual-address split and the
    physical and virtual memory layout, with the arithmetic facts about them
    the virtual-memory files use. *)

From S2P Require Import Prelude.

(** ** riscv.h *)

Definition PGSIZE : Z := 4096.
Definition PGSHIFT : Z := 12.
#[export] Hint Unfold PGSIZE PGSHIFT : consts.

(** [uint64] arithmetic: the sum wraps, [~(PGSIZE-1)] is sign-extended. *)
Definition PGROUNDUP (sz : Z) : Z := Z.land (u64 (sz + PGSIZE - 1)) (Z.lnot (PGSIZE - 1)).
Definition PGROUNDDOWN (a : Z) : Z := Z.land a (Z.lnot (PGSIZE - 1)).

Definition PTE_V : Z := Z.shiftl 1 0.
Definition PTE_R : Z := Z.shiftl 1 1.
Definition PTE_W : Z := Z.shiftl 1 2.
Definition PTE_X : Z := Z.shiftl 1 3.
Definition PTE_U : Z := Z.shiftl 1 4.

Definition PA2PTE (pa : Z) : Z := u64 (Z.shiftl (Z.shiftr pa 12) 10).
Definition PTE2PA (pte : Z) : Z := u64 (Z.shiftl (Z.shiftr pte 10) 12).
Definition PTE_FLAGS (pte : Z) : Z := Z.land pte 0x3FF.

Definition PXMASK : Z := 0x1FF.
Definition PXSHIFT (level : Z) : Z := PGSHIFT + 9 * level.
Definition PX (level va : Z) : Z := Z.land (Z.shiftr va (PXSHIFT level)) PXMASK.

Definition MAXVA : Z := Z.shiftl 1 (9 + 9 + 9 + 12 - 1).

Definition SATP_SV39 : Z := Z.shiftl 8 60.
Definition MAKE_SATP (pagetable : Z) : Z := Z.lor SATP_SV39 (Z.shiftr pagetable 12).

Definition SSTATUS_SPP : Z := Z.shiftl 1 8.
Definition SSTATUS_SPIE : Z := Z.shiftl 1 5.
Definition SSTATUS_SIE : Z := Z.shiftl 1 1.

(** ** memlayout.h *)

Definition UART0 : Z := 0x10000000.
Definition UART0_IRQ : Z := 10.
Definition VIRTIO0 : Z := 0x10001000.
Definition VIRTIO0_IRQ : Z := 1.
Definition CLINT : Z := 0x2000000.
Definition PLIC : Z := 0x0c000000.
Definition PLIC_SENABLE (hart : Z) : Z := PLIC + 0x2080 + hart * 0x100.
Definition PLIC_SPRIORITY (hart : Z) : Z := PLIC + 0x201000 + hart * 0x2000.
Definition PLIC_SCLAIM (hart : Z) : Z := PLIC + 0x201004 + hart * 0x2000.
Definition KERNBASE : Z := 0x80000000.
Definition PHYSTOP : Z := KERNBASE + 128 * 1024 * 1024.
Definition TRAMPOLINE : Z := MAXVA - PGSIZE.
Definition KSTACK (p : Z) : Z := TRAMPOLINE - (p + 1) * 2 * PGSIZE.
Definition TRAPFRAME : Z := TRAMPOLINE - PGSIZE.
#[export] Hint Unfold KERNBASE PHYSTOP : consts.

(** ** param.h *)

Definition NPROC : Z := 64.
Definition NOFILE : Z := 16.
Definition NFILE : Z := 100.
Definition NINODE : Z := 50.
Definition NDEV : Z := 10.
Definition ROOTDEV : Z := 1.
Definition MAXARG : Z := 32.
Definition MAXOPBLOCKS : Z := 10.
Definition LOGSIZE : Z := MAXOPBLOCKS * 3.
Definition NBUF : Z := MAXOPBLOCKS * 3.
Definition FSSIZE : Z := 1000.
Definition MAXPATH : Z := 128.
#[export] Hint Unfold NPROC NOFILE NFILE NINODE NDEV ROOTDEV MAXARG MAXOPBLOCKS
  LOGSIZE NBUF FSSIZE MAXPATH : consts.

(** ** Rounding *)

Lemma PGROUNDDOWN_eq a : PGROUNDDOWN a = a - a mod PGSIZE.
Proof. apply (land_lnot_mask a 12). lia. Qed.

Lemma PGROUNDUP_eq sz :
  0 <= sz <= 2 ^ 64 - PGSIZE ->
  PGROUNDUP sz = (sz + PGSIZE - 1) - (sz + PGSIZE - 1) mod PGSIZE.
Proof.
  intros. unfold PGROUNDUP. rewrite u64_small by klia.
  apply (land_lnot_mask _ 12). lia.
Qed.

Lemma PGROUNDDOWN_aligned a : PGROUNDDOWN a mod PGSIZE = 0.
Proof.
  rewrite PGROUNDDOWN_eq, Zminus_mod, Zmod_mod, Z.sub_diag. done.
Qed.

Lemma PGROUNDDOWN_id a : a mod PGSIZE = 0 -> PGROUNDDOWN a = a.
Proof. rewrite PGROUNDDOWN_eq. lia. Qed.

Lemma PGROUNDDOWN_bounds a : PGROUNDDOWN a <= a < PGROUNDDOWN a + PGSIZE.
Proof. rewrite PGROUNDDOWN_eq. pose proof (Z.mod_pos_bound a PGSIZE). klia. Qed.

Lemma PGROUNDUP_bounds sz :
  0 <= sz <= 2 ^ 64 - PGSIZE -> sz <= PGROUNDUP sz < sz + PGSIZE.
Proof.
  intros. rewrite PGROUNDUP_eq by done.
  pose proof (Z.mod_pos_bound (sz + PGSIZE - 1) PGSIZE). klia.
Qed.

Lemma PGROUNDUP_aligned sz : 0 <= sz <= 2 ^ 64 - PGSIZE -> PGROUNDUP sz mod PGSIZE = 0.
Proof.
  intros. rewrite PGROUNDUP_eq, Zminus_mod, Zmod_mod, Z.sub_diag by done. done.
Qed.

(** ** Page-table entries *)

Lemma PTE_V_eq : PTE_V = 1. Proof. done. Qed.
Lemma MAXVA_eq : MAXVA = 2 ^ 38. Proof. done. Qed.

Lemma PA2PTE_eq pa : 0 <= pa < 2 ^ 66 -> PA2PTE pa = pa / 2 ^ 12 * 2 ^ 10.
Proof.
  intros. unfold PA2PTE. rewrite Z.shiftl_mul_pow2, Z.shiftr_div_pow2 by lia.
  apply u64_small. pose proof (Z.div_pos pa (2 ^ 12)).
  assert (pa / 2 ^ 12 < 2 ^ 54) by (apply Z.div_lt_upper_bound; lia). lia.
Qed.

Lemma pte_eq pa flags :
  0 <= pa < 2 ^ 66 -> 0 <= flags < 2 ^ 10 ->
  Z.lor (PA2PTE pa) flags = pa / 2 ^ 12 * 2 ^ 10 + flags.
Proof. intros. rewrite PA2PTE_eq by done. by apply lor_add. Qed.

(** A PTE built from a page-aligned address gives that address back, and
    the flags it was built with. *)
Lemma PTE2PA_pte pa flags :
  0 <= pa < 2 ^ 64 -> pa mod PGSIZE = 0 -> 0 <= flags < 2 ^ 10 ->
  PTE2PA (Z.lor (PA2PTE pa) flags) = pa.
Proof.
  intros Hpa Hal Hfl. rewrite pte_eq by lia. unfold PTE2PA.
  rewrite Z.shiftl_mul_pow2, Z.shiftr_div_pow2 by lia.
  rewrite Z.div_add_l, (Z.div_small flags) by lia. rewrite Z.add_0_r.
  unfold PGSIZE in Hal. change (2 ^ 12) with 4096.
  rewrite u64_small; Z.div_mod_to_equations; lia.
Qed.

Lemma PTE_FLAGS_pte pa flags :
  0 <= pa < 2 ^ 66 -> 0 <= flags < 2 ^ 10 ->
  PTE_FLAGS (Z.lor (PA2PTE pa) flags) = flags.
Proof.
  intros. rewrite pte_eq by done. unfold PTE_FLAGS. rewrite (land_mask _ 10) by lia.
  rewrite Z.add_comm, Z_mod_plus_full. by apply Z.mod_small.
Qed.

Lemma PTE_FLAGS_range pte : 0 <= PTE_FLAGS pte < 2 ^ 10.
Proof.
  unfold PTE_FLAGS. change 1023 with (2 ^ 10 - 1). rewrite land_mask by lia.
  apply Z.mod_pos_bound. lia.
Qed.

Lemma PTE2PA_range pte : 0 <= PTE2PA pte < 2 ^ 64.
Proof. apply u64_range. Qed.

Lemma PTE2PA_aligned pte : PTE2PA pte mod PGSIZE = 0.
Proof.
  unfold PTE2PA, u64. rewrite Z.shiftl_mul_pow2 by lia.
  change (2 ^ 64) with (2 ^ 12 * 2 ^ 52). rewrite Z.mul_comm, Z.mul_mod_distr_l by lia.
  rewrite Z.mul_comm. apply Z_mod_mult.
Qed.

(** ** The virtual-address split *)

Lemma PX_eq level va : 0 <= level -> PX level va = va / 2 ^ (12 + 9 * level) mod 512.
Proof.
  intros. unfold PX, PXSHIFT. rewrite Z.shiftr_div_pow2 by klia.
  by rewrite (land_mask _ 9) by lia.
Qed.

Lemma PX_range level va : 0 <= level -> 0 <= PX level va < 512.
Proof. intros. rewrite PX_eq by done. apply Z.mod_pos_bound. lia. Qed.

(** The three indices determine the page of a virtual address below [MAXVA]. *)
Lemma PX_inj va va' :
  0 <= va < MAXVA -> 0 <= va' < MAXVA ->
  PX 2 va = PX 2 va' -> PX 1 va = PX 1 va' -> PX 0 va = PX 0 va' ->
  va / PGSIZE = va' / PGSIZE.
Proof.
  rewrite MAXVA_eq. intros H H'. rewrite !PX_eq by lia.
  change (2 ^ (12 + 9 * 0)) with 4096. change (2 ^ (12 + 9 * 1)) with (4096 * 512).
  change (2 ^ (12 + 9 * 2)) with (4096 * (512 * 512)).
  rewrite <- !Z.div_div by lia. unfold PGSIZE.
  assert (0 <= va / 4096 < 2 ^ 26) by (split; [apply Z.div_pos | apply Z.div_lt_upper_bound]; lia).
  assert (0 <= va' / 4096 < 2 ^ 26) by (split; [apply Z.div_pos | apply Z.div_lt_upper_bound]; lia).
  generalize dependent (va / 4096). generalize dependent (va' / 4096). intros b Hb a Ha.
  Z.div_mod_to_equations. lia.
Qed.
