(* ===== verification/Mem.v ===== *)
(** * Byte memory

    Physical memory as a finite map from addresses to bytes, with the loads
    and stores of C objects of 1, 2, 4 and 8 bytes (little-endian, as on
    RISC-V), and the facts about them that every pointer-manipulating
    component shares.  [char] is unsigned on this target. *)

From S2P Require Import Prelude.

Abbreviation mem := (gmap Z Z).

(** A cell that was never written reads as 0; a load sees the low 8 bits. *)
Definition ld8 (m : mem) (a : Z) : Z := u8 (default 0 (m !! a)).
Definition st8 (m : mem) (a v : Z) : mem := <[a := v]> m.

Fixpoint ld_le (n : nat) (m : mem) (a : Z) : Z :=
  match n with
  | O => 0
  | S n' => ld8 m a + 256 * ld_le n' m (a + 1)
  end.

Fixpoint st_le (n : nat) (m : mem) (a v : Z) : mem :=
  match n with
  | O => m
  | S n' => st_le n' (st8 m a v) (a + 1) (v / 256)
  end.

Definition ld16 (m : mem) (a : Z) : Z := ld_le 2 m a.
Definition ld32 (m : mem) (a : Z) : Z := ld_le 4 m a.
Definition ld64 (m : mem) (a : Z) : Z := ld_le 8 m a.
Definition st16 (m : mem) (a v : Z) : mem := st_le 2 m a v.
Definition st32 (m : mem) (a v : Z) : mem := st_le 4 m a v.
Definition st64 (m : mem) (a v : Z) : mem := st_le 8 m a v.

(** The [n] bytes at [a], and storing a list of bytes there. *)
Fixpoint bytes (m : mem) (a : Z) (n : nat) : list Z :=
  match n with
  | O => []
  | S n' => ld8 m a :: bytes m (a + 1) n'
  end.

Fixpoint st_bytes (m : mem) (a : Z) (l : list Z) : mem :=
  match l with
  | [] => m
  | b :: l' => st_bytes (st8 m a b) (a + 1) l'
  end.

(** ** Single bytes *)

Lemma ld8_range m a : 0 <= ld8 m a < 256.
Proof. apply u8_range. Qed.

Lemma ld8_st8 m a v x : ld8 (st8 m a v) x = if decide (x = a) then u8 v else ld8 m x.
Proof.
  unfold ld8, st8. case_decide as E; [subst; by rewrite lookup_insert_eq |].
  by rewrite lookup_insert_ne.
Qed.

Lemma ld8_st8_ne m a v x : x <> a -> ld8 (st8 m a v) x = ld8 m x.
Proof. intros. rewrite ld8_st8. by case_decide. Qed.

(** ** Little-endian words *)

Lemma ld_le_range n m a : 0 <= ld_le n m a < 256 ^ Z.of_nat n.
Proof.
  revert a. induction n as [|n IH]; intros a; cbn [ld_le]; [cbn; lia |].
  rewrite Nat2Z.inj_succ, Z.pow_succ_r by lia.
  pose proof (ld8_range m a). pose proof (IH (a + 1)). nia.
Qed.

Lemma ld64_range m a : 0 <= ld64 m a < 2 ^ 64.
Proof. apply (ld_le_range 8). Qed.

Lemma ld32_range m a : 0 <= ld32 m a < 2 ^ 32.
Proof. apply (ld_le_range 4). Qed.

Lemma ld16_range m a : 0 <= ld16 m a < 2 ^ 16.
Proof. apply (ld_le_range 2). Qed.

Lemma ld8_st_le n m a v x :
  ld8 (st_le n m a v) x =
  if decide (a <= x < a + Z.of_nat n) then u8 (v / 256 ^ (x - a)) else ld8 m x.
Proof.
  revert m a v. induction n as [|n IH]; intros m a v; cbn [st_le].
  - rewrite decide_False by lia. done.
  - rewrite IH. destruct (decide (x = a)) as [->|Hne].
    + rewrite decide_False, decide_True by lia.
      rewrite ld8_st8, decide_True by done. by rewrite Z.sub_diag, Z.div_1_r.
    + rewrite ld8_st8_ne by done.
      destruct (decide (a + 1 <= x < a + 1 + Z.of_nat n)).
      * rewrite decide_True by lia. f_equal.
        rewrite Z.div_div by lia. f_equal. rewrite <- Z.pow_succ_r by lia.
        f_equal. lia.
      * rewrite decide_False by lia. done.
Qed.

Lemma ld_le_ext n m m' a :
  (forall x, a <= x < a + Z.of_nat n -> ld8 m' x = ld8 m x) ->
  ld_le n m' a = ld_le n m a.
Proof.
  revert a. induction n as [|n IH]; intros a H; cbn [ld_le]; [done |].
  rewrite IH by (intros; apply H; lia). rewrite (H a) by lia. done.
Qed.

Lemma ld_le_st_le_eq n m a v :
  ld_le n (st_le n m a v) a = v mod 256 ^ Z.of_nat n.
Proof.
  revert m a v. induction n as [|n IH]; intros m a v; cbn [ld_le st_le].
  - by rewrite Z.mod_1_r.
  - rewrite IH, ld8_st_le, decide_False, ld8_st8, decide_True by (done || lia).
    rewrite Nat2Z.inj_succ, Z.pow_succ_r by lia. unfold u8.
    change (2 ^ 8) with 256. rewrite Z.rem_mul_r by lia. lia.
Qed.

Lemma ld_le_st_le_ne n k m a b v :
  a + Z.of_nat n <= b \/ b + Z.of_nat k <= a ->
  ld_le n (st_le k m b v) a = ld_le n m a.
Proof.
  intros Hd. apply ld_le_ext. intros x Hx. rewrite ld8_st_le, decide_False; [done | lia].
Qed.

Lemma ld64_st64_eq m a v : 0 <= v < 2 ^ 64 -> ld64 (st64 m a v) a = v.
Proof. intros. unfold ld64, st64. rewrite ld_le_st_le_eq. by apply Z.mod_small. Qed.

Lemma ld64_st64_ne m a b v : a + 8 <= b \/ b + 8 <= a -> ld64 (st64 m b v) a = ld64 m a.
Proof. intros. apply ld_le_st_le_ne. lia. Qed.

Lemma ld8_st64_ne m a v x : x < a \/ a + 8 <= x -> ld8 (st64 m a v) x = ld8 m x.
Proof. intros. unfold st64. rewrite ld8_st_le, decide_False; [done | lia]. Qed.

Lemma ld64_ext m m' a :
  (forall x, a <= x < a + 8 -> ld8 m' x = ld8 m x) -> ld64 m' a = ld64 m a.
Proof. intros H. apply ld_le_ext. intros. apply H. lia. Qed.

(** ** Byte strings *)

Lemma length_bytes m a n : length (bytes m a n) = n.
Proof. revert a. induction n; intros; cbn; auto. Qed.

Lemma bytes_ext m m' a n :
  (forall x, a <= x < a + Z.of_nat n -> ld8 m' x = ld8 m x) -> bytes m' a n = bytes m a n.
Proof.
  revert a. induction n as [|n IH]; intros a H; cbn; [done |].
  f_equal; [apply H; lia | apply IH; intros; apply H; lia].
Qed.

Lemma bytes_app m a n k :
  bytes m a (n + k) = bytes m a n ++ bytes m (a + Z.of_nat n) k.
Proof.
  revert a. induction n as [|n IH]; intros a; cbn.
  - by rewrite Z.add_0_r.
  - rewrite IH. do 3 f_equal. lia.
Qed.

Lemma lookup_bytes m a n i :
  (i < n)%nat -> bytes m a n !! i = Some (ld8 m (a + Z.of_nat i)).
Proof.
  revert a i. induction n as [|n IH]; intros a i Hi; [lia |].
  destruct i as [|i]; cbn; [by rewrite Z.add_0_r |].
  rewrite IH by lia. do 2 f_equal. lia.
Qed.

Lemma ld8_st_bytes m a l x :
  ld8 (st_bytes m a l) x =
  if decide (a <= x < a + Z.of_nat (length l))
  then u8 (default 0 (l !! Z.to_nat (x - a))) else ld8 m x.
Proof.
  revert m a. induction l as [|b l IH]; intros m a; cbn [st_bytes length].
  - rewrite decide_False by lia. done.
  - rewrite IH. destruct (decide (x = a)) as [->|Hne].
    + rewrite decide_False, decide_True by lia. rewrite ld8_st8, decide_True by done.
      by rewrite Z.sub_diag.
    + rewrite ld8_st8_ne by done. destruct (decide (a + 1 <= x < a + 1 + Z.of_nat (length l))).
      * rewrite decide_True by lia.
        replace (Z.to_nat (x - a)) with (S (Z.to_nat (x - (a + 1)))) by lia. done.
      * rewrite decide_False by lia. done.
Qed.

Lemma bytes_st_bytes m a l :
  Forall (fun b => 0 <= b < 256) l -> bytes (st_bytes m a l) a (length l) = l.
Proof.
  intros Hl. apply list_eq. intros i. destruct (decide (i < length l)%nat) as [Hi|Hi].
  - rewrite lookup_bytes by done. rewrite ld8_st_bytes, decide_True by lia.
    replace (Z.to_nat (a + Z.of_nat i - a)) with i by lia.
    destruct (lookup_lt_is_Some_2 l i Hi) as [b Hb]. rewrite Hb. cbn. f_equal.
    apply u8_small. by apply (Forall_lookup_1 _ _ _ _ Hl Hb).
  - rewrite !lookup_ge_None_2; [done | lia | rewrite length_bytes; lia].
Qed.


Create HintDb mem.
#[export] Hint Resolve ld8_range ld64_range ld32_range ld16_range : mem.
