(* ===== verification/KString.v ===== *)
(** * kernel/string.c

    The kernel's memory and string functions, over byte memory.  Each loop of
    the source is a [Fixpoint] on the number of iterations left; [strlen],
    whose loop is bounded only by the terminating NUL, takes fuel.  Functions
    that only read take their operands as views (offset to byte), so that
    they apply both to memory and to the byte arrays on the kernel stack. *)

From S2P Require Import Prelude Mem.

(** A C string seen through a view, cut at [n] bytes: the bytes before NUL. *)
Fixpoint cstr_n (n : nat) (p : Z -> Z) (i : Z) : list Z :=
  match n with
  | O => []
  | S n' => if p i =? 0 then [] else p i :: cstr_n n' p (i + 1)
  end.

Definition view (m : mem) (a : Z) : Z -> Z := fun i => ld8 m (a + i).
Definition lview (l : list Z) : Z -> Z := fun i => default 0 (l !! Z.to_nat i).

Module KString.

Fixpoint memset_loop (k : nat) (m : mem) (dst c i : Z) : mem :=
  match k with
  | O => m
  | S k' => memset_loop k' (st8 m (dst + i) c) dst c (i + 1)
  end.

Definition memset (m : mem) (dst c n : Z) : mem := memset_loop (Z.to_nat n) m dst c 0.

Fixpoint memcmp_loop (n : nat) (s1 s2 : Z -> Z) (i : Z) : Z :=
  match n with
  | O => 0
  | S n' => if s1 i =? s2 i then memcmp_loop n' s1 s2 (i + 1) else s1 i - s2 i
  end.

Definition memcmp (m : mem) (v1 v2 n : Z) : Z :=
  memcmp_loop (Z.to_nat n) (view m v1) (view m v2) 0.

(** [while (n-- > 0) *d++ = *s++;] *)
Fixpoint move_up (n : nat) (m : mem) (d s : Z) : mem :=
  match n with
  | O => m
  | S n' => move_up n' (st8 m d (ld8 m s)) (d + 1) (s + 1)
  end.

(** [while (n-- > 0) *--d = *--s;] *)
Fixpoint move_down (n : nat) (m : mem) (d s : Z) : mem :=
  match n with
  | O => m
  | S n' => move_down n' (st8 m (d - 1) (ld8 m (s - 1))) (d - 1) (s - 1)
  end.

Definition memmove (m : mem) (dst src n : Z) : mem :=
  if (src <? dst) && (src + n >? dst)
  then move_down (Z.to_nat n) m (dst + n) (src + n)
  else move_up (Z.to_nat n) m dst src.

Definition memcpy (m : mem) (dst src n : Z) : mem := memmove m dst src n.

Fixpoint strncmp_loop (n : nat) (p q : Z -> Z) (i : Z) : Z :=
  match n with
  | O => 0
  | S n' => if negb (p i =? 0) && (p i =? q i) then strncmp_loop n' p q (i + 1)
            else p i - q i
  end.

Definition strncmp (p q : Z -> Z) (n : Z) : Z := strncmp_loop (Z.to_nat n) p q 0.

(** The first loop of [strncpy]: the memory, [s] and [n] it leaves. *)
Fixpoint strncpy_copy (n : nat) (m : mem) (s t : Z) : mem * Z * nat :=
  match n with
  | O => (m, s, O)
  | S n' =>
      let c := ld8 m t in
      let m' := st8 m s c in
      if c =? 0 then (m', s + 1, n') else strncpy_copy n' m' (s + 1) (t + 1)
  end.

(** [while (n-- > 0) *s++ = 0;] *)
Fixpoint strncpy_pad (n : nat) (m : mem) (s : Z) : mem :=
  match n with
  | O => m
  | S n' => strncpy_pad n' (st8 m s 0) (s + 1)
  end.

Definition strncpy (m : mem) (s t n : Z) : mem :=
  let '(m', s', n') := strncpy_copy (Z.to_nat n) m s t in strncpy_pad n' m' s'.

Definition safestrcpy (m : mem) (s t n : Z) : mem :=
  if n <=? 0 then m
  else let '(m', s', _) := strncpy_copy (Z.to_nat (n - 1)) m s t in st8 m' s' 0.

Fixpoint strlen_loop (fuel : nat) (s : Z -> Z) (n : Z) : option Z :=
  match fuel with
  | O => None
  | S fuel' => if s n =? 0 then Some n else strlen_loop fuel' s (n + 1)
  end.

Definition strlen (fuel : nat) (s : Z -> Z) : option Z := strlen_loop fuel s 0.

(** ** memset *)

Lemma ld8_memset_loop k m dst c i x :
  ld8 (memset_loop k m dst c i) x =
  if decide (dst + i <= x < dst + i + Z.of_nat k) then u8 c else ld8 m x.
Proof.
  revert m i. induction k as [|k IH]; intros m i; cbn [memset_loop].
  - by rewrite decide_False by lia.
  - rewrite IH, ld8_st8. repeat case_decide; done || lia.
Qed.

Lemma ld8_memset m dst c n x :
  ld8 (memset m dst c n) x = if decide (dst <= x < dst + n) then u8 c else ld8 m x.
Proof.
  unfold memset. rewrite ld8_memset_loop. repeat case_decide; done || lia.
Qed.

(** ** memmove *)

Lemma ld8_move_up n m d s x :
  d <= s \/ s + Z.of_nat n <= d ->
  ld8 (move_up n m d s) x =
  if decide (d <= x < d + Z.of_nat n) then ld8 m (s + (x - d)) else ld8 m x.
Proof.
  revert m d s. induction n as [|n IH]; intros m d s Hov; cbn [move_up].
  - by rewrite decide_False by lia.
  - rewrite IH by lia. destruct (decide (x = d)) as [->|Hne].
    + rewrite decide_False, decide_True by lia. rewrite ld8_st8, decide_True by done.
      rewrite Z.sub_diag, Z.add_0_r. apply u8_small, ld8_range.
    + rewrite (ld8_st8_ne _ _ _ x) by done. repeat case_decide; try (done || lia).
      rewrite ld8_st8_ne by lia. f_equal. lia.
Qed.

Lemma ld8_move_down n m d s x :
  s <= d \/ d <= s - Z.of_nat n ->
  ld8 (move_down n m d s) x =
  if decide (d - Z.of_nat n <= x < d) then ld8 m (s - (d - x)) else ld8 m x.
Proof.
  revert m d s. induction n as [|n IH]; intros m d s Hov; cbn [move_down].
  - by rewrite decide_False by lia.
  - rewrite IH by lia. destruct (decide (x = d - 1)) as [->|Hne].
    + rewrite decide_False, decide_True by lia. rewrite ld8_st8, decide_True by done.
      replace (s - (d - (d - 1))) with (s - 1) by lia. apply u8_small, ld8_range.
    + rewrite (ld8_st8_ne _ _ _ x) by done. repeat case_decide; try (done || lia).
      rewrite ld8_st8_ne by lia. f_equal. lia.
Qed.

Lemma ld8_memmove m dst src n x :
  ld8 (memmove m dst src n) x =
  if decide (dst <= x < dst + n) then ld8 m (src + (x - dst)) else ld8 m x.
Proof.
  unfold memmove. destruct (decide (0 <= n)) as [Hn|Hn].
  - destruct ((src <? dst) && (src + n >? dst)) eqn:E.
    + rewrite ld8_move_down by lia. repeat case_decide; try (done || lia). f_equal. lia.
    + rewrite ld8_move_up; [repeat case_decide; done || lia |].
      apply andb_false_iff in E. lia.
  - replace (Z.to_nat n) with O by lia. cbn. rewrite decide_False by lia. by destruct (_ && _).
Qed.

(** ** Comparison *)

Lemma memcmp_loop_0 n s1 s2 i :
  memcmp_loop n s1 s2 i = 0 <-> forall j, i <= j < i + Z.of_nat n -> s1 j = s2 j.
Proof.
  revert i. induction n as [|n IH]; intros i; cbn [memcmp_loop].
  - split; [intros; lia | done].
  - destruct (Z.eqb_spec (s1 i) (s2 i)) as [He|Hne].
    + rewrite IH. split; intros H j Hj; [| apply H; lia].
      destruct (decide (j = i)) as [->|]; [done | apply H; lia].
    + split; [lia | intros H; specialize (H i); lia].
Qed.

Lemma strncmp_loop_0 n p q i :
  strncmp_loop n p q i = 0 <-> cstr_n n p i = cstr_n n q i.
Proof.
  revert i. induction n as [|n IH]; intros i; cbn [strncmp_loop cstr_n]; [done |].
  destruct (Z.eqb_spec (p i) 0) as [Hp|Hp]; destruct (Z.eqb_spec (q i) 0) as [Hq|Hq];
    destruct (Z.eqb_spec (p i) (q i)) as [He|He]; cbn; try (split; (done || lia)).
  - rewrite IH. split; [intros ->; by rewrite He | by intros [= _ ?]].
  - split; [lia | intros [= ? _]; lia].
Qed.

(** ** Copying *)

Lemma strncpy_copy_spec n m s t :
  t + Z.of_nat n <= s \/ s + Z.of_nat n <= t ->
  let '(m', s', n') := strncpy_copy n m s t in
  let l := cstr_n n (view m t) 0 in
  s' + Z.of_nat n' = s + Z.of_nat n /\ (length l <= n)%nat /\
  (if decide (length l = n) then s' = s + Z.of_nat n
   else s' = s + Z.of_nat (length l) + 1) /\
  (forall x, ld8 m' x =
    if decide (s <= x < s') then lview l (x - s) else ld8 m x).
Proof.
  assert (forall k v w a b, (forall j, v (a + j) = w (b + j)) ->
    cstr_n k v a = cstr_n k w b) as Hshift.
  { induction k as [|k IHk]; intros v w a b H; cbn [cstr_n]; [done |].
    pose proof (H 0) as H0. rewrite !Z.add_0_r in H0. rewrite H0.
    destruct (w b =? 0); [done | f_equal]. apply IHk. intros j.
    replace (a + 1 + j) with (a + (1 + j)) by lia.
    replace (b + 1 + j) with (b + (1 + j)) by lia. apply H. }
  assert (forall k (v w : Z -> Z) a, (forall j, a <= j < a + Z.of_nat k -> v j = w j) ->
    cstr_n k v a = cstr_n k w a) as Hext.
  { induction k as [|k IHk]; intros v w a H; cbn [cstr_n]; [done |].
    rewrite (H a) by lia. destruct (w a =? 0); [done | f_equal]. apply IHk.
    intros; apply H; lia. }
  revert m s t. induction n as [|n IH]; intros m s t Hd; cbn [strncpy_copy cstr_n].
  - cbn. split_and!; try lia; [case_decide; lia |].
    intros x. by rewrite decide_False by lia.
  - assert (view m t 0 = ld8 m t) as Hv by (unfold view; f_equal; lia). rewrite Hv.
    destruct (Z.eqb_spec (ld8 m t) 0) as [Hz|Hz].
    + cbn [length]. split_and!; try lia; [case_decide; lia |].
      intros x. rewrite ld8_st8. repeat case_decide; try (done || lia).
      rewrite Hz. unfold lview. by rewrite lookup_nil.
    + specialize (IH (st8 m s (ld8 m t)) (s + 1) (t + 1) ltac:(lia)).
      destruct (strncpy_copy n (st8 m s (ld8 m t)) (s + 1) (t + 1)) as [[m' s'] n'].
      assert (cstr_n n (view (st8 m s (ld8 m t)) (t + 1)) 0 = cstr_n n (view m t) (0 + 1)) as Hl.
      { rewrite (Hext _ _ (view m (t + 1))).
        - apply Hshift. intros j. unfold view. f_equal. lia.
        - intros j Hj. unfold view. apply ld8_st8_ne. lia. }
      rewrite Hl in IH. destruct IH as (H1 & H2 & H3 & H4).
      remember (cstr_n n (view m t) (0 + 1)) as l eqn:El.
      cbn [length]. split_and!; try lia; [repeat case_decide; lia |].
      intros x. rewrite H4, ld8_st8.
      assert (s + 1 <= s') by (case_decide; lia).
      destruct (decide (x = s)) as [->|Hne].
      * rewrite (decide_True (P := s <= s < s')) by lia.
        rewrite decide_False by lia. unfold lview. rewrite Z.sub_diag. cbn.
        apply u8_small, ld8_range.
      * clear H3. repeat case_decide; try (done || lia). unfold lview.
        replace (Z.to_nat (x - s)) with (S (Z.to_nat (x - (s + 1)))) by lia. done.
Qed.

Lemma ld8_strncpy_pad n m s x :
  ld8 (strncpy_pad n m s) x = if decide (s <= x < s + Z.of_nat n) then 0 else ld8 m x.
Proof.
  revert m s. induction n as [|n IH]; intros m s; cbn [strncpy_pad].
  - by rewrite decide_False by lia.
  - rewrite IH, ld8_st8. repeat case_decide; done || lia.
Qed.

(** [strncpy] leaves the source string, cut at [n] bytes and padded with NUL,
    in the [n] bytes at [s], and touches nothing else. *)
Lemma ld8_strncpy m s t n x :
  0 <= n -> t + n <= s \/ s + n <= t ->
  ld8 (strncpy m s t n) x =
  if decide (s <= x < s + n) then lview (cstr_n (Z.to_nat n) (view m t) 0) (x - s)
  else ld8 m x.
Proof.
  intros Hn Hd. unfold strncpy.
  pose proof (strncpy_copy_spec (Z.to_nat n) m s t ltac:(lia)) as H.
  destruct (strncpy_copy (Z.to_nat n) m s t) as [[m' s'] n'].
  destruct H as (H1 & H2 & H3 & H4). rewrite ld8_strncpy_pad, H4.
  set (l := cstr_n _ _ _) in *.
  assert (forall y, (length l <= Z.to_nat (y - s))%nat -> lview l (y - s) = 0) as Hover.
  { intros y Hy. unfold lview. by rewrite lookup_ge_None_2. }
  repeat case_decide; try (done || lia); by rewrite Hover by lia.
Qed.

(** [safestrcpy] writes only inside the [n] bytes at [s] and leaves a
    NUL-terminated string there: the source cut at [n - 1] bytes. *)
Lemma safestrcpy_spec m s t n :
  0 < n -> t + n <= s \/ s + n <= t ->
  let m' := safestrcpy m s t n in
  let l := cstr_n (Z.to_nat (n - 1)) (view m t) 0 in
  (forall x, x < s \/ s + n <= x -> ld8 m' x = ld8 m x) /\
  Z.of_nat (length l) < n /\
  (forall i, 0 <= i < Z.of_nat (length l) -> ld8 m' (s + i) = lview l i) /\
  ld8 m' (s + Z.of_nat (length l)) = 0.
Proof.
  intros Hn Hd. unfold safestrcpy. destruct (Z.leb_spec n 0); [lia |].
  pose proof (strncpy_copy_spec (Z.to_nat (n - 1)) m s t ltac:(lia)) as HS.
  destruct (strncpy_copy (Z.to_nat (n - 1)) m s t) as [[m' s'] n'].
  cbv zeta in HS |- *. set (l := cstr_n _ _ _) in *. destruct HS as (H1 & H2 & H3 & H4).
  assert (s <= s' < s + n /\ s + Z.of_nat (length l) <= s') by (case_decide; lia).
  split_and!; [| lia | |].
  - intros x Hx. rewrite ld8_st8, H4. clear H3. repeat case_decide; done || lia.
  - intros i Hi. rewrite ld8_st8, H4. rewrite (decide_False (P := s + i = s')) by lia.
    rewrite decide_True by lia. f_equal. lia.
  - rewrite ld8_st8, H4. clear H3. case_decide; [done |]. rewrite decide_True by lia.
    unfold lview. rewrite lookup_ge_None_2; [done | lia].
Qed.

(** ** strlen *)

Lemma strlen_loop_spec fuel s n k :
  n <= k -> (Z.to_nat (k - n) < fuel)%nat ->
  (forall i, n <= i < k -> s i <> 0) -> s k = 0 -> strlen_loop fuel s n = Some k.
Proof.
  revert n. induction fuel as [|f IH]; intros n Hnk Hf Hnz Hz; cbn [strlen_loop]; [lia |].
  destruct (decide (n = k)) as [->|Hne]; [by rewrite Hz |].
  destruct (Z.eqb_spec (s n) 0) as [E|]; [by destruct (Hnz n ltac:(lia)) |].
  apply IH; [lia | lia | | done]. intros; apply Hnz; lia.
Qed.

Lemma strlen_spec fuel s k :
  0 <= k -> (Z.to_nat k < fuel)%nat ->
  (forall i, 0 <= i < k -> s i <> 0) -> s k = 0 -> strlen fuel s = Some k.
Proof. intros. apply strlen_loop_spec; try done; lia. Qed.

End KString.

(** Page-sized fills are never unfolded by unification. *)
#[global] Opaque KString.memset KString.memmove.

(** ** Strings *)

Lemma cstr_n_nonzero n p i : Forall (.≠ 0) (cstr_n n p i).
Proof.
  revert i. induction n as [|n IH]; intros i; cbn [cstr_n]; [constructor |].
  destruct (Z.eqb_spec (p i) 0); constructor; auto.
Qed.

(** A view that shows [l] and then a NUL is the string [l]. *)
Lemma cstr_n_eq n p l :
  (length l < n)%nat -> (forall i, (i < length l)%nat -> p (Z.of_nat i) = default 0 (l !! i)) ->
  Forall (.≠ 0) l -> p (Z.of_nat (length l)) = 0 -> cstr_n n p 0 = l.
Proof.
  intros Hn Hp Hz H0.
  assert (forall k i, (i + k = length l)%nat -> forall n', (k < n')%nat ->
    cstr_n n' p (Z.of_nat i) = drop i l) as H; [| apply (H (length l) 0%nat); lia].
  induction k as [|k IH]; intros i Hi n' Hn'; (destruct n' as [|n']; [lia |]); cbn [cstr_n].
  - replace i with (length l) by lia. rewrite H0, drop_all. done.
  - destruct (lookup_lt_is_Some_2 l i) as [b Hb]; [lia |]. rewrite Hp, Hb by lia. cbn.
    rewrite Forall_lookup in Hz. rewrite (proj2 (Z.eqb_neq b 0) (Hz i b Hb)).
    replace (Z.of_nat i + 1) with (Z.of_nat (S i)) by lia. rewrite IH by lia. by rewrite <- (drop_S l b i).
Qed.

(** ** Properties *)

(** [memmove] leaves at [dst] the [n] bytes that were at [src], whether or
    not the two ranges overlap, and changes no other byte. *)
Theorem memmove_correct (m : mem) (dst src n : Z) :
  bytes (KString.memmove m dst src n) dst (Z.to_nat n) = bytes m src (Z.to_nat n) /\
  forall x, ~ (dst <= x < dst + n) -> ld8 (KString.memmove m dst src n) x = ld8 m x.
Proof.
  split.
  - apply list_eq. intros i. destruct (decide (i < Z.to_nat n)%nat) as [Hi|Hi].
    + rewrite !lookup_bytes by done. rewrite KString.ld8_memmove, decide_True by lia.
      do 2 f_equal. lia.
    + rewrite !lookup_ge_None_2; [done | rewrite length_bytes; lia..].
  - intros x Hx. by rewrite KString.ld8_memmove, decide_False.
Qed.

(** [safestrcpy] with room for [n] bytes writes only those, and leaves a
    NUL-terminated string there: the source string cut at [n - 1] bytes. *)
Theorem safestrcpy_correct (m : mem) (s t n : Z) :
  0 < n -> t + n <= s \/ s + n <= t ->
  let m' := KString.safestrcpy m s t n in
  cstr_n (Z.to_nat n) (view m' s) 0 = cstr_n (Z.to_nat (n - 1)) (view m t) 0 /\
  (exists i, 0 <= i < n /\ ld8 m' (s + i) = 0) /\
  forall x, ~ (s <= x < s + n) -> ld8 m' x = ld8 m x.
Proof.
  intros Hn Hd m'. destruct (KString.safestrcpy_spec m s t n Hn Hd) as (Ho & Hl & Hc & H0).
  fold m' in Ho, Hc, H0. set (l := cstr_n (Z.to_nat (n - 1)) (view m t) 0) in *.
  split_and!; [| exists (Z.of_nat (length l)); split; [lia | done] | intros x Hx; apply Ho; lia].
  apply cstr_n_eq; [lia | | | done].
  - intros i Hi. unfold view. rewrite Hc by lia. unfold lview. by rewrite Nat2Z.id.
  - subst l. apply cstr_n_nonzero.
Qed.

Lemma safestrcpy_witness :
  let m := st_bytes ∅ 100 [104; 101; 108; 108; 111; 0] in
  cstr_n 4 (view (KString.safestrcpy m 200 100 4) 200) 0 = [104; 101; 108].
Proof.
  intros m. destruct (safestrcpy_correct m 200 100 4) as (H & _); [lia | lia |].
  etransitivity; [exact H |]. vm_compute. reflexivity.
Defined.
