(* ===== verification/Kalloc.v ===== *)
(** * kernel/kalloc.c: the physical page allocator

    The allocator's state is physical memory and [kmem.freelist]; the free
    list is threaded through the free pages themselves ([struct run]), as in
    the source.  [kend] is the linker symbol [end], the first address after
    the kernel.  A section protected by [kmem.lock] is one atomic step. *)

From S2P Require Import Prelude Riscv Mem KString.

Record kmem := Kmem { k_mem : mem; k_freelist : Z }.

Definition set_k_mem (f : mem -> mem) (s : kmem) : kmem :=
  Kmem (f (k_mem s)) (k_freelist s).

(** The bytes of page [p]. *)
Definition in_page (p x : Z) : Prop := p <= x < p + PGSIZE.

Section kalloc.
Context (kend : Z).

Definition kfree (pa : Z) : M kmem unit := fun s =>
  if negb (pa mod PGSIZE =? 0) || (pa <? kend) || (pa >=? PHYSTOP) then Panic "kfree"
  else
    let m := KString.memset (k_mem s) pa 1 PGSIZE in
    Ok tt (Kmem (st64 m pa (k_freelist s)) pa).

Definition kalloc : M kmem Z := fun s =>
  let r := k_freelist s in
  let fl := if negb (r =? 0) then ld64 (k_mem s) r else r in
  let m := if negb (r =? 0) then KString.memset (k_mem s) r 5 PGSIZE else k_mem s in
  Ok r (Kmem m fl).

Fixpoint freerange_loop (fuel : nat) (p pa_end : Z) : M kmem unit :=
  if p + PGSIZE <=? pa_end then
    match fuel with
    | O => out_of_fuel
    | S fuel' => kfree p ;;; freerange_loop fuel' (p + PGSIZE) pa_end
    end
  else ret tt.

(** The loop runs at most [(pa_end - p) / PGSIZE] times. *)
Definition freerange (pa_start pa_end : Z) : M kmem unit :=
  let p := PGROUNDUP pa_start in
  freerange_loop (Z.to_nat ((pa_end - p) / PGSIZE)) p pa_end.

Definition kinit : M kmem unit := freerange kend PHYSTOP.

(** ** The free-list invariant *)

Fixpoint chain (m : mem) (p : Z) (l : list Z) : Prop :=
  match l with
  | [] => p = 0
  | q :: l' => p = q /\ chain m (ld64 m q) l'
  end.

Definition page_ok (p : Z) : Prop := p mod PGSIZE = 0 /\ kend <= p < PHYSTOP.

#[export] Instance page_ok_dec p : Decision (page_ok p).
Proof. apply _. Defined.

(** [l] is the free list, most recently freed page first. *)
Record kmem_inv (s : kmem) (l : list Z) : Prop := KmemInv {
  ki_chain : chain (k_mem s) (k_freelist s) l;
  ki_nodup : NoDup l;
  ki_ok : Forall page_ok l;
}.

(** [kend] lies in the RAM the kernel is loaded in. *)
Context (kend_ram : KERNBASE <= kend).

Lemma page_ok_pos p : page_ok p -> 0 < p.
Proof. intros [_ ?]. klia. Qed.

Lemma page_ok_range p : page_ok p -> KERNBASE <= p < PHYSTOP /\ p mod PGSIZE = 0.
Proof. intros [? ?]. split; [lia | done]. Qed.

(** Distinct pages do not overlap. *)
Lemma pages_disjoint p q x :
  p mod PGSIZE = 0 -> q mod PGSIZE = 0 -> p <> q -> in_page p x -> ~ in_page q x.
Proof.
  unfold in_page, PGSIZE. intros Hp Hq Hne H1 H2. apply Hne.
  Z.div_mod_to_equations. lia.
Qed.

(** The chain only depends on the first 8 bytes of the pages in it. *)
Lemma chain_frame m m' p l :
  (forall q, q ∈ l -> ld64 m' q = ld64 m q) -> chain m p l -> chain m' p l.
Proof.
  revert p. induction l as [|q l IH]; intros p Hf; cbn [chain]; [done |].
  intros [-> Hc]. split; [done |]. rewrite Hf by set_solver.
  apply IH; [set_solver | done].
Qed.

Lemma ld64_in_page m m' p :
  (forall x, in_page p x -> ld8 m' x = ld8 m x) -> ld64 m' p = ld64 m p.
Proof. intros H. apply ld64_ext. intros x Hx. apply H. unfold in_page. klia. Qed.

(** Writing outside the free pages keeps the invariant. *)
Lemma kmem_inv_frame s m' l :
  kmem_inv s l ->
  (forall p x, p ∈ l -> in_page p x -> ld8 m' x = ld8 (k_mem s) x) ->
  kmem_inv (Kmem m' (k_freelist s)) l.
Proof.
  intros [Hc Hn Ho] Hf. split; cbn; [| done | done].
  eapply chain_frame; [| done]. intros q Hq. apply ld64_in_page. eauto.
Qed.

Lemma kfree_eq pa s :
  page_ok pa ->
  kfree pa s =
  Ok tt (Kmem (st64 (KString.memset (k_mem s) pa 1 PGSIZE) pa (k_freelist s)) pa).
Proof.
  intros [Hal Hr]. unfold kfree. rewrite Hal. cbn [Z.eqb negb orb].
  destruct (Z.ltb_spec pa kend); [lia |]. rewrite Z.geb_leb.
  destruct (Z.leb_spec PHYSTOP pa); [lia | done].
Qed.

Lemma kfree_spec pa s l :
  kmem_inv s l -> page_ok pa -> pa ∉ l ->
  exists s', kfree pa s = Ok tt s' /\ kmem_inv s' (pa :: l) /\
    forall x, ~ in_page pa x -> ld8 (k_mem s') x = ld8 (k_mem s) x.
Proof.
  intros [Hc Hn Ho] Hpa Hnin. eexists. rewrite kfree_eq by done.
  split; [reflexivity |]. cbn [k_mem k_freelist].
  assert (forall x, ~ in_page pa x ->
    ld8 (st64 (KString.memset (k_mem s) pa 1 PGSIZE) pa (k_freelist s)) x = ld8 (k_mem s) x) as Hout.
  { intros x Hx. unfold in_page in Hx. rewrite ld8_st64_ne by klia.
    rewrite KString.ld8_memset, decide_False; [done | lia]. }
  split; [| exact Hout]. split; cbn [k_mem k_freelist]; [| by constructor | by constructor].
  split; [done |]. rewrite ld64_st64_eq.
  - eapply chain_frame; [| done]. intros q Hq. apply ld64_in_page. intros x Hx. apply Hout.
    rewrite Forall_forall in Ho. apply (pages_disjoint q pa); [| apply Hpa | congruence | done].
    exact (proj1 (Ho q Hq)).
  - destruct l as [|q l]; cbn in Hc; [lia |]. destruct Hc as [-> _].
    apply Forall_cons in Ho as [[_ ?] _]. klia.
Qed.

Lemma kfree_panics pa s : ~ page_ok pa -> kfree pa s = Panic "kfree".
Proof.
  unfold kfree, page_ok. intros H. rewrite Z.geb_leb.
  destruct (Z.eqb_spec (pa mod PGSIZE) 0); cbn [negb orb]; [| done].
  destruct (Z.ltb_spec pa kend); cbn [orb]; [done |].
  destruct (Z.leb_spec PHYSTOP pa); [done |]. by destruct H.
Qed.

(** [kalloc] hands out the head of the free list, filled with junk, or 0. *)
Lemma kalloc_spec s l :
  kmem_inv s l ->
  match l with
  | [] => kalloc s = Ok 0 s
  | p :: l' =>
      exists s', kalloc s = Ok p s' /\ kmem_inv s' l' /\ p <> 0 /\
        (forall x, in_page p x -> ld8 (k_mem s') x = 5) /\
        (forall x, ~ in_page p x -> ld8 (k_mem s') x = ld8 (k_mem s) x)
  end.
Proof.
  intros [Hc Hn Ho]. destruct l as [|p l]; unfold kalloc; cbn in Hc.
  - rewrite Hc. cbn. f_equal. destruct s; cbn in *; congruence.
  - destruct Hc as [Hp Hc]. rewrite Hp. apply Forall_cons in Ho as [Hpo Ho].
    apply NoDup_cons in Hn as [Hnin Hn].
    pose proof (page_ok_pos _ Hpo). destruct (Z.eqb_spec p 0) as [|_]; [lia |].
    cbn [negb]. eexists. split; [reflexivity |]. cbn [k_mem k_freelist].
    assert (forall x, ~ in_page p x ->
      ld8 (KString.memset (k_mem s) p 5 PGSIZE) x = ld8 (k_mem s) x) as Hout.
    { intros x Hx. rewrite KString.ld8_memset, decide_False; [done | exact Hx]. }
    split_and!; [| lia | | exact Hout].
    + split; cbn [k_mem k_freelist]; [| done | done].
      eapply chain_frame; [| done]. intros q Hq. apply ld64_in_page. intros x Hx. apply Hout.
      rewrite Forall_forall in Ho. apply (pages_disjoint q p); [| apply Hpo | congruence | done].
      exact (proj1 (Ho q Hq)).
    + intros x Hx. by rewrite KString.ld8_memset, decide_True.
Qed.

(** ** freerange *)

(** The pages [p, p + PGSIZE, ...], [n] of them. *)
Fixpoint pages (p : Z) (n : nat) : list Z :=
  match n with
  | O => []
  | S n' => p :: pages (p + PGSIZE) n'
  end.

Lemma elem_of_pages p n q :
  q ∈ pages p n <-> exists i : Z, 0 <= i < Z.of_nat n /\ q = p + i * PGSIZE.
Proof.
  revert p. induction n as [|n IH]; intros p; cbn [pages].
  - split; [by intros ?%not_elem_of_nil | intros (i & ? & _); lia].
  - rewrite elem_of_cons, IH. split.
    + intros [-> | (i & ? & ->)]; [exists 0; lia | exists (i + 1); lia].
    + intros (i & ? & ->). destruct (decide (i = 0)) as [->|]; [left; lia | right].
      exists (i - 1). lia.
Qed.

Lemma freerange_loop_spec n p pa_end s l :
  kmem_inv s l ->
  p + Z.of_nat n * PGSIZE <= pa_end < p + Z.of_nat n * PGSIZE + PGSIZE ->
  p mod PGSIZE = 0 -> kend <= p -> pa_end <= PHYSTOP ->
  (forall q, q ∈ pages p n -> q ∉ l) ->
  exists s', freerange_loop n p pa_end s = Ok tt s' /\
    kmem_inv s' (rev (pages p n) ++ l) /\
    forall x, ~ (p <= x < p + Z.of_nat n * PGSIZE) -> ld8 (k_mem s') x = ld8 (k_mem s) x.
Proof.
  revert p s l. induction n as [|n IH]; intros p s l Hinv Hb Hal Hp He Hd; cbn [freerange_loop pages].
  - destruct (Z.leb_spec (p + PGSIZE) pa_end); [lia |]. exists s. cbn. by split_and!.
  - destruct (Z.leb_spec (p + PGSIZE) pa_end); [| klia].
    destruct (kfree_spec p s l) as (s1 & H1 & Hinv1 & Hf1); [done | split; [done | klia] |
      apply Hd; cbn; set_solver |].
    destruct (IH (p + PGSIZE) s1 (p :: l)) as (s2 & H2 & Hinv2 & Hf2); [done | klia | | klia | done | |].
    { unfold PGSIZE in *. rewrite Z.add_mod, Hal by lia. done. }
    { intros q Hq [->|Hl]%elem_of_cons.
      - apply elem_of_pages in Hq as (i & ? & ?). klia.
      - apply (Hd q); [cbn; set_solver | done]. }
    exists s2. unfold bind. rewrite H1, H2. split_and!; [done | |].
    + cbn [rev]. by rewrite <- (assoc_L (++)).
    + intros x Hx. rewrite Hf2, Hf1; [done | unfold in_page; klia | klia].
Qed.

Lemma freerange_spec pa_start pa_end s l :
  let p := PGROUNDUP pa_start in
  let n := Z.to_nat ((pa_end - p) / PGSIZE) in
  kmem_inv s l -> kend <= pa_start <= pa_end -> PGROUNDUP pa_start <= pa_end <= PHYSTOP ->
  (forall q, q ∈ pages p n -> q ∉ l) ->
  exists s', freerange pa_start pa_end s = Ok tt s' /\ kmem_inv s' (rev (pages p n) ++ l) /\
    forall x, ~ (p <= x < p + Z.of_nat n * PGSIZE) -> ld8 (k_mem s') x = ld8 (k_mem s) x.
Proof.
  intros p n Hinv Hs He Hd.
  assert (0 <= pa_start <= 2 ^ 64 - PGSIZE) as Hr by klia.
  apply freerange_loop_spec; [done | | by apply PGROUNDUP_aligned | | lia | done].
  - assert (0 <= (pa_end - p) / PGSIZE) by (apply Z.div_pos; klia).
    subst n. rewrite Z2Nat.id by done. unfold p, PGSIZE in *. Z.div_mod_to_equations. lia.
  - pose proof (PGROUNDUP_bounds pa_start Hr). lia.
Qed.

End kalloc.

(** ** A concrete pool of pages *)

(** Page [i] of RAM, and a memory in which the pages of [l] are linked. *)
Definition page_at (i : Z) : Z := KERNBASE + i * PGSIZE.

Fixpoint link (l : list Z) : mem :=
  match l with
  | p :: (q :: _) as l' => st64 (link l') p q
  | _ => ∅
  end.

Definition pool (l : list Z) : kmem := Kmem (link l) (hd 0 l).

Definition pool6 : list Z := map page_at [1; 2; 3; 4; 5; 6].

Lemma pool6_inv : kmem_inv KERNBASE (pool pool6) pool6.
Proof. split; [vm_compute; tauto | by apply (bool_decide_unpack _) | by apply (bool_decide_unpack _)]. Qed.

(** ** Properties *)

(** starting from an empty free list, [kinit] puts every page from the
    end of the kernel up to [PHYSTOP] on the free list, each exactly once. *)
Theorem kinit_correct (kend : Z) (m : mem) :
  KERNBASE <= kend -> kend + PGSIZE <= PHYSTOP ->
  exists s' l, kinit kend (Kmem m 0) = Ok tt s' /\ kmem_inv kend s' l /\
    forall p, p ∈ l <-> page_ok kend p.
Proof.
  intros Hk Hp. pose proof (PGROUNDUP_bounds kend ltac:(klia)) as Hb.
  pose proof (PGROUNDUP_aligned kend ltac:(klia)) as Ha.
  destruct (freerange_spec kend Hk kend PHYSTOP (Kmem m 0) []) as (s' & Hr & Hi & _);
    [split; [done | constructor | constructor] | klia | klia | intros q _; apply not_elem_of_nil |].
  eexists s', _. split_and!; [exact Hr | exact Hi |]. intros p.
  rewrite app_nil_r, list_elem_of_In, <- in_rev, <- list_elem_of_In, elem_of_pages. unfold page_ok. split.
  - intros (i & Hi' & ->). unfold PGSIZE, PHYSTOP, KERNBASE in *. Z.div_mod_to_equations. lia.
  - intros [Hpa Hpr]. exists ((p - PGROUNDUP kend) / PGSIZE).
    unfold PGSIZE, PHYSTOP, KERNBASE in *. Z.div_mod_to_equations. lia.
Qed.

Lemma kinit_witness :
  exists s' l, kinit (PHYSTOP - 3 * PGSIZE) (Kmem ∅ 0) = Ok tt s' /\
    kmem_inv (PHYSTOP - 3 * PGSIZE) s' l /\ forall p, p ∈ l <-> page_ok (PHYSTOP - 3 * PGSIZE) p.
Proof. apply kinit_correct; klia. Defined.

(** C33: [kfree] accepts exactly the page-aligned addresses between the end
    of the kernel and [PHYSTOP]; a page it accepts is the next one [kalloc]
    returns, no free page is handed out twice, and no byte outside the page
    changes. *)
Theorem kfree_kalloc (kend pa : Z) (s : kmem) (l : list Z) :
  KERNBASE <= kend -> kmem_inv kend s l -> pa ∉ l ->
  if decide (page_ok kend pa) then
    exists s1 s2, kfree kend pa s = Ok tt s1 /\ kmem_inv kend s1 (pa :: l) /\
      kalloc s1 = Ok pa s2 /\ kmem_inv kend s2 l /\
      forall x, ~ in_page pa x -> ld8 (k_mem s2) x = ld8 (k_mem s) x
  else kfree kend pa s = Panic "kfree".
Proof.
  intros Hk Hi Hpa. case_decide as Hok; [| by apply kfree_panics].
  destruct (kfree_spec kend Hk pa s l Hi Hok Hpa) as (s1 & H1 & Hi1 & Hf1).
  destruct (kalloc_spec kend Hk s1 (pa :: l) Hi1) as (s2 & H2 & Hi2 & _ & _ & Hf2).
  exists s1, s2. split_and!; [done.. |]. intros x Hx. by rewrite Hf2, Hf1.
Qed.

Lemma kfree_kalloc_witness :
  exists s1 s2, kfree KERNBASE (page_at 9) (pool pool6) = Ok tt s1 /\
    kmem_inv KERNBASE s1 (page_at 9 :: pool6) /\ kalloc s1 = Ok (page_at 9) s2 /\
    kmem_inv KERNBASE s2 pool6 /\
    forall x, ~ in_page (page_at 9) x -> ld8 (k_mem s2) x = ld8 (k_mem (pool pool6)) x.
Proof.
  pose proof (kfree_kalloc KERNBASE (page_at 9) (pool pool6) pool6 ltac:(klia) pool6_inv) as H.
  rewrite decide_True in H by by apply (bool_decide_unpack _).
  apply H. by apply (bool_decide_unpack _).
Defined.

#[global] Opaque kfree kalloc freerange.
