(* ===== verification/Vm.v ===== *)
(** * kernel/vm.c, part 1: page tables

    Sv39 page tables in physical memory: [walk], [walkaddr], [mappages] and
    the kernel's own mappings.  The state is the page allocator's: memory and
    free list.  [node] follows a walk as a pure function of memory, and
    [translate] is the leaf entry it ends in (0 when there is none): the
    finite map a page table stands for.  [pt_inv] says that the three levels
    form a tree of allocated pages, and every operation keeps it. *)

From S2P Require Import Prelude Riscv Mem KString Kalloc.

(** [*pte & PTE_V] *)
Definition pte_valid (pte : Z) : bool := negb (Z.land pte PTE_V =? 0).

Lemma pte_valid_odd v : pte_valid v = Z.odd v.
Proof.
  unfold pte_valid. change PTE_V with (2 ^ 1 - 1). rewrite land_mask by lia. change (2 ^ 1) with 2.
  rewrite Zmod_odd. by destruct (Z.odd v).
Qed.

(** The valid bit is among the flags. *)
Lemma PTE_FLAGS_V v : pte_valid v = true -> Z.lor (PTE_FLAGS v) PTE_V = PTE_FLAGS v.
Proof.
  rewrite pte_valid_odd. intros Hv. apply Z.bits_inj'. intros n Hn. rewrite Z.lor_spec, PTE_V_eq.
  destruct (decide (n = 0)) as [->|Hne].
  - unfold PTE_FLAGS. by rewrite Z.land_spec, !Z.bit0_odd, Hv.
  - replace (Z.testbit 1 n) with false; [by rewrite orb_false_r |].
    symmetry. change 1 with (2 ^ 0). apply Z.pow2_bits_false. lia.
Qed.

Definition load64 (a : Z) : M kmem Z := gets (fun s => ld64 (k_mem s) a).
Definition store64 (a v : Z) : M kmem unit := modify (set_k_mem (fun m => st64 m a v)).
Definition kmemset (a c n : Z) : M kmem unit :=
  modify (set_k_mem (fun m => KString.memset m a c n)).

(** The loop of [walk], [level] down to 1; then [&pagetable[PX(0, va)]]. *)
Fixpoint walk_loop (level : nat) (pagetable va : Z) (alloc : bool) : M kmem Z :=
  match level with
  | O => ret (pagetable + 8 * PX 0 va)
  | S level' =>
      let pte := pagetable + 8 * PX (Z.of_nat level) va in
      let! v := load64 pte in
      if pte_valid v then walk_loop level' (PTE2PA v) va alloc
      else if negb alloc then ret 0
      else
        let! page := kalloc in
        if page =? 0 then ret 0
        else
          kmemset page 0 PGSIZE ;;;
          store64 pte (Z.lor (PA2PTE page) PTE_V) ;;;
          walk_loop level' page va alloc
  end.

(** A null return is 0. *)
Definition walk (pagetable va : Z) (alloc : bool) : M kmem Z :=
  if va >=? MAXVA then panic "walk" else walk_loop 2 pagetable va alloc.

Definition walkaddr (pagetable va : Z) : M kmem Z :=
  if va >=? MAXVA then ret 0
  else
    let! pte := walk pagetable va false in
    if pte =? 0 then ret 0
    else
      let! v := load64 pte in
      if Z.land v PTE_V =? 0 then ret 0
      else if Z.land v PTE_U =? 0 then ret 0
      else ret (PTE2PA v).

Fixpoint mappages_loop (fuel : nat) (pagetable a last pa perm : Z) : M kmem Z :=
  match fuel with
  | O => out_of_fuel
  | S fuel' =>
      let! pte := walk pagetable a true in
      if pte =? 0 then ret (-1)
      else
        let! v := load64 pte in
        if pte_valid v then panic "remap"
        else
          store64 pte (Z.lor (Z.lor (PA2PTE pa) perm) PTE_V) ;;;
          if a =? last then ret 0
          else mappages_loop fuel' pagetable (u64 (a + PGSIZE)) last (u64 (pa + PGSIZE)) perm
  end.

(** The loop ends at [last]; when [last] is below the start (a size of 0 at
    an aligned address), it runs into [walk]'s panic at [MAXVA]. *)
Definition mappages (pagetable va size pa perm : Z) : M kmem Z :=
  let a := PGROUNDDOWN va in
  let last := PGROUNDDOWN (u64 (va + size - 1)) in
  let stop := if a <=? last then last else MAXVA in
  mappages_loop (S (Z.to_nat ((stop - a) / PGSIZE))) pagetable a last pa perm.

(** [kernel_pagetable] is an argument of the functions that use it. *)
Definition kvmmap (kernel_pagetable va pa sz perm : Z) : M kmem unit :=
  let! r := mappages kernel_pagetable va sz pa perm in
  if negb (r =? 0) then panic "kvmmap" else ret tt.

Definition kvmpa (kernel_pagetable va : Z) : M kmem Z :=
  let off := va mod PGSIZE in
  let! pte := walk kernel_pagetable va false in
  if pte =? 0 then panic "kvmpa"
  else
    let! v := load64 pte in
    if Z.land v PTE_V =? 0 then panic "kvmpa"
    else ret (u64 (PTE2PA v + off)).

(** [etext] and [trampoline] are linker symbols; the result is the value
    stored in [kernel_pagetable]. *)
Definition kvminit (etext trampoline : Z) : M kmem Z :=
  let! kpt := kalloc in
  kmemset kpt 0 PGSIZE ;;;
  kvmmap kpt UART0 UART0 PGSIZE (Z.lor PTE_R PTE_W) ;;;
  kvmmap kpt VIRTIO0 VIRTIO0 PGSIZE (Z.lor PTE_R PTE_W) ;;;
  kvmmap kpt CLINT CLINT 0x10000 (Z.lor PTE_R PTE_W) ;;;
  kvmmap kpt PLIC PLIC 0x400000 (Z.lor PTE_R PTE_W) ;;;
  kvmmap kpt KERNBASE KERNBASE (etext - KERNBASE) (Z.lor PTE_R PTE_X) ;;;
  kvmmap kpt etext etext (PHYSTOP - etext) (Z.lor PTE_R PTE_W) ;;;
  kvmmap kpt TRAMPOLINE trampoline PGSIZE (Z.lor PTE_R PTE_X) ;;;
  ret kpt.

(** ** The tree a page table stands for *)

(** The index used at depth [k] (0 is the root, 2 the leaves). *)
Definition idx (k : nat) (va : Z) : Z := PX (2 - Z.of_nat k) va.

(** The page-table page at depth [k] on the walk for [va]. *)
Fixpoint node (k : nat) (m : mem) (pt va : Z) : option Z :=
  match k with
  | O => Some pt
  | S k' =>
      match node k' m pt va with
      | Some p =>
          let v := ld64 m (p + 8 * idx k' va) in
          if pte_valid v then Some (PTE2PA v) else None
      | None => None
      end
  end.

(** The leaf entry for [va], 0 when the walk stops early. *)
Definition translate (m : mem) (pt va : Z) : Z :=
  match node 2 m pt va with
  | Some p => ld64 m (p + 8 * idx 2 va)
  | None => 0
  end.

(** [va] and [va'] take the same first [k] branches. *)
Definition same_prefix (k : nat) (va va' : Z) : Prop :=
  forall j, (j < k)%nat -> idx j va = idx j va'.

#[export] Instance same_prefix_dec k va va' : Decision (same_prefix k va va').
Proof.
  refine (cast_if (decide (Forall (fun j => idx j va = idx j va') (seq 0 k))));
    unfold same_prefix.
  - intros j Hj. rewrite Forall_forall in f. apply f, elem_of_seq. lia.
  - intros H. apply n, Forall_forall. intros j Hj%elem_of_seq. apply H. lia.
Defined.

Definition is_node (m : mem) (pt p : Z) : Prop :=
  exists k va, (k <= 2)%nat /\ node k m pt va = Some p.

Section vm.
Context (kend : Z).

(** The nodes are allocated pages, no page occurs twice in the tree, and the
    entries above the leaves carry no permissions.  The upper half of the
    root, which no address below [MAXVA] reaches, is empty. *)
Record pt_inv (m : mem) (pt : Z) (l : list Z) : Prop := PtInv {
  pi_ok : forall p, is_node m pt p -> page_ok kend p;
  pi_used : forall p, is_node m pt p -> p ∉ l;
  pi_tree : forall k k' va va' p, (k <= 2)%nat -> (k' <= 2)%nat ->
    node k m pt va = Some p -> node k' m pt va' = Some p ->
    k = k' /\ same_prefix k va va';
  pi_interior : forall k va p, (k <= 1)%nat -> node k m pt va = Some p ->
    let v := ld64 m (p + 8 * idx k va) in
    pte_valid v = true -> Z.land v (Z.lor (Z.lor PTE_R PTE_W) PTE_X) = 0;
  pi_high : forall i, 256 <= i < 512 -> pte_valid (ld64 m (pt + 8 * i)) = false;
}.

(** What an operation on [pt] may do: take pages off the free list, add them
    to the tree, and write inside the tree. *)
Record pt_ext (pt : Z) (m : mem) (l : list Z) (m' : mem) (l' : list Z) : Prop := PtExt {
  pe_suffix : exists used, l = used ++ l';
  pe_mono : forall k va p, (k <= 2)%nat -> node k m pt va = Some p -> node k m' pt va = Some p;
  pe_pages : forall p, is_node m' pt p \/ p ∈ l' <-> is_node m pt p \/ p ∈ l;
  pe_frame : forall x, (forall p, is_node m pt p -> ~ in_page p x) ->
    (forall p, p ∈ l -> ~ in_page p x) -> ld8 m' x = ld8 m x;
}.

Context (kend_ram : KERNBASE <= kend).

(** *** Indices *)

Lemma idx_range k va : (k <= 2)%nat -> 0 <= idx k va < 512.
Proof. intros. unfold idx. apply PX_range. lia. Qed.

Lemma same_prefix_refl k va : same_prefix k va va.
Proof. by intros j ?. Qed.

Lemma same_prefix_mono k k' va va' :
  (k <= k')%nat -> same_prefix k' va va' -> same_prefix k va va'.
Proof. intros Hk H j Hj. apply H. lia. Qed.

Lemma same_prefix_sym k va va' : same_prefix k va va' -> same_prefix k va' va.
Proof. intros H j Hj. symmetry. by apply H. Qed.

Lemma same_prefix_S k va va' :
  same_prefix (S k) va va' <-> same_prefix k va va' /\ idx k va = idx k va'.
Proof.
  split.
  - intros H. split; [eapply same_prefix_mono; [| done]; lia | apply H; lia].
  - intros [H1 H2] j Hj. destruct (decide (j = k)) as [->|]; [done | apply H1; lia].
Qed.

(** The three indices together are the page number. *)
Lemma same_prefix_3 va va' :
  0 <= va < MAXVA -> 0 <= va' < MAXVA ->
  same_prefix 3 va va' <-> va / PGSIZE = va' / PGSIZE.
Proof.
  intros H H'. split.
  - intros Hs. apply PX_inj; try done; [apply (Hs 0%nat) | apply (Hs 1%nat) | apply (Hs 2%nat)]; lia.
  - intros He j Hj. unfold idx. rewrite !PX_eq by lia.
    assert (forall v, v / 2 ^ (12 + 9 * (2 - Z.of_nat j)) = v / PGSIZE / 2 ^ (9 * (2 - Z.of_nat j))) as Hd.
    { intros v. rewrite Z.pow_add_r, <- Z.div_div by lia. done. }
    by rewrite !Hd, He.
Qed.

Lemma idx0_low va : 0 <= va < MAXVA -> idx 0 va < 256.
Proof.
  rewrite MAXVA_eq. intros H. unfold idx. rewrite PX_eq by lia. cbn -[Z.div Z.modulo].
  change (2 ^ 30) with 1073741824. change (2 ^ 38) with 274877906944 in H.
  Z.div_mod_to_equations. lia.
Qed.

Lemma node_S k m pt va :
  node (S k) m pt va =
  match node k m pt va with
  | Some p => let v := ld64 m (p + 8 * idx k va) in
              if pte_valid v then Some (PTE2PA v) else None
  | None => None
  end.
Proof. done. Qed.

Lemma root_is_node m pt : is_node m pt pt.
Proof. exists 0%nat, 0. split; [lia | done]. Qed.

Lemma node_prefix k m pt va va' :
  same_prefix k va va' -> node k m pt va = node k m pt va'.
Proof.
  induction k as [|k IH]; cbn [node]; [done |]. intros [H1 H2]%same_prefix_S.
  by rewrite IH, H2.
Qed.

Lemma translate_page m pt va va' :
  0 <= va < MAXVA -> 0 <= va' < MAXVA -> va / PGSIZE = va' / PGSIZE ->
  translate m pt va = translate m pt va'.
Proof.
  intros H H' E. apply same_prefix_3, same_prefix_S in E as [E1 E2]; [| done..].
  unfold translate. by rewrite (node_prefix 2 m pt va va'), E2.
Qed.

(** *** Entries of a node *)

Lemma entry_in_page p i x : 0 <= i < 512 -> p + 8 * i <= x < p + 8 * i + 8 -> in_page p x.
Proof. unfold in_page. klia. Qed.

Lemma ld64_entry_frame m m' p i :
  0 <= i < 512 -> (forall x, in_page p x -> ld8 m' x = ld8 m x) ->
  ld64 m' (p + 8 * i) = ld64 m (p + 8 * i).
Proof. intros Hi H. apply ld64_ext. intros x Hx. apply H. by eapply entry_in_page. Qed.

Lemma ld64_st64_entry m p i j v :
  0 <= v < 2 ^ 64 ->
  ld64 (st64 m (p + 8 * i) v) (p + 8 * j) =
  if decide (i = j) then v else ld64 m (p + 8 * j).
Proof.
  intros Hv. case_decide as E; [subst; by rewrite ld64_st64_eq |].
  apply ld64_st64_ne. lia.
Qed.

Lemma ld8_st64_other m p q i v x :
  p mod PGSIZE = 0 -> q mod PGSIZE = 0 -> p <> q -> 0 <= i < 512 -> in_page q x ->
  ld8 (st64 m (p + 8 * i) v) x = ld8 m x.
Proof.
  intros Hp Hq Hne Hi Hx. apply ld8_st64_ne.
  pose proof (pages_disjoint q p x Hq Hp ltac:(done) Hx) as Hd. unfold in_page in *. klia.
Qed.

(** Walks that only read pages which did not change are unchanged. *)
Lemma node_frame m m' pt k va :
  (forall j p, (j < k)%nat -> node j m pt va = Some p ->
     forall x, in_page p x -> ld8 m' x = ld8 m x) ->
  (k <= 3)%nat -> node k m' pt va = node k m pt va.
Proof.
  induction k as [|k IH]; intros Hf Hk; cbn [node]; [done |].
  rewrite IH; [| intros; eapply Hf; [| done |]; [lia | done] | lia].
  destruct (node k m pt va) as [p|] eqn:E; [| done].
  rewrite (ld64_entry_frame m m'); [done | apply idx_range; lia |].
  intros x Hx. by apply (Hf k p); [lia | |].
Qed.

(** A walk that touches neither the tree nor the free pages is a frame. *)
Lemma pt_inv_frame m m' pt l :
  pt_inv m pt l -> (forall p, is_node m pt p -> forall x, in_page p x -> ld8 m' x = ld8 m x) ->
  (forall k va, (k <= 2)%nat -> node k m' pt va = node k m pt va) /\ pt_inv m' pt l /\
  (forall va, translate m' pt va = translate m pt va).
Proof.
  intros [H1 H2 H3 H4 H5] Hf.
  assert (forall k va, (k <= 2)%nat -> node k m' pt va = node k m pt va) as Hn.
  { intros k va Hk. apply node_frame; [| lia]. intros j p Hj Hp. apply Hf. exists j, va. split; [lia | done]. }
  assert (forall p, is_node m' pt p -> is_node m pt p) as Hi.
  { intros p (k & va & Hk & Hp). rewrite Hn in Hp by done. by exists k, va. }
  split_and!; [done | split; [auto | auto | | |] |].
  - intros k k' va va' p Hk Hk'. rewrite !Hn by done. by apply H3.
  - intros k va p Hk Hp. rewrite Hn in Hp by lia. cbn zeta.
    rewrite (ld64_entry_frame m m'); [by apply H4 | apply idx_range; lia |].
    apply Hf. exists k, va. split; [lia | done].
  - intros i Hr. rewrite (ld64_entry_frame m m'); [by apply H5 | lia |].
    apply Hf, root_is_node.
  - intros va. unfold translate. rewrite Hn by lia.
    destruct (node 2 m pt va) as [p|] eqn:E; [| done].
    apply ld64_entry_frame; [apply idx_range; lia |]. apply Hf. by exists 2%nat, va.
Qed.

(** *** Adding a page to the tree *)

Section grow.
Context (m m1 : mem) (pt va : Z) (l : list Z) (k : nat) (p q : Z).
Context (Hinv : pt_inv m pt (q :: l)) (Hk : (k <= 1)%nat) (Hva : 0 <= va < MAXVA).
Context (Hp : node k m pt va = Some p).
Context (Hv : pte_valid (ld64 m (p + 8 * idx k va)) = false).
Context (Hq : page_ok kend q) (Hql : q ∉ l).
Context (Hzero : forall x, in_page q x -> ld8 m1 x = 0).
Context (Hout : forall x, ~ in_page q x -> ld8 m1 x = ld8 m x).

Let m2 := st64 m1 (p + 8 * idx k va) (Z.lor (PA2PTE q) PTE_V).

Lemma grow_is_node : is_node m pt p.
Proof. exists k, va. split; [lia | done]. Qed.

Lemma grow_pq : p <> q.
Proof.
  intros E. apply (pi_used _ _ _ Hinv p grow_is_node). rewrite E. by left.
Qed.

Lemma grow_new_pte : 0 <= Z.lor (PA2PTE q) PTE_V < 2 ^ 64.
Proof.
  pose proof (page_ok_range _ kend_ram _ Hq) as [Hr _].
  apply lor_low_range; [lia | apply u64_range | rewrite PTE_V_eq; lia].
Qed.

Lemma grow_other p' x : is_node m pt p' -> p' <> p -> in_page p' x -> ld8 m2 x = ld8 m x.
Proof.
  intros Hn' Hne Hx. pose proof (pi_ok _ _ _ Hinv _ Hn') as [Ha _].
  pose proof (pi_ok _ _ _ Hinv _ grow_is_node) as [Hap _]. subst m2.
  rewrite (ld8_st64_other _ p p'); try done; [| apply idx_range; lia].
  apply Hout. apply (pages_disjoint p' q); [done | apply Hq | | done].
  intros ->. apply (pi_used _ _ _ Hinv _ Hn'). by left.
Qed.

Lemma grow_same i : 0 <= i < 512 ->
  ld64 m2 (p + 8 * i) =
  if decide (idx k va = i) then Z.lor (PA2PTE q) PTE_V else ld64 m (p + 8 * i).
Proof.
  intros Hi. subst m2. rewrite ld64_st64_entry by apply grow_new_pte.
  case_decide; [done |]. apply ld64_entry_frame; [done |]. intros x Hx. apply Hout.
  pose proof (pi_ok _ _ _ Hinv _ grow_is_node) as [Hap _].
  apply (pages_disjoint p q); [done | apply Hq | apply grow_pq | done].
Qed.

Lemma grow_zero i : 0 <= i < 512 -> ld64 m2 (q + 8 * i) = 0.
Proof.
  intros Hi.
  assert (ld64 m2 (q + 8 * i) = ld64 ∅ (q + 8 * i)) as ->.
  { apply ld64_ext. intros x Hx.
    pose proof (entry_in_page _ _ _ Hi Hx) as Hxq. subst m2.
    pose proof (pi_ok _ _ _ Hinv _ grow_is_node) as [Hap _].
    rewrite (ld8_st64_other _ p q); [by rewrite Hzero | done | apply Hq | apply grow_pq |
      apply idx_range; lia | done]. }
  assert (forall n a, ld_le n ∅ a = 0) as H0; [| apply (H0 8%nat)].
  induction n as [|n IH]; intros a; cbn [ld_le]; [done | by rewrite IH].
Qed.

Lemma grow_valid : pte_valid (Z.lor (PA2PTE q) PTE_V) = true.
Proof.
  unfold pte_valid. rewrite PTE_V_eq, Z.land_comm, Z.lor_comm, Z.land_lor_distr_r.
  rewrite Z.land_diag. apply negb_true_iff, Z.eqb_neq. intros H%Z.lor_eq_0_l. lia.
Qed.

Lemma grow_interior : Z.land (Z.lor (PA2PTE q) PTE_V) (Z.lor (Z.lor PTE_R PTE_W) PTE_X) = 0.
Proof.
  pose proof (page_ok_range _ kend_ram _ Hq) as [Hr Ha].
  rewrite Z.land_lor_distr_l, PA2PTE_eq by klia.
  by rewrite (land_low_mul _ _ 10) by (try split; by vm_compute).
Qed.

Lemma grow_pa : PTE2PA (Z.lor (PA2PTE q) PTE_V) = q.
Proof.
  pose proof (page_ok_range _ kend_ram _ Hq) as [Hr Ha].
  apply PTE2PA_pte; [klia | done | rewrite PTE_V_eq; lia].
Qed.

(** Only the new page appears, at depth [k + 1] below the changed entry. *)
Lemma node_grow j va' :
  (j <= 2)%nat ->
  node j m2 pt va' =
  if decide (j = S k /\ same_prefix (S k) va va') then Some q else node j m pt va'.
Proof.
  induction j as [|j IH]; intros Hj.
  { rewrite decide_False; [done | intros [? _]; lia]. }
  cbn [node]. rewrite IH by lia. clear IH.
  destruct (decide (j = S k /\ same_prefix (S k) va va')) as [[-> Hs]|Hno].
  - rewrite decide_False by lia. rewrite grow_zero by (apply idx_range; lia).
    cbn [node]. apply same_prefix_S in Hs as [Hs1 Hs2].
    rewrite <- (node_prefix k m pt va va'), Hp by done.
    rewrite <- Hs2, Hv. done.
  - destruct (node j m pt va') as [p'|] eqn:E.
    + assert (is_node m pt p') as Hn' by (exists j, va'; split; [lia | done]).
      destruct (decide (p' = p)) as [->|Hne].
      * destruct (pi_tree _ _ _ Hinv j k va' va p) as [-> Hs]; [lia | lia | done | done |].
        rewrite grow_same by (apply idx_range; lia).
        destruct (decide (idx k va = idx k va')) as [Hi|Hi].
        -- rewrite grow_valid, grow_pa, decide_True; [done |].
           split; [done |]. apply same_prefix_S. split; [by apply same_prefix_sym | done].
        -- rewrite decide_False; [done |]. intros [_ [_ ?]%same_prefix_S]. done.
      * rewrite (ld64_entry_frame m m2) by
          (first [apply idx_range; lia | intros x Hx; by apply (grow_other p')]).
        rewrite decide_False; [done |]. intros [Hjk [Hs _]%same_prefix_S].
        assert (j = k) as -> by lia. apply Hne.
        rewrite (node_prefix k m pt va va') in Hp by done. congruence.
    + rewrite decide_False; [done |]. intros [Hjk [Hs _]%same_prefix_S].
      assert (j = k) as -> by lia.
      rewrite (node_prefix k m pt va va') in Hp by done. congruence.
Qed.

Lemma translate_grow va' : translate m2 pt va' = translate m pt va'.
Proof.
  unfold translate. rewrite node_grow by lia.
  destruct (decide (2%nat = S k /\ same_prefix (S k) va va')) as [[Hk2 Hs]|Hno].
  - rewrite grow_zero by (apply idx_range; lia). assert (k = 1%nat) as -> by lia.
    rewrite node_S. apply same_prefix_S in Hs as [Hs1 Hs2].
    rewrite (node_prefix 1 m pt va va' Hs1) in Hp. rewrite Hp, <- Hs2. cbn zeta.
    by rewrite Hv.
  - destruct (node 2 m pt va') as [p'|] eqn:E; [| done].
    assert (is_node m pt p') as Hn' by (exists 2%nat, va'; split; [lia | done]).
    apply ld64_entry_frame; [apply idx_range; lia |]. intros x Hx.
    apply (grow_other p'); [done | | done]. intros ->.
    destruct (pi_tree _ _ _ Hinv 2 k va' va p) as [? _]; [lia | lia | done | done | lia].
Qed.

Lemma is_node_grow p' : is_node m2 pt p' -> is_node m pt p' \/ p' = q.
Proof.
  intros (j & va' & Hj & Hn). rewrite node_grow in Hn by done.
  case_decide; [right; congruence | left; by exists j, va'].
Qed.

Lemma pt_inv_grow : pt_inv m2 pt l.
Proof.
  split.
  - intros p' [Hn| ->]%is_node_grow; [by apply (pi_ok _ _ _ Hinv) | done].
  - intros p' [Hn| ->]%is_node_grow; [| done].
    pose proof (pi_used _ _ _ Hinv _ Hn) as Hu. set_solver +Hu.
  - intros j j' a b r Hj Hj'. rewrite !node_grow by done.
    destruct (decide (j = S k /\ same_prefix (S k) va a)) as [[-> Hsa]|],
      (decide (j' = S k /\ same_prefix (S k) va b)) as [[-> Hsb]|]; intros Ha Hb.
    + split; [done |]. intros i Hi. rewrite <- (Hsa i Hi). exact (Hsb i Hi).
    + destruct (pi_used _ _ _ Hinv r); [by exists j', b | injection Ha as <-; by left].
    + destruct (pi_used _ _ _ Hinv r); [by exists j, a | injection Hb as <-; by left].
    + by apply (pi_tree _ _ _ Hinv j j' a b r).
  - intros j a r Hj. rewrite node_grow by lia. cbn zeta.
    case_decide as Hd.
    + intros [= <-]. by rewrite grow_zero by (apply idx_range; lia).
    + intros Hr. destruct (decide (r = p)) as [->|Hne].
      * destruct (pi_tree _ _ _ Hinv j k a va p) as [-> Hs]; [lia | lia | done | done |].
        rewrite grow_same by (apply idx_range; lia). case_decide; [intros; apply grow_interior |].
        by apply (pi_interior _ _ _ Hinv).
      * rewrite (ld64_entry_frame m m2); [by apply (pi_interior _ _ _ Hinv) | apply idx_range; lia |].
        intros x Hx. apply (grow_other r); [exists j, a; split; [lia | done] | done | done].
  - intros i Hi. pose proof (root_is_node m pt) as Hr.
    destruct (decide (pt = p)) as [E|Hne].
    + rewrite E, grow_same by lia. case_decide as Hd; [| rewrite <- E; by apply (pi_high _ _ _ Hinv)].
      destruct (pi_tree _ _ _ Hinv k 0 va va p) as [-> _]; [lia | lia | done | exact (f_equal Some E) |].
      pose proof (idx0_low va Hva). lia.
    + rewrite (ld64_entry_frame m m2); [by apply (pi_high _ _ _ Hinv) | lia |].
      intros x Hx. by apply (grow_other pt).
Qed.

Lemma pt_ext_grow : pt_ext pt m (q :: l) m2 l.
Proof.
  split.
  - by exists [q].
  - intros j a r Hj Hr. rewrite node_grow by done. rewrite decide_False; [done |].
    intros [-> [Hs Hi]%same_prefix_S]. cbn [node] in Hr.
    rewrite <- (node_prefix k m pt va a Hs), Hp in Hr. rewrite <- Hi, Hv in Hr. done.
  - intros p'. split.
    + intros [[Hn| ->]%is_node_grow | Hl]; [by left | right; by left | right; by right].
    + intros [(j & a & Hj & Hn) | [-> | Hl]%elem_of_cons].
      * left. exists j, a. split; [done |]. rewrite node_grow by done. rewrite decide_False; [done |].
        intros [-> [Hs Hi]%same_prefix_S]. cbn [node] in Hn.
        rewrite <- (node_prefix k m pt va a Hs), Hp in Hn. rewrite <- Hi, Hv in Hn. done.
      * left. exists (S k), va. split; [lia |]. rewrite node_grow by lia.
        rewrite decide_True; [done |]. split; [done | apply same_prefix_refl].
      * by right.
  - intros x Hx Hl. subst m2.
    assert (~ in_page p x) as Hpx by (apply Hx, grow_is_node).
    rewrite ld8_st64_ne; [apply Hout, Hl; by left |].
    pose proof (idx_range k va ltac:(lia)). unfold in_page in Hpx. klia.
Qed.
End grow.

(** *** Writing a leaf entry *)

Lemma pt_ext_refl pt m l : pt_ext pt m l m l.
Proof. by split; [exists [] | | |]. Qed.

Lemma pt_ext_trans pt m1 l1 m2 l2 m3 l3 :
  pt_ext pt m1 l1 m2 l2 -> pt_ext pt m2 l2 m3 l3 -> pt_ext pt m1 l1 m3 l3.
Proof.
  intros [[u1 S1] M1 N1 F1] [[u2 S2] M2 N2 F2]. split.
  - exists (u1 ++ u2). by rewrite <- (assoc_L (++)), <- S2.
  - auto.
  - intros p. by rewrite N2.
  - intros x Hx Hl. rewrite F2, F1; try done.
    + intros p Hp. destruct (proj1 (N1 p) (or_introl Hp)); [by apply Hx | by apply Hl].
    + intros p Hp. apply Hl. subst. set_solver +Hp.
Qed.

Lemma leaf_store m pt l va p v :
  pt_inv m pt l -> node 2 m pt va = Some p -> 0 <= v < 2 ^ 64 ->
  let m' := st64 m (p + 8 * idx 2 va) v in
  (forall k va', (k <= 2)%nat -> node k m' pt va' = node k m pt va') /\
  pt_inv m' pt l /\ pt_ext pt m l m' l /\
  (forall va', translate m' pt va' =
     if decide (same_prefix 3 va va') then v else translate m pt va').
Proof.
  intros Hinv Hp Hv m'.
  assert (is_node m pt p) as Hip by by exists 2%nat, va.
  pose proof (pi_ok _ _ _ Hinv _ Hip) as [Hap _].
  assert (forall p' x, is_node m pt p' -> p' <> p -> in_page p' x -> ld8 m' x = ld8 m x) as Hother.
  { intros p' x Hn' Hne Hx. pose proof (pi_ok _ _ _ Hinv _ Hn') as [Ha _].
    apply (ld8_st64_other _ p p'); try done. apply idx_range. lia. }
  assert (forall k va', (k <= 2)%nat -> node k m' pt va' = node k m pt va') as Hn.
  { intros k va' Hk. apply node_frame; [| lia]. intros j q Hj Hq x Hx.
    apply (Hother q); [exists j, va'; split; [lia | done] | | done]. intros ->.
    destruct (pi_tree _ _ _ Hinv 2 j va va' p) as [? _]; [lia | lia | done | done | lia]. }
  assert (forall q, is_node m' pt q <-> is_node m pt q) as Hin.
  { intros q. split; intros (k & va' & Hk & Hq); exists k, va'; (split; [done |]);
      [rewrite Hn in Hq by done | rewrite Hn by done]; done. }
  split_and!; [done | | |].
  - split.
    + intros q Hq%Hin. by apply (pi_ok _ _ _ Hinv).
    + intros q Hq%Hin. by apply (pi_used _ _ _ Hinv).
    + intros k k' a b q Hk Hk'. rewrite !Hn by done. by apply (pi_tree _ _ _ Hinv).
    + intros k a q Hk Hq. rewrite Hn in Hq by lia. cbn zeta.
      assert (q <> p) as Hqp.
      { intros ->. destruct (pi_tree _ _ _ Hinv 2 k va a p) as [? _]; [lia | lia | done | done | lia]. }
      rewrite (ld64_entry_frame m m'); [by apply (pi_interior _ _ _ Hinv) | apply idx_range; lia |].
      intros x Hx. apply (Hother q); [exists k, a; split; [lia | done] | done | done].
    + intros i Hi. rewrite (ld64_entry_frame m m'); [by apply (pi_high _ _ _ Hinv) | lia |].
      intros x Hx. apply (Hother pt); [apply root_is_node | | done]. intros ->.
      destruct (pi_tree _ _ _ Hinv 2 0 va va p) as [? _]; [lia | lia | done | done | lia].
  - split; [by exists [] | intros; rewrite Hn by done; done | intros q; by rewrite Hin |].
    intros x Hx _. specialize (Hx p Hip). apply ld8_st64_ne.
    pose proof (idx_range 2 va ltac:(lia)). unfold in_page in Hx. klia.
  - intros va'. unfold translate. rewrite Hn by lia.
    destruct (node 2 m pt va') as [p'|] eqn:E.
    + destruct (decide (p' = p)) as [->|Hne].
      * destruct (pi_tree _ _ _ Hinv 2 2 va va' p) as [_ Hs]; [lia | lia | done | done |].
        subst m'. rewrite ld64_st64_entry by done.
        destruct (decide (same_prefix 3 va va')) as [H3|H3], (decide (idx 2 va = idx 2 va')) as [Hi|Hi];
          try done.
        -- apply same_prefix_S in H3 as [_ ?]. done.
        -- destruct H3. by apply same_prefix_S.
      * rewrite (ld64_entry_frame m m') by
          (first [apply idx_range; lia | intros x Hx; apply (Hother p'); try done; by exists 2%nat, va']).
        rewrite decide_False; [done |]. intros [Hs _]%same_prefix_S.
        rewrite (node_prefix 2 m pt va va' Hs) in Hp. congruence.
    + rewrite decide_False; [done |]. intros [Hs _]%same_prefix_S.
      rewrite (node_prefix 2 m pt va va' Hs) in Hp. congruence.
Qed.

(** *** walk *)

Lemma walk_loop_lookup n k s pt va p :
  (k + n = 2)%nat -> node k (k_mem s) pt va = Some p ->
  walk_loop n p va false s =
  Ok (match node 2 (k_mem s) pt va with Some q => q + 8 * idx 2 va | None => 0 end) s.
Proof.
  revert k p. induction n as [|n IH]; intros k p Hk Hp.
  - assert (k = 2%nat) as -> by lia. rewrite Hp. done.
  - cbn [walk_loop]. unfold bind, load64, gets. cbn [negb].
    assert (idx k va = PX (Z.of_nat (S n)) va) as Hi by (unfold idx; f_equal; lia).
    rewrite <- Hi. pose proof (node_S k (k_mem s) pt va) as HS. rewrite Hp in HS. cbn zeta in HS.
    destruct (pte_valid (ld64 (k_mem s) (p + 8 * idx k va))).
    + apply (IH (S k)); [lia | done].
    + assert (node 2 (k_mem s) pt va = None) as ->; [| done].
      destruct n as [|n]; [assert (k = 1%nat) as -> by lia; done |].
      assert (k = 0%nat) as -> by lia. rewrite node_S, HS. done.
Qed.

(** [walk] without allocation finds the leaf entry of [va] and changes
    nothing. *)
Lemma walk_lookup s pt va :
  va < MAXVA ->
  walk pt va false s =
  Ok (match node 2 (k_mem s) pt va with Some q => q + 8 * idx 2 va | None => 0 end) s.
Proof.
  intros Hva. unfold walk. rewrite Z.geb_leb. destruct (Z.leb_spec MAXVA va); [lia |].
  by apply (walk_loop_lookup 2 0).
Qed.

(** What [walk] with allocation does from state [s] with free list [l]. *)
Definition walk_post (n : nat) (s : kmem) (l : list Z) (pt va a : Z) (s' : kmem) : Prop :=
  exists l', kmem_inv kend s' l' /\ pt_inv (k_mem s') pt l' /\
    pt_ext pt (k_mem s) l (k_mem s') l' /\
    (length l <= length l' + n)%nat /\
    (forall va', translate (k_mem s') pt va' = translate (k_mem s) pt va') /\
    ((a = 0 /\ l' = [] /\ (length l < n)%nat) \/
     exists q, node 2 (k_mem s') pt va = Some q /\ a = q + 8 * idx 2 va).

Lemma walk_loop_alloc n k s l pt va p :
  (k + n = 2)%nat -> 0 <= va < MAXVA -> kmem_inv kend s l -> pt_inv (k_mem s) pt l ->
  node k (k_mem s) pt va = Some p ->
  exists a s', walk_loop n p va true s = Ok a s' /\ walk_post n s l pt va a s'.
Proof.
  intros Hk Hva. revert k Hk s l p. induction n as [|n IH]; intros k Hk s l p Hki Hpi Hp; cbn [walk_loop].
  { assert (k = 2%nat) as -> by lia. eexists _, s. split; [done |].
    exists l. split_and!; try done; [apply pt_ext_refl | lia | right; eauto]. }
  unfold bind, load64, gets. cbn [negb].
  assert (idx k va = PX (Z.of_nat (S n)) va) as Hi by (unfold idx; f_equal; lia).
  rewrite <- Hi. pose proof (node_S k (k_mem s) pt va) as HS. rewrite Hp in HS. cbn zeta in HS.
  destruct (pte_valid (ld64 (k_mem s) (p + 8 * idx k va))) eqn:Hv.
  { destruct (IH (S k) ltac:(lia) s l _ Hki Hpi HS) as (a & s' & Hw & l' & H1 & H2 & H3 & H4 & H5 & H6).
    exists a, s'. split; [done |]. exists l'. split_and!; try done; [lia |].
    destruct H6 as [(? & ? & ?)|?]; [left; split_and!; (done || lia) | by right]. }
  pose proof (kalloc_spec kend kend_ram s l Hki) as Hal. destruct l as [|q l].
  { rewrite Hal. cbn. eexists _, s. split; [done |]. exists [].
    split_and!; try done; [apply pt_ext_refl | cbn; lia | left; split_and!; [done.. | cbn; lia]]. }
  destruct Hal as (s1 & Hal & Hki1 & Hq0 & Hfill & Hout). rewrite Hal.
  destruct (Z.eqb_spec q 0) as [|_]; [done |].
  unfold kmemset, store64, modify, set_k_mem. cbn [k_mem k_freelist].
  set (m1 := KString.memset (k_mem s1) q 0 PGSIZE).
  set (m2 := st64 m1 (p + 8 * idx k va) (Z.lor (PA2PTE q) PTE_V)).
  pose proof (ki_nodup _ _ _ Hki) as [Hql _]%NoDup_cons.
  pose proof (ki_ok _ _ _ Hki) as [Hqok Hlok]%Forall_cons.
  assert (forall x, in_page q x -> ld8 m1 x = 0) as Hz.
  { intros x Hx. unfold m1. by rewrite KString.ld8_memset, decide_True. }
  assert (forall x, ~ in_page q x -> ld8 m1 x = ld8 (k_mem s) x) as Ho.
  { intros x Hx. unfold m1. rewrite KString.ld8_memset, decide_False; [by apply Hout | done]. }
  assert (k <= 1)%nat as Hk1 by lia.
  pose proof (pt_inv_grow _ m1 pt va l k p q Hpi Hk1 Hva Hp Hv Hqok Hql Hz Ho) as Hpi2.
  pose proof (pt_ext_grow _ m1 pt va l k p q Hpi Hk1 Hp Hv Hqok Hz Ho) as Hext.
  pose proof (translate_grow _ m1 pt va l k p q Hpi Hk1 Hp Hv Hqok Hz Ho) as Htr.
  pose proof (node_grow _ m1 pt va l k p q Hpi Hk1 Hp Hv Hqok Hz Ho (S k) va ltac:(lia)) as Hnode.
  rewrite decide_True in Hnode by (split; [done | apply same_prefix_refl]).
  fold m2 in Hpi2, Hext, Htr, Hnode.
  assert (is_node (k_mem s) pt p) as Hip by (exists k, va; split; [lia | done]).
  assert (kmem_inv kend (Kmem m2 (k_freelist s1)) l) as Hki2.
  { apply kmem_inv_frame; [done | done |]. intros r x Hr Hx.
    assert (page_ok kend r) as [Har _] by (rewrite Forall_forall in Hlok; exact (Hlok r Hr)).
    assert (r <> q) as Hrq by (intros E; apply Hql; rewrite <- E; exact Hr).
    assert (r <> p) as Hrp.
    { intros E. apply (pi_used _ _ _ Hpi _ Hip). apply elem_of_cons. right. rewrite <- E. exact Hr. }
    cbn [k_mem]. unfold m2. rewrite (ld8_st64_other _ p r);
      [| apply (pi_ok _ _ _ Hpi _ Hip) | exact Har | | apply idx_range; lia | exact Hx].
    - unfold m1. rewrite KString.ld8_memset, decide_False; [reflexivity |].
      apply (pages_disjoint r q); [exact Har | apply Hqok | exact Hrq | exact Hx].
    - exact (not_eq_sym Hrp). }
  clearbody m1 m2.
  destruct (IH (S k) ltac:(lia) (Kmem m2 (k_freelist s1)) l q Hki2 Hpi2 Hnode)
    as (a & s' & Hw & l' & H1 & H2 & H3 & H4 & H5 & H6).
  exists a, s'. split; [done |]. exists l'. cbn [k_mem] in *. split_and!; try done.
  - by eapply pt_ext_trans.
  - cbn. lia.
  - intros va'. by rewrite H5.
  - destruct H6 as [(? & ? & ?)|?]; [left; split_and!; (done || cbn; lia) | by right].
Qed.

Lemma walk_alloc s l pt va :
  0 <= va < MAXVA -> kmem_inv kend s l -> pt_inv (k_mem s) pt l ->
  exists a s', walk pt va true s = Ok a s' /\ walk_post 2 s l pt va a s'.
Proof.
  intros Hva Hki Hpi. unfold walk. rewrite Z.geb_leb. destruct (Z.leb_spec MAXVA va); [lia |].
  by apply (walk_loop_alloc 2 0).
Qed.

(** *** mappages *)

(** The entry [mappages] writes for a page at [pa]. *)
Definition leaf (pa perm : Z) : Z := Z.lor (Z.lor (PA2PTE pa) perm) PTE_V.

(** [m'] maps [n] pages from [a] to physical [pa] on, and is [m] elsewhere. *)
Definition mapped (m m' : mem) (pt a n pa perm : Z) : Prop :=
  forall va, 0 <= va < MAXVA ->
    translate m' pt va =
    if decide (a <= va < a + n * PGSIZE) then leaf (pa + (PGROUNDDOWN va - a)) perm
    else translate m pt va.

Definition mappages_post (s : kmem) (l : list Z) (pt a n pa perm r : Z) (s' : kmem) : Prop :=
  exists l' k, kmem_inv kend s' l' /\ pt_inv (k_mem s') pt l' /\
    pt_ext pt (k_mem s) l (k_mem s') l' /\
    mapped (k_mem s) (k_mem s') pt a k pa perm /\
    ((r = 0 /\ k = n) \/ (r = -1 /\ 0 <= k < n /\ l' = [])).

Lemma leaf_range pa perm : 0 <= perm < 2 ^ 10 -> 0 <= leaf pa perm < 2 ^ 64.
Proof.
  intros. unfold leaf. apply lor_low_range; [lia | | rewrite PTE_V_eq; lia].
  apply lor_low_range; [lia | apply u64_range | lia].
Qed.

Lemma leaf_valid pa perm : pte_valid (leaf pa perm) = true.
Proof.
  unfold pte_valid, leaf. rewrite PTE_V_eq, Z.land_comm, Z.lor_comm, Z.land_lor_distr_r.
  rewrite Z.land_diag. apply negb_true_iff, Z.eqb_neq. intros H%Z.lor_eq_0_l. lia.
Qed.

Lemma leaf_flags pa perm : leaf pa perm = Z.lor (PA2PTE pa) (Z.lor perm PTE_V).
Proof. unfold leaf. by rewrite Z.lor_assoc. Qed.

Lemma kmem_inv_store s l pt p i v :
  kmem_inv kend s l -> pt_inv (k_mem s) pt l -> is_node (k_mem s) pt p -> 0 <= i < 512 ->
  kmem_inv kend (Kmem (st64 (k_mem s) (p + 8 * i) v) (k_freelist s)) l.
Proof.
  intros Hki Hpi Hp Hi. apply kmem_inv_frame; [exact kend_ram | by destruct s |].
  intros r x Hr Hx. pose proof (ki_ok _ _ _ Hki) as Hok. rewrite Forall_forall in Hok.
  apply (ld8_st64_other _ p r); [apply (pi_ok _ _ _ Hpi _ Hp) | apply (Hok r Hr) | | done | done].
  intros E. apply (pi_used _ _ _ Hpi _ Hp). by rewrite E.
Qed.

Lemma same_page a va :
  a mod PGSIZE = 0 -> 0 <= a < MAXVA -> 0 <= va < MAXVA ->
  same_prefix 3 a va <-> a <= va < a + PGSIZE.
Proof.
  intros Ha Hr Hv. rewrite same_prefix_3 by done. unfold PGSIZE in *.
  Z.div_mod_to_equations. lia.
Qed.

Lemma mapped_cons m m1 m2 pt a n pa perm :
  0 <= n -> a mod PGSIZE = 0 -> 0 <= a ->
  mapped m m1 pt a 1 pa perm -> mapped m1 m2 pt (a + PGSIZE) n (pa + PGSIZE) perm ->
  mapped m m2 pt a (n + 1) pa perm.
Proof.
  intros Hn Ha H0 H1 H2 va Hva. rewrite H2, H1 by done.
  repeat case_decide; try klia; f_equal; klia.
Qed.

(** One iteration of [mappages]: no memory for the walk, or one page mapped. *)
Lemma map_one s l pt a pa perm :
  a mod PGSIZE = 0 -> 0 <= a -> a + PGSIZE <= MAXVA -> 0 <= perm < 2 ^ 10 ->
  kmem_inv kend s l -> pt_inv (k_mem s) pt l ->
  pte_valid (translate (k_mem s) pt a) = false ->
  exists e s1, walk pt a true s = Ok e s1 /\
    ((e = 0 /\ mappages_post s l pt a 1 pa perm (-1) s1) \/
     (e <> 0 /\ pte_valid (ld64 (k_mem s1) e) = false /\
      mappages_post s l pt a 1 pa perm 0 (set_k_mem (fun m => st64 m e (leaf pa perm)) s1))).
Proof.
  intros Ha H0 Hmax Hperm Hki Hpi Hfree.
  destruct (walk_alloc s l pt a ltac:(klia) Hki Hpi)
    as (e & s1 & Hw & l1 & K1 & P1 & X1 & _ & T1 & He).
  exists e, s1. split; [done |]. destruct He as [(-> & -> & _)|(q & Hq & ->)].
  { left. split; [done |]. exists [], 0. split_and!; [done.. | | right; split_and!; (done || lia)].
    intros va Hva. rewrite decide_False by lia. apply T1. }
  right. assert (is_node (k_mem s1) pt q) as Hiq by by exists 2%nat, a.
  pose proof (idx_range 2 a ltac:(lia)) as Hi. split_and!.
  - pose proof (page_ok_pos _ kend_ram _ (pi_ok _ _ _ P1 _ Hiq)). lia.
  - specialize (T1 a). unfold translate at 1 in T1. rewrite Hq in T1. by rewrite T1.
  - destruct (leaf_store _ _ _ _ _ (leaf pa perm) P1 Hq (leaf_range _ _ Hperm)) as (_ & P2 & X2 & T2).
    exists l1, 1. unfold set_k_mem. cbn [k_mem]. split_and!; [by eapply kmem_inv_store | done | | | by left].
    + eapply pt_ext_trans; [exact X1 | exact X2].
    + intros va Hva. rewrite T2, T1. rewrite Z.mul_1_l.
      pose proof (same_page a va Ha ltac:(klia) Hva) as Hsp.
      destruct (decide (same_prefix 3 a va)) as [E|E].
      * rewrite decide_True by tauto. f_equal. apply Hsp in E.
        rewrite PGROUNDDOWN_eq. unfold PGSIZE in *. Z.div_mod_to_equations. lia.
      * rewrite decide_False by tauto. done.
Qed.

Lemma mappages_loop_S fuel pt a last pa perm s e s1 :
  walk pt a true s = Ok e s1 ->
  mappages_loop (S fuel) pt a last pa perm s =
  if e =? 0 then Ok (-1) s1
  else if pte_valid (ld64 (k_mem s1) e) then Panic "remap"
  else
    let s2 := set_k_mem (fun m => st64 m e (leaf pa perm)) s1 in
    if a =? last then Ok 0 s2
    else mappages_loop fuel pt (u64 (a + PGSIZE)) last (u64 (pa + PGSIZE)) perm s2.
Proof.
  intros Hw. cbn [mappages_loop]. unfold bind. rewrite Hw. destruct (e =? 0); [done |].
  cbn [load64 gets]. destruct (pte_valid _); [done |]. cbn [store64 modify].
  by destruct (a =? last).
Qed.

Lemma mappages_loop_spec n s l pt a pa perm :
  a mod PGSIZE = 0 -> 0 <= a -> a + (Z.of_nat n + 1) * PGSIZE <= MAXVA ->
  0 <= pa -> pa + Z.of_nat n * PGSIZE < 2 ^ 64 -> 0 <= perm < 2 ^ 10 ->
  kmem_inv kend s l -> pt_inv (k_mem s) pt l ->
  (forall va, a <= va < a + (Z.of_nat n + 1) * PGSIZE ->
     pte_valid (translate (k_mem s) pt va) = false) ->
  exists r s', mappages_loop (S n) pt a (a + Z.of_nat n * PGSIZE) pa perm s = Ok r s' /\
    mappages_post s l pt a (Z.of_nat n + 1) pa perm r s'.
Proof.
  revert s l a pa. induction n as [|n IH]; intros s l a pa Ha H0 Hmax Hpa Hpm Hperm Hki Hpi Hfree;
    destruct (map_one s l pt a pa perm Ha H0 ltac:(klia) Hperm Hki Hpi (Hfree a ltac:(klia)))
      as (e & s1 & Hw & [(-> & l1 & k & K & P & X & Hm & Hr)|(He & Hv & l1 & k & K & P & X & Hm & Hr)]);
    rewrite (mappages_loop_S _ _ _ _ _ _ _ _ _ Hw);
    (destruct Hr as [(? & ?)|(? & ? & ?)]; try lia; []).
  - exists (-1), s1. split; [done |]. exists l1, k. split_and!; [done.. | right; split_and!; (done || lia)].
  - rewrite (proj2 (Z.eqb_neq e 0) He), Hv, (proj2 (Z.eqb_eq a (a + Z.of_nat 0 * PGSIZE))) by lia.
    eexists 0, _. split; [done |]. exists l1, k. split_and!; [done.. | left; split; [done | lia]].
  - exists (-1), s1. split; [done |]. exists l1, k. split_and!; [done.. | right; split_and!; (done || lia)].
  - rewrite (proj2 (Z.eqb_neq e 0) He), Hv, (proj2 (Z.eqb_neq a (a + Z.of_nat (S n) * PGSIZE))) by klia.
    cbn zeta. set (s2 := set_k_mem _ s1) in *. clearbody s2. subst k.
    pose proof MAXVA_eq. rewrite !u64_small by klia.
    destruct (IH s2 l1 (a + PGSIZE) (pa + PGSIZE)) as (r & s' & Hloop & l2 & k & K2 & P2 & X2 & Hm2 & Hr);
      [rewrite Zplus_mod, Ha; done | klia | klia | klia | klia | done | done | done | |].
    { intros va Hva. rewrite Hm, decide_False by klia. apply Hfree. klia. }
    replace (a + Z.of_nat (S n) * PGSIZE) with (a + PGSIZE + Z.of_nat n * PGSIZE) by lia.
    exists r, s'. split; [exact Hloop |]. exists l2, (k + 1). split_and!; [done | done | | |].
    + eapply pt_ext_trans; [exact X | exact X2].
    + eapply mapped_cons; [| done | done | exact Hm | exact Hm2]. lia.
    + destruct Hr as [(-> & ->)|(-> & ? & ->)]; [left | right]; split_and!; (done || lia).
Qed.

(** The general shape: any [va] and positive [size] with the last byte below
    [MAXVA]. *)
Lemma mappages_gen s l pt va size pa perm :
  0 <= va -> 0 < size -> va + size <= MAXVA -> 0 <= pa -> pa + size < 2 ^ 63 ->
  0 <= perm < 2 ^ 10 -> kmem_inv kend s l -> pt_inv (k_mem s) pt l ->
  let a := PGROUNDDOWN va in
  let n := (PGROUNDDOWN (va + size - 1) - a) / PGSIZE + 1 in
  (forall x, a <= x < a + n * PGSIZE -> pte_valid (translate (k_mem s) pt x) = false) ->
  exists r s', mappages pt va size pa perm s = Ok r s' /\ mappages_post s l pt a n pa perm r s'.
Proof.
  intros Hva Hsz Hmax Hpa Hpm Hperm Hki Hpi a n Hfree. unfold mappages.
  pose proof MAXVA_eq as HM. rewrite u64_small by klia. fold a. set (last := PGROUNDDOWN (va + size - 1)) in *.
  pose proof (PGROUNDDOWN_bounds va) as Hb1. pose proof (PGROUNDDOWN_bounds (va + size - 1)) as Hb2.
  pose proof (PGROUNDDOWN_aligned va) as Ha1. pose proof (PGROUNDDOWN_aligned (va + size - 1)) as Ha2.
  fold a in Hb1, Ha1. fold last in Hb2, Ha2.
  assert (0 <= a) by (unfold PGSIZE in *; Z.div_mod_to_equations; lia).
  assert (a <= last /\ last = a + (last - a) / PGSIZE * PGSIZE) as [Hle Hl]
    by (unfold PGSIZE in *; Z.div_mod_to_equations; lia).
  rewrite (proj2 (Z.leb_le _ _) Hle).
  assert (0 <= (last - a) / PGSIZE) as Hn by (apply Z.div_pos; klia).
  assert (a + n * PGSIZE <= MAXVA) by (subst n; unfold PGSIZE in *; Z.div_mod_to_equations; lia).
  destruct (mappages_loop_spec (Z.to_nat ((last - a) / PGSIZE)) s l pt a pa perm)
    as (r & s' & Hloop & Hpost); rewrite ?Z2Nat.id by lia; try done; [klia |].
  rewrite Z2Nat.id, <- Hl in Hloop by lia. rewrite Z2Nat.id in Hpost by lia. eauto.
Qed.

End vm.

(** ** Properties *)

(** C21: [mappages] on a range with no valid entry either installs exactly the
    requested translations (and returns 0) or, when the free list runs dry,
    installs those of a proper prefix of the range (and returns -1).  The page
    table stays a tree of allocated pages, every other translation is
    unchanged, and only free pages and page-table pages are written. *)
Theorem mappages_correct (kend : Z) (s : kmem) (l : list Z) (pt va size pa perm : Z) :
  KERNBASE <= kend -> 0 <= va -> 0 < size -> va + size <= MAXVA ->
  0 <= pa -> pa + size < 2 ^ 63 -> 0 <= perm < 2 ^ 10 ->
  kmem_inv kend s l -> pt_inv kend (k_mem s) pt l ->
  let a := PGROUNDDOWN va in
  let n := (PGROUNDDOWN (va + size - 1) - a) / PGSIZE + 1 in
  (forall x, a <= x < a + n * PGSIZE -> pte_valid (translate (k_mem s) pt x) = false) ->
  wp (mappages pt va size pa perm) (fun r s' =>
    exists l' k, kmem_inv kend s' l' /\ pt_inv kend (k_mem s') pt l' /\
      pt_ext pt (k_mem s) l (k_mem s') l' /\ mapped (k_mem s) (k_mem s') pt a k pa perm /\
      ((r = 0 /\ k = n) \/ (r = -1 /\ 0 <= k < n /\ l' = []))) s.
Proof.
  intros Hk H1 H2 H3 H4 H5 H6 H7 H8 a n H9. apply wp_ok. by apply mappages_gen.
Qed.
