(* ===== verification/Uvm.v ===== *)
(** * kernel/vm.c, part 2: user address spaces

    [uvmunmap] through [copyinstr]: creating, growing, shrinking, copying and
    freeing a user address space, and the kernel's accesses to user memory.
    A kernel buffer that is the source or the destination of a copy is the
    list of its bytes.  [uvm_inv] is the ownership invariant of an address
    space; [uvm_ext] is what every operation guarantees: it only touches pages
    of the address space or free pages, and no page is ever lost. *)

From S2P Require Import Prelude Riscv Mem KString Kalloc Vm.

Section uvm.
Context (kend : Z).

(** ** Operations *)

Fixpoint uvmunmap_loop (fuel : nat) (pagetable a stop : Z) (do_free : bool) : M kmem unit :=
  if a <? stop then
    match fuel with
    | O => out_of_fuel
    | S fuel' =>
        let! pte := walk pagetable a false in
        if pte =? 0 then panic "uvmunmap: walk"
        else
          let! v := load64 pte in
          if Z.land v PTE_V =? 0 then panic "uvmunmap: not mapped"
          else if PTE_FLAGS v =? PTE_V then panic "uvmunmap: not a leaf"
          else
            (if do_free then kfree kend (PTE2PA v) else ret tt) ;;;
            store64 pte 0 ;;;
            uvmunmap_loop fuel' pagetable (u64 (a + PGSIZE)) stop do_free
    end
  else ret tt.

(** At most [npages] iterations; none starts at or above [MAXVA], where
    [walk] panics. *)
Definition uvmunmap (pagetable va npages : Z) (do_free : bool) : M kmem unit :=
  if negb (va mod PGSIZE =? 0) then panic "uvmunmap: not aligned"
  else
    let stop := u64 (va + npages * PGSIZE) in
    uvmunmap_loop (S (Z.to_nat ((Z.min stop MAXVA - va) / PGSIZE))) pagetable va stop do_free.

Definition uvmcreate : M kmem Z :=
  let! pagetable := kalloc in
  if pagetable =? 0 then ret 0
  else kmemset pagetable 0 PGSIZE ;;; ret pagetable.

(** [memmove] from a kernel buffer, and to one. *)
Definition copy_to (dst : Z) (src : list Z) (n : Z) : M kmem unit :=
  modify (set_k_mem (fun m => st_bytes m dst (take (Z.to_nat n) src))).
Definition copy_from (src n : Z) : M kmem (list Z) :=
  gets (fun s => bytes (k_mem s) src (Z.to_nat n)).

Definition uvminit (pagetable : Z) (src : list Z) (sz : Z) : M kmem unit :=
  if sz >=? PGSIZE then panic "inituvm: more than a page"
  else
    let! mem := kalloc in
    kmemset mem 0 PGSIZE ;;;
    mappages pagetable 0 PGSIZE mem (Z.lor (Z.lor (Z.lor PTE_W PTE_R) PTE_X) PTE_U) ;;;
    copy_to mem src sz.

(** [npages] is an [int]; [uvmunmap] takes it as a [uint64]. *)
Definition uvmdealloc (pagetable oldsz newsz : Z) : M kmem Z :=
  if newsz >=? oldsz then ret oldsz
  else
    (if PGROUNDUP newsz <? PGROUNDUP oldsz then
       let npages := s32 ((PGROUNDUP oldsz - PGROUNDUP newsz) / PGSIZE) in
       uvmunmap pagetable (PGROUNDUP newsz) (u64 npages) true
     else ret tt) ;;;
    ret newsz.

Fixpoint uvmalloc_loop (fuel : nat) (pagetable oldsz a newsz : Z) : M kmem Z :=
  if a <? newsz then
    match fuel with
    | O => out_of_fuel
    | S fuel' =>
        let! mem := kalloc in
        if mem =? 0 then uvmdealloc pagetable a oldsz ;;; ret 0
        else
          kmemset mem 0 PGSIZE ;;;
          let! r := mappages pagetable a PGSIZE mem
                      (Z.lor (Z.lor (Z.lor PTE_W PTE_X) PTE_R) PTE_U) in
          if negb (r =? 0) then
            kfree kend mem ;;;
            uvmdealloc pagetable a oldsz ;;;
            ret 0
          else uvmalloc_loop fuel' pagetable oldsz (u64 (a + PGSIZE)) newsz
    end
  else ret newsz.

Definition uvmalloc (pagetable oldsz newsz : Z) : M kmem Z :=
  if newsz <? oldsz then ret oldsz
  else
    let oldsz := PGROUNDUP oldsz in
    uvmalloc_loop (S (S (Z.to_nat ((Z.min newsz MAXVA - oldsz) / PGSIZE)))) pagetable oldsz oldsz newsz.

(** The recursion follows valid entries without permissions, so its depth is
    the height of the tree. *)
Fixpoint freewalk (fuel : nat) (pagetable : Z) : M kmem unit :=
  match fuel with
  | O => out_of_fuel
  | S fuel' =>
      let! r := for_range (R := Empty_set) 512 0 (fun i =>
        let! pte := load64 (pagetable + 8 * i) in
        if pte_valid pte && (Z.land pte (Z.lor (Z.lor PTE_R PTE_W) PTE_X) =? 0) then
          let child := PTE2PA pte in
          freewalk fuel' child ;;;
          store64 (pagetable + 8 * i) 0 ;;;
          ret None
        else if pte_valid pte then panic "freewalk: leaf"
        else ret None) in
      kfree kend pagetable
  end.

(** Three levels. *)
Definition uvmfree (pagetable sz : Z) : M kmem unit :=
  (if sz >? 0 then uvmunmap pagetable 0 (PGROUNDUP sz / PGSIZE) true else ret tt) ;;;
  freewalk 3 pagetable.

(** The loop of [uvmcopy]; [Some i] is a jump to [err] with that [i]. *)
Fixpoint uvmcopy_loop (fuel : nat) (old new i sz : Z) : M kmem (option Z) :=
  if i <? sz then
    match fuel with
    | O => out_of_fuel
    | S fuel' =>
        let! pte := walk old i false in
        if pte =? 0 then panic "uvmcopy: pte should exist"
        else
          let! v := load64 pte in
          if Z.land v PTE_V =? 0 then panic "uvmcopy: page not present"
          else
            let pa := PTE2PA v in
            let flags := PTE_FLAGS v in
            let! mem := kalloc in
            if mem =? 0 then ret (Some i)
            else
              modify (set_k_mem (fun m => KString.memmove m mem pa PGSIZE)) ;;;
              let! r := mappages new i PGSIZE mem flags in
              if negb (r =? 0) then kfree kend mem ;;; ret (Some i)
              else uvmcopy_loop fuel' old new (u64 (i + PGSIZE)) sz
    end
  else ret None.

Definition uvmcopy (old new sz : Z) : M kmem Z :=
  let! e := uvmcopy_loop (S (S (Z.to_nat (Z.min sz MAXVA / PGSIZE)))) old new 0 sz in
  match e with
  | None => ret 0
  | Some i => uvmunmap new 0 (i / PGSIZE) true ;;; ret (-1)
  end.

Definition uvmclear (pagetable va : Z) : M kmem unit :=
  let! pte := walk pagetable va false in
  if pte =? 0 then panic "uvmclear"
  else
    let! v := load64 pte in
    store64 pte (Z.land v (Z.lnot PTE_U)).

(** ** Ownership *)

(** User virtual page [va] is mapped to the physical page [p]. *)
Definition maps (m : mem) (pt va p : Z) : Prop :=
  0 <= va < TRAPFRAME /\ pte_valid (translate m pt va) = true /\ PTE2PA (translate m pt va) = p.

Definition owns (m : mem) (pt p : Z) : Prop := is_node m pt p \/ exists va, maps m pt va p.

(** The user pages are allocated pages, outside the tree, each mapped once,
    and every leaf has a permission bit. *)
Record uvm_inv (m : mem) (pt : Z) (l : list Z) : Prop := UvmInv {
  ui_pt : pt_inv kend m pt l;
  ui_leaf : forall va p, maps m pt va p -> page_ok kend p /\ (p ∉ l) /\ ~ is_node m pt p;
  ui_inj : forall va va' p, maps m pt va p -> maps m pt va' p -> va / PGSIZE = va' / PGSIZE;
  ui_perm : forall va p, maps m pt va p -> PTE_FLAGS (translate m pt va) <> PTE_V;
}.

(** What an operation guarantees: the pages of the address space and the
    free pages are conserved, and no other page is written. *)
Record uvm_ext (pt : Z) (m : mem) (l : list Z) (m' : mem) (l' : list Z) : Prop := UvmExt {
  ue_pages : forall p, owns m' pt p \/ p ∈ l' <-> owns m pt p \/ p ∈ l;
  ue_frame : forall x, (forall p, owns m pt p -> ~ in_page p x) ->
    (forall p, p ∈ l -> ~ in_page p x) -> ld8 m' x = ld8 m x;
}.

(** The byte user code sees at [va]. *)
Definition ubyte (m : mem) (pt va : Z) : Z :=
  ld8 m (PTE2PA (translate m pt va) + va mod PGSIZE).

Context (kend_ram : KERNBASE <= kend).

Lemma uvm_ext_refl pt m l : uvm_ext pt m l m l.
Proof. by split. Qed.

Lemma uvm_ext_trans pt m1 l1 m2 l2 m3 l3 :
  uvm_ext pt m1 l1 m2 l2 -> uvm_ext pt m2 l2 m3 l3 -> uvm_ext pt m1 l1 m3 l3.
Proof.
  intros [P1 F1] [P2 F2]. split.
  - intros p. by rewrite P2.
  - intros x Hx Hl. rewrite F2, F1; try done.
    + intros p Hp. destruct (proj1 (P1 p) (or_introl Hp)); [by apply Hx | by apply Hl].
    + intros p Hp. destruct (proj1 (P1 p) (or_intror Hp)); [by apply Hx | by apply Hl].
Qed.

Lemma owns_ok m pt l p : uvm_inv m pt l -> owns m pt p -> page_ok kend p /\ p ∉ l.
Proof.
  intros [Hpt Hl _ _] [H|[va H]].
  - split; [by apply (pi_ok _ _ _ _ Hpt) | by apply (pi_used _ _ _ _ Hpt)].
  - by destruct (Hl va p H) as (? & ? & _).
Qed.

Lemma pt_inv_pages m pt l l' :
  pt_inv kend m pt l -> (forall p, p ∈ l' -> ~ is_node m pt p) -> pt_inv kend m pt l'.
Proof. intros [H1 H2 H3 H4 H5] Hl. split; try done. intros p Hp Hpl. by apply (Hl p). Qed.

(** An address space only depends on its own pages. *)
Lemma uvm_inv_frame m m' pt l l' :
  uvm_inv m pt l ->
  (forall p, is_node m pt p -> forall x, in_page p x -> ld8 m' x = ld8 m x) ->
  (forall p, p ∈ l' -> ~ owns m pt p) ->
  uvm_inv m' pt l' /\ (forall va, translate m' pt va = translate m pt va) /\
  (forall p, owns m' pt p <-> owns m pt p).
Proof.
  intros [Hpt Hl Hi Hp] Hf Hl'.
  destruct (pt_inv_frame _ _ m' _ _ Hpt Hf) as (Hn & Hpt' & Ht).
  assert (forall p, is_node m' pt p <-> is_node m pt p) as Hin.
  { intros p. split; intros (k & va & Hk & Hq); exists k, va; (split; [done |]);
      [rewrite Hn in Hq by done | rewrite Hn by done]; done. }
  assert (forall va p, maps m' pt va p <-> maps m pt va p) as Hm.
  { intros va p. unfold maps. by rewrite Ht. }
  split_and!; [split | done |].
  - apply (pt_inv_pages _ _ l); [done |]. intros p Hpl Hp'. apply (Hl' p Hpl). left. by apply Hin.
  - intros va p H%Hm. destruct (Hl va p H) as (? & ? & ?). rewrite Hin. split_and!; [done | | done].
    intros Hpl. apply (Hl' p Hpl). right. eauto.
  - intros va va' p H%Hm H'%Hm. eauto.
  - intros va p H%Hm. rewrite Ht. eauto.
  - intros p. unfold owns. rewrite Hin. setoid_rewrite Hm. done.
Qed.

(** ** Mapping one page *)

Lemma TRAPFRAME_MAXVA : TRAPFRAME + 2 * PGSIZE = MAXVA.
Proof. done. Qed.

Lemma PTE2PA_leaf q perm : page_ok kend q -> 0 <= perm < 2 ^ 10 -> PTE2PA (leaf q perm) = q.
Proof.
  intros Hq Hp. pose proof (page_ok_range _ kend_ram _ Hq) as [Hr Ha]. rewrite leaf_flags.
  apply PTE2PA_pte; [klia | done |]. apply lor_low_range; [lia | done | rewrite PTE_V_eq; lia].
Qed.

Lemma PTE_FLAGS_leaf q perm :
  page_ok kend q -> 0 <= perm < 2 ^ 10 -> PTE_FLAGS (leaf q perm) = Z.lor perm PTE_V.
Proof.
  intros Hq Hp. pose proof (page_ok_range _ kend_ram _ Hq) as [Hr Ha]. rewrite leaf_flags.
  apply PTE_FLAGS_pte; [klia |]. apply lor_low_range; [lia | done | rewrite PTE_V_eq; lia].
Qed.

(** The tree grew and the leaves are those of [m], but for the new one. *)
Definition add_leaf (m m' : mem) (pt a q perm : Z) : Prop :=
  forall va, 0 <= va < MAXVA ->
    translate m' pt va =
    if decide (a <= va < a + PGSIZE) then leaf q perm else translate m pt va.

Lemma maps_add_leaf m m' pt a q perm va p :
  a mod PGSIZE = 0 -> page_ok kend q -> 0 <= perm < 2 ^ 10 -> add_leaf m m' pt a q perm ->
  maps m' pt va p <->
  0 <= va < TRAPFRAME /\ a <= va < a + PGSIZE /\ p = q \/ ~ a <= va < a + PGSIZE /\ maps m pt va p.
Proof.
  intros Ha Hq Hp Hadd. pose proof TRAPFRAME_MAXVA. unfold maps. split.
  - intros (Hva & Hv & Hpa). rewrite (Hadd va) in Hv, Hpa by klia.
    case_decide as Hd; [left | right]; split_and!; try done; try lia.
    by rewrite PTE2PA_leaf in Hpa.
  - intros [(Hva & Hd & ->)|(Hd & Hva & Hv & Hpa)]; rewrite (Hadd va) by klia.
    + rewrite decide_True by done. split_and!; [lia.. | apply leaf_valid | by apply PTE2PA_leaf].
    + rewrite decide_False by done. done.
Qed.

Lemma maps_same m m' pt va p :
  (forall va, 0 <= va < MAXVA -> translate m' pt va = translate m pt va) ->
  maps m' pt va p <-> maps m pt va p.
Proof.
  intros H. pose proof TRAPFRAME_MAXVA. unfold maps. split; intros (Hva & Hv & Hpa).
  - by rewrite (H va) in Hv, Hpa by klia.
  - by rewrite (H va) by klia.
Qed.

Lemma pages_eq a va va' : a mod PGSIZE = 0 ->
  a <= va < a + PGSIZE -> a <= va' < a + PGSIZE -> va / PGSIZE = va' / PGSIZE.
Proof. unfold PGSIZE. intros. Z.div_mod_to_equations. lia. Qed.

(** After [walk]s that only grew the tree. *)
Lemma uvm_inv_grow m l m' l' pt :
  uvm_inv m pt l -> pt_inv kend m' pt l' -> pt_ext pt m l m' l' ->
  (forall va, 0 <= va < MAXVA -> translate m' pt va = translate m pt va) ->
  uvm_inv m' pt l' /\ uvm_ext pt m l m' l'.
Proof.
  intros [Hpt Hl Hi Hp] Hpt' [[u Hu] _ HP HF] Ht. pose proof TRAPFRAME_MAXVA as HT.
  pose proof (fun va p => maps_same m m' pt va p Ht) as Hm. split; [split |].
  - done.
  - intros va p H%Hm. destruct (Hl va p H) as (? & Hpl & Hpn). split_and!; [done | |].
    + intros ?. apply Hpl. subst. set_solver.
    + intros Hn. by destruct (proj1 (HP p) (or_introl Hn)).
  - intros va va' p H1%Hm H2%Hm. eauto.
  - intros va p H%Hm. rewrite Ht; [eauto | destruct H as [? _]; klia].
  - split; [| intros x Hx; apply HF; intros p Hpn; apply Hx; by left].
    intros p. unfold owns. setoid_rewrite Hm. specialize (HP p). tauto.
Qed.

(** After one leaf was added for a page [q] that nobody owned. *)
Lemma uvm_inv_add m l m' l' pt a q perm :
  uvm_inv m pt l -> pt_inv kend m' pt l' -> pt_ext pt m l m' l' ->
  a mod PGSIZE = 0 -> 0 <= a -> a + PGSIZE <= TRAPFRAME ->
  0 <= perm < 2 ^ 10 -> Z.lor perm PTE_V <> PTE_V ->
  page_ok kend q -> q ∉ l -> ~ owns m pt q -> pte_valid (translate m pt a) = false ->
  add_leaf m m' pt a q perm ->
  uvm_inv m' pt l' /\ (forall p, owns m' pt p \/ p ∈ l' <-> owns m pt p \/ p ∈ l \/ p = q).
Proof.
  intros [Hpt Hl Hi Hp] Hpt' [[u Hu] _ HP HF] Ha H0 Hmax Hperm Hnv Hq Hql Hqo Hfree Hadd.
  pose proof TRAPFRAME_MAXVA as HT.
  pose proof (fun va p => maps_add_leaf m m' pt a q perm va p Ha Hq Hperm Hadd) as Hm.
  assert (~ is_node m' pt q) as Hqn.
  { intros Hn. destruct (proj1 (HP q) (or_introl Hn)); [| done]. apply Hqo. by left. }
  split; [split |].
  - done.
  - intros va p [(Hva & Hd & ->)|(Hd & H)]%Hm.
    + split_and!; [done | subst; set_solver | done].
    + destruct (Hl va p H) as (? & Hpl & Hpn). split_and!; [done | subst; set_solver |].
      intros Hn. by destruct (proj1 (HP p) (or_introl Hn)).
  - intros va va' p [(Hva & Hd & ->)|(Hd & H)]%Hm [(Hva' & Hd' & E)|(Hd' & H')]%Hm; subst.
    + by apply (pages_eq a).
    + destruct Hqo. right. eauto.
    + destruct Hqo. right. eauto.
    + eauto.
  - intros va p H. pose proof H as [(Hva & Hd & ->)|(Hd & H')]%Hm; rewrite (Hadd va) by (destruct H; klia).
    + rewrite decide_True, PTE_FLAGS_leaf by done. done.
    + rewrite decide_False by done. eauto.
  - intros p. unfold owns. setoid_rewrite Hm. specialize (HP p). split.
    + intros [[Hn|(va & [(_ & _ & ->)|(_ & H)])]|Hpl]; [| tauto | eauto |]; tauto.
    + intros [[Hn|(va & H)]|[Hpl| ->]]; [tauto | | tauto |].
      * left. right. exists va. right. split; [| done]. intros Hd.
        destruct H as (Hva & Hv & _).
        rewrite (translate_page m pt va a) in Hv; [congruence | klia | klia |].
        apply (pages_eq a); [done | lia | klia].
      * left. right. exists a. left. klia.
Qed.

Lemma mappages_page s l pt a q perm :
  a mod PGSIZE = 0 -> 0 <= a -> a + PGSIZE <= MAXVA -> 0 <= perm < 2 ^ 10 ->
  page_ok kend q -> kmem_inv kend s l -> pt_inv kend (k_mem s) pt l ->
  pte_valid (translate (k_mem s) pt a) = false ->
  wp (mappages pt a PGSIZE q perm) (fun r s' => exists l',
    kmem_inv kend s' l' /\ pt_inv kend (k_mem s') pt l' /\ pt_ext pt (k_mem s) l (k_mem s') l' /\
    (r = 0 /\ add_leaf (k_mem s) (k_mem s') pt a q perm \/
     r = -1 /\ l' = [] /\
     forall va, 0 <= va < MAXVA -> translate (k_mem s') pt va = translate (k_mem s) pt va)) s.
Proof.
  intros Ha H0 Hmax Hperm Hq Hki Hpt Hfree. apply wp_ok.
  pose proof (page_ok_range _ kend_ram _ Hq) as [Hqr Hqa].
  assert (PGROUNDDOWN a = a) as Ea by by apply PGROUNDDOWN_id.
  assert (PGROUNDDOWN (a + PGSIZE - 1) = a) as Eb.
  { rewrite PGROUNDDOWN_eq. unfold PGSIZE in *. Z.div_mod_to_equations. lia. }
  destruct (mappages_gen kend kend_ram s l pt a PGSIZE q perm) as (r & s' & Hr & Hpost);
    try done; try klia; rewrite ?Eb, ?Ea, ?Z.sub_diag in *; change (0 / PGSIZE + 1) with 1 in *.
  { intros x Hx. rewrite (translate_page _ pt x a); [done | klia.. |].
    apply (pages_eq a); [done | lia | klia]. }
  exists r, s'. split; [done |].
  destruct Hpost as (l' & k & Hk & Hp & He & Hm & Hc). exists l'. split_and!; [done.. |].
  destruct Hc as [(-> & ->)|(-> & Hk01 & ->)]; [left | right]; split_and!; try done.
  - intros va Hva. rewrite Hm, Z.mul_1_l by done. case_decide as Hd; [| done]. f_equal.
    rewrite PGROUNDDOWN_eq. unfold PGSIZE in *. Z.div_mod_to_equations. lia.
  - intros va Hva. assert (k = 0) as -> by lia. by rewrite Hm, decide_False by lia.
Qed.

(** The state of an address space while the kernel holds the page [q]. *)
Definition map_post (m : mem) (l : list Z) (pt a q perm r : Z) (s' : kmem) : Prop :=
  exists l', kmem_inv kend s' l' /\ uvm_inv (k_mem s') pt l' /\
    (forall x, (forall p, is_node m pt p -> ~ in_page p x) ->
       (forall p, p ∈ l -> ~ in_page p x) -> ld8 (k_mem s') x = ld8 m x) /\
    (forall p, p ∈ l' -> p ∈ l) /\
    (forall p, is_node (k_mem s') pt p -> is_node m pt p \/ p ∈ l) /\
    (r = 0 /\ add_leaf m (k_mem s') pt a q perm /\
       (forall p, owns (k_mem s') pt p \/ p ∈ l' <-> owns m pt p \/ p ∈ l \/ p = q) \/
     r = -1 /\ l' = [] /\ uvm_ext pt m l (k_mem s') l' /\
       forall va, 0 <= va < MAXVA -> translate (k_mem s') pt va = translate m pt va).

Lemma map_page s l pt a q perm :
  a mod PGSIZE = 0 -> 0 <= a -> a + PGSIZE <= TRAPFRAME ->
  0 <= perm < 2 ^ 10 -> Z.lor perm PTE_V <> PTE_V ->
  kmem_inv kend s l -> uvm_inv (k_mem s) pt l ->
  page_ok kend q -> q ∉ l -> ~ owns (k_mem s) pt q ->
  pte_valid (translate (k_mem s) pt a) = false ->
  wp (mappages pt a PGSIZE q perm) (map_post (k_mem s) l pt a q perm) s.
Proof.
  intros Ha H0 Hmax Hperm Hnv Hki Hu Hq Hql Hqo Hfree. pose proof TRAPFRAME_MAXVA.
  eapply wp_mono; [apply (mappages_page s l); try done; [klia | apply (ui_pt _ _ _ Hu)] |].
  intros r s' (l' & K & P & X & Hc). exists l'. pose proof (pe_suffix _ _ _ _ _ X) as [u Hu'].
  destruct Hc as [(-> & Hadd)|(-> & -> & Ht)].
  - destruct (uvm_inv_add _ _ _ _ _ _ _ _ Hu P X Ha H0 Hmax Hperm Hnv Hq Hql Hqo Hfree Hadd) as [Hu2 Hp].
    split_and!; [done | done | apply X | subst; set_solver | | left; done].
    intros p Hn. apply (pe_pages _ _ _ _ _ X). by left.
  - destruct (uvm_inv_grow _ _ _ _ _ Hu P X Ht) as [Hu2 Hp].
    split_and!; [done | done | apply X | subst; set_solver | | right; done].
    intros p Hn. apply (pe_pages _ _ _ _ _ X). by left.
Qed.

(** ** Unmapping *)

(** The end of an iteration of [uvmunmap]. *)
Lemma unmap_step s l pt a q (df : bool) :
  kmem_inv kend s l -> pt_inv kend (k_mem s) pt l -> node 2 (k_mem s) pt a = Some q ->
  let p := PTE2PA (translate (k_mem s) pt a) in
  (df = true -> page_ok kend p /\ (p ∉ l) /\ ~ is_node (k_mem s) pt p) ->
  wp ((if df then kfree kend p else ret tt) ;;; store64 (q + 8 * idx 2 a) 0)
    (fun _ s' =>
       let l' := if df then p :: l else l in
       kmem_inv kend s' l' /\ pt_inv kend (k_mem s') pt l' /\
       (forall p', is_node (k_mem s') pt p' <-> is_node (k_mem s) pt p') /\
       (forall va, translate (k_mem s') pt va =
          if decide (same_prefix 3 a va) then 0 else translate (k_mem s) pt va) /\
       (forall x, (forall p', is_node (k_mem s) pt p' -> ~ in_page p' x) ->
          ~ (df = true /\ in_page p x) -> ld8 (k_mem s') x = ld8 (k_mem s) x)) s.
Proof.
  intros Hki Hpt Hq p Hdf. apply wp_bind.
  assert (is_node (k_mem s) pt q) as Hiq by by exists 2%nat, a.
  apply wp_mono with (Q := fun _ s1 => kmem_inv kend s1 (if df then p :: l else l) /\
    forall x, ~ (df = true /\ in_page p x) -> ld8 (k_mem s1) x = ld8 (k_mem s) x).
  { destruct df; [| by apply wp_ret]. destruct Hdf as (Hok & Hpl & _); [done |].
    destruct (kfree_spec kend kend_ram p s l) as (s1 & Hk & Hki1 & Hf); try done.
    apply wp_ok. exists tt, s1. split_and!; [done.. |]. intros x Hx. apply Hf. naive_solver. }
  intros _ s1 [Hki1 Hf].
  destruct (pt_inv_frame kend (k_mem s) (k_mem s1) pt l) as (Hn1 & Hpt1 & Ht1); [done | |].
  { intros p' Hp' x Hx. apply Hf. intros [E Hxp]. destruct (Hdf E) as ([Hpa _] & _ & Hpn).
    destruct (pi_ok _ _ _ _ Hpt p' Hp') as [Hp'a _].
    apply (pages_disjoint p p' x); [done | done | | done | done]. intros E'. by rewrite E' in Hpn. }
  assert (forall p', is_node (k_mem s1) pt p' <-> is_node (k_mem s) pt p') as Hin1.
  { intros p'. split; intros (k & va & Hk & Hp'); exists k, va; (split; [done |]);
      [rewrite Hn1 in Hp' by done | rewrite Hn1 by done]; done. }
  apply (pt_inv_pages _ _ _ (if df then p :: l else l)) in Hpt1.
  2:{ intros p' Hp' Hpn%Hin1. destruct df; [| by apply (pi_used _ _ _ _ Hpt p')].
      apply elem_of_cons in Hp' as [->|Hp']; [by destruct Hdf as (_ & _ & ?) |].
      by apply (pi_used _ _ _ _ Hpt p'). }
  assert (node 2 (k_mem s1) pt a = Some q) as Hq1 by by rewrite Hn1 by lia.
  destruct (leaf_store _ _ _ _ _ _ 0 Hpt1 Hq1 ltac:(lia)) as (Hn2 & Hpt2 & Hx2 & Ht2).
  apply wp_modify. unfold set_k_mem. cbn [k_mem]. split_and!.
  - eapply kmem_inv_store; [done | done | exact Hpt1 | by apply Hin1 | apply idx_range; lia].
  - done.
  - intros p'. rewrite <- Hin1. split; intros (k & va & Hk & Hp'); exists k, va; (split; [done |]);
      [rewrite Hn2 in Hp' by done | rewrite Hn2 by done]; done.
  - intros va. rewrite Ht2. by rewrite Ht1.
  - intros x Hx Hd. rewrite ld8_st64_ne; [by apply Hf |]. specialize (Hx q Hiq).
    pose proof (idx_range 2 a ltac:(lia)). unfold in_page in Hx. klia.
Qed.

Lemma translate_valid m pt a :
  pte_valid (translate m pt a) = true -> exists q, node 2 m pt a = Some q.
Proof. unfold translate. destruct (node 2 m pt a); [eauto | done]. Qed.

Lemma node2_entry_pos m pt l a q :
  pt_inv kend m pt l -> node 2 m pt a = Some q -> q + 8 * idx 2 a <> 0.
Proof.
  intros Hpt Hq. pose proof (idx_range 2 a ltac:(lia)).
  pose proof (page_ok_pos _ kend_ram _ (pi_ok _ _ _ _ Hpt q ltac:(by exists 2%nat, a))). lia.
Qed.

Lemma pte_valid_land v : pte_valid v = true -> (Z.land v PTE_V =? 0) = false.
Proof. unfold pte_valid. by destruct (Z.land v PTE_V =? 0). Qed.

(** One iteration on a mapped page. *)
Lemma uvmunmap_loop_S fuel pt a stop df s l q :
  a < stop -> a < MAXVA -> pt_inv kend (k_mem s) pt l -> node 2 (k_mem s) pt a = Some q ->
  let v := translate (k_mem s) pt a in
  pte_valid v = true -> PTE_FLAGS v <> PTE_V ->
  uvmunmap_loop (S fuel) pt a stop df s =
  (((if df then kfree kend (PTE2PA v) else ret tt) ;;; store64 (q + 8 * idx 2 a) 0) ;;;
   uvmunmap_loop fuel pt (u64 (a + PGSIZE)) stop df) s.
Proof.
  intros Hs Hmax Hpt Hq v Hv Hfl. cbn [uvmunmap_loop]. rewrite (proj2 (Z.ltb_lt _ _) Hs).
  unfold bind at 1. rewrite walk_lookup, Hq by done.
  rewrite (proj2 (Z.eqb_neq _ _) (node2_entry_pos _ _ _ _ _ Hpt Hq)).
  assert (ld64 (k_mem s) (q + 8 * idx 2 a) = v) as Ev by (unfold v, translate; by rewrite Hq).
  unfold bind at 1, load64, gets. rewrite Ev, pte_valid_land by done.
  rewrite (proj2 (Z.eqb_neq _ _) Hfl). unfold bind.
  by destruct ((if df then kfree kend (PTE2PA v) else ret tt) s).
Qed.

Definition unmapped (m m' : mem) (pt a n : Z) : Prop :=
  forall va, 0 <= va < MAXVA ->
    translate m' pt va = if decide (a <= va < a + n * PGSIZE) then 0 else translate m pt va.

Lemma maps_unmapped m m' pt a n va p :
  unmapped m m' pt a n ->
  maps m' pt va p <-> ~ (a <= va < a + n * PGSIZE) /\ maps m pt va p.
Proof.
  intros H. pose proof TRAPFRAME_MAXVA. unfold maps. split.
  - intros (Hva & Hv & Hpa). rewrite (H va) in Hv, Hpa by klia. by case_decide.
  - intros (Hd & Hva & Hv & Hpa). by rewrite (H va), decide_False by klia.
Qed.

Lemma maps_page m pt a va p :
  a mod PGSIZE = 0 -> 0 <= a -> a + PGSIZE <= TRAPFRAME -> a <= va < a + PGSIZE ->
  maps m pt a p -> maps m pt va p.
Proof.
  intros Ha H0 Hmax Hva (_ & Hv & Hp). pose proof TRAPFRAME_MAXVA. unfold maps.
  rewrite (translate_page m pt va a); [split_and!; (done || lia) | klia.. |].
  apply (pages_eq a); (done || klia).
Qed.

(** What [uvmunmap] with [do_free] leaves; [ps] are the pages it freed. *)
Definition unmap_post (m : mem) (l : list Z) (pt a n : Z) (ps : list Z) (s' : kmem) : Prop :=
  Z.of_nat (length ps) = n /\
  kmem_inv kend s' (ps ++ l) /\ uvm_inv (k_mem s') pt (ps ++ l) /\
  uvm_ext pt m l (k_mem s') (ps ++ l) /\ unmapped m (k_mem s') pt a n /\
  (forall p, p ∈ ps -> exists va, a <= va < a + n * PGSIZE /\ maps m pt va p) /\
  (forall p, is_node (k_mem s') pt p <-> is_node m pt p) /\
  (forall x, (forall p, is_node m pt p -> ~ in_page p x) ->
     (forall p, p ∈ ps -> ~ in_page p x) -> ld8 (k_mem s') x = ld8 m x).

Lemma unmap_page s l pt a q p :
  a mod PGSIZE = 0 -> 0 <= a -> a + PGSIZE <= TRAPFRAME ->
  kmem_inv kend s l -> uvm_inv (k_mem s) pt l ->
  node 2 (k_mem s) pt a = Some q -> maps (k_mem s) pt a p ->
  wp (kfree kend p ;;; store64 (q + 8 * idx 2 a) 0)
    (fun _ => unmap_post (k_mem s) l pt a 1 [p]) s.
Proof.
  intros Ha H0 Hmax Hki Hu Hq Hp. pose proof TRAPFRAME_MAXVA as HT.
  pose proof (ui_leaf _ _ _ Hu _ _ Hp) as (Hok & Hpl & Hpn).
  pose proof (unmap_step s l pt a q true Hki (ui_pt _ _ _ Hu) Hq) as Hstep. cbn zeta in Hstep.
  pose proof Hp as (Hva & Hv & Epa). rewrite Epa in Hstep.
  eapply wp_mono; [by apply Hstep |].
  clear Hstep. intros _ s' (K & P & N & T & F). unfold unmap_post. change ([p] ++ l) with (p :: l).
  assert (unmapped (k_mem s) (k_mem s') pt a 1) as Hun.
  { intros va Hva'. rewrite T, Z.mul_1_l. pose proof (same_page a va Ha ltac:(klia) Hva').
    repeat case_decide; tauto. }
  pose proof (fun va p => maps_unmapped _ _ _ _ _ va p Hun) as Hm.
  assert (forall va, maps (k_mem s) pt va p -> a <= va < a + 1 * PGSIZE) as Honly.
  { intros va H. pose proof (ui_inj _ _ _ Hu va a p H Hp). unfold PGSIZE in *.
    Z.div_mod_to_equations. lia. }
  split_and!; [done | done | split | split | done | | done |].
  - done.
  - intros va p' [Hd H]%Hm. destruct (ui_leaf _ _ _ Hu va p' H) as (? & ? & ?). rewrite N.
    split_and!; [done | | done]. intros [->|?]%elem_of_cons; [by apply Hd, Honly | done].
  - intros va va' p' [_ H1]%Hm [_ H2]%Hm. by apply (ui_inj _ _ _ Hu va va' p').
  - intros va p' [Hd H]%Hm. rewrite (Hun va), decide_False by (destruct H; klia).
    by apply (ui_perm _ _ _ Hu va p').
  - intros p'. unfold owns. setoid_rewrite Hm. rewrite N, elem_of_cons. split.
    + intros [[?|(va & _ & ?)]|[->|?]]; eauto.
    + intros [[?|(va & H)]|?]; [by auto | | by auto].
      destruct (decide (a <= va < a + 1 * PGSIZE)) as [Hd|Hd]; [| left; right; eauto].
      right. left. destruct H as (_ & _ & <-). rewrite <- Epa. f_equal.
      apply translate_page; [klia.. |]. apply (pages_eq a); (done || klia).
  - intros x Hx Hl. apply F; [intros; apply Hx; by left |]. intros [_ ?].
    apply (Hx p); [right; eauto | done].
  - intros p' ->%list_elem_of_singleton. exists a. split; [klia | done].
  - intros x Hx Hl. apply F; [done |]. intros [_ ?]. apply (Hl p); [set_solver + | done].
Qed.

Lemma unmap_post_cons m l pt a n ps1 ps2 s1 s' :
  0 <= n -> unmap_post m l pt a 1 ps1 s1 ->
  unmap_post (k_mem s1) (ps1 ++ l) pt (a + PGSIZE) n ps2 s' ->
  unmap_post m l pt a (n + 1) (ps2 ++ ps1) s'.
Proof.
  intros Hn (L1 & K1 & U1 & X1 & T1 & P1 & N1 & F1) (L2 & K2 & U2 & X2 & T2 & P2 & N2 & F2).
  unfold unmap_post. rewrite <- (assoc_L (++)).
  split_and!; [rewrite length_app; lia | done | done | by eapply uvm_ext_trans | | | |].
  - intros va Hva. rewrite T2, T1 by done. repeat case_decide; (done || klia).
  - intros p [Hp|Hp]%elem_of_app.
    + destruct (P2 p Hp) as (va & Hva & Hm). exists va. split; [klia |].
      by apply (maps_unmapped _ _ _ _ _ _ _ T1) in Hm as [_ ?].
    + destruct (P1 p Hp) as (va & Hva & Hm). exists va. split; [klia | done].
  - intros p. by rewrite N2.
  - intros x Hx Hp. rewrite F2, F1; [done | done | | |].
    + intros p ?. apply Hp. set_solver.
    + intros p Hpn%N1. by apply Hx.
    + intros p ?. apply Hp. set_solver.
Qed.

Lemma unmap_post_nil s l pt a :
  kmem_inv kend s l -> uvm_inv (k_mem s) pt l -> unmap_post (k_mem s) l pt a 0 [] s.
Proof.
  intros Hki Hu. unfold unmap_post. cbn [app].
  split_and!; [done | done | done | apply uvm_ext_refl | | set_solver | done | done].
  intros va Hva. by rewrite decide_False by lia.
Qed.

Lemma uvmunmap_loop_done fuel pt a df s : uvmunmap_loop fuel pt a a df s = Ok tt s.
Proof. destruct fuel; cbn [uvmunmap_loop]; by rewrite Z.ltb_irrefl. Qed.

Lemma uvmunmap_loop_spec n s l pt a :
  a mod PGSIZE = 0 -> 0 <= a -> a + Z.of_nat n * PGSIZE <= TRAPFRAME ->
  kmem_inv kend s l -> uvm_inv (k_mem s) pt l ->
  (forall va, a <= va < a + Z.of_nat n * PGSIZE -> pte_valid (translate (k_mem s) pt va) = true) ->
  forall fuel, (n <= fuel)%nat ->
  wp (uvmunmap_loop fuel pt a (a + Z.of_nat n * PGSIZE) true)
    (fun _ s' => exists ps, unmap_post (k_mem s) l pt a (Z.of_nat n) ps s') s.
Proof.
  revert s l a. induction n as [|n IH]; intros s l a Ha H0 Hmax Hki Hu Hall fuel Hf.
  { apply wp_ok. exists tt, s. rewrite Z.mul_0_l, Z.add_0_r.
    split; [apply uvmunmap_loop_done | exists []; by apply unmap_post_nil]. }
  pose proof TRAPFRAME_MAXVA as HT; pose proof MAXVA_eq as HM.
  destruct fuel as [|fuel]; [lia |].
  pose proof (Hall a ltac:(klia)) as Hv. destruct (translate_valid _ _ _ Hv) as [q Hq].
  set (p := PTE2PA (translate (k_mem s) pt a)).
  assert (maps (k_mem s) pt a p) as Hp by (split; [klia | by split]).
  eapply wp_eq.
  { apply (uvmunmap_loop_S fuel pt a _ true s l q); [klia | klia | apply Hu | exact Hq | exact Hv |].
    by apply (ui_perm _ _ _ Hu a p). }
  apply wp_bind. eapply wp_mono.
  { apply (unmap_page s l pt a q); [exact Ha | exact H0 | klia | exact Hki | exact Hu | exact Hq | exact Hp]. }
  intros [] s1 H1. rewrite u64_small by klia.
  pose proof H1 as (L1 & K1 & U1 & X1 & T1 & _).
  replace (a + Z.of_nat (S n) * PGSIZE) with (a + PGSIZE + Z.of_nat n * PGSIZE) by klia.
  eapply wp_mono; [apply (IH s1 ([p] ++ l)); [| klia | klia | exact K1 | exact U1 | | lia] |].
  - rewrite Zplus_mod, Ha. done.
  - intros va Hva. rewrite T1, decide_False by klia. apply Hall. klia.
  - intros _ s' [ps H2]. exists (ps ++ [p]). replace (Z.of_nat (S n)) with (Z.of_nat n + 1) by lia.
    eapply unmap_post_cons; [lia | exact H1 | exact H2].
Qed.

(** [uvmunmap] of a mapped range succeeds and frees its pages. *)
Lemma wp_uvmunmap s l pt a n :
  a mod PGSIZE = 0 -> 0 <= a -> 0 <= n -> a + n * PGSIZE <= TRAPFRAME ->
  kmem_inv kend s l -> uvm_inv (k_mem s) pt l ->
  (forall va, a <= va < a + n * PGSIZE -> pte_valid (translate (k_mem s) pt va) = true) ->
  wp (uvmunmap pt a n true) (fun _ s' => exists ps, unmap_post (k_mem s) l pt a n ps s') s.
Proof.
  intros Ha H0 Hn Hmax Hki Hu Hall. unfold uvmunmap. rewrite Ha. cbn [negb Z.eqb].
  pose proof TRAPFRAME_MAXVA as HT. pose proof MAXVA_eq as HM.
  rewrite u64_small, Z.min_l by klia. replace (a + n * PGSIZE - a) with (n * PGSIZE) by lia.
  rewrite Z.div_mul by done.
  replace n with (Z.of_nat (Z.to_nat n)) by lia.
  apply uvmunmap_loop_spec; rewrite ?Z2Nat.id by lia; (done || lia).
Qed.

(** ** Pages the kernel holds *)

(** [q] is allocated and belongs neither to [pt] nor to the free list. *)
Definition held (m : mem) (pt : Z) (l : list Z) (q : Z) : Prop :=
  page_ok kend q /\ (q ∉ l) /\ ~ owns m pt q.

(** [m] and [m'] only differ inside page [q]. *)
Definition only_page (q : Z) (m m' : mem) : Prop := forall x, ~ in_page q x -> ld8 m' x = ld8 m x.

(** [m'] has the same address space [pt] as [m]. *)
Definition same_space (pt : Z) (m m' : mem) : Prop :=
  (forall p, is_node m' pt p <-> is_node m pt p) /\
  (forall va, translate m' pt va = translate m pt va) /\
  (forall p, owns m' pt p <-> owns m pt p).

Lemma same_space_trans pt m1 m2 m3 :
  same_space pt m1 m2 -> same_space pt m2 m3 -> same_space pt m1 m3.
Proof.
  intros (N1 & T1 & O1) (N2 & T2 & O2). split_and!; intros.
  - by rewrite N2.
  - by rewrite T2.
  - by rewrite O2.
Qed.

Lemma uvm_inv_only m m' pt l l' q :
  uvm_inv m pt l -> page_ok kend q -> ~ owns m pt q -> only_page q m m' ->
  (forall p, p ∈ l' -> p = q \/ p ∈ l) ->
  uvm_inv m' pt l' /\ same_space pt m m'.
Proof.
  intros Hu Hq Hqo Ho Hl'.
  assert (forall p, is_node m pt p -> forall x, in_page p x -> ld8 m' x = ld8 m x) as Hf.
  { intros p Hp x Hx. apply Ho. destruct (pi_ok _ _ _ _ (ui_pt _ _ _ Hu) p Hp) as [Ha _].
    apply (pages_disjoint p q); [done | apply Hq | | done]. intros ->. apply Hqo. by left. }
  destruct (uvm_inv_frame m m' pt l l' Hu Hf) as (Hu' & Ht & Hw).
  { intros p Hp Hpo. destruct (Hl' p Hp) as [->|Hpl]; [done |].
    by destruct (owns_ok _ _ _ _ Hu Hpo). }
  split; [done |]. split; [| by split].
  intros p. destruct (pt_inv_frame _ _ m' _ _ (ui_pt _ _ _ Hu) Hf) as (Hn & _).
  split; intros (k & va & Hk & Hp); exists k, va; (split; [done |]);
    [rewrite Hn in Hp by done | rewrite Hn by done]; done.
Qed.

Lemma held_write s m' pt l q :
  kmem_inv kend s l -> uvm_inv (k_mem s) pt l -> held (k_mem s) pt l q ->
  only_page q (k_mem s) m' ->
  kmem_inv kend (Kmem m' (k_freelist s)) l /\ uvm_inv m' pt l /\
  same_space pt (k_mem s) m' /\ held m' pt l q.
Proof.
  intros Hki Hu (Hq & Hql & Hqo) Ho.
  destruct (uvm_inv_only _ m' _ _ l q Hu Hq Hqo Ho) as [Hu' Hs]; [by right |].
  assert (held m' pt l q) by (split_and!; [done | done | by rewrite (proj2 (proj2 Hs))]).
  split; [| by split].
  apply kmem_inv_frame; [exact kend_ram | done |]. intros p x Hp Hx. apply Ho.
  pose proof (ki_ok _ _ _ Hki) as Hok. rewrite Forall_forall in Hok.
  apply (pages_disjoint p q); [apply (Hok p Hp) | apply Hq | by intros -> | done].
Qed.

(** [kalloc] next to an address space. *)
Lemma kalloc_held s q l pt :
  kmem_inv kend s (q :: l) -> uvm_inv (k_mem s) pt (q :: l) ->
  exists s1, kalloc s = Ok q s1 /\ q <> 0 /\ kmem_inv kend s1 l /\ uvm_inv (k_mem s1) pt l /\
    held (k_mem s1) pt l q /\ same_space pt (k_mem s) (k_mem s1) /\
    only_page q (k_mem s) (k_mem s1).
Proof.
  intros Hki Hu. destruct (kalloc_spec kend kend_ram s (q :: l) Hki) as (s1 & Hk & K1 & Hq0 & _ & Ho).
  pose proof (ki_nodup _ _ _ Hki) as [Hql _]%NoDup_cons.
  pose proof (ki_ok _ _ _ Hki) as [Hqok _]%Forall_cons.
  assert (~ owns (k_mem s) pt q) as Hqo.
  { intros H. destruct (owns_ok _ _ _ _ Hu H) as [_ Hn]. apply Hn. by left. }
  destruct (uvm_inv_only _ (k_mem s1) _ _ l q Hu Hqok Hqo Ho) as [Hu1 Hs]; [intros; right; by right |].
  assert (held (k_mem s1) pt l q) by (split_and!; [done | done | by rewrite (proj2 (proj2 Hs))]).
  by exists s1.
Qed.

Lemma kfree_held s l pt q :
  kmem_inv kend s l -> uvm_inv (k_mem s) pt l -> held (k_mem s) pt l q ->
  exists s1, kfree kend q s = Ok tt s1 /\ kmem_inv kend s1 (q :: l) /\
    uvm_inv (k_mem s1) pt (q :: l) /\ same_space pt (k_mem s) (k_mem s1) /\
    only_page q (k_mem s) (k_mem s1).
Proof.
  intros Hki Hu (Hq & Hql & Hqo).
  destruct (kfree_spec kend kend_ram q s l Hki Hq Hql) as (s1 & Hk & K1 & Ho).
  destruct (uvm_inv_only _ (k_mem s1) _ _ (q :: l) q Hu Hq Hqo Ho) as [Hu1 Hs].
  { intros p [->|]%elem_of_cons; [by left | by right]. }
  by exists s1.
Qed.

Lemma same_space_ext pt m m' (l : list Z) :
  same_space pt m m' -> forall p, owns m' pt p \/ p ∈ l <-> owns m pt p \/ p ∈ l.
Proof. intros (_ & _ & H) p. by rewrite H. Qed.

Lemma memset_only q m c : only_page q m (KString.memset m q c PGSIZE).
Proof. intros x Hx. by rewrite KString.ld8_memset, decide_False. Qed.

(** ** uvmdealloc and uvmalloc *)

Lemma PGROUNDUP_mono a b : 0 <= a <= b -> b <= 2 ^ 64 - PGSIZE -> PGROUNDUP a <= PGROUNDUP b.
Proof.
  intros. rewrite !PGROUNDUP_eq by lia. unfold PGSIZE in *. Z.div_mod_to_equations. lia.
Qed.

Lemma PGROUNDUP_le a b : 0 <= a <= b -> b <= 2 ^ 64 - PGSIZE -> b mod PGSIZE = 0 -> PGROUNDUP a <= b.
Proof.
  intros. rewrite !PGROUNDUP_eq by lia. unfold PGSIZE in *. Z.div_mod_to_equations. lia.
Qed.

Lemma PGROUNDUP_id a : 0 <= a <= 2 ^ 64 - PGSIZE -> a mod PGSIZE = 0 -> PGROUNDUP a = a.
Proof.
  intros. rewrite PGROUNDUP_eq by lia. unfold PGSIZE in *. Z.div_mod_to_equations. lia.
Qed.

Lemma aligned_div a : a mod PGSIZE = 0 -> a / PGSIZE * PGSIZE = a.
Proof. intros. unfold PGSIZE in *. Z.div_mod_to_equations. lia. Qed.

Lemma aligned_sub a b : a mod PGSIZE = 0 -> b mod PGSIZE = 0 -> (a - b) mod PGSIZE = 0.
Proof. intros. unfold PGSIZE in *. Z.div_mod_to_equations. lia. Qed.

Lemma TRAPFRAME_aligned : TRAPFRAME mod PGSIZE = 0.
Proof. done. Qed.

(** [PGROUNDUP] facts for a size below [TRAPFRAME]. *)
Lemma PGROUNDUP_size sz :
  0 <= sz <= TRAPFRAME ->
  sz <= PGROUNDUP sz <= TRAPFRAME /\ PGROUNDUP sz < sz + PGSIZE /\ PGROUNDUP sz mod PGSIZE = 0.
Proof.
  intros H. pose proof TRAPFRAME_MAXVA as HT. pose proof MAXVA_eq as HM.
  pose proof (PGROUNDUP_bounds sz ltac:(klia)). pose proof (PGROUNDUP_aligned sz ltac:(klia)).
  pose proof (PGROUNDUP_le sz TRAPFRAME H ltac:(klia) TRAPFRAME_aligned). lia.
Qed.

Lemma wp_uvmdealloc s l pt oldsz newsz :
  0 <= newsz -> 0 <= oldsz <= TRAPFRAME ->
  kmem_inv kend s l -> uvm_inv (k_mem s) pt l ->
  (forall va, PGROUNDUP newsz <= va < PGROUNDUP oldsz -> pte_valid (translate (k_mem s) pt va) = true) ->
  wp (uvmdealloc pt oldsz newsz) (fun r s' =>
    if decide (oldsz <= newsz) then r = oldsz /\ s' = s
    else r = newsz /\ exists ps, unmap_post (k_mem s) l pt (PGROUNDUP newsz)
           ((PGROUNDUP oldsz - PGROUNDUP newsz) / PGSIZE) ps s') s.
Proof.
  intros Hn Ho Hki Hu Hall. unfold uvmdealloc. rewrite Z.geb_leb.
  pose proof TRAPFRAME_MAXVA as HT. pose proof MAXVA_eq as HM.
  pose proof (PGROUNDUP_size oldsz Ho) as (Hob & Hoc & Hoa).
  destruct (Z.leb_spec oldsz newsz) as [Hle|Hlt].
  { apply wp_ret. by rewrite decide_True. }
  pose proof (PGROUNDUP_size newsz ltac:(lia)) as (Hnb & Hnc & Hna).
  pose proof (PGROUNDUP_mono newsz oldsz ltac:(lia) ltac:(klia)) as Hm.
  pose proof (aligned_div _ (aligned_sub _ _ Hoa Hna)) as Hd.
  set (n := (PGROUNDUP oldsz - PGROUNDUP newsz) / PGSIZE) in *.
  assert (0 <= n) as Hn0 by (apply Z.div_pos; klia).
  apply wp_bind. eapply wp_mono with (Q := fun _ s' => exists ps, unmap_post (k_mem s) l pt (PGROUNDUP newsz) n ps s').
  2:{ intros _ s' H. apply wp_ret. by rewrite decide_False by lia. }
  destruct (Z.ltb_spec (PGROUNDUP newsz) (PGROUNDUP oldsz)) as [Hlt2|Hge].
  - rewrite s32_small, u64_small by klia.
    apply wp_uvmunmap; try done; [lia | klia |]. intros va Hva. apply Hall. klia.
  - apply wp_ret. exists []. assert (n = 0) as -> by klia. by apply unmap_post_nil.
Qed.

(** The permissions [uvmalloc] gives. *)
Definition uperm : Z := Z.lor (Z.lor (Z.lor PTE_W PTE_X) PTE_R) PTE_U.

Lemma uperm_range : 0 <= uperm < 2 ^ 10.
Proof. done. Qed.

Lemma uperm_leaf : Z.lor uperm PTE_V <> PTE_V.
Proof. done. Qed.

(** A page that holds [content], byte by byte. *)
Definition page_is (m : mem) (q : Z) (content : Z -> Z) : Prop :=
  forall x, 0 <= x < PGSIZE -> ld8 m (q + x) = content x.

(** The address space of [m0] with fresh pages, taken from the free list
    [l0], mapped from [o] up to [a]; the page at [va] has permissions
    [perm va] and content [content va]. *)
Record grown (m0 : mem) (l0 : list Z) (pt : Z) (perm : Z -> Z) (content : Z -> Z -> Z)
    (o a : Z) (s : kmem) (l : list Z) : Prop := Grown {
  gr_kmem : kmem_inv kend s l;
  gr_uvm : uvm_inv (k_mem s) pt l;
  gr_ext : uvm_ext pt m0 l0 (k_mem s) l;
  gr_free : forall p, p ∈ l -> p ∈ l0;
  gr_nodes : forall p, is_node (k_mem s) pt p -> is_node m0 pt p \/ p ∈ l0;
  gr_keep : forall x, (forall p, is_node m0 pt p -> ~ in_page p x) ->
    (forall p, p ∈ l0 -> ~ in_page p x) -> ld8 (k_mem s) x = ld8 m0 x;
  gr_new : forall va, 0 <= va < MAXVA -> o <= va < a ->
    exists q, translate (k_mem s) pt va = leaf q (perm (PGROUNDDOWN va)) /\ page_ok kend q /\
      q ∈ l0 /\ page_is (k_mem s) q (content (PGROUNDDOWN va));
  gr_old : forall va, 0 <= va < MAXVA -> ~ o <= va < a ->
    translate (k_mem s) pt va = translate m0 pt va;
}.

Lemma uvmalloc_loop_S fuel pt oldsz a newsz s :
  a < newsz ->
  uvmalloc_loop (S fuel) pt oldsz a newsz s =
  (let! mem := kalloc in
   if mem =? 0 then uvmdealloc pt a oldsz ;;; ret 0
   else
     kmemset mem 0 PGSIZE ;;;
     let! r := mappages pt a PGSIZE mem uperm in
     if negb (r =? 0) then
       kfree kend mem ;;;
       uvmdealloc pt a oldsz ;;;
       ret 0
     else uvmalloc_loop fuel pt oldsz (u64 (a + PGSIZE)) newsz) s.
Proof. intros H. cbn [uvmalloc_loop]. by rewrite (proj2 (Z.ltb_lt _ _) H). Qed.

(** What is left after a failure: the address space of [m0], and its pages. *)
Record restored (m0 : mem) (l0 : list Z) (pt : Z) (s : kmem) (l : list Z) : Prop := Restored {
  rs_kmem : kmem_inv kend s l;
  rs_uvm : uvm_inv (k_mem s) pt l;
  rs_ext : uvm_ext pt m0 l0 (k_mem s) l;
  rs_keep : forall x, (forall p, is_node m0 pt p -> ~ in_page p x) ->
    (forall p, p ∈ l0 -> ~ in_page p x) -> ld8 (k_mem s) x = ld8 m0 x;
  rs_same : forall va, 0 <= va < MAXVA -> translate (k_mem s) pt va = translate m0 pt va;
}.

(** A page that is neither a node nor free is not written by [mappages]. *)
Lemma not_in_pages (P : Z -> Prop) p x :
  page_ok kend p -> in_page p x -> ~ P p -> (forall p', P p' -> page_ok kend p') ->
  forall p', P p' -> ~ in_page p' x.
Proof.
  intros Hp Hx Hn Hok p' Hp'. apply (pages_disjoint p p' x); [apply Hp | apply (Hok p' Hp') | | done].
  intros ->. done.
Qed.

Lemma map_post_page m l pt a q perm r s' p x :
  uvm_inv m pt l -> Forall (page_ok kend) l -> map_post m l pt a q perm r s' ->
  page_ok kend p -> in_page p x -> ~ is_node m pt p -> p ∉ l ->
  ld8 (k_mem s') x = ld8 m x.
Proof.
  intros U Hlok (l' & _ & _ & Kp' & _) Hp Hx Hn Hpl. rewrite Forall_forall in Hlok. apply Kp'.
  - apply (not_in_pages (is_node m pt) p x); [done.. |].
    intros p' Hp'. by apply (pi_ok _ _ _ _ (ui_pt _ _ _ U)).
  - by apply (not_in_pages (.∈ l) p x).
Qed.

Section fresh.
Context (m0 : mem) (l0 : list Z) (pt : Z) (perm : Z -> Z) (content : Z -> Z -> Z).
Context (perm_range : forall a, 0 <= perm a < 2 ^ 10).

(** The failure path of [uvmalloc] and [uvmcopy]: unmap what was mapped. *)
Lemma grown_unmap o a s l :
  0 <= o <= a -> a <= TRAPFRAME -> o mod PGSIZE = 0 -> a mod PGSIZE = 0 ->
  (forall va, o <= va < a -> translate m0 pt va = 0) ->
  grown m0 l0 pt perm content o a s l ->
  wp (uvmunmap pt o ((a - o) / PGSIZE) true)
    (fun _ s' => exists l', restored m0 l0 pt s' l') s.
Proof.
  intros Ho Ha Hoa Haa Hz [K U X Fr Nd Kp New Old]. pose proof TRAPFRAME_MAXVA as HT.
  pose proof (aligned_div _ (aligned_sub _ _ Haa Hoa)) as Hd.
  eapply wp_mono; [apply (wp_uvmunmap s l); try done; [lia | apply Z.div_pos; klia | klia |] |].
  { intros va Hva. destruct (New va) as (q & -> & _); [klia | lia | apply leaf_valid]. }
  intros [] s' (ps & L & K' & U' & X' & T' & P' & N' & F').
  unfold unmapped in T'. rewrite Hd in T', P'.
  exists (ps ++ l). split; [done | done | by eapply uvm_ext_trans | |].
  - intros x Hx Hl. rewrite F'; [by apply Kp | |].
    + intros p [?|?]%Nd; [by apply Hx | by apply Hl].
    + intros p Hp. apply Hl. destruct (P' p Hp) as (va & Hva & Hv & _ & E).
      destruct (New va) as (q & Eq & Hq & Hql & _); [klia | lia |].
      rewrite Eq, PTE2PA_leaf in E by done. by subst.
  - intros va Hva. rewrite T' by done. case_decide; [symmetry; apply Hz; lia | by apply Old; [| lia]].
Qed.

(** One more page: [q] was taken off the free list and zeroed. *)
Lemma grown_step o a s q l m1 s' :
  0 <= o <= a -> a mod PGSIZE = 0 -> a + PGSIZE <= TRAPFRAME ->
  grown m0 l0 pt perm content o a s (q :: l) ->
  uvm_inv m1 pt l -> same_space pt (k_mem s) m1 -> only_page q (k_mem s) m1 -> page_is m1 q (content a) ->
  map_post m1 l pt a q (perm a) 0 s' ->
  exists l', grown m0 l0 pt perm content o (a + PGSIZE) s' l'.
Proof.
  intros Ho Ha Hmax [K U X Fr Nd Kp New Old] U1 (Ns & Ts & Os) Ho1 Hz Hpost.
  pose proof TRAPFRAME_MAXVA as HT.
  pose proof (ki_nodup _ _ _ K) as [Hql _]%NoDup_cons.
  pose proof (ki_ok _ _ _ K) as [Hqok Hlok]%Forall_cons.
  pose proof (fun p x => map_post_page _ _ _ _ _ _ _ _ p x U1 Hlok Hpost) as Hsame.
  destruct Hpost as (l' & K' & U' & Kp' & Fr' & Nd' & [(_ & Hadd & Hpg)|(? & _)]); [| done]. exists l'.
  assert (q ∈ l0) as Hq0 by (apply Fr; by left).
  assert (forall x, (forall p, is_node m0 pt p -> ~ in_page p x) ->
    (forall p, p ∈ l0 -> ~ in_page p x) -> ld8 (k_mem s') x = ld8 m0 x) as Hkeep.
  { intros x Hx Hl. rewrite Kp', Ho1, Kp; try done.
    - by apply Hl.
    - intros p [?|?]%Ns%Nd; [by apply Hx | by apply Hl].
    - intros p Hp. apply Hl, Fr. by right. }
  split; [done | done | split | intros p ?; apply Fr; right; by apply Fr' | | done | |].
  - intros p. rewrite Hpg, Os. rewrite <- (ue_pages _ _ _ _ _ X), elem_of_cons. tauto.
  - intros x Hx Hl. apply Hkeep; [intros; apply Hx; by left | done].
  - intros p [Hp%Ns%Nd|Hp]%Nd'; [done | right; apply Fr; by right].
  - intros va Hva Hr. rewrite Hadd by done. case_decide as Hd.
    + exists q. assert (PGROUNDDOWN va = a) as ->.
      { rewrite PGROUNDDOWN_eq. unfold PGSIZE in *. Z.div_mod_to_equations. lia. }
      split_and!; [done.. |]. intros x Hx. rewrite (Hsame q); try done; [by apply Hz | unfold in_page; lia |].
      rewrite Ns. intros Hn. apply (pi_used _ _ _ _ (ui_pt _ _ _ U) q Hn). by left.
    + destruct (New va Hva ltac:(lia)) as (q1 & Eq & Hq1 & Hq10 & Hz1).
      exists q1. rewrite Ts. split_and!; [done.. |].
      destruct (ui_leaf _ _ _ U va q1) as (_ & [Hne Hq1l]%not_elem_of_cons & Hq1n).
      { split_and!; [lia | lia | by rewrite Eq, leaf_valid | by rewrite Eq, PTE2PA_leaf]. }
      intros x Hx. assert (in_page q1 (q1 + x)) by (unfold in_page; lia).
      rewrite (Hsame q1), Ho1; [by apply Hz1 | | done | done | by rewrite Ns | done].
      apply (pages_disjoint q1 q); [apply Hq1 | apply Hqok | done | done].
  - intros va Hva Hr. rewrite Hadd, decide_False, Ts by (done || klia). apply Old; [done | klia].
Qed.

(** No memory for the tree: [q] goes back. *)
Lemma grown_fail o a s q l m1 s1 :
  0 <= o <= a -> a <= TRAPFRAME ->
  grown m0 l0 pt perm content o a s (q :: l) ->
  uvm_inv m1 pt l -> same_space pt (k_mem s) m1 -> only_page q (k_mem s) m1 ->
  map_post m1 l pt a q (perm a) (-1) s1 ->
  wp (kfree kend q) (fun _ s2 => exists l2, grown m0 l0 pt perm content o a s2 l2) s1.
Proof.
  intros Ho Hmax [K U X Fr Nd Kp New Old] U1 (Ns & Ts & Os) Ho1 Hpost. pose proof TRAPFRAME_MAXVA as HT.
  pose proof (ki_nodup _ _ _ K) as [Hql _]%NoDup_cons.
  pose proof (ki_ok _ _ _ K) as [Hqok Hlok]%Forall_cons.
  pose proof (fun p x => map_post_page _ _ _ _ _ _ _ _ p x U1 Hlok Hpost) as Hsame.
  destruct Hpost as (l' & K' & U' & Kp' & Fr' & Nd' & [(? & _)|(_ & -> & X' & Ht)]); [done |].
  assert (~ owns (k_mem s1) pt q) as Hqo.
  { intros H. destruct (proj1 (ue_pages _ _ _ _ _ X' q) (or_introl H)) as [Ho'%Os|?]; [| done].
    destruct (owns_ok _ _ _ _ U Ho') as [_ Hn]. apply Hn. by left. }
  destruct (kfree_held s1 [] pt q K' U') as (s2 & Hk & K2 & U2 & (Ns2 & Ts2 & Os2) & Ho2); [by split_and!; [| set_solver + |] |].
  apply wp_ok. exists tt, s2. split; [done |]. exists [q].
  assert (q ∈ l0) as Hq0 by (apply Fr; by left).
  assert (forall x, (forall p, is_node m0 pt p -> ~ in_page p x) ->
    (forall p, p ∈ l0 -> ~ in_page p x) -> ld8 (k_mem s2) x = ld8 m0 x) as Hkeep.
  { intros x Hx Hl. rewrite Ho2, Kp', Ho1, Kp; try done; [by apply Hl | | | by apply Hl].
    - intros p [?|?]%Ns%Nd; [by apply Hx | by apply Hl].
    - intros p Hp. apply Hl, Fr. by right. }
  split; [done | done | split | intros p ->%list_elem_of_singleton; done | | done | |].
  - intros p. pose proof (ue_pages _ _ _ _ _ X' p) as Hp'. rewrite Os in Hp'.
    rewrite Os2, <- (ue_pages _ _ _ _ _ X p), list_elem_of_singleton, elem_of_cons.
    rewrite elem_of_nil in Hp'. clear -Hp'. tauto.
  - intros x Hx Hl. apply Hkeep; [intros; apply Hx; by left | done].
  - intros p [Hp%Ns%Nd|Hp]%Ns2%Nd'; [done | right; apply Fr; by right].
  - intros va Hva Hr. destruct (New va Hva Hr) as (q1 & Eq & Hq1 & Hq10 & Hz1).
    exists q1. rewrite Ts2, Ht, Ts by done. split_and!; [done.. |].
    destruct (ui_leaf _ _ _ U va q1) as (_ & [Hne Hq1l]%not_elem_of_cons & Hq1n).
    { split_and!; [lia | lia | by rewrite Eq, leaf_valid | by rewrite Eq, PTE2PA_leaf]. }
    intros x Hx. assert (in_page q1 (q1 + x)) by (unfold in_page; lia).
    assert (~ in_page q (q1 + x)) by (apply (pages_disjoint q1 q); [apply Hq1 | apply Hqok | done | done]).
    rewrite Ho2, (Hsame q1), Ho1; [by apply Hz1 | done | done | done | by rewrite Ns | done | done].
  - intros va Hva Hr. rewrite Ts2, Ht, Ts by done. by apply Old.
Qed.

End fresh.

(** The failure path of [uvmalloc]. *)
Lemma wp_undo m0 l0 pt o a s l :
  0 <= o <= a -> a <= TRAPFRAME -> o mod PGSIZE = 0 -> a mod PGSIZE = 0 ->
  (forall va, o <= va < a -> translate m0 pt va = 0) ->
  grown m0 l0 pt (fun _ => uperm) (fun _ _ => 0) o a s l ->
  wp (uvmdealloc pt a o ;;; ret 0) (fun r s' => r = 0 /\ exists l', restored m0 l0 pt s' l') s.
Proof.
  intros Ho Ha Hoa Haa Hz G. pose proof TRAPFRAME_MAXVA as HT. pose proof MAXVA_eq as HM.
  assert (0 <= (a - o) / PGSIZE < 2 ^ 31) as Hn by (unfold PGSIZE in *; Z.div_mod_to_equations; lia).
  apply wp_bind. unfold uvmdealloc. rewrite !PGROUNDUP_id by (done || klia). rewrite Z.geb_leb.
  destruct (Z.leb_spec a o) as [Hle|Hlt].
  - apply wp_ret, wp_ret. split; [done |]. exists l. destruct G. split; try done.
    intros va Hva. apply gr_old0; [done | lia].
  - rewrite (proj2 (Z.ltb_lt _ _) Hlt), s32_small, u64_small by lia. apply wp_bind.
    eapply wp_mono; [eapply grown_unmap; try done; intros; apply uperm_range |].
    intros [] s' H. by apply wp_ret, wp_ret.
Qed.

(** [uvmalloc]'s loop returns [newsz] with the whole range mapped, or 0 with
    the address space restored. *)
Lemma wp_uvmalloc_loop n fuel m0 l0 pt o a newsz s l :
  0 <= o <= a -> o mod PGSIZE = 0 -> a mod PGSIZE = 0 -> 0 <= newsz ->
  PGROUNDUP newsz <= TRAPFRAME -> newsz <= TRAPFRAME ->
  Z.to_nat ((PGROUNDUP newsz - a) / PGSIZE) = n -> (n < fuel)%nat -> a <= PGROUNDUP newsz \/ newsz <= a ->
  (forall va, o <= va < PGROUNDUP newsz -> translate m0 pt va = 0) ->
  grown m0 l0 pt (fun _ => uperm) (fun _ _ => 0) o a s l ->
  wp (uvmalloc_loop fuel pt o a newsz) (fun r s' =>
    (r = newsz /\ exists l', grown m0 l0 pt (fun _ => uperm) (fun _ _ => 0) o (Z.max a (PGROUNDUP newsz)) s' l') \/
    (r = 0 /\ exists l', restored m0 l0 pt s' l')) s.
Proof.
  pose proof TRAPFRAME_MAXVA as HT. pose proof MAXVA_eq as HM.
  revert fuel a s l. induction n as [|n IH]; intros fuel a s l Ho Hoa Haa Hn0 Hmax1 Hmax Hn Hf Hle Hz G.
  all: pose proof (PGROUNDUP_size newsz ltac:(lia)) as (Hnb & Hnc & Hna).
  all: pose proof (aligned_div _ (aligned_sub _ _ Hna Haa)) as Hd.
  { assert (newsz <= a) as Hge by (unfold PGSIZE in *; lia).
    assert (uvmalloc_loop fuel pt o a newsz s = Ok newsz s) as E.
    { destruct fuel; cbn [uvmalloc_loop]; by rewrite (proj2 (Z.ltb_ge _ _) Hge). }
    apply wp_ok. exists newsz, s. split; [exact E |]. left. split; [done |]. exists l.
    rewrite Z.max_l; [done |]. unfold PGSIZE in *. lia. }
  destruct fuel as [|fuel]; [lia |].
  assert (0 < (PGROUNDUP newsz - a) / PGSIZE) as Hpos by lia.
  assert (a < newsz /\ a + PGSIZE <= PGROUNDUP newsz) as [Hlt Hnx] by (unfold PGSIZE in *; lia).
  eapply wp_eq; [by apply uvmalloc_loop_S |]. apply wp_bind.
  destruct l as [|q l].
  { apply wp_ok. exists 0, s. split; [apply (kalloc_spec kend kend_ram s [] (gr_kmem _ _ _ _ _ _ _ _ _ G)) |].
    cbn [Z.eqb]. eapply wp_mono; [eapply (wp_undo m0 l0); [done | lia | done | done | | done] |].
    - intros va Hva. apply Hz. lia.
    - intros r s' H. by right. }
  destruct (kalloc_held s q l pt (gr_kmem _ _ _ _ _ _ _ _ _ G) (gr_uvm _ _ _ _ _ _ _ _ _ G))
    as (s1 & Hk & Hq0 & K1 & U1 & Hheld & Hs1 & Ho1).
  apply wp_ok. exists q, s1. split; [exact Hk |]. rewrite (proj2 (Z.eqb_neq q 0) Hq0).
  apply wp_bind, wp_modify. unfold set_k_mem.
  set (m2 := KString.memset (k_mem s1) q 0 PGSIZE).
  destruct (held_write s1 m2 pt l q K1 U1 Hheld (memset_only q _ 0)) as (K2 & U2 & Hs2 & Hheld2).
  assert (page_is m2 q (fun _ => 0)) as Hzero by (intros x Hx; unfold m2; by rewrite KString.ld8_memset, decide_True by lia).
  assert (only_page q (k_mem s) m2) as Ho2.
  { intros x Hx. unfold m2. rewrite (memset_only q _ 0 x Hx). by apply Ho1. }
  pose proof (same_space_trans _ _ _ _ Hs1 Hs2) as Hs. clearbody m2.
  apply wp_bind. destruct Hheld2 as (Hqok & Hql & Hqo).
  eapply wp_mono; [apply (map_page (Kmem m2 (k_freelist s1)) l pt a q uperm); cbn [k_mem];
    [done | lia | lia | apply uperm_range | apply uperm_leaf | exact K2 | exact U2 | done | done | done |] |].
  { rewrite (proj1 (proj2 Hs)), (gr_old _ _ _ _ _ _ _ _ _ G) by klia. by rewrite Hz by klia. }
  cbn [k_mem]. intros r s3 Hpost.
  assert (r = 0 \/ r = -1) as [-> | ->].
  { destruct Hpost as (? & _ & _ & _ & _ & _ & [(-> & _)|(-> & _)]); auto. }
  - cbn [negb Z.eqb]. rewrite u64_small by klia.
    destruct (grown_step m0 l0 pt (fun _ => uperm) (fun _ _ => 0) (fun _ => uperm_range) o a s q l m2 s3) as (l3 & G3); [done | done | lia | done | done | done | done | done | done |].
    eapply wp_mono; [eapply (IH fuel (a + PGSIZE) s3 l3); try done; [klia | | | lia | lia] |].
    + rewrite Zplus_mod, Haa. done.
    + unfold PGSIZE in *. Z.div_mod_to_equations. lia.
    + intros r s4 [(-> & l4 & G4)|H]; [left | by right]. split; [done |]. exists l4.
      by replace (Z.max a (PGROUNDUP newsz)) with (Z.max (a + PGSIZE) (PGROUNDUP newsz)) by lia.
  - cbn [negb Z.eqb]. apply wp_bind.
    eapply wp_mono; [eapply (grown_fail m0 l0 pt (fun _ => uperm) (fun _ _ => 0) (fun _ => uperm_range) o a s q l m2 s3); [done | lia | done | done | done | done | done] |].
    intros [] s4 (l4 & G4). eapply wp_mono; [eapply (wp_undo m0 l0); [done | lia | done | done | | done] |].
    + intros va Hva. apply Hz. lia.
    + intros r s' H. by right.
Qed.

(** ** uvmcopy *)

Section copy.
Context (m0 : mem) (l0 : list Z) (old new : Z).
Context (Hold : uvm_inv m0 old l0) (Hnew : uvm_inv m0 new l0).
Context (Hdisj : forall p, owns m0 old p -> ~ owns m0 new p).

Let perm (a : Z) : Z := PTE_FLAGS (translate m0 old a).
Let content (a x : Z) : Z := ld8 m0 (PTE2PA (translate m0 old a) + x).

(** An operation on [new] leaves [old] as it was. *)
Lemma other_space m l :
  (forall x, (forall p, is_node m0 new p -> ~ in_page p x) ->
     (forall p, p ∈ l0 -> ~ in_page p x) -> ld8 m x = ld8 m0 x) ->
  Forall (page_ok kend) l0 -> (forall p, p ∈ l -> owns m0 new p \/ p ∈ l0) ->
  (forall p x, owns m0 old p -> in_page p x -> ld8 m x = ld8 m0 x) /\
  uvm_inv m old l /\ (forall va, translate m old va = translate m0 old va) /\
  (forall p, owns m old p <-> owns m0 old p).
Proof.
  intros Hk Hlok Hl. rewrite Forall_forall in Hlok.
  assert (forall p x, owns m0 old p -> in_page p x -> ld8 m x = ld8 m0 x) as Hsame.
  { intros p x Hp Hx. destruct (owns_ok _ _ _ _ Hold Hp) as [Hok Hpl]. apply Hk.
    - apply (not_in_pages (is_node m0 new) p x); [done | done | |].
      + intros Hn. apply (Hdisj p Hp). by left.
      + intros p' Hp'. by apply (pi_ok _ _ _ _ (ui_pt _ _ _ Hnew)).
    - by apply (not_in_pages (.∈ l0) p x). }
  split; [done |]. apply uvm_inv_frame with (l := l0); [done | |].
  - intros p Hp x Hx. apply (Hsame p); [by left | done].
  - intros p Hp Ho. destruct (Hl p Hp) as [Hn|Hpl]; [by apply (Hdisj p) |].
    by destruct (owns_ok _ _ _ _ Hold Ho).
Qed.

Lemma perm_ok a : 0 <= perm a < 2 ^ 10.
Proof. apply PTE_FLAGS_range. Qed.

Lemma uvmcopy_loop_S fuel i sz s l q :
  i < sz -> i < MAXVA -> pt_inv kend (k_mem s) old l -> node 2 (k_mem s) old i = Some q ->
  let v := translate (k_mem s) old i in
  pte_valid v = true ->
  uvmcopy_loop (S fuel) old new i sz s =
  (let! mem := kalloc in
   if mem =? 0 then ret (Some i)
   else
     modify (set_k_mem (fun m => KString.memmove m mem (PTE2PA v) PGSIZE)) ;;;
     let! r := mappages new i PGSIZE mem (PTE_FLAGS v) in
     if negb (r =? 0) then kfree kend mem ;;; ret (Some i)
     else uvmcopy_loop fuel old new (u64 (i + PGSIZE)) sz) s.
Proof.
  intros Hs Hmax Hpt Hq v Hv. cbn [uvmcopy_loop]. rewrite (proj2 (Z.ltb_lt _ _) Hs).
  unfold bind at 1. rewrite walk_lookup, Hq by done.
  rewrite (proj2 (Z.eqb_neq _ _) (node2_entry_pos _ _ _ _ _ Hpt Hq)).
  assert (ld64 (k_mem s) (q + 8 * idx 2 i) = v) as Ev by (unfold v, translate; by rewrite Hq).
  unfold bind at 1, load64, gets. by rewrite Ev, pte_valid_land by done.
Qed.

Lemma memmove_page m q p :
  page_ok kend q -> p mod PGSIZE = 0 -> p <> q ->
  only_page q m (KString.memmove m q p PGSIZE) /\
  page_is (KString.memmove m q p PGSIZE) q (fun x => ld8 m (p + x)).
Proof.
  intros [Hq _] Hp Hne. split.
  - intros x Hx. by rewrite KString.ld8_memmove, decide_False.
  - intros x Hx. rewrite KString.ld8_memmove, decide_True by lia. f_equal. lia.
Qed.

Lemma wp_uvmcopy_loop n fuel sz i s l :
  0 <= i <= PGROUNDUP sz -> i mod PGSIZE = 0 -> 0 <= sz <= TRAPFRAME ->
  Z.to_nat ((PGROUNDUP sz - i) / PGSIZE) = n -> (n < fuel)%nat ->
  (forall va, 0 <= va < PGROUNDUP sz -> pte_valid (translate m0 old va) = true) ->
  (forall va, 0 <= va < PGROUNDUP sz -> translate m0 new va = 0) ->
  Forall (page_ok kend) l0 ->
  grown m0 l0 new perm content 0 i s l ->
  wp (uvmcopy_loop fuel old new i sz) (fun r s' => exists l',
    match r with
    | None => grown m0 l0 new perm content 0 (PGROUNDUP sz) s' l'
    | Some j => 0 <= j <= PGROUNDUP sz /\ j mod PGSIZE = 0 /\ grown m0 l0 new perm content 0 j s' l'
    end) s.
Proof.
  pose proof TRAPFRAME_MAXVA as HT. pose proof MAXVA_eq as HM.
  revert fuel i s l. induction n as [|n IH]; intros fuel i s l Hi Hia Hsz Hn Hf Hall Hz Hlok G.
  all: pose proof (PGROUNDUP_size sz ltac:(lia)) as (Hnb & Hnc & Hna).
  all: pose proof (aligned_div _ (aligned_sub _ _ Hna Hia)) as Hd.
  { assert (i = PGROUNDUP sz) as E by (unfold PGSIZE in *; lia).
    assert (uvmcopy_loop fuel old new i sz s = Ok None s) as El.
    { destruct fuel; cbn [uvmcopy_loop]; rewrite (proj2 (Z.ltb_ge i sz)) by lia; done. }
    apply wp_ok. exists None, s. split; [exact El |]. exists l. by rewrite <- E. }
  destruct fuel as [|fuel]; [lia |].
  assert (i < sz /\ i + PGSIZE <= PGROUNDUP sz) as [Hlt Hnx] by (unfold PGSIZE in *; lia).
  destruct (other_space (k_mem s) l (gr_keep _ _ _ _ _ _ _ _ _ G) Hlok) as (Hsame & Huo & Hto & Hoo).
  { intros p Hp. right. by apply (gr_free _ _ _ _ _ _ _ _ _ G). }
  pose proof (Hall i ltac:(lia)) as Hv. set (v := translate m0 old i) in *.
  assert (maps m0 old i (PTE2PA v)) as Hmp by (split_and!; (done || klia)).
  destruct (translate_valid (k_mem s) old i) as [q' Hq']; [by rewrite Hto |].
  eapply wp_eq.
  { apply (uvmcopy_loop_S fuel i sz s l q'); [lia | klia | apply Huo | exact Hq' | by rewrite Hto]. }
  rewrite Hto. fold v. apply wp_bind. destruct l as [|q l].
  { apply wp_ok. exists 0, s. split; [apply (kalloc_spec kend kend_ram s [] (gr_kmem _ _ _ _ _ _ _ _ _ G)) |].
    apply wp_ret. by exists []. }
  destruct (kalloc_held s q l new (gr_kmem _ _ _ _ _ _ _ _ _ G) (gr_uvm _ _ _ _ _ _ _ _ _ G))
    as (s1 & Hk & Hq0 & K1 & U1 & Hheld & Hs1 & Ho1).
  apply wp_ok. exists q, s1. split; [exact Hk |]. rewrite (proj2 (Z.eqb_neq q 0) Hq0).
  apply wp_bind, wp_modify. unfold set_k_mem.
  destruct (owns_ok _ _ _ _ Hold (or_intror (ex_intro _ i Hmp))) as [Hpok Hpl].
  assert (PTE2PA v <> q) as Hpq.
  { intros E. apply Hpl. rewrite E. apply (gr_free _ _ _ _ _ _ _ _ _ G). by left. }
  destruct (memmove_page (k_mem s1) q (PTE2PA v) (proj1 Hheld) (proj1 Hpok) Hpq) as [Hmo Hmc].
  set (m2 := KString.memmove (k_mem s1) q (PTE2PA v) PGSIZE) in *.
  destruct (held_write s1 m2 new l q K1 U1 Hheld Hmo) as (K2 & U2 & Hs2 & Hheld2).
  assert (only_page q (k_mem s) m2) as Ho2 by (intros x Hx; rewrite Hmo, Ho1 by done; done).
  assert (page_is m2 q (content i)) as Hcont.
  { intros x Hx. rewrite Hmc by done. unfold content. fold v.
    assert (in_page (PTE2PA v) (PTE2PA v + x)) as Hin by (unfold in_page; lia).
    rewrite Ho1; [apply (Hsame (PTE2PA v)); [right; eauto | done] |].
    apply (pages_disjoint (PTE2PA v) q); [apply Hpok | apply Hheld | done | done]. }
  pose proof (same_space_trans _ _ _ _ Hs1 Hs2) as Hs. clearbody m2.
  apply wp_bind. destruct Hheld2 as (Hqok & Hql & Hqo).
  eapply wp_mono; [apply (map_page (Kmem m2 (k_freelist s1)) l new i q (perm i)); cbn [k_mem];
    [done | lia | lia | apply perm_ok | | exact K2 | exact U2 | done | done | done |] |].
  { unfold perm. fold v. rewrite PTE_FLAGS_V by done. by apply (ui_perm _ _ _ Hold i (PTE2PA v)). }
  { rewrite (proj1 (proj2 Hs)), (gr_old _ _ _ _ _ _ _ _ _ G) by klia. by rewrite Hz by klia. }
  cbn [k_mem]. intros r s3 Hpost.
  assert (r = 0 \/ r = -1) as [-> | ->].
  { destruct Hpost as (? & _ & _ & _ & _ & _ & [(-> & _)|(-> & _)]); auto. }
  - cbn [negb Z.eqb]. rewrite u64_small by klia.
    destruct (grown_step m0 l0 new perm content perm_ok 0 i s q l m2 s3) as (l3 & G3); [lia | done | lia | done.. |].
    eapply (IH fuel (i + PGSIZE) s3 l3); try done; [klia | | | lia].
    + rewrite Zplus_mod, Hia. done.
    + unfold PGSIZE in *. Z.div_mod_to_equations. lia.
  - cbn [negb Z.eqb]. apply wp_bind.
    eapply wp_mono; [eapply (grown_fail m0 l0 new perm content perm_ok 0 i s q l m2 s3); [lia | lia | done..] |].
    intros [] s4 (l4 & G4). apply wp_ret. by exists l4.
Qed.

(** [new] holds a copy of [old]'s first pages, or is as it was. *)
Lemma wp_uvmcopy s sz :
  k_mem s = m0 -> kmem_inv kend s l0 -> 0 <= sz <= TRAPFRAME ->
  (forall va, 0 <= va < PGROUNDUP sz -> pte_valid (translate m0 old va) = true) ->
  (forall va, 0 <= va < PGROUNDUP sz -> translate m0 new va = 0) ->
  wp (uvmcopy old new sz) (fun r s' => exists l',
    r = 0 /\ grown m0 l0 new perm content 0 (PGROUNDUP sz) s' l' \/
    r = -1 /\ restored m0 l0 new s' l') s.
Proof.
  intros Em Hki Hsz Hall Hz. pose proof TRAPFRAME_MAXVA as HT. pose proof MAXVA_eq as HM.
  pose proof (PGROUNDUP_size sz Hsz) as (Hnb & Hnc & Hna).
  apply wp_bind. eapply wp_mono.
  { eapply (wp_uvmcopy_loop _ _ sz 0 s l0); try done; [lia | | by apply Hki |].
    - rewrite Z.min_l by klia. unfold PGSIZE in *. Z.div_mod_to_equations. lia.
    - split; rewrite ?Em; try done; [auto | lia]. }
  intros [j|] s' (l' & H).
  - destruct H as (Hj & Hja & G). apply wp_bind.
    replace (j / PGSIZE) with ((j - 0) / PGSIZE) by (f_equal; lia).
    eapply wp_mono; [apply (grown_unmap m0 l0 new perm content perm_ok 0 j s' l'); try done; try lia |].
    + intros va Hva. apply Hz. lia.
    + intros [] s2 (l2 & R). apply wp_ret. exists l2. by right.
  - apply wp_ret. exists l'. by left.
Qed.

End copy.

Lemma wp_uvmalloc s l pt oldsz newsz :
  0 <= oldsz <= newsz -> newsz <= TRAPFRAME -> kmem_inv kend s l -> uvm_inv (k_mem s) pt l ->
  (forall va, PGROUNDUP oldsz <= va < PGROUNDUP newsz -> translate (k_mem s) pt va = 0) ->
  wp (uvmalloc pt oldsz newsz) (fun r s' => exists l',
    r = newsz /\
      grown (k_mem s) l pt (fun _ => uperm) (fun _ _ => 0) (PGROUNDUP oldsz) (PGROUNDUP newsz) s' l' \/
    r = 0 /\ restored (k_mem s) l pt s' l') s.
Proof.
  intros Hsz Hmax Hki Hu Hz. pose proof TRAPFRAME_MAXVA as HT. pose proof MAXVA_eq as HM.
  pose proof (PGROUNDUP_size oldsz ltac:(lia)) as (Ho1 & Ho2 & Ho3).
  pose proof (PGROUNDUP_size newsz ltac:(lia)) as (Hn1 & Hn2 & Hn3).
  pose proof (PGROUNDUP_mono oldsz newsz ltac:(lia) ltac:(klia)) as Hmono.
  unfold uvmalloc. rewrite (proj2 (Z.ltb_ge newsz oldsz)) by lia. eapply wp_mono.
  { eapply (wp_uvmalloc_loop _ _ (k_mem s) l pt (PGROUNDUP oldsz) (PGROUNDUP oldsz) newsz s l);
      try done; try lia.
    - rewrite Z.min_l by klia. unfold PGSIZE in *. Z.div_mod_to_equations. lia.
    - split; try done; [auto | lia]. }
  intros r s' H. rewrite Z.max_r in H by done.
  destruct H as [(-> & l' & G)|(-> & l' & R)]; exists l'; [by left | by right].
Qed.

(** User memory outside the pages that may be written keeps its bytes. *)
Lemma ubyte_keep m m' l pt va p :
  uvm_inv m pt l -> Forall (page_ok kend) l ->
  (forall x, (forall p, is_node m pt p -> ~ in_page p x) ->
     (forall p, p ∈ l -> ~ in_page p x) -> ld8 m' x = ld8 m x) ->
  translate m' pt va = translate m pt va -> maps m pt va p -> ubyte m' pt va = ubyte m pt va.
Proof.
  intros Hu Hl Hk Ht Hm. destruct (ui_leaf _ _ _ Hu va p Hm) as (Hok & Hpl & Hpn).
  destruct Hm as (Hva & Hv & Hp). unfold ubyte. rewrite Ht, Hp. rewrite Forall_forall in Hl.
  assert (in_page p (p + va mod PGSIZE)) as Hin.
  { unfold in_page. pose proof (Z.mod_pos_bound va PGSIZE ltac:(done)). lia. }
  apply Hk.
  - apply (not_in_pages (is_node m pt) p); [done.. |]. intros. by apply (pi_ok _ _ _ _ (ui_pt _ _ _ Hu)).
  - by apply (not_in_pages (.∈ l) p).
Qed.

(** ** An empty address space *)

Lemma ld64_zero m a : (forall x, a <= x < a + 8 -> ld8 m x = 0) -> ld64 m a = 0.
Proof.
  intros H. rewrite (ld64_ext ∅ m); [| intros x Hx; by rewrite H].
  assert (forall n a, ld_le n ∅ a = 0) as H0; [| apply (H0 8%nat)].
  induction n as [|n IH]; intros b; cbn [ld_le]; [done | by rewrite IH].
Qed.

Lemma empty_nodes m pt k va :
  page_is m pt (fun _ => 0) -> (k <= 2)%nat -> node k m pt va = if decide (k = 0%nat) then Some pt else None.
Proof.
  intros Hz Hk.
  assert (node 1 m pt va = None) as H1.
  { rewrite node_S. cbn [node]. cbn zeta. rewrite ld64_zero; [done |]. intros x Hx.
    pose proof (idx_range 0 va ltac:(lia)). replace x with (pt + (x - pt)) by lia. apply Hz. unfold PGSIZE. lia. }
  assert (k = 0%nat \/ k = 1%nat \/ k = 2%nat) as [-> | [-> | ->]] by lia; [done | done |].
  by rewrite node_S, H1.
Qed.

Lemma uvm_inv_empty m pt l :
  page_is m pt (fun _ => 0) -> page_ok kend pt -> pt ∉ l ->
  uvm_inv m pt l /\ (forall va, translate m pt va = 0) /\ (forall p, owns m pt p <-> p = pt).
Proof.
  intros Hz Hok Hl. pose proof (fun k va => empty_nodes m pt k va Hz) as Hn.
  assert (forall va, translate m pt va = 0) as Ht by (intros va; unfold translate; by rewrite Hn by lia).
  assert (forall p, is_node m pt p -> p = pt) as Hin.
  { intros p (k & va & Hk & Hp). rewrite Hn in Hp by done. case_decide; congruence. }
  assert (forall va p, ~ maps m pt va p) as Hm by (intros va p (_ & Hv & _); by rewrite Ht in Hv).
  assert (forall i, 0 <= i < 512 -> ld64 m (pt + 8 * i) = 0) as He.
  { intros i Hi. apply ld64_zero. intros x Hx. replace x with (pt + (x - pt)) by lia. apply Hz. unfold PGSIZE. lia. }
  split_and!; [split; [split | | |] | done |].
  - by intros p ->%Hin.
  - by intros p ->%Hin.
  - intros k k' va va' p Hk Hk'. rewrite !Hn by done. repeat case_decide; intros; [| done..]. subst.
    split; [done |]. intros j Hj. lia.
  - intros k va p Hk. rewrite Hn by lia. case_decide; intros [= <-]. cbn zeta.
    by rewrite He by (apply idx_range; lia).
  - intros i Hi. by rewrite He by lia.
  - intros va p H. by apply Hm in H.
  - intros va va' p H. by apply Hm in H.
  - intros va p H. by apply Hm in H.
  - intros p. split; [intros [H|[va H]]; [by apply Hin | by apply Hm in H] |]. intros ->. left. apply root_is_node.
Qed.

(** [uvmcreate] takes one page and makes it an empty address space. *)
Lemma wp_uvmcreate s l :
  kmem_inv kend s l ->
  wp uvmcreate (fun pt s' =>
    match l with
    | [] => pt = 0 /\ s' = s
    | q :: l' => pt = q /\ q <> 0 /\ kmem_inv kend s' l' /\ uvm_inv (k_mem s') pt l' /\
        (forall va, translate (k_mem s') pt va = 0) /\ (forall p, owns (k_mem s') pt p <-> p = pt) /\
        only_page q (k_mem s) (k_mem s')
    end) s.
Proof.
  intros Hki. apply wp_bind. pose proof (kalloc_spec kend kend_ram s l Hki) as Hal. destruct l as [|q l].
  { apply wp_ok. exists 0, s. split; [exact Hal |]. by apply wp_ret. }
  destruct Hal as (s1 & Hal & K1 & Hq0 & _ & Ho). apply wp_ok. exists q, s1. split; [exact Hal |].
  rewrite (proj2 (Z.eqb_neq q 0) Hq0). apply wp_bind, wp_modify, wp_ret. unfold set_k_mem. cbn [k_mem k_freelist].
  pose proof (ki_nodup _ _ _ Hki) as [Hql _]%NoDup_cons. pose proof (ki_ok _ _ _ Hki) as [Hqok _]%Forall_cons.
  pose proof (memset_only q (k_mem s1) 0) as Hm.
  assert (page_is (KString.memset (k_mem s1) q 0 PGSIZE) q (fun _ => 0)) as Hz
    by (intros x Hx; by rewrite KString.ld8_memset, decide_True by lia).
  destruct (uvm_inv_empty _ q l Hz Hqok Hql) as (Hu & Ht & Hw). split_and!; try done.
  - apply kmem_inv_frame; [exact kend_ram | done |]. intros p x Hp Hx. apply Hm.
    pose proof (ki_ok _ _ _ K1) as Hok. rewrite Forall_forall in Hok.
    apply (pages_disjoint p q); [apply (Hok p Hp) | apply Hqok | by intros -> | done].
  - intros x Hx. rewrite Hm by done. by apply Ho.
Qed.

End uvm.

(** ** Properties *)

(** A concrete address space: an empty root next to the pool of free pages. *)
Lemma demo_uvm : uvm_inv KERNBASE (k_mem (pool pool6)) (page_at 0) pool6 /\
  (forall va, translate (k_mem (pool pool6)) (page_at 0) va = 0) /\
  (forall p, owns (k_mem (pool pool6)) (page_at 0) p <-> p = page_at 0).
Proof.
  destruct (uvm_inv_empty KERNBASE (k_mem (pool pool6)) (page_at 0) pool6) as (H & Ht & Hw); [| | | done].
  - intros x Hx. unfold pool, pool6. cbn [map link k_mem]. unfold page_at in *.
    rewrite !ld8_st64_ne by klia. done.
  - by apply (bool_decide_unpack _).
  - by apply (bool_decide_unpack _).
Qed.

Lemma mappages_witness :
  wp (mappages (page_at 0) 0x5000 (3 * PGSIZE) (page_at 20) PTE_R) (fun r s' =>
    exists l' k, kmem_inv KERNBASE s' l' /\ pt_inv KERNBASE (k_mem s') (page_at 0) l' /\
      pt_ext (page_at 0) (k_mem (pool pool6)) pool6 (k_mem s') l' /\
      mapped (k_mem (pool pool6)) (k_mem s') (page_at 0) 0x5000 k (page_at 20) PTE_R /\
      ((r = 0 /\ k = 3) \/ (r = -1 /\ 0 <= k < 3 /\ l' = []))) (pool pool6).
Proof.
  pose proof MAXVA_eq as HM. destruct demo_uvm as [[Hpt _ _ _] [Ht _]].
  apply (mappages_correct KERNBASE (pool pool6) pool6 (page_at 0) 0x5000 (3 * PGSIZE) (page_at 20) PTE_R);
    [klia | lia | klia | klia | by vm_compute | by vm_compute | by vm_compute | apply pool6_inv | exact Hpt |].
  intros x _. by rewrite Ht.
Defined.

(** C19: [uvmalloc] either maps zeroed pages with user permissions from the
    end of the old size up to the new one, or runs out of memory, returns 0 and
    leaves every translation as before; in both cases no page is lost and the
    old user memory is unchanged. *)
Theorem uvmalloc_correct (kend : Z) (s : kmem) (l : list Z) (pt oldsz newsz : Z) :
  KERNBASE <= kend -> 0 <= oldsz <= newsz -> newsz <= TRAPFRAME ->
  kmem_inv kend s l -> uvm_inv kend (k_mem s) pt l ->
  (forall va, PGROUNDUP oldsz <= va < PGROUNDUP newsz -> translate (k_mem s) pt va = 0) ->
  wp (uvmalloc kend pt oldsz newsz) (fun r s' =>
    (exists l', r = newsz /\
       grown kend (k_mem s) l pt (fun _ => uperm) (fun _ _ => 0) (PGROUNDUP oldsz) (PGROUNDUP newsz) s' l' \/
       r = 0 /\ restored kend (k_mem s) l pt s' l') /\
    forall va p, maps (k_mem s) pt va p -> ubyte (k_mem s') pt va = ubyte (k_mem s) pt va) s.
Proof.
  intros Hk Hsz Hmax Hki Hu Hz. pose proof TRAPFRAME_MAXVA as HT.
  eapply wp_mono; [by eapply (wp_uvmalloc kend Hk s l) |]. intros r s' (l' & H). split; [eauto |].
  intros va p Hm. destruct H as [(_ & G)|(_ & R)]; (eapply ubyte_keep; [done | apply Hki | | | done]).
  - apply (gr_keep _ _ _ _ _ _ _ _ _ _ G).
  - apply (gr_old _ _ _ _ _ _ _ _ _ _ G); [destruct Hm; klia |]. intros Hr.
    destruct Hm as (_ & Hv & _). by rewrite Hz in Hv.
  - apply (rs_keep _ _ _ _ _ _ R).
  - apply (rs_same _ _ _ _ _ _ R). destruct Hm; klia.
Qed.

Lemma uvmalloc_witness :
  wp (uvmalloc KERNBASE (page_at 0) 0 5000) (fun r s' =>
    (exists l', r = 5000 /\
       grown KERNBASE (k_mem (pool pool6)) pool6 (page_at 0) (fun _ => uperm) (fun _ _ => 0) 0 8192 s' l' \/
       r = 0 /\ restored KERNBASE (k_mem (pool pool6)) pool6 (page_at 0) s' l') /\
    forall va p, maps (k_mem (pool pool6)) (page_at 0) va p ->
      ubyte (k_mem s') (page_at 0) va = ubyte (k_mem (pool pool6)) (page_at 0) va) (pool pool6).
Proof.
  destruct demo_uvm as [Hu [Ht _]].
  apply (uvmalloc_correct KERNBASE (pool pool6) pool6 (page_at 0) 0 5000);
    [klia | lia | by vm_compute | apply pool6_inv | exact Hu | intros va _; apply Ht].
Defined.

(** C18: [uvmcopy] gives [new] a private copy of the first [sz] bytes of
    [old]: each page has the same permissions and content and its own
    physical page.  When memory runs out it returns -1 and unmaps what it had
    copied.  In both cases [old] is untouched and no page is lost. *)
Theorem uvmcopy_correct (kend : Z) (s : kmem) (l : list Z) (old new sz : Z) :
  KERNBASE <= kend -> 0 <= sz <= TRAPFRAME ->
  kmem_inv kend s l -> uvm_inv kend (k_mem s) old l -> uvm_inv kend (k_mem s) new l ->
  (forall p, owns (k_mem s) old p -> ~ owns (k_mem s) new p) ->
  (forall va, 0 <= va < PGROUNDUP sz -> pte_valid (translate (k_mem s) old va) = true) ->
  (forall va, 0 <= va < PGROUNDUP sz -> translate (k_mem s) new va = 0) ->
  wp (uvmcopy kend old new sz) (fun r s' => exists l',
    (r = 0 /\ grown kend (k_mem s) l new
        (fun a => PTE_FLAGS (translate (k_mem s) old a))
        (fun a x => ld8 (k_mem s) (PTE2PA (translate (k_mem s) old a) + x)) 0 (PGROUNDUP sz) s' l' \/
     r = -1 /\ restored kend (k_mem s) l new s' l') /\
    uvm_inv kend (k_mem s') old l' /\
    forall va p, maps (k_mem s) old va p ->
      translate (k_mem s') old va = translate (k_mem s) old va /\
      ubyte (k_mem s') old va = ubyte (k_mem s) old va) s.
Proof.
  intros Hk Hsz Hki Ho Hn Hd Hv Hz.
  eapply wp_mono; [by eapply (wp_uvmcopy kend Hk (k_mem s) l old new Ho Hn Hd s sz) |].
  intros r s' (l' & H). exists l'. split; [done |].
  destruct (other_space kend (k_mem s) l old new Ho Hn Hd (k_mem s') l') as (Hsame & Hu & Ht & _).
  - destruct H as [(_ & G)|(_ & R)]; [apply (gr_keep _ _ _ _ _ _ _ _ _ _ G) | apply (rs_keep _ _ _ _ _ _ R)].
  - apply Hki.
  - intros p Hp. destruct H as [(_ & G)|(_ & R)].
    + apply (ue_pages _ _ _ _ _ (gr_ext _ _ _ _ _ _ _ _ _ _ G)). by right.
    + apply (ue_pages _ _ _ _ _ (rs_ext _ _ _ _ _ _ R)). by right.
  - split; [done |]. intros va p Hm. split; [apply Ht |]. unfold ubyte. rewrite Ht.
    destruct Hm as (Hva & Hv' & Hp). rewrite Hp. apply (Hsame p); [right; by exists va |].
    unfold in_page. pose proof (Z.mod_pos_bound va PGSIZE ltac:(done)). lia.
Qed.

(** The pool after the empty space at page 0 grew by one page, and a second,
    empty address space at page 30. *)
Definition demo2 : kmem :=
  match uvmalloc KERNBASE (page_at 0) 0 PGSIZE (pool pool6) with Ok _ s => s | _ => pool [] end.

Lemma demo2_grown : exists l,
  grown KERNBASE (k_mem (pool pool6)) pool6 (page_at 0) (fun _ => uperm) (fun _ _ => 0) 0 PGSIZE demo2 l.
Proof.
  destruct demo_uvm as [Hu [Ht _]].
  destruct (proj1 (wp_ok _ _ _) (wp_uvmalloc KERNBASE ltac:(klia) (pool pool6) pool6 (page_at 0) 0 PGSIZE
    ltac:(klia) ltac:(by vm_compute) pool6_inv Hu ltac:(by intros))) as (r & s' & Hr & l' & H).
  assert (match uvmalloc KERNBASE (page_at 0) 0 PGSIZE (pool pool6) with Ok r _ => r =? 4096 | _ => false end = true)
    as Hc by (vm_compute; reflexivity).
  rewrite Hr in Hc. apply Z.eqb_eq in Hc. exists l'. unfold demo2. rewrite Hr.
  destruct H as [(_ & G)|(-> & _)]; [exact G | done].
Qed.

Lemma demo2_new l :
  grown KERNBASE (k_mem (pool pool6)) pool6 (page_at 0) (fun _ => uperm) (fun _ _ => 0) 0 PGSIZE demo2 l ->
  uvm_inv KERNBASE (k_mem demo2) (page_at 30) l /\
  (forall va, translate (k_mem demo2) (page_at 30) va = 0) /\
  (forall p, owns (k_mem demo2) (page_at 30) p <-> p = page_at 30) /\
  (forall p, owns (k_mem demo2) (page_at 0) p -> p <> page_at 30).
Proof.
  intros G. destruct demo_uvm as (Hu & _ & Hw).
  assert (page_at 30 ∉ pool6) as H30 by by apply (bool_decide_unpack _).
  destruct (uvm_inv_empty KERNBASE (k_mem demo2) (page_at 30) l) as (U & T & W);
    [| by apply (bool_decide_unpack _) | by intros ?%(gr_free _ _ _ _ _ _ _ _ _ _ G) |].
  - intros x Hx. assert (forall i, 0 <= i < 30 -> ~ in_page (page_at i) (page_at 30 + x)) as Hd
      by (intros i Hi; unfold in_page, page_at; klia).
    rewrite (gr_keep _ _ _ _ _ _ _ _ _ _ G).
    + unfold pool, pool6. cbn [map link k_mem]. unfold page_at. rewrite !ld8_st64_ne by klia. done.
    + intros p Hp. assert (p = page_at 0) as -> by (apply Hw; by left). by apply Hd.
    + intros p (i & -> & Hi)%list_elem_of_fmap. apply Hd.
      repeat (apply elem_of_cons in Hi as [->|Hi]; [lia |]). by apply elem_of_nil in Hi.
  - split_and!; [done.. |]. intros p Hp ->.
    destruct (proj1 (ue_pages _ _ _ _ _ (gr_ext _ _ _ _ _ _ _ _ _ _ G) _) (or_introl Hp)) as [Ho|?]; [| done].
    by apply Hw in Ho.
Qed.

Lemma uvmcopy_witness :
  exists l, wp (uvmcopy KERNBASE (page_at 0) (page_at 30) 100) (fun r s' => exists l',
    (r = 0 /\ grown KERNBASE (k_mem demo2) l (page_at 30)
        (fun a => PTE_FLAGS (translate (k_mem demo2) (page_at 0) a))
        (fun a x => ld8 (k_mem demo2) (PTE2PA (translate (k_mem demo2) (page_at 0) a) + x)) 0 4096 s' l' \/
     r = -1 /\ restored KERNBASE (k_mem demo2) l (page_at 30) s' l') /\
    uvm_inv KERNBASE (k_mem s') (page_at 0) l' /\
    forall va p, maps (k_mem demo2) (page_at 0) va p ->
      translate (k_mem s') (page_at 0) va = translate (k_mem demo2) (page_at 0) va /\
      ubyte (k_mem s') (page_at 0) va = ubyte (k_mem demo2) (page_at 0) va) demo2.
Proof.
  destruct demo2_grown as [l G]. destruct (demo2_new l G) as (U & T & W & D). exists l.
  apply (uvmcopy_correct KERNBASE demo2 l (page_at 0) (page_at 30) 100); [klia | by vm_compute | apply G | apply G | exact U | | |].
  - intros p Ho Hn%W. by apply (D p).
  - intros va Hva. change (PGROUNDUP 100) with 4096 in Hva. pose proof MAXVA_eq.
    destruct (gr_new _ _ _ _ _ _ _ _ _ _ G va) as (q & -> & _); [lia | unfold PGSIZE; lia | apply leaf_valid].
  - intros va _. apply T.
Defined.
