(* ===== verification/Uvmfree.v ===== *)
(** * kernel/vm.c, part 3: freeing an address space

    [freewalk] returns exactly the pages of the page-table tree to the free
    list, and [uvmfree] every page the address space owns. *)

From S2P Require Import Prelude Riscv Mem KString Kalloc Vm Uvm.

(** The pages of a page table of height [h], root first. *)
Fixpoint tree_pages (h : nat) (m : mem) (p : Z) : list Z :=
  p :: concat (map (fun i =>
    let v := ld64 m (p + 8 * i) in
    if pte_valid v then
      match h with O => [] | S h' => tree_pages h' m (PTE2PA v) end
    else []) (seqZ 0 512)).

(** No leaf is left: entries above the last level are interior entries, and
    entries of the last level are invalid. *)
Fixpoint tree_ok (h : nat) (m : mem) (p : Z) : Prop :=
  forall i, 0 <= i < 512 ->
    let v := ld64 m (p + 8 * i) in
    pte_valid v = true ->
    match h with
    | O => False
    | S h' => Z.land v (Z.lor (Z.lor PTE_R PTE_W) PTE_X) = 0 /\ tree_ok h' m (PTE2PA v)
    end.

Section uvmfree.
Context (kend : Z) (kend_ram : KERNBASE <= kend).

(** The pages below entry [i]. *)
Definition sub_pages (h : nat) (m : mem) (p i : Z) : list Z :=
  let v := ld64 m (p + 8 * i) in
  if pte_valid v then match h with O => [] | S h' => tree_pages h' m (PTE2PA v) end else [].

Lemma tree_pages_eq h m p : tree_pages h m p = p :: concat (map (sub_pages h m p) (seqZ 0 512)).
Proof. by destruct h. Qed.

Lemma sub_pages_elem h m p i r :
  0 <= i < 512 -> r ∈ sub_pages h m p i -> r ∈ tree_pages h m p.
Proof.
  intros Hi Hr. rewrite tree_pages_eq. right. apply list_elem_of_In, in_concat.
  exists (sub_pages h m p i). rewrite <- !list_elem_of_In. split; [| done].
  apply list_elem_of_fmap. exists i. split; [done |]. apply elem_of_seqZ. lia.
Qed.

Lemma tree_pages_self h m p : p ∈ tree_pages h m p.
Proof. rewrite tree_pages_eq. by left. Qed.

Lemma tree_frame h m m' p :
  (forall r x, r ∈ tree_pages h m p -> in_page r x -> ld8 m' x = ld8 m x) ->
  tree_pages h m' p = tree_pages h m p /\ (tree_ok h m p -> tree_ok h m' p).
Proof.
  revert p. induction h as [|h IH]; intros p Hf.
  all: assert (forall i, 0 <= i < 512 -> ld64 m' (p + 8 * i) = ld64 m (p + 8 * i)) as He
    by (intros i Hi; apply ld64_entry_frame; [done |]; intros x Hx; apply (Hf p); [apply tree_pages_self | done]).
  - split.
    + rewrite !tree_pages_eq. f_equal. f_equal. apply map_ext_in. intros i Hi%list_elem_of_In%elem_of_seqZ.
      unfold sub_pages. by rewrite He by lia.
    + intros Ht i Hi. cbn zeta. rewrite He by done. by apply Ht.
  - assert (forall i, 0 <= i < 512 -> pte_valid (ld64 m (p + 8 * i)) = true ->
      tree_pages h m' (PTE2PA (ld64 m (p + 8 * i))) = tree_pages h m (PTE2PA (ld64 m (p + 8 * i))) /\
      (tree_ok h m (PTE2PA (ld64 m (p + 8 * i))) -> tree_ok h m' (PTE2PA (ld64 m (p + 8 * i))))) as Hsub.
    { intros i Hi Hv. apply IH. intros r x Hr. apply Hf. apply (sub_pages_elem _ _ _ i); [done |].
      unfold sub_pages. by rewrite Hv. }
    split.
    + rewrite !tree_pages_eq. f_equal. f_equal. apply map_ext_in. intros i Hi%list_elem_of_In%elem_of_seqZ.
      unfold sub_pages. rewrite He by lia. destruct (pte_valid _) eqn:Hv; [| done]. apply Hsub; [lia | done].
    + intros Ht i Hi. cbn zeta. rewrite He by done. intros Hv. destruct (Ht i Hi Hv) as [H1 H2].
      split; [done |]. by apply (Hsub i Hi Hv).
Qed.

Lemma seqZ_split i n : 0 <= i < n -> seqZ 0 n = seqZ 0 i ++ i :: seqZ (i + 1) (n - i - 1).
Proof.
  intros H. replace n with (i + (1 + (n - i - 1))) at 1 by lia.
  rewrite !seqZ_app by lia. rewrite !Z.add_0_l. done.
Qed.

Lemma seqZ_snoc i : 0 <= i -> seqZ 0 (i + 1) = seqZ 0 i ++ [i].
Proof. intros H. rewrite seqZ_app by lia. by rewrite Z.add_0_l. Qed.

Lemma kmem_inv_outside s l p a v :
  kmem_inv kend s l -> page_ok kend p -> p ∉ l -> p <= a -> a + 8 <= p + PGSIZE ->
  kmem_inv kend (set_k_mem (fun m => st64 m a v) s) l.
Proof.
  intros Hki Hp Hpl Ha1 Ha2. apply kmem_inv_frame; [exact kend_ram | exact Hki |].
  intros r x Hr Hx. apply ld8_st64_ne. pose proof (ki_ok _ _ _ Hki) as Hok. rewrite Forall_forall in Hok.
  pose proof (pages_disjoint r p x (proj1 (Hok r Hr)) (proj1 Hp)) as Hd.
  unfold in_page in *. destruct (decide (r = p)) as [->|Hne]; [done |]. specialize (Hd Hne Hx). lia.
Qed.

#[local] Opaque seqZ.

(** What the loop of [freewalk] on the node [p] has done before entry [i]. *)
Record freed (h : nat) (s : kmem) (l : list Z) (p i : Z) (s1 : kmem) (f : list Z) : Prop := Freed {
  fr_pages : f ≡ₚ concat (map (sub_pages h (k_mem s) p) (seqZ 0 i));
  fr_kmem : kmem_inv kend s1 (f ++ l);
  fr_frame : forall x, ~ in_page p x -> (forall r, r ∈ f -> ~ in_page r x) ->
    ld8 (k_mem s1) x = ld8 (k_mem s) x;
  fr_entries : forall j, i <= j < 512 -> ld64 (k_mem s1) (p + 8 * j) = ld64 (k_mem s) (p + 8 * j);
}.

(** The specification of [freewalk] at height [h]. *)
Definition freewalk_ok (h : nat) : Prop := forall s l p,
  kmem_inv kend s l -> tree_ok h (k_mem s) p -> NoDup (tree_pages h (k_mem s) p) ->
  Forall (page_ok kend) (tree_pages h (k_mem s) p) ->
  (forall r, r ∈ tree_pages h (k_mem s) p -> r ∉ l) ->
  wp (freewalk kend (S h) p) (fun _ s' => exists f,
    f ≡ₚ tree_pages h (k_mem s) p /\ kmem_inv kend s' (f ++ l) /\
    forall x, (forall r, r ∈ tree_pages h (k_mem s) p -> ~ in_page r x) ->
      ld8 (k_mem s') x = ld8 (k_mem s) x) s.

(** One interior entry. *)
Lemma freed_child h s l p i s1 f :
  freewalk_ok h -> 0 <= i < 512 ->
  NoDup (tree_pages (S h) (k_mem s) p) -> Forall (page_ok kend) (tree_pages (S h) (k_mem s) p) ->
  (forall r, r ∈ tree_pages (S h) (k_mem s) p -> r ∉ l) -> tree_ok (S h) (k_mem s) p ->
  freed (S h) s l p i s1 f -> pte_valid (ld64 (k_mem s) (p + 8 * i)) = true ->
  wp (freewalk kend (S h) (PTE2PA (ld64 (k_mem s) (p + 8 * i))) ;;; store64 (p + 8 * i) 0)
    (fun _ s2 => exists f2, freed (S h) s l p (i + 1) s2 f2) s1.
Proof.
  intros IH Hi Hnd Hok Hl Ht [Fp Fk Ff Fe] Hv. set (c := PTE2PA (ld64 (k_mem s) (p + 8 * i))) in *.
  assert (sub_pages (S h) (k_mem s) p i = tree_pages h (k_mem s) c) as Ec by (unfold sub_pages; by rewrite Hv).
  pose proof Hnd as Hnd'. rewrite tree_pages_eq, (seqZ_split i 512) in Hnd' by lia.
  rewrite map_app, concat_app in Hnd'. cbn [map concat] in Hnd'. rewrite Ec in Hnd'.
  apply NoDup_cons in Hnd' as [Hpn (Hnd1 & Hd1 & (Hnd2 & Hd2 & _)%NoDup_app)%NoDup_app].
  assert (forall r, r ∈ tree_pages h (k_mem s) c -> r ∈ tree_pages (S h) (k_mem s) p) as Hsub.
  { intros r Hr. apply (sub_pages_elem _ _ _ i); [done | by rewrite Ec]. }
  rewrite Forall_forall in Hok. pose proof (Hok p (tree_pages_self _ _ _)) as Hpok.
  assert (forall r, r ∈ f -> r ∈ tree_pages (S h) (k_mem s) p) as Hfsub.
  { intros r Hr. rewrite Fp in Hr. rewrite tree_pages_eq, (seqZ_split i 512), map_app, concat_app by lia. set_solver +Hr. }
  assert (p ∉ f) as Hpf by (rewrite Fp; set_solver +Hpn).
  assert (p ∉ tree_pages h (k_mem s) c) as Hpc by set_solver +Hpn.
  assert (forall r, r ∈ tree_pages h (k_mem s) c -> r ∉ f) as Hcf.
  { intros r Hr Hrf. rewrite Fp in Hrf. apply (Hd1 r Hrf). set_solver +Hr. }
  assert (forall r x, r ∈ tree_pages h (k_mem s) c -> in_page r x -> ld8 (k_mem s1) x = ld8 (k_mem s) x) as Hfr.
  { intros r x Hr Hx. apply Ff.
    - apply (pages_disjoint r p); [apply Hok, Hsub, Hr | apply Hpok | | done]. intros ->. done.
    - intros r' Hr'. apply (pages_disjoint r r'); [apply Hok, Hsub, Hr | apply Hok, Hfsub, Hr' | | done].
      intros ->. by apply (Hcf r'). }
  destruct (tree_frame h (k_mem s) (k_mem s1) c Hfr) as [Etp Hto].
  apply wp_bind. eapply wp_mono.
  { apply (IH s1 (f ++ l) c); rewrite ?Etp; [done | apply Hto, (Ht i Hi Hv) | done | |].
    - apply Forall_forall. intros r Hr. apply Hok, Hsub, Hr.
    - intros r Hr. rewrite elem_of_app. intros [?|?]; [by apply (Hcf r) | by apply (Hl r (Hsub r Hr))]. }
  intros [] s2 (f1 & Ff1 & K1 & F1). rewrite Etp in Ff1, F1. apply wp_modify. exists (f1 ++ f).
  assert (p ∉ f1) as Hpf1 by by rewrite Ff1.
  split.
  - rewrite seqZ_snoc, map_app, concat_app, Ff1, Fp by lia. cbn [map concat]. rewrite Ec, app_nil_r. apply Permutation_app_comm.
  - rewrite <- (assoc_L (++)). apply (kmem_inv_outside _ _ p); [done | done | | lia | unfold PGSIZE; lia].
    rewrite !elem_of_app. intros [?|[?|?]]; [done | done | apply (Hl p); [apply tree_pages_self | done]].
  - intros x Hx Hr. unfold set_k_mem. cbn [k_mem]. rewrite ld8_st64_ne by (unfold in_page, PGSIZE in Hx; lia).
    rewrite F1, Ff; [done | done | |].
    + intros r ?. apply Hr. set_solver.
    + intros r ?. apply Hr. rewrite elem_of_app, Ff1. by left.
  - intros j Hj. unfold set_k_mem. cbn [k_mem]. rewrite ld64_st64_ne, <- Fe by lia.
    apply ld64_entry_frame; [lia |]. intros x Hx. apply F1. intros r Hr.
    apply (pages_disjoint p r); [apply Hpok | apply Hok, Hsub, Hr | | done]. intros ->. done.
Qed.

Lemma freed_skip h s l p i s1 f :
  0 <= i -> freed h s l p i s1 f -> pte_valid (ld64 (k_mem s) (p + 8 * i)) = false ->
  freed h s l p (i + 1) s1 f.
Proof.
  intros Hi [Fp Fk Ff Fe] Hv. split; [| done | done | intros; apply Fe; lia].
  rewrite seqZ_snoc, map_app, concat_app, Fp by lia. cbn [map concat].
  assert (sub_pages h (k_mem s) p i = []) as -> by (unfold sub_pages; by rewrite Hv).
  by rewrite !app_nil_r.
Qed.

(** After the loop the node itself is freed. *)
Lemma freed_done h s l p s1 f :
  NoDup (tree_pages h (k_mem s) p) -> page_ok kend p -> p ∉ l -> freed h s l p 512 s1 f ->
  wp (kfree kend p) (fun _ s' => exists f,
    f ≡ₚ tree_pages h (k_mem s) p /\ kmem_inv kend s' (f ++ l) /\
    forall x, (forall r, r ∈ tree_pages h (k_mem s) p -> ~ in_page r x) ->
      ld8 (k_mem s') x = ld8 (k_mem s) x) s1.
Proof.
  intros Hnd Hp Hl [Fp Fk Ff _].
  rewrite tree_pages_eq in Hnd. apply NoDup_cons in Hnd as [Hpn _].
  destruct (kfree_spec kend kend_ram p s1 (f ++ l) Fk Hp) as (s' & Hk & K & F).
  { rewrite elem_of_app, Fp. tauto. }
  apply wp_ok. exists tt, s'. split; [exact Hk |]. exists (p :: f).
  rewrite tree_pages_eq. split_and!; [by rewrite Fp | done |].
  intros x Hx. rewrite F, Ff; [done | apply Hx; by left | | apply Hx; by left].
  intros r Hr. apply Hx. right. by rewrite <- Fp.
Qed.

Lemma wp_freewalk_step h :
  match h with O => True | S h' => freewalk_ok h' end -> freewalk_ok h.
Proof.
  intros IH s l p Hki Ht Hnd Hok Hl.
  assert (page_ok kend p) as Hpok by (rewrite Forall_forall in Hok; apply Hok, tree_pages_self).
  cbn [freewalk]. apply wp_bind.
  apply (wp_for_range (R := Empty_set)) with (I := fun i s1 => exists f, freed h s l p i s1 f).
  - exists []. by split.
  - intros i s1 Hi (f & F). cbn in Hi. apply wp_bind, wp_gets.
    rewrite (fr_entries _ _ _ _ _ _ _ F) by lia.
    destruct (pte_valid (ld64 (k_mem s) (p + 8 * i))) eqn:Hv; cbn [andb].
    2:{ apply wp_ret. exists f. apply freed_skip; [lia | done | done]. }
    destruct h as [|h]; [by destruct (Ht i ltac:(lia) Hv) |].
    destruct (Ht i ltac:(lia) Hv) as [Hrwx _]. rewrite Hrwx. cbn [Z.eqb].
    pose proof (freed_child h s l p i s1 f IH ltac:(lia) Hnd Hok Hl Ht F Hv) as Hc.
    apply wp_bind_inv in Hc. apply wp_bind. eapply wp_mono; [exact Hc |].
    intros [] s2 Hc2. apply wp_bind. eapply wp_mono; [exact Hc2 |]. intros [] s3 Hf. by apply wp_ret.
  - intros s1 (f & F). apply (freed_done h s l p s1 f); [done | done | apply Hl, tree_pages_self | done].
Qed.

Lemma wp_freewalk h : freewalk_ok h.
Proof. induction h; by apply wp_freewalk_step. Qed.

(** ** The tree of a page table *)

(** [va] with its index at depth [k] replaced by [i]. *)
Definition set_idx (k : nat) (va i : Z) : Z := va + (i - idx k va) * 2 ^ (12 + 9 * (2 - Z.of_nat k)).

Lemma set_idx_spec k va i :
  (k <= 2)%nat -> 0 <= i < 512 ->
  same_prefix k va (set_idx k va i) /\ idx k (set_idx k va i) = i /\
  (0 <= va < 2 ^ 39 -> 0 <= set_idx k va i < 2 ^ 39).
Proof.
  intros Hk Hi. unfold same_prefix, set_idx, idx.
  assert (k = 0%nat \/ k = 1%nat \/ k = 2%nat) as [-> | [-> | ->]] by lia; cbn [Z.of_nat Z.sub];
    split_and!; try (intros j Hj; assert (j = 0%nat \/ j = 1%nat) as [-> | ->] by lia);
    try lia; rewrite !PX_eq by lia; cbn -[Z.div Z.modulo Z.mul]; change (2 ^ 30) with 1073741824;
    change (2 ^ 21) with 2097152; change (2 ^ 12) with 4096; change (2 ^ 39) with 549755813888;
    repeat match goal with |- context [2 ^ ?e] => let r := eval vm_compute in (2 ^ e) in change (2 ^ e) with r end;
    intros; Z.div_mod_to_equations; try lia.
Qed.

Lemma node_some_le m pt va j k p :
  (k <= j)%nat -> node j m pt va = Some p -> exists q, node k m pt va = Some q.
Proof.
  intros Hk. revert p. induction Hk as [|j Hk IH]; intros p Hp; [eauto |].
  rewrite node_S in Hp. destruct (node j m pt va) as [q|]; [| done]. by apply (IH q).
Qed.

(** A walk enters the tree below [p], the node at depth [k] for [va]. *)
Definition below (m : mem) (pt : Z) (k : nat) (va r : Z) : Prop :=
  exists j va', (k <= j <= 2)%nat /\ same_prefix k va va' /\ node j m pt va' = Some r.

Lemma below_child m pt k va i p r :
  (k <= 1)%nat -> 0 <= i < 512 -> node k m pt va = Some p ->
  pte_valid (ld64 m (p + 8 * i)) = true ->
  let va' := set_idx k va i in
  node (S k) m pt va' = Some (PTE2PA (ld64 m (p + 8 * i))) /\
  (below m pt (S k) va' r <->
     exists j va'', (S k <= j <= 2)%nat /\ same_prefix k va va'' /\ idx k va'' = i /\ node j m pt va'' = Some r).
Proof.
  intros Hk Hi Hp Hv va'. destruct (set_idx_spec k va i ltac:(lia) Hi) as (H1 & H2 & _). split.
  - rewrite node_S. rewrite <- (node_prefix k m pt va va' H1), Hp. cbn zeta. subst va'. by rewrite H2, Hv.
  - unfold below. setoid_rewrite same_prefix_S. split.
    + intros (j & a & Hj & (Hs & Hx) & Hn). exists j, a. split_and!; [lia.. | | | done].
      * intros n Hn'. exact (eq_trans (H1 n Hn') (Hs n Hn')).
      * rewrite <- Hx. exact H2.
    + intros (j & a & Hj & Hs & Hx & Hn). exists j, a. split_and!; [lia.. | | | done].
      * intros n Hn'. exact (eq_trans (eq_sym (H1 n Hn')) (Hs n Hn')).
      * rewrite Hx. exact H2.
Qed.

Lemma sub_pages_below m pt h k va p i r :
  (forall h' va p r, h = S h' -> node (S k) m pt va = Some p ->
     r ∈ tree_pages h' m p <-> below m pt (S k) va r) ->
  (k + h = 2)%nat -> 0 <= i < 512 -> node k m pt va = Some p ->
  (r ∈ sub_pages h m p i <->
   exists j va', (S k <= j <= 2)%nat /\ same_prefix k va va' /\ idx k va' = i /\ node j m pt va' = Some r).
Proof.
  intros IH Hk Hi Hp. unfold sub_pages. destruct (pte_valid (ld64 m (p + 8 * i))) eqn:Hv.
  - destruct h as [|h].
    + rewrite elem_of_nil. split; [done |]. intros (j & va' & Hj & _). lia.
    + destruct (below_child m pt k va i p r ltac:(lia) Hi Hp Hv) as [Hn Hb].
      rewrite <- Hb. by apply IH.
  - rewrite elem_of_nil. split; [done |]. intros (j & va' & Hj & Hs & Hx & Hn).
    destruct (node_some_le m pt va' j (S k) r ltac:(lia) Hn) as [q Hq]. rewrite node_S in Hq.
    rewrite <- (node_prefix k m pt va va' Hs), Hp, Hx in Hq. cbn zeta in Hq. by rewrite Hv in Hq.
Qed.

Lemma elem_of_subs h m p r :
  r ∈ concat (map (sub_pages h m p) (seqZ 0 512)) <-> exists i, 0 <= i < 512 /\ r ∈ sub_pages h m p i.
Proof.
  rewrite list_elem_of_In, in_concat. setoid_rewrite in_map_iff. split.
  - intros (x & (i & <- & Hi) & Hr). exists i. apply list_elem_of_In, elem_of_seqZ in Hi.
    apply list_elem_of_In in Hr. split; [lia | done].
  - intros (i & Hi & Hr). exists (sub_pages h m p i). split; [| by apply list_elem_of_In].
    exists i. split; [done |]. apply list_elem_of_In, elem_of_seqZ. lia.
Qed.

Lemma tree_pages_below h k m pt va p r :
  (k + h = 2)%nat -> node k m pt va = Some p ->
  r ∈ tree_pages h m p <-> below m pt k va r.
Proof.
  revert k va p r. induction h as [h IH] using lt_wf_ind. intros k va p r Hk Hp.
  rewrite tree_pages_eq, elem_of_cons, elem_of_subs.
  assert (forall i, 0 <= i < 512 -> r ∈ sub_pages h m p i <->
    exists j va', (S k <= j <= 2)%nat /\ same_prefix k va va' /\ idx k va' = i /\ node j m pt va' = Some r)
    as Hsub.
  { intros i Hi. apply sub_pages_below with (va := va); [| lia | done | done].
    intros h' va' p' r' -> Hp'. apply IH; (done || lia). }
  split.
  - intros [->|(i & Hi & Hr)].
    + exists k, va. split_and!; [lia.. | apply same_prefix_refl | done].
    + apply Hsub in Hr as (j & va' & Hj & Hs & _ & Hn); [| done]. exists j, va'. split_and!; (done || lia).
  - intros (j & va' & Hj & Hs & Hn). destruct (decide (j = k)) as [->|Hne].
    + left. rewrite (node_prefix k m pt va va' Hs) in Hp. congruence.
    + right. exists (idx k va'). split; [apply idx_range; lia |].
      apply Hsub; [apply idx_range; lia |]. exists j, va'. split_and!; (done || lia).
Qed.

Lemma NoDup_concat_map {A} (f : Z -> list A) (L : list Z) :
  NoDup L -> (forall i, i ∈ L -> NoDup (f i)) ->
  (forall i i' r, i ∈ L -> i' ∈ L -> r ∈ f i -> r ∈ f i' -> i = i') ->
  NoDup (concat (map f L)).
Proof.
  induction L as [|i L IH]; intros Hnd Hf Hd; cbn [map concat]; [constructor |].
  apply NoDup_cons in Hnd as [Hi Hnd]. apply NoDup_app. split_and!.
  - apply Hf. by left.
  - intros r Hr Hr'. apply list_elem_of_In, in_concat in Hr' as (x & Hx & Hrx).
    apply in_map_iff in Hx as (i' & <- & Hi'). apply list_elem_of_In in Hi', Hrx.
    apply Hi. rewrite (Hd i i' r); [done | by left | by right | done | done].
  - apply IH; [done | intros; apply Hf; by right |].
    intros a b r Ha Hb. apply Hd; by right.
Qed.

Lemma tree_pages_nodup l h k m pt va p :
  pt_inv kend m pt l -> (k + h = 2)%nat -> node k m pt va = Some p -> NoDup (tree_pages h m p).
Proof.
  intros Hpt. revert k va p. induction h as [h IH] using lt_wf_ind. intros k va p Hk Hp.
  rewrite tree_pages_eq.
  assert (forall i r, 0 <= i < 512 -> r ∈ sub_pages h m p i ->
    exists j va', (S k <= j <= 2)%nat /\ same_prefix k va va' /\ idx k va' = i /\ node j m pt va' = Some r)
    as Hsub.
  { intros i r Hi. apply sub_pages_below with (va := va); [| lia | done | done].
    intros h' va' p' r' -> Hp'. apply tree_pages_below; (done || lia). }
  apply NoDup_cons. split.
  { intros (i & Hi & Hr)%elem_of_subs. apply Hsub in Hr as (j & va' & Hj & _ & _ & Hn); [| done].
    destruct (pi_tree _ _ _ _ Hpt k j va va' p) as [? _]; (done || lia). }
  apply NoDup_concat_map; [apply NoDup_seqZ | intros i Hi%elem_of_seqZ |].
  - unfold sub_pages. destruct (pte_valid (ld64 m (p + 8 * i))) eqn:Hv; [| constructor].
    destruct h as [|h]; [constructor |].
    destruct (below_child m pt k va i p 0 ltac:(lia) ltac:(lia) Hp Hv) as [Hn _].
    apply (IH h ltac:(lia) (S k) _ _ ltac:(lia) Hn).
  - intros i i' r Hi%elem_of_seqZ Hi'%elem_of_seqZ Hr Hr'.
    apply Hsub in Hr as (j & a & Hj & Hs & <- & Hn); [| lia].
    apply Hsub in Hr' as (j' & a' & Hj' & Hs' & <- & Hn'); [| lia].
    destruct (pi_tree _ _ _ _ Hpt j j' a a' r) as [_ Hp']; [lia | lia | done | done | apply Hp'; lia].
Qed.

Lemma root_tree_ok m pt l :
  pt_inv kend m pt l ->
  (forall va, 0 <= va < MAXVA -> pte_valid (translate m pt va) = false) -> tree_ok 2 m pt.
Proof.
  intros Hpt Hno.
  assert (forall h k va p, (k + h = 2)%nat -> 0 <= va < 2 ^ 39 -> node k m pt va = Some p -> tree_ok h m p) as H;
    [| apply (H 2%nat 0%nat 0); (done || lia)].
  induction h as [|h IH]; intros k va p Hk Hva Hp i Hi v Hv.
  - destruct (set_idx_spec k va i ltac:(lia) Hi) as (H1 & H2 & H3). specialize (H3 Hva).
    assert (k = 2%nat) as -> by lia. rewrite (node_prefix _ _ _ _ _ H1) in Hp.
    assert (translate m pt (set_idx 2 va i) = v) as Ev by (unfold translate; by rewrite Hp, H2).
    destruct (decide (set_idx 2 va i < MAXVA)) as [Hlt|Hge]; [by rewrite <- Ev, Hno in Hv by lia |].
    destruct (node_some_le m pt _ 2 1 p ltac:(lia) Hp) as [q Hq]. rewrite node_S in Hq. cbn [node] in Hq.
    rewrite (pi_high _ _ _ _ Hpt) in Hq; [done |]. rewrite MAXVA_eq in Hge. unfold idx. rewrite PX_eq by lia.
    change (2 ^ (12 + 9 * (2 - Z.of_nat 0))) with 1073741824. change (2 ^ 39) with 549755813888 in H3.
    change (2 ^ 38) with 274877906944 in Hge. Z.div_mod_to_equations. lia.
  - split; [| eapply (IH (S k) (set_idx k va i)); [lia | apply set_idx_spec; (done || lia) |]].
    + destruct (set_idx_spec k va i ltac:(lia) Hi) as (H1 & H2 & _).
      rewrite (node_prefix _ _ _ _ _ H1) in Hp.
      pose proof (pi_interior _ _ _ _ Hpt k _ _ ltac:(lia) Hp) as Hint. rewrite H2 in Hint. by apply Hint.
    + by destruct (below_child m pt k va i p 0 ltac:(lia) Hi Hp Hv) as [? _].
Qed.

Lemma wp_freewalk_root s l pt :
  kmem_inv kend s l -> pt_inv kend (k_mem s) pt l ->
  (forall va, 0 <= va < MAXVA -> pte_valid (translate (k_mem s) pt va) = false) ->
  wp (freewalk kend 3 pt) (fun _ s' => exists l', kmem_inv kend s' l' /\
    (forall p, p ∈ l' <-> p ∈ l \/ is_node (k_mem s) pt p) /\
    forall x, (forall p, is_node (k_mem s) pt p -> ~ in_page p x) -> ld8 (k_mem s') x = ld8 (k_mem s) x) s.
Proof.
  intros Hki Hpt Hno.
  assert (forall r, r ∈ tree_pages 2 (k_mem s) pt <-> is_node (k_mem s) pt r) as Hin.
  { intros r. rewrite (tree_pages_below 2 0 _ pt 0) by done. unfold below, is_node. split.
    - intros (j & va & Hj & _ & Hn). exists j, va. split; [lia | done].
    - intros (j & va & Hj & Hn). exists j, va. split_and!; [lia | lia | intros n ?; lia | done]. }
  eapply wp_mono; [apply (wp_freewalk 2 s l pt); try done |].
  - by eapply root_tree_ok.
  - by apply (tree_pages_nodup l 2 0 _ pt 0).
  - apply Forall_forall. intros r Hr%Hin. by apply (pi_ok _ _ _ _ Hpt).
  - intros r Hr%Hin. by apply (pi_used _ _ _ _ Hpt).
  - intros [] s' (f & Hf & K & F). exists (f ++ l). split_and!; [done | |].
    + intros p. rewrite elem_of_app, Hf, Hin. tauto.
    + intros x Hx. apply F. intros r Hr%Hin. by apply Hx.
Qed.

(** Every page of the address space goes back to the free list. *)
Lemma wp_uvmfree s l pt sz :
  kmem_inv kend s l -> uvm_inv kend (k_mem s) pt l -> 0 <= sz <= TRAPFRAME ->
  (forall va, 0 <= va < PGROUNDUP sz -> pte_valid (translate (k_mem s) pt va) = true) ->
  (forall va, PGROUNDUP sz <= va < MAXVA -> pte_valid (translate (k_mem s) pt va) = false) ->
  wp (uvmfree kend pt sz) (fun _ s' => exists l', kmem_inv kend s' l' /\
    (forall p, p ∈ l' <-> p ∈ l \/ owns (k_mem s) pt p) /\
    forall x, (forall p, owns (k_mem s) pt p -> ~ in_page p x) -> ld8 (k_mem s') x = ld8 (k_mem s) x) s.
Proof.
  intros Hki Hu Hsz Hin Hout. pose proof (PGROUNDUP_size sz Hsz) as (Hb & Hc & Ha).
  pose proof TRAPFRAME_MAXVA as HT. pose proof (aligned_div _ Ha) as Hd.
  apply wp_bind.
  apply wp_mono with (Q := fun _ s1 => exists ps, unmap_post kend (k_mem s) l pt 0 (PGROUNDUP sz / PGSIZE) ps s1).
  { rewrite Z.gtb_ltb. destruct (Z.ltb_spec 0 sz) as [Hp|Hp].
    - apply wp_uvmunmap; [done | done | done | apply Z.div_pos; klia | lia | done | done |]. intros va Hva. apply Hin. lia.
    - apply wp_ret. exists []. replace (PGROUNDUP sz / PGSIZE) with 0; [by apply unmap_post_nil |].
      unfold PGSIZE in *. lia. }
  intros [] s1 (ps & L & K & U & X & T & P & N & F). unfold unmapped in T. rewrite Hd in T, P.
  eapply wp_mono; [apply (wp_freewalk_root s1 (ps ++ l) pt K (ui_pt _ _ _ _ U)) |].
  { intros va Hva. rewrite T by done. case_decide; [done |]. apply Hout. lia. }
  intros [] s' (l' & K' & Hl' & F'). exists l'. split_and!; [done | |].
  - intros p. rewrite Hl', elem_of_app, N. unfold owns. split.
    + intros [[Hp|Hp]|Hp]; [| tauto..]. destruct (P p Hp) as (va & _ & Hm). right. right. eauto.
    + intros [Hp|[Hp|(va & Hm)]]; [tauto.. |]. left.
      destruct (proj2 (ue_pages _ _ _ _ _ X p)) as [[Hn|(va' & Hm')]|Hp]; [left; right; eauto | | |].
      * exfalso. destruct (ui_leaf _ _ _ _ Hu va p Hm) as (_ & _ & Hn'). apply Hn'. by apply N.
      * exfalso. destruct Hm' as (Hva' & Hv' & _). rewrite T in Hv' by klia.
        case_decide; [done |]. by rewrite Hout in Hv' by klia.
      * apply elem_of_app in Hp. tauto.
  - intros x Hx. rewrite F', F; [done | | |].
    + intros p Hp. apply Hx. by left.
    + intros p Hp. destruct (P p Hp) as (va & _ & Hm). apply Hx. right. eauto.
    + intros p Hp%N. apply Hx. by left.
Qed.

End uvmfree.

(** ** Properties *)

(** C20: [uvmfree] on a process whose pages below [sz] are mapped, and no
    others, returns every page it owns (user pages and page-table pages alike)
    to the free list, exactly once, and writes no page of anybody else. *)
Theorem uvmfree_correct (kend : Z) (s : kmem) (l : list Z) (pt sz : Z) :
  KERNBASE <= kend -> kmem_inv kend s l -> uvm_inv kend (k_mem s) pt l -> 0 <= sz <= TRAPFRAME ->
  (forall va, 0 <= va < PGROUNDUP sz -> pte_valid (translate (k_mem s) pt va) = true) ->
  (forall va, PGROUNDUP sz <= va < MAXVA -> pte_valid (translate (k_mem s) pt va) = false) ->
  wp (uvmfree kend pt sz) (fun _ s' => exists l', kmem_inv kend s' l' /\
    (forall p, p ∈ l' <-> p ∈ l \/ owns (k_mem s) pt p) /\
    forall x, (forall p, owns (k_mem s) pt p -> ~ in_page p x) -> ld8 (k_mem s') x = ld8 (k_mem s) x) s.
Proof. intros Hk. by apply wp_uvmfree. Qed.

Lemma uvmfree_witness :
  exists l : list Z, wp (uvmfree KERNBASE (page_at 0) 100) (fun _ s' => exists l', kmem_inv KERNBASE s' l' /\
    (forall p, p ∈ l' <-> p ∈ l \/ owns (k_mem demo2) (page_at 0) p) /\
    forall x, (forall p, owns (k_mem demo2) (page_at 0) p -> ~ in_page p x) ->
      ld8 (k_mem s') x = ld8 (k_mem demo2) x) demo2.
Proof.
  destruct demo2_grown as [l G]. destruct demo_uvm as (_ & Ht & _). exists l. pose proof MAXVA_eq.
  apply (uvmfree_correct KERNBASE demo2 l (page_at 0) 100);
    [klia | apply G | apply G | by vm_compute | |]; change (PGROUNDUP 100) with 4096; intros va Hva.
  - destruct (gr_new _ _ _ _ _ _ _ _ _ _ G va) as (q & -> & _); [lia | unfold PGSIZE; lia | apply leaf_valid].
  - rewrite (gr_old _ _ _ _ _ _ _ _ _ _ G va), Ht; [done | lia | unfold PGSIZE; lia].
Defined.
