(* ===== verification/Ucopy.v ===== *)
(** * kernel/vm.c, part 4: copies between kernel and user memory

    [copyout], [copyin] and [copyinstr].  [uread] is the specification: what
    a user load would see, [None] where the page is not mapped for the user.
    The three functions move exactly the bytes [uread] describes, across page
    boundaries, and stop at the first unmapped page. *)

From S2P Require Import Prelude Riscv Mem KString Kalloc Vm Uvm.

(** Every iteration but the last stops at a page boundary, and an iteration
    at or above [MAXVA] fails. *)
Definition copy_fuel (len : Z) : nat := Z.to_nat (Z.min len MAXVA / PGSIZE + 3).

Fixpoint copyout_loop (fuel : nat) (pagetable dstva : Z) (src : list Z) (len : Z) : M kmem Z :=
  if len >? 0 then
    match fuel with
    | O => out_of_fuel
    | S fuel' =>
        let va0 := PGROUNDDOWN dstva in
        let! pa0 := walkaddr pagetable va0 in
        if pa0 =? 0 then ret (-1)
        else
          let n := PGSIZE - (dstva - va0) in
          let n := if n >? len then len else n in
          copy_to (pa0 + (dstva - va0)) src n ;;;
          copyout_loop fuel' pagetable (u64 (va0 + PGSIZE)) (drop (Z.to_nat n) src) (len - n)
    end
  else ret 0.

Definition copyout (pagetable dstva : Z) (src : list Z) (len : Z) : M kmem Z :=
  copyout_loop (copy_fuel len) pagetable dstva src len.

(** The second component of the result is what was written at [dst]. *)
Fixpoint copyin_loop (fuel : nat) (pagetable srcva len : Z) (dst : list Z) : M kmem (Z * list Z) :=
  if len >? 0 then
    match fuel with
    | O => out_of_fuel
    | S fuel' =>
        let va0 := PGROUNDDOWN srcva in
        let! pa0 := walkaddr pagetable va0 in
        if pa0 =? 0 then ret (-1, dst)
        else
          let n := PGSIZE - (srcva - va0) in
          let n := if n >? len then len else n in
          let! b := copy_from (pa0 + (srcva - va0)) n in
          copyin_loop fuel' pagetable (u64 (va0 + PGSIZE)) (len - n) (dst ++ b)
    end
  else ret (0, dst).

Definition copyin (pagetable srcva len : Z) : M kmem (Z * list Z) :=
  copyin_loop (copy_fuel len) pagetable srcva len [].

(** The inner loop of [copyinstr]: whether it met a NUL, and what it wrote. *)
Fixpoint copyinstr_page (n : nat) (m : mem) (p : Z) : bool * list Z :=
  match n with
  | O => (false, [])
  | S n' =>
      if ld8 m p =? 0 then (true, [0])
      else let '(got_null, l) := copyinstr_page n' m (p + 1) in (got_null, ld8 m p :: l)
  end.

Fixpoint copyinstr_loop (fuel : nat) (pagetable srcva max : Z) (dst : list Z) : M kmem (Z * list Z) :=
  if max >? 0 then
    match fuel with
    | O => out_of_fuel
    | S fuel' =>
        let va0 := PGROUNDDOWN srcva in
        let! pa0 := walkaddr pagetable va0 in
        if pa0 =? 0 then ret (-1, dst)
        else
          let n := PGSIZE - (srcva - va0) in
          let n := if n >? max then max else n in
          let! '(got_null, l) := gets (fun s => copyinstr_page (Z.to_nat n) (k_mem s) (pa0 + (srcva - va0))) in
          if got_null then ret (0, dst ++ l)
          else copyinstr_loop fuel' pagetable (u64 (va0 + PGSIZE)) (max - n) (dst ++ l)
    end
  else ret (-1, dst).

Definition copyinstr (pagetable srcva max : Z) : M kmem (Z * list Z) :=
  copyinstr_loop (copy_fuel max) pagetable srcva max [].

(** ** What user code sees *)

(** The physical page [walkaddr] finds, 0 if none. *)
Definition uaddr (m : mem) (pt va : Z) : Z :=
  if va >=? MAXVA then 0
  else
    let v := translate m pt va in
    if Z.land v PTE_V =? 0 then 0 else if Z.land v PTE_U =? 0 then 0 else PTE2PA v.

Definition uread (m : mem) (pt va : Z) : option Z :=
  let pa := uaddr m pt (PGROUNDDOWN va) in
  if pa =? 0 then None else Some (ld8 m (pa + va mod PGSIZE)).

(** User memory holds [bs] at [va]. *)
Definition reads (m : mem) (pt va : Z) (bs : list Z) : Prop :=
  forall i b, bs !! i = Some b -> uread m pt (va + Z.of_nat i) = Some b.

Section ucopy.
Context (kend : Z) (kend_ram : KERNBASE <= kend).

Lemma walkaddr_eq s l pt va :
  pt_inv kend (k_mem s) pt l -> walkaddr pt va s = Ok (uaddr (k_mem s) pt va) s.
Proof.
  intros Hpt. unfold walkaddr, uaddr. rewrite Z.geb_leb. destruct (Z.leb_spec MAXVA va) as [|Hlt]; [done |].
  unfold bind. rewrite walk_lookup by done. unfold translate. destruct (node 2 (k_mem s) pt va) as [q|] eqn:Hq.
  - rewrite (proj2 (Z.eqb_neq _ _) (node2_entry_pos kend kend_ram _ _ _ _ _ Hpt Hq)).
    unfold load64, gets. by repeat destruct (_ =? 0).
  - done.
Qed.

Lemma reads_nil m pt va : reads m pt va [].
Proof. by intros i b. Qed.

Lemma reads_app m pt va bs bs' :
  reads m pt va bs -> reads m pt (va + Z.of_nat (length bs)) bs' -> reads m pt va (bs ++ bs').
Proof.
  intros H H' i b [Hi|[Hi Hb]]%lookup_app_Some; [by apply H |].
  apply H' in Hb. rewrite <- Hb. f_equal. lia.
Qed.

(** Within a page, user bytes are physical bytes. *)
Lemma uread_page m pt va i :
  0 <= i < PGSIZE - va mod PGSIZE -> uaddr m pt (PGROUNDDOWN va) <> 0 ->
  uread m pt (va + i) = Some (ld8 m (uaddr m pt (PGROUNDDOWN va) + (va mod PGSIZE + i))).
Proof.
  intros Hi Ha. pose proof (Z.mod_pos_bound va PGSIZE ltac:(done)) as Hm.
  assert ((va + i) mod PGSIZE = va mod PGSIZE + i) as Em.
  { unfold PGSIZE in *. Z.div_mod_to_equations. lia. }
  assert (PGROUNDDOWN (va + i) = PGROUNDDOWN va) as Ed by (rewrite !PGROUNDDOWN_eq, Em; lia).
  unfold uread. rewrite Ed, Em. by rewrite (proj2 (Z.eqb_neq _ _) Ha).
Qed.

Lemma reads_page m pt va n :
  0 <= n <= PGSIZE - va mod PGSIZE -> uaddr m pt (PGROUNDDOWN va) <> 0 ->
  reads m pt va (bytes m (uaddr m pt (PGROUNDDOWN va) + va mod PGSIZE) (Z.to_nat n)).
Proof.
  intros Hn Ha i b Hb. pose proof (lookup_lt_Some _ _ _ Hb) as Hlt.
  rewrite length_bytes in Hlt. rewrite lookup_bytes in Hb by done. injection Hb as <-.
  rewrite uread_page by (done || lia). do 2 f_equal. lia.
Qed.

(** The outcome of a copy of [len] bytes that stopped after [bs]. *)
Definition copied (m : mem) (pt va len r : Z) (bs : list Z) : Prop :=
  reads m pt va bs /\
  (r = 0 /\ Z.of_nat (length bs) = len \/
   r = -1 /\ Z.of_nat (length bs) < len /\ uread m pt (va + Z.of_nat (length bs)) = None).

Definition enough (fuel : nat) (va len : Z) : Prop :=
  Z.min len (Z.max 0 (MAXVA - va)) + va mod PGSIZE <= (Z.of_nat fuel - 1) * PGSIZE.

Lemma copy_fuel_enough va len : 0 <= va -> 0 <= len -> enough (copy_fuel len) va len.
Proof.
  intros Hva Hl. unfold enough, copy_fuel. pose proof MAXVA_eq as HM.
  assert (0 <= Z.min len MAXVA / PGSIZE) by (apply Z.div_pos; klia).
  rewrite Z2Nat.id by lia. unfold PGSIZE in *. Z.div_mod_to_equations. lia.
Qed.

(** One page of a copy: the number of bytes and the next address. *)
Lemma copy_page m pt va len fuel (n := if PGSIZE - va mod PGSIZE >? len then len else PGSIZE - va mod PGSIZE) :
  0 <= va -> 0 < len -> enough fuel va len -> uaddr m pt (PGROUNDDOWN va) <> 0 ->
  va - PGROUNDDOWN va = va mod PGSIZE /\ 0 < n <= len /\ n <= PGSIZE - va mod PGSIZE /\
  exists fuel', fuel = S fuel' /\
    (n = len \/ u64 (PGROUNDDOWN va + PGSIZE) = va + n /\ enough fuel' (va + n) (len - n)).
Proof.
  intros Hva Hlen Hf Hu. rewrite PGROUNDDOWN_eq in *. pose proof (Z.mod_pos_bound va PGSIZE ltac:(done)) as Hm.
  assert (va - va mod PGSIZE < MAXVA) as Hmax.
  { destruct (decide (va - va mod PGSIZE < MAXVA)); [done |]. destruct Hu. unfold uaddr.
    by rewrite Z.geb_leb, (proj2 (Z.leb_le _ _)) by lia. }
  unfold enough in *. pose proof MAXVA_eq as HM.
  assert (0 < n <= len /\ n <= PGSIZE - va mod PGSIZE /\ (n = len \/ n = PGSIZE - va mod PGSIZE)) as (Hn & Hn' & Hor).
  { subst n. rewrite Z.gtb_ltb. destruct (Z.ltb_spec len (PGSIZE - va mod PGSIZE)); lia. }
  split_and!; [lia.. |]. destruct fuel as [|fuel]; [klia |]. exists fuel. split; [done |].
  destruct Hor as [|Hor]; [by left |]. right. rewrite u64_small by klia. split; [lia |].
  assert ((va + n) mod PGSIZE = 0) as -> by (rewrite Hor; unfold PGSIZE in *; Z.div_mod_to_equations; lia).
  assert (va + n <= MAXVA) by (rewrite Hor, HM in *; unfold PGSIZE in *; Z.div_mod_to_equations; lia).
  klia.
Qed.

Lemma copied_step m pt va len n r bs bs' :
  reads m pt va bs -> Z.of_nat (length bs) = n -> copied m pt (va + n) (len - n) r bs' ->
  copied m pt va len r (bs ++ bs').
Proof.
  intros Hr Hn [Hr' Hc]. split; [apply reads_app; [done | by rewrite Hn] |].
  rewrite length_app, Nat2Z.inj_add, Hn. destruct Hc as [(-> & Hc)|(-> & Hc & Hu)]; [left | right].
  - split; [done | lia].
  - split_and!; [done | lia | by rewrite Z.add_assoc].
Qed.

Lemma copyin_loop_spec fuel s l pt srcva len dst :
  pt_inv kend (k_mem s) pt l -> 0 <= srcva -> 0 <= len -> enough fuel srcva len ->
  exists r bs, copyin_loop fuel pt srcva len dst s = Ok (r, dst ++ bs) s /\
    copied (k_mem s) pt srcva len r bs.
Proof.
  intros Hpt. revert srcva len dst. induction fuel as [|fuel IH]; intros va len dst Hva Hlen Hf.
  all: destruct (decide (len = 0)) as [->|Hpos].
  1,3: exists 0, []; rewrite app_nil_r; split; [done | split; [apply reads_nil | by left]].
  { exfalso. unfold enough in Hf. pose proof (Z.mod_pos_bound va PGSIZE ltac:(done)). klia. }
  cbn [copyin_loop]. rewrite Z.gtb_ltb, (proj2 (Z.ltb_lt 0 len)) by lia.
  unfold bind at 1. rewrite (walkaddr_eq s l) by done.
  destruct (Z.eqb_spec (uaddr (k_mem s) pt (PGROUNDDOWN va)) 0) as [E|Hne].
  { exists (-1), []. rewrite app_nil_r. split; [done |]. split; [apply reads_nil |]. right.
    split_and!; [done | cbn; lia |]. cbn [length]. rewrite Z.add_0_r. unfold uread. by rewrite E. }
  destruct (copy_page (k_mem s) pt va len (S fuel)) as (Eo & Hn & Hn' & fuel' & [= <-] & Hnext); [lia.. | done | done |].
  rewrite Eo. set (n := if _ >? len then _ else _) in *.
  unfold bind at 1, copy_from, gets. set (b := bytes _ _ _).
  assert (reads (k_mem s) pt va b) as Hb by (apply reads_page; [lia | done]).
  assert (Z.of_nat (length b) = n) as Hl by (unfold b; rewrite length_bytes; lia).
  destruct Hnext as [Heq|[-> Hf']].
  - rewrite Heq, Z.sub_diag. exists 0, b. split; [by destruct fuel |]. split; [done |]. left. split; [done | lia].
  - destruct (IH (va + n) (len - n) (dst ++ b) ltac:(lia) ltac:(lia) Hf') as (r & bs & Hr & Hc).
    exists r, (b ++ bs). split; [by rewrite Hr, (assoc_L (++)) | by eapply copied_step].
Qed.

Lemma copyin_spec s l pt srcva len :
  pt_inv kend (k_mem s) pt l -> 0 <= srcva -> 0 <= len ->
  exists r bs, copyin pt srcva len s = Ok (r, bs) s /\ copied (k_mem s) pt srcva len r bs.
Proof.
  intros Hpt Hs Hl. destruct (copyin_loop_spec (copy_fuel len) s l pt srcva len []) as (r & bs & Hr & Hc);
    [done.. | by apply copy_fuel_enough |]. by exists r, bs.
Qed.

(** ** copyinstr *)

Lemma copyinstr_page_spec n m p :
  let '(got_null, bs) := copyinstr_page n m p in
  bs = bytes m p (length bs) /\ (length bs <= n)%nat /\
  if got_null then exists str, bs = str ++ [0] /\ Forall (.≠ 0) str
  else length bs = n /\ Forall (.≠ 0) bs.
Proof.
  revert p. induction n as [|n IH]; intros p; cbn [copyinstr_page]; [by split_and! |].
  destruct (Z.eqb_spec (ld8 m p) 0) as [E|E].
  - split_and!; [cbn; by rewrite E | cbn; lia |]. by exists [].
  - specialize (IH (p + 1)). destruct (copyinstr_page n m (p + 1)) as [g bs]. destruct IH as (Hb & Hl & Hg).
    cbn [length bytes]. split_and!; [by rewrite <- Hb | lia |]. destruct g.
    + destruct Hg as (str & -> & Hs). exists (ld8 m p :: str). split; [done | by constructor].
    + destruct Hg as [<- Hs]. split; [done | by constructor].
Qed.

(** A string was copied with its NUL, or there was none before the first
    unmapped byte or the limit. *)
Definition copied_str (m : mem) (pt va max r : Z) (bs : list Z) : Prop :=
  reads m pt va bs /\ Z.of_nat (length bs) <= max /\
  (r = 0 /\ (exists str, bs = str ++ [0] /\ Forall (.≠ 0) str) \/
   r = -1 /\ Forall (.≠ 0) bs /\
     (Z.of_nat (length bs) = max \/ uread m pt (va + Z.of_nat (length bs)) = None)).

Lemma copied_str_step m pt va max n r bs bs' :
  reads m pt va bs -> Z.of_nat (length bs) = n -> Forall (.≠ 0) bs ->
  copied_str m pt (va + n) (max - n) r bs' -> copied_str m pt va max r (bs ++ bs').
Proof.
  intros Hr Hn Hz (Hr' & Hm & Hc). unfold copied_str. rewrite length_app, Nat2Z.inj_add, Hn.
  split_and!; [apply reads_app; [done | by rewrite Hn] | lia |].
  destruct Hc as [(-> & str & -> & Hs)|(-> & Hs & Hc)]; [left | right].
  - split; [done |]. exists (bs ++ str). split; [by rewrite (assoc_L (++)) | by apply Forall_app].
  - split_and!; [done | by apply Forall_app |]. rewrite Z.add_assoc. destruct Hc; [left; lia | by right].
Qed.

Lemma copyinstr_loop_spec fuel s l pt srcva max dst :
  pt_inv kend (k_mem s) pt l -> 0 <= srcva -> 0 <= max -> enough fuel srcva max ->
  exists r bs, copyinstr_loop fuel pt srcva max dst s = Ok (r, dst ++ bs) s /\
    copied_str (k_mem s) pt srcva max r bs.
Proof.
  intros Hpt. revert srcva max dst. induction fuel as [|fuel IH]; intros va len dst Hva Hlen Hf.
  all: destruct (decide (len = 0)) as [->|Hpos].
  1,3: exists (-1), []; rewrite app_nil_r; split; [done | split_and!; [apply reads_nil | done | right; split_and!; [done | done | by left]]].
  { exfalso. unfold enough in Hf. pose proof (Z.mod_pos_bound va PGSIZE ltac:(done)). klia. }
  cbn [copyinstr_loop]. rewrite Z.gtb_ltb, (proj2 (Z.ltb_lt 0 len)) by lia.
  unfold bind at 1. rewrite (walkaddr_eq s l) by done.
  destruct (Z.eqb_spec (uaddr (k_mem s) pt (PGROUNDDOWN va)) 0) as [E|Hne].
  { exists (-1), []. rewrite app_nil_r. split; [done |]. split_and!; [apply reads_nil | cbn; lia |]. right.
    split_and!; [done | done |]. right. cbn [length]. rewrite Z.add_0_r. unfold uread. by rewrite E. }
  destruct (copy_page (k_mem s) pt va len (S fuel)) as (Eo & Hn & Hn' & fuel' & [= <-] & Hnext); [lia.. | done | done |].
  rewrite Eo. set (n := if _ >? len then _ else _) in *.
  unfold bind at 1, gets. pose proof (copyinstr_page_spec (Z.to_nat n) (k_mem s)
    (uaddr (k_mem s) pt (PGROUNDDOWN va) + va mod PGSIZE)) as Hp.
  destruct (copyinstr_page _ _ _) as [g b]. destruct Hp as (Eb & Hl & Hg).
  assert (reads (k_mem s) pt va b) as Hb.
  { rewrite Eb, <- (Nat2Z.id (length b)). apply reads_page; [lia | done]. }
  destruct g.
  { exists 0, b. split; [done |]. split_and!; [done | lia | by left]. }
  destruct Hg as [Hlen' Hz]. destruct Hnext as [Heq|[-> Hf']].
  - rewrite Heq, Z.sub_diag. exists (-1), b. split; [by destruct fuel |].
    split_and!; [done | lia |]. right. split_and!; [done | done | left; lia].
  - destruct (IH (va + n) (len - n) (dst ++ b) ltac:(lia) ltac:(lia) Hf') as (r & bs & Hr & Hc).
    exists r, (b ++ bs). split; [by rewrite Hr, (assoc_L (++)) |].
    eapply copied_str_step; [done | | done | done]. lia.
Qed.

(** ** copyout *)

(** A user address space next to the free list [l]: nothing above
    [TRAPFRAME] is accessible to the user. *)
Record ulive (s : kmem) (l : list Z) (pt : Z) : Prop := ULive {
  ul_kmem : kmem_inv kend s l;
  ul_uvm : uvm_inv kend (k_mem s) pt l;
  ul_high : forall va, TRAPFRAME <= va < MAXVA -> uaddr (k_mem s) pt va = 0;
}.

(** The first [k] bytes of [src] were written at [va], and nothing else. *)
Record wrote (m : mem) (pt va : Z) (src : list Z) (k : Z) (m' : mem) : Prop := Wrote {
  wr_user : forall x, 0 <= x ->
    uread m' pt x = if decide (va <= x < va + k) then src !! Z.to_nat (x - va) else uread m pt x;
  wr_space : forall x, translate m' pt x = translate m pt x;
  wr_owns : forall p, owns m' pt p <-> owns m pt p;
  wr_frame : forall y, (forall x p, maps m pt x p -> ~ in_page p y) -> ld8 m' y = ld8 m y;
}.

Lemma uaddr_maps s l pt va :
  ulive s l pt -> 0 <= va -> uaddr (k_mem s) pt va <> 0 -> maps (k_mem s) pt va (uaddr (k_mem s) pt va).
Proof.
  intros [_ _ Hh] H0 Hu. destruct (decide (va < TRAPFRAME)) as [Hlt|Hge].
  - unfold uaddr in *. rewrite Z.geb_leb in *. destruct (Z.leb_spec MAXVA va) as [|]; [done |].
    unfold maps, pte_valid. destruct (Z.land (translate (k_mem s) pt va) PTE_V =? 0); [done |].
    destruct (_ =? 0); [done |]. done.
  - destruct Hu. destruct (decide (va < MAXVA)); [apply Hh; lia |].
    unfold uaddr. by rewrite Z.geb_leb, (proj2 (Z.leb_le _ _)) by lia.
Qed.

Lemma uaddr_same m m' pt :
  (forall x, translate m' pt x = translate m pt x) -> forall x, uaddr m' pt x = uaddr m pt x.
Proof. intros H x. unfold uaddr. by rewrite H. Qed.

Lemma wrote_refl m pt va src : wrote m pt va src 0 m.
Proof. split; [| done | done | done]. intros x _. by rewrite decide_False by lia. Qed.

Lemma wrote_step m m1 m2 pt va src n k :
  0 <= n -> 0 <= k -> wrote m pt va src n m1 -> wrote m1 pt (va + n) (drop (Z.to_nat n) src) k m2 ->
  wrote m pt va src (n + k) m2.
Proof.
  intros Hn Hk [W1 S1 O1 F1] [W2 S2 O2 F2]. split.
  - intros x Hx. rewrite W2, W1 by done. repeat case_decide; try (done || lia).
    rewrite lookup_drop. f_equal. lia.
  - intros x. by rewrite S2.
  - intros p. by rewrite O2.
  - intros y Hy. rewrite F2, F1; [done | done |]. intros x p Hm. apply (Hy x).
    unfold maps in *. by rewrite S1 in Hm.
Qed.

Lemma wp_copy_to s l pt va src n :
  ulive s l pt -> 0 <= va -> 0 < n <= PGSIZE - va mod PGSIZE -> n <= Z.of_nat (length src) ->
  Forall (fun b => 0 <= b < 256) src -> uaddr (k_mem s) pt (PGROUNDDOWN va) <> 0 ->
  wp (copy_to (uaddr (k_mem s) pt (PGROUNDDOWN va) + va mod PGSIZE) src n)
    (fun _ s' => ulive s' l pt /\ wrote (k_mem s) pt va src n (k_mem s')) s.
Proof.
  intros HL Hva Hn Hsrc Hby Hu. pose proof (Z.mod_pos_bound va PGSIZE ltac:(done)) as Hm.
  pose proof HL as HL0. pose proof (PGROUNDDOWN_eq va) as Epd.
  assert (0 <= PGROUNDDOWN va) as H0 by (rewrite Epd; unfold PGSIZE in *; Z.div_mod_to_equations; lia).
  pose proof (uaddr_maps s l pt _ HL H0 Hu) as Hmap. destruct HL as [Hki Huv Hh].
  set (pa := uaddr (k_mem s) pt (PGROUNDDOWN va)) in *.
  destruct (ui_leaf _ _ _ _ Huv _ _ Hmap) as (Hok & Hpl & Hpn).
  apply wp_modify. unfold set_k_mem. cbn [k_mem k_freelist].
  set (m1 := st_bytes (k_mem s) (pa + va mod PGSIZE) (take (Z.to_nat n) src)).
  assert (forall y, ld8 m1 y = if decide (pa + va mod PGSIZE <= y < pa + va mod PGSIZE + n)
    then default 0 (src !! Z.to_nat (y - (pa + va mod PGSIZE))) else ld8 (k_mem s) y) as Hld.
  { intros y. unfold m1. rewrite ld8_st_bytes, length_take_le by lia. rewrite Z2Nat.id by lia.
    case_decide; [| done]. rewrite lookup_take_lt by lia.
    destruct (src !! _) as [b|] eqn:E; [| done]. cbn. rewrite Forall_lookup in Hby. by apply u8_small, (Hby _ _ E). }
  assert (only_page pa (k_mem s) m1) as Honly.
  { intros y Hy. rewrite Hld, decide_False; [done |]. unfold in_page in Hy. lia. }
  destruct (uvm_inv_frame kend (k_mem s) m1 pt l l) as (Hu1 & Ht1 & Ho1); [done | | |].
  { intros p Hp y Hy. apply Honly. destruct (pi_ok _ _ _ _ (ui_pt _ _ _ _ Huv) p Hp) as [Ha _].
    apply (pages_disjoint p pa); [done | apply Hok | by intros -> | done]. }
  { intros p Hp Ho. by destruct (owns_ok _ _ _ _ _ Huv Ho). }
  clearbody m1. split; [split; cbn [k_mem] |].
  - apply kmem_inv_frame; [exact kend_ram | done |]. intros p y Hp Hy. apply Honly.
    pose proof (ki_ok _ _ _ Hki) as Hlok. rewrite Forall_forall in Hlok.
    apply (pages_disjoint p pa); [apply (Hlok p Hp) | apply Hok | by intros -> | done].
  - done.
  - intros x Hx. rewrite (uaddr_same (k_mem s)) by done. by apply Hh.
  - split; [| done | done |].
    2:{ intros y Hy. apply Honly. by apply (Hy (PGROUNDDOWN va)). }
    intros x Hx. unfold uread. rewrite (uaddr_same (k_mem s) m1 pt Ht1).
    pose proof (Z.mod_pos_bound x PGSIZE ltac:(done)) as Hxm. pose proof (PGROUNDDOWN_eq x) as Exd.
    destruct (decide (PGROUNDDOWN x = PGROUNDDOWN va)) as [E|Hne].
    + rewrite E. fold pa. rewrite (proj2 (Z.eqb_neq pa 0) Hu), Hld.
      assert (x = va + (x mod PGSIZE - va mod PGSIZE)) as Ex by lia.
      destruct (decide (va <= x < va + n)) as [Hr|Hr]; [| by rewrite decide_False by lia].
      rewrite decide_True by lia.
      replace (pa + x mod PGSIZE - (pa + va mod PGSIZE)) with (x - va) by lia.
      destruct (lookup_lt_is_Some_2 src (Z.to_nat (x - va))) as [b Hb]; [lia |]. by rewrite Hb.
    + rewrite decide_False.
      2:{ intros Hr. apply Hne. rewrite Exd, Epd. unfold PGSIZE in *. Z.div_mod_to_equations. lia. }
      destruct (Z.eqb_spec (uaddr (k_mem s) pt (PGROUNDDOWN x)) 0) as [|Hx0]; [done |]. f_equal. apply Honly.
      assert (0 <= PGROUNDDOWN x) as Hx1 by (rewrite Exd; unfold PGSIZE in *; Z.div_mod_to_equations; lia).
      pose proof (uaddr_maps s l pt _ HL0 Hx1 Hx0) as Hmx.
      destruct (ui_leaf _ _ _ _ Huv _ _ Hmx) as ([Hxa _] & _).
      apply (pages_disjoint (uaddr (k_mem s) pt (PGROUNDDOWN x)) pa);
        [done | apply Hok | | unfold in_page; lia].
      intros E. rewrite E in Hmx. pose proof (ui_inj _ _ _ _ Huv _ _ _ Hmx Hmap) as Hdiv.
      apply Hne. pose proof (PGROUNDDOWN_aligned x). pose proof (PGROUNDDOWN_aligned va).
      rewrite <- (aligned_div (PGROUNDDOWN x)), <- (aligned_div (PGROUNDDOWN va)), Hdiv by done. done.
Qed.

Lemma copyout_loop_spec fuel s l pt va src len :
  ulive s l pt -> 0 <= va -> 0 <= len <= Z.of_nat (length src) ->
  Forall (fun b => 0 <= b < 256) src -> enough fuel va len ->
  wp (copyout_loop fuel pt va src len) (fun r s' => ulive s' l pt /\
    exists k, wrote (k_mem s) pt va src k (k_mem s') /\
      (r = 0 /\ k = len \/ r = -1 /\ 0 <= k < len /\ uread (k_mem s) pt (va + k) = None)) s.
Proof.
  revert s va src len. induction fuel as [|fuel IH]; intros s va src len HL Hva Hlen Hby Hf.
  all: destruct (decide (len = 0)) as [->|Hpos];
    [apply wp_ret; split; [done | exists 0; split; [apply wrote_refl | by left]] |].
  { exfalso. unfold enough in Hf. pose proof (Z.mod_pos_bound va PGSIZE ltac:(done)). klia. }
  cbn [copyout_loop]. rewrite Z.gtb_ltb, (proj2 (Z.ltb_lt 0 len)) by lia.
  apply wp_bind, wp_ok. eexists _, s. split; [apply (walkaddr_eq s l), (ul_uvm _ _ _ HL) |].
  destruct (Z.eqb_spec (uaddr (k_mem s) pt (PGROUNDDOWN va)) 0) as [E|Hne].
  { apply wp_ret. split; [done |]. exists 0. split; [apply wrote_refl |]. right.
    split_and!; [done | lia.. |]. rewrite Z.add_0_r. unfold uread. by rewrite E. }
  destruct (copy_page (k_mem s) pt va len (S fuel)) as (Eo & Hn & Hn' & fuel' & [= <-] & Hnext); [lia.. | done | done |].
  rewrite Eo. set (n := if _ >? len then _ else _) in *.
  apply wp_bind. eapply wp_mono; [apply (wp_copy_to s l pt va src n); (done || lia) |].
  intros [] s1 [HL1 W1]. destruct Hnext as [Heq|[-> Hf']].
  - apply wp_ok. exists 0, s1. rewrite Heq, Z.sub_diag in *. split; [by destruct fuel |].
    split; [done |]. exists len. split; [done | by left].
  - eapply wp_mono; [apply (IH s1 (va + n) (drop (Z.to_nat n) src) (len - n)); [done | lia | | | done] |].
    + rewrite length_drop. lia.
    + by apply Forall_drop.
    + intros r s2 (HL2 & k & W2 & Hc). split; [done |]. exists (n + k).
      destruct Hc as [(-> & ->)|(-> & Hk & Hu)]; (split; [eapply wrote_step; try done; lia |]).
      * left. split; [done | lia].
      * right. split_and!; [done | lia.. |]. rewrite Z.add_assoc.
        rewrite (wr_user _ _ _ _ _ _ W1) in Hu by lia. by rewrite decide_False in Hu by lia.
Qed.

Lemma wp_copyout s l pt va src len :
  ulive s l pt -> 0 <= va -> 0 <= len <= Z.of_nat (length src) ->
  Forall (fun b => 0 <= b < 256) src ->
  wp (copyout pt va src len) (fun r s' => ulive s' l pt /\
    exists k, wrote (k_mem s) pt va src k (k_mem s') /\
      (r = 0 /\ k = len \/ r = -1 /\ 0 <= k < len /\ uread (k_mem s) pt (va + k) = None)) s.
Proof. intros. apply copyout_loop_spec; try done. apply copy_fuel_enough; lia. Qed.

End ucopy.

(** ** Properties *)

(** [copyout] of [len] bytes writes them to user memory across page
    boundaries and returns 0, or returns -1 at the first byte the user cannot
    access, after having written the bytes before it; no other user byte, no
    translation and no memory outside the process changes. *)
Theorem copyout_correct (kend : Z) (s : kmem) (l : list Z) (pt va : Z) (src : list Z) (len : Z) :
  KERNBASE <= kend -> ulive kend s l pt -> 0 <= va -> 0 <= len <= Z.of_nat (length src) ->
  Forall (fun b => 0 <= b < 256) src ->
  wp (copyout pt va src len) (fun r s' => ulive kend s' l pt /\
    exists k, wrote (k_mem s) pt va src k (k_mem s') /\
      (r = 0 /\ k = len \/ r = -1 /\ 0 <= k < len /\ uread (k_mem s) pt (va + k) = None)) s.
Proof. intros Hk. by apply wp_copyout. Qed.

(** C30: bytes sent to user memory with [copyout] come back unchanged from
    [copyin], when all of them are mapped for the user. *)
Theorem copyout_copyin (kend : Z) (s : kmem) (l : list Z) (pt va : Z) (src : list Z) :
  KERNBASE <= kend -> ulive kend s l pt -> 0 <= va -> Forall (fun b => 0 <= b < 256) src ->
  (forall x, va <= x < va + Z.of_nat (length src) -> uread (k_mem s) pt x <> None) ->
  wp (let! r := copyout pt va src (Z.of_nat (length src)) in
      let! '(r', bs) := copyin pt va (Z.of_nat (length src)) in
      ret (r, r', bs))
    (fun '(r, r', bs) s' => r = 0 /\ r' = 0 /\ bs = src /\ ulive kend s' l pt) s.
Proof.
  intros Hk HL Hva Hby Hu. apply wp_bind.
  eapply wp_mono; [by apply (wp_copyout kend Hk s l pt va src); try lia |].
  intros r s1 (HL1 & k & W & [(-> & ->)|(_ & Hc & Hn)]); [| by destruct (Hu (va + k) ltac:(lia))].
  apply wp_bind. destruct (copyin_spec kend Hk s1 l pt va (Z.of_nat (length src))) as (r' & bs & Hr & Hrd & Hc);
    [apply HL1 | done | lia |].
  assert (forall i, (i < length src)%nat -> uread (k_mem s1) pt (va + Z.of_nat i) = src !! i) as Hw.
  { intros i Hi. rewrite (wr_user _ _ _ _ _ _ W), decide_True by lia. f_equal. lia. }
  apply wp_ok. exists (r', bs), s1. split; [exact Hr |]. apply wp_ret.
  destruct Hc as [(-> & Hlen)|(-> & Hlt & Hn)].
  - split_and!; try done. apply list_eq. intros i. destruct (decide (i < length src)%nat) as [Hi|Hi].
    + destruct (lookup_lt_is_Some_2 bs i) as [b Hb]; [lia |]. rewrite Hb, <- Hw by done. symmetry. by apply Hrd.
    + rewrite !lookup_ge_None_2 by lia. done.
  - exfalso. rewrite Hw in Hn by lia. apply lookup_ge_None in Hn. lia.
Qed.

(** C32: [copyinstr] copies a user string with its terminating NUL, of at
    most [max] bytes, and returns 0; it returns -1 exactly when there is no NUL
    among the first [max] bytes or before the first unmapped byte. *)
Theorem copyinstr_correct (kend : Z) (s : kmem) (l : list Z) (pt srcva max : Z) :
  KERNBASE <= kend -> pt_inv kend (k_mem s) pt l -> 0 <= srcva -> 0 <= max ->
  wp (copyinstr pt srcva max) (fun '(r, bs) s' => s' = s /\
    reads (k_mem s) pt srcva bs /\ Z.of_nat (length bs) <= max /\
    (r = 0 /\ (exists str, bs = str ++ [0] /\ Forall (.≠ 0) str) \/
     r = -1 /\ Forall (.≠ 0) bs /\
       (Z.of_nat (length bs) = max \/ uread (k_mem s) pt (srcva + Z.of_nat (length bs)) = None))) s.
Proof.
  intros Hk Hpt Hs Hm. apply wp_ok.
  destruct (copyinstr_loop_spec kend Hk (copy_fuel max) s l pt srcva max []) as (r & bs & Hr & Hc);
    [done.. | by apply copy_fuel_enough |].
  exists (r, bs), s. by split.
Qed.

(** The address space of [demo2]: one zeroed page at 0. *)
Lemma demo2_live : exists l, ulive KERNBASE demo2 l (page_at 0) /\
  forall x, 0 <= x < PGSIZE -> uread (k_mem demo2) (page_at 0) x <> None.
Proof.
  destruct demo2_grown as [l G]. destruct demo_uvm as (_ & Ht & _). exists l. pose proof MAXVA_eq as HM.
  assert (forall x, 0 <= x < MAXVA -> ~ 0 <= x < PGSIZE -> uaddr (k_mem demo2) (page_at 0) x = 0) as Hz.
  { intros x Hx Hn. unfold uaddr. rewrite (gr_old _ _ _ _ _ _ _ _ _ _ G x), Ht by done.
    rewrite Z.geb_leb. by destruct (MAXVA <=? x). }
  split; [split; [apply G | apply G |] |].
  - intros va Hva. assert (PGSIZE <= TRAPFRAME) by by vm_compute. apply Hz; klia.
  - intros x Hx. assert (PGROUNDDOWN x = 0) as E.
    { rewrite PGROUNDDOWN_eq. unfold PGSIZE in *. Z.div_mod_to_equations. lia. }
    unfold uread. rewrite E. destruct (gr_new _ _ _ _ _ _ _ _ _ _ G 0) as (q & Hq & Hok & _); [lia | klia |].
    unfold uaddr. rewrite Hq. change (0 >=? MAXVA) with false. cbv beta iota zeta.
    rewrite (pte_valid_land (leaf q uperm)) by apply leaf_valid.
    assert ((Z.land (leaf q uperm) PTE_U =? 0) = false) as ->.
    { apply Z.eqb_neq. rewrite leaf_flags, Z.land_lor_distr_l. intros [_ H]%Z.lor_eq_0_iff. done. }
    rewrite (PTE2PA_leaf KERNBASE ltac:(klia) q uperm Hok uperm_range). pose proof (page_ok_pos KERNBASE ltac:(klia) q Hok).
    by rewrite (proj2 (Z.eqb_neq q 0)) by lia.
Qed.

Lemma copyout_witness :
  exists l, wp (copyout (page_at 0) 4090 [1; 2; 3; 4; 5; 6; 7; 8] 8) (fun r s' => ulive KERNBASE s' l (page_at 0) /\
    exists k, wrote (k_mem demo2) (page_at 0) 4090 [1; 2; 3; 4; 5; 6; 7; 8] k (k_mem s') /\
      (r = 0 /\ k = 8 \/ r = -1 /\ 0 <= k < 8 /\ uread (k_mem demo2) (page_at 0) (4090 + k) = None)) demo2.
Proof.
  destruct demo2_live as (l & HL & _). exists l.
  apply (copyout_correct KERNBASE demo2 l (page_at 0)); [klia | exact HL | lia | cbn; lia |].
  by apply (bool_decide_unpack _).
Defined.

Lemma copyout_copyin_witness :
  exists l, wp (let! r := copyout (page_at 0) 100 [1; 2; 3] 3 in
      let! '(r', bs) := copyin (page_at 0) 100 3 in
      ret (r, r', bs))
    (fun '(r, r', bs) s' => r = 0 /\ r' = 0 /\ bs = [1; 2; 3] /\ ulive KERNBASE s' l (page_at 0)) demo2.
Proof.
  destruct demo2_live as (l & HL & Hu). exists l.
  apply (copyout_copyin KERNBASE demo2 l (page_at 0) 100 [1; 2; 3]); [klia | exact HL | lia | |].
  - by apply (bool_decide_unpack _).
  - intros x Hx. cbn in Hx. apply Hu. klia.
Defined.

Lemma copyinstr_witness :
  wp (copyinstr (page_at 0) 10 16) (fun '(r, bs) s' => s' = demo2 /\
    reads (k_mem demo2) (page_at 0) 10 bs /\ Z.of_nat (length bs) <= 16 /\
    (r = 0 /\ (exists str, bs = str ++ [0] /\ Forall (.≠ 0) str) \/
     r = -1 /\ Forall (.≠ 0) bs /\
       (Z.of_nat (length bs) = 16 \/ uread (k_mem demo2) (page_at 0) (10 + Z.of_nat (length bs)) = None))) demo2.
Proof.
  destruct demo2_live as (l & HL & _).
  apply (copyinstr_correct KERNBASE demo2 l (page_at 0)); [klia | apply HL | lia | lia].
Defined.
