(* ===== verification/Usermem.v ===== *)
(** * The interface between user memory and its clients

    Pipes, the console, the file system and the system calls move bytes
    between kernel and user memory through [copyin], [copyout] and
    [copyinstr].  [UserMem] names these operations for an arbitrary memory
    state, [UserMemLaws] states what the clients rely on, and the instance for
    physical memory is discharged by the theorems on vm.c. *)

From S2P Require Import Prelude Riscv Mem KString Kalloc Vm Uvm Ucopy.

Definition is_byte (b : Z) : Prop := 0 <= b < 256.

#[export] Instance is_byte_dec b : Decision (is_byte b).
Proof. apply _. Defined.

Class UserMem (U : Type) := {
  um_copyin : Z -> Z -> Z -> M U (Z * list Z);
  um_copyout : Z -> Z -> list Z -> Z -> M U Z;
  um_copyinstr : Z -> Z -> Z -> M U (Z * list Z);
}.

(** [ok] is the invariant of the memory, [space pt] says that [pt] is the page
    table of a live process. *)
Class UserMemLaws (U : Type) `{UserMem U} (ok : U -> Prop) (space : Z -> Prop) := {
  um_read : U -> Z -> Z -> option Z;
  um_read_byte : forall u pt va b, um_read u pt va = Some b -> is_byte b;
  um_copyin_ok : forall u pt va len, ok u -> space pt -> 0 <= va -> 0 <= len ->
    exists r bs, um_copyin pt va len u = Ok (r, bs) u /\
      (forall i b, bs !! i = Some b -> um_read u pt (va + Z.of_nat i) = Some b) /\
      (r = 0 /\ Z.of_nat (length bs) = len \/
       r = -1 /\ Z.of_nat (length bs) < len /\ um_read u pt (va + Z.of_nat (length bs)) = None);
  um_copyout_ok : forall u pt va src len, ok u -> space pt -> 0 <= va ->
    0 <= len <= Z.of_nat (length src) -> Forall is_byte src ->
    exists r u' k, um_copyout pt va src len u = Ok r u' /\ ok u' /\
      (forall x, 0 <= x -> um_read u' pt x =
         if decide (va <= x < va + k) then src !! Z.to_nat (x - va) else um_read u pt x) /\
      (forall pt' x, space pt' -> pt' <> pt -> 0 <= x -> um_read u' pt' x = um_read u pt' x) /\
      (forall x, um_read u' pt x = None <-> um_read u pt x = None) /\
      (r = 0 /\ k = len \/ r = -1 /\ 0 <= k < len /\ um_read u pt (va + k) = None);
  um_copyinstr_ok : forall u pt va max, ok u -> space pt -> 0 <= va -> 0 <= max ->
    exists r bs, um_copyinstr pt va max u = Ok (r, bs) u /\ Forall is_byte bs /\
      Z.of_nat (length bs) <= max /\
      (r = 0 /\ (exists str, bs = str ++ [0] /\ Forall (.≠ 0) str) \/ r = -1 /\ Forall (.≠ 0) bs);
}.

#[export] Instance kmem_user : UserMem kmem := {|
  um_copyin := copyin;
  um_copyout := copyout;
  um_copyinstr := copyinstr;
|}.

Section kmem_laws.
Context (kend : Z) (kend_ram : KERNBASE <= kend) (spaces : list Z).

(** All address spaces are live next to the same free list and share no
    page. *)
Definition spaces_ok (s : kmem) : Prop := exists l,
  (forall pt, pt ∈ spaces -> ulive kend s l pt) /\
  (forall pt pt' p, pt ∈ spaces -> pt' ∈ spaces -> pt <> pt' ->
     owns (k_mem s) pt p -> ~ owns (k_mem s) pt' p).

Lemma uread_byte m pt va b : uread m pt va = Some b -> is_byte b.
Proof.
  unfold uread, ld8. destruct (_ =? 0); [done |]. intros [= <-]. apply Z.mod_pos_bound. lia.
Qed.

(** A write to one address space does not reach another. *)
Lemma ulive_other s s' l pt pt' va src k :
  ulive kend s l pt -> ulive kend s' l pt -> ulive kend s l pt' ->
  (forall p, owns (k_mem s) pt p -> ~ owns (k_mem s) pt' p) ->
  wrote (k_mem s) pt va src k (k_mem s') ->
  ulive kend s' l pt' /\ (forall p, owns (k_mem s') pt' p <-> owns (k_mem s) pt' p) /\
  (forall x, 0 <= x -> uread (k_mem s') pt' x = uread (k_mem s) pt' x).
Proof.
  intros L L1 L' Hd W.
  assert (forall p x, owns (k_mem s) pt' p -> in_page p x -> ld8 (k_mem s') x = ld8 (k_mem s) x) as Hsame.
  { intros p x Hp Hx. apply (wr_frame _ _ _ _ _ _ W). intros y q Hm Hq.
    destruct (owns_ok _ _ _ _ _ (ul_uvm _ _ _ _ L') Hp) as [[Ha _] _].
    destruct (ui_leaf _ _ _ _ (ul_uvm _ _ _ _ L) y q Hm) as ([Hqa _] & _).
    apply (pages_disjoint p q x); try done. intros ->. apply (Hd q); [right; by exists y | done]. }
  destruct (uvm_inv_frame kend (k_mem s) (k_mem s') pt' l l) as (U & T & O);
    [apply L' | intros p Hp x; apply Hsame; by left | |].
  { intros p Hp Ho. by destruct (owns_ok _ _ _ _ _ (ul_uvm _ _ _ _ L') Ho). }
  split_and!; [split; [apply L1 | done |] | done |].
  - intros x Hx. rewrite (uaddr_same (k_mem s)) by done. by apply (ul_high _ _ _ _ L').
  - intros x Hx. unfold uread. rewrite (uaddr_same (k_mem s)) by done.
    destruct (Z.eqb_spec (uaddr (k_mem s) pt' (PGROUNDDOWN x)) 0) as [|Hne]; [done |]. f_equal.
    assert (0 <= PGROUNDDOWN x) as H0.
    { rewrite PGROUNDDOWN_eq. unfold PGSIZE. Z.div_mod_to_equations. lia. }
    eapply Hsame; [right; eexists; by apply (uaddr_maps kend s l pt') |].
    pose proof (Z.mod_pos_bound x PGSIZE ltac:(done)). unfold in_page. lia.
Qed.

#[export] Instance kmem_user_laws : UserMemLaws kmem spaces_ok (.∈ spaces).
Proof.
  refine {| um_read := fun s pt va => uread (k_mem s) pt va |}.
  - intros u pt va b. apply uread_byte.
  - intros u pt va len (l & HL & _) Hpt Hva Hlen.
    destruct (copyin_spec kend kend_ram u l pt va len) as (r & bs & Hr & Hrd & Hc);
      [apply (HL pt Hpt) | done | done |]. by exists r, bs.
  - intros u pt va src len (l & HL & Hd) Hpt Hva Hlen Hby.
    destruct (proj1 (wp_ok _ _ _) (wp_copyout kend kend_ram u l pt va src len (HL pt Hpt) Hva Hlen Hby))
      as (r & u' & Hr & L1 & k & W & Hc).
    assert (forall pt', pt' ∈ spaces -> pt' <> pt -> _) as Ho
      by (intros pt' Hpt' Hne; exact (ulive_other u u' l pt pt' va src k (HL pt Hpt) L1 (HL pt' Hpt')
            (fun p Hp => Hd pt pt' p Hpt Hpt' (not_eq_sym Hne) Hp) W)).
    assert (forall pt', pt' ∈ spaces -> forall p, owns (k_mem u') pt' p <-> owns (k_mem u) pt' p) as Hown.
    { intros pt' Hpt' p. destruct (decide (pt' = pt)) as [->|Hne]; [apply W | by apply (Ho pt')]. }
    exists r, u', k. split_and!; [exact Hr | | apply W | | | done].
    + exists l. split.
      * intros pt' Hpt'. destruct (decide (pt' = pt)) as [->|Hne]; [done | by apply (Ho pt')].
      * intros pt1 pt2 p H1 H2 Hne. rewrite !Hown by done. by apply Hd.
    + intros pt' x Hpt' Hne. by apply (Ho pt').
    + intros x. unfold uread. rewrite (uaddr_same (k_mem u)) by apply W. by destruct (_ =? 0).
  - intros u pt va max (l & HL & _) Hpt Hva Hmax.
    destruct (copyinstr_loop_spec kend kend_ram (copy_fuel max) u l pt va max []) as (r & bs & Hr & Hrd & Hm & Hc);
      [apply (HL pt Hpt) | done | done | by apply copy_fuel_enough |].
    exists r, bs. split_and!; [exact Hr | | done | naive_solver].
    apply Forall_lookup. intros i b Hb. by eapply uread_byte, Hrd.
Defined.

End kmem_laws.

(** One process with one page of user memory. *)
Definition demo_spaces : list Z := [page_at 0].

Lemma demo_spaces_ok : spaces_ok KERNBASE demo_spaces demo2.
Proof.
  destruct demo2_live as (l & HL & _). exists l. split.
  - by intros pt ->%list_elem_of_singleton.
  - by intros pt pt' p ->%list_elem_of_singleton ->%list_elem_of_singleton.
Qed.

Lemma kernbase_ram : KERNBASE <= KERNBASE.
Proof. lia. Qed.

#[export] Instance demo_laws : UserMemLaws kmem (spaces_ok KERNBASE demo_spaces) (.∈ demo_spaces) :=
  kmem_user_laws KERNBASE kernbase_ram demo_spaces.
