(* ===== verification/Spinlock.v ===== *)
(** * kernel/spinlock.c

    [push_off]/[pop_off] over one CPU's interrupt state, and spinlocks over
    several CPUs.  [acquire] and [release] are cut into the steps other CPUs
    can observe: the atomic swap of [locked] and the writes of [lk->cpu].
    The step relation interleaves CPUs at these points, and the invariant
    gives mutual exclusion, interrupts off in the critical section, and that
    neither of the two panics happens. *)

From S2P Require Import Prelude Riscv.

(** ** Interrupts *)

(** [sstatus] and the nesting fields of [struct cpu]. *)
Record cpu := Cpu { sstatus : Z; noff : Z; intena : bool }.

Definition intr_on : M cpu unit :=
  modify (fun c => Cpu (Z.lor (sstatus c) SSTATUS_SIE) (noff c) (intena c)).
Definition intr_off : M cpu unit :=
  modify (fun c => Cpu (Z.land (sstatus c) (Z.lnot SSTATUS_SIE)) (noff c) (intena c)).
Definition intr_get : M cpu bool :=
  gets (fun c => negb (Z.land (sstatus c) SSTATUS_SIE =? 0)).

Definition push_off : M cpu unit :=
  let! old := intr_get in
  intr_off ;;;
  modify (fun c => if noff c =? 0 then Cpu (sstatus c) (noff c) old else c) ;;;
  modify (fun c => Cpu (sstatus c) (s32 (noff c + 1)) (intena c)).

Definition pop_off : M cpu unit :=
  let! on := intr_get in
  if on then panic "pop_off - interruptible"
  else
    let! n := gets noff in
    if n <? 1 then panic "pop_off"
    else
      modify (fun c => Cpu (sstatus c) (s32 (noff c - 1)) (intena c)) ;;;
      let! c := get in
      if (noff c =? 0) && intena c then intr_on else ret tt.

(** Are interrupts enabled? *)
Definition sie (c : cpu) : bool := negb (Z.land (sstatus c) SSTATUS_SIE =? 0).

Definition SIE_off (x : Z) : Z := Z.land x (Z.lnot SSTATUS_SIE).

Lemma sie_bit c : sie c = Z.testbit (sstatus c) 1.
Proof.
  unfold sie. change SSTATUS_SIE with (2 ^ 1). destruct (Z.testbit (sstatus c) 1) eqn:E.
  - apply negb_true_iff, Z.eqb_neq. intros H.
    assert (Z.testbit (Z.land (sstatus c) (2 ^ 1)) 1 = false) as H1 by (rewrite H; apply Z.bits_0).
    rewrite Z.land_spec, E, Z.pow2_bits_true in H1 by lia. done.
  - apply negb_false_iff, Z.eqb_eq, Z.bits_inj'. intros n Hn.
    rewrite Z.land_spec, Z.bits_0, Z.pow2_bits_eqb by lia.
    destruct (Z.eqb_spec 1 n) as [<-|]; [by rewrite E | by rewrite andb_false_r].
Qed.

Lemma SIE_off_bit x n : 0 <= n -> Z.testbit (SIE_off x) n = Z.testbit x n && negb (n =? 1).
Proof.
  intros Hn. unfold SIE_off. rewrite Z.land_spec, Z.lnot_spec by done. f_equal. f_equal.
  change SSTATUS_SIE with (2 ^ 1). rewrite Z.pow2_bits_eqb by lia. by rewrite Z.eqb_sym.
Qed.

Lemma SIE_off_idem x : SIE_off (SIE_off x) = SIE_off x.
Proof.
  apply Z.bits_inj'. intros n Hn. rewrite !SIE_off_bit by done. by destruct (Z.testbit x n), (n =? 1).
Qed.

Lemma SIE_off_on x : Z.testbit x 1 = true -> Z.lor (SIE_off x) SSTATUS_SIE = x.
Proof.
  intros H. apply Z.bits_inj'. intros n Hn. rewrite Z.lor_spec, SIE_off_bit by done.
  change SSTATUS_SIE with (2 ^ 1). rewrite Z.pow2_bits_eqb by lia. rewrite (Z.eqb_sym 1 n).
  destruct (Z.eqb_spec n 1) as [->|]; [by rewrite H | by rewrite andb_true_r, orb_false_r].
Qed.

Lemma SIE_off_off x : Z.testbit x 1 = false -> SIE_off x = x.
Proof.
  intros H. apply Z.bits_inj'. intros n Hn. rewrite SIE_off_bit by done.
  destruct (Z.eqb_spec n 1) as [->|]; [by rewrite H | by rewrite andb_true_r].
Qed.

Lemma push_off_eq c :
  push_off c = Ok tt (Cpu (SIE_off (sstatus c)) (s32 (noff c + 1))
                          (if noff c =? 0 then sie c else intena c)).
Proof.
  unfold push_off. kunfold. cbn [noff sstatus intena intr_off modify gets intr_get]. kunfold. cbn.
  by destruct (noff c =? 0).
Qed.

Lemma pop_off_eq c :
  sie c = false -> 1 <= noff c <= 2 ^ 31 - 1 ->
  pop_off c = Ok tt (Cpu (if (noff c =? 1) && intena c then Z.lor (sstatus c) SSTATUS_SIE else sstatus c)
                         (noff c - 1) (intena c)).
Proof.
  intros Hs Hn. unfold pop_off. kunfold. unfold intr_get, gets. fold (sie c). rewrite Hs.
  rewrite (proj2 (Z.ltb_ge (noff c) 1)) by lia. cbn [noff sstatus intena].
  rewrite s32_small by lia.
  replace (noff c - 1 =? 0) with (noff c =? 1) by (destruct (Z.eqb_spec (noff c) 1), (Z.eqb_spec (noff c - 1) 0); lia || done).
  destruct (noff c =? 1); cbn [andb]; [| done]. by destruct (intena c).
Qed.

(** [n] times the same operation. *)
Fixpoint repeatM {S} (n : nat) (m : M S unit) : M S unit :=
  match n with O => ret tt | Datatypes.S n' => m ;;; repeatM n' m end.

Lemma pushes_eq n c :
  0 <= noff c -> noff c + Z.of_nat n < 2 ^ 31 ->
  repeatM n push_off c =
  Ok tt (if decide (n = O) then c
         else Cpu (SIE_off (sstatus c)) (noff c + Z.of_nat n) (if noff c =? 0 then sie c else intena c)).
Proof.
  revert c. induction n as [|n IH]; intros c H0 Hn; [done |]. cbn [repeatM]. unfold bind. rewrite push_off_eq.
  rewrite s32_small by lia. rewrite IH by (cbn; lia). rewrite (decide_False (P := S n = O)) by done. f_equal.
  cbn [sstatus noff intena]. destruct (decide (n = O)) as [->|Hne]; [done |].
  rewrite SIE_off_idem, (proj2 (Z.eqb_neq (noff c + 1) 0)) by lia. f_equal. lia.
Qed.

Lemma pops_eq n c :
  sie c = false -> Z.of_nat n <= noff c < 2 ^ 31 ->
  repeatM n pop_off c =
  Ok tt (Cpu (if (noff c =? Z.of_nat n) && negb (Nat.eqb n 0) && intena c
              then Z.lor (sstatus c) SSTATUS_SIE else sstatus c)
             (noff c - Z.of_nat n) (intena c)).
Proof.
  revert c. induction n as [|n IH]; intros c Hs Hn.
  { cbn [repeatM]. rewrite andb_false_r. cbn. rewrite Z.sub_0_r. by destruct c. }
  cbn [repeatM]. unfold bind. rewrite pop_off_eq by (done || lia).
  destruct (decide (n = O)) as [->|Hne].
  { cbn [repeatM negb Nat.eqb andb ret]. rewrite andb_true_r. done. }
  rewrite (proj2 (Z.eqb_neq (noff c) 1)) by lia. cbn [andb].
  rewrite IH; cbn [sstatus noff intena]; [| by unfold sie in *; cbn | lia].
  replace (noff c - 1 =? Z.of_nat n) with (noff c =? Z.of_nat (S n))
    by (destruct (Z.eqb_spec (noff c) (Z.of_nat (S n))), (Z.eqb_spec (noff c - 1) (Z.of_nat n)); lia || done).
  destruct n; [done |]. cbn [Nat.eqb negb]. do 2 f_equal. lia.
Qed.

(** ** Spinlocks *)

Record spinlock := Spinlock { locked : Z; lk_cpu : option nat }.

Definition initlock : spinlock := Spinlock 0 None.

(** [c] is the index of the CPU that runs the code ([mycpu()]). *)
Definition holding (c : nat) (lk : spinlock) : bool :=
  negb (locked lk =? 0) && bool_decide (lk_cpu lk = Some c).

(** Where a CPU is in [acquire] or [release]. *)
Inductive pc :=
  | Out          (* not using the lock *)
  | Spin         (* acquire: before the swap *)
  | Got          (* acquire: swapped 0 for 1, [lk->cpu] not yet set *)
  | Crit         (* between acquire and release *)
  | Clear        (* release: [lk->cpu = 0] done *)
  | Freed.       (* release: [locked = 0] done, before pop_off *)

#[export] Instance pc_eq_dec : EqDecision pc.
Proof. solve_decision. Defined.

(** The lock, the CPUs, their control points, and how many other locks each
    CPU holds (nested [push_off]s that are not this lock's). *)
Record lsys := Lsys {
  l_lk : spinlock;
  l_cpu : nat -> cpu;
  l_pc : nat -> pc;
  l_extra : nat -> nat;
}.

(** One step of CPU [i].  [acquire] is [AcqEnter], [AcqSwap] until it reads
    0, then [AcqCpu]; [release] is [RelEnter], [RelSwap], [RelPop]. *)
Definition acquire_enter (i : nat) (s : lsys) : outcome lsys unit :=
  match push_off (l_cpu s i) with
  | Ok _ c =>
      let s' := Lsys (l_lk s) (upd (l_cpu s) i c) (l_pc s) (l_extra s) in
      if holding i (l_lk s') then Panic "acquire"
      else Ok tt (Lsys (l_lk s') (l_cpu s') (upd (l_pc s') i Spin) (l_extra s'))
  | Panic m => Panic m
  | Sleeps ch _ => Sleeps ch s
  | OutOfFuel => OutOfFuel
  end.

Definition acquire_swap (i : nat) (s : lsys) : outcome lsys unit :=
  let old := locked (l_lk s) in
  Ok tt (Lsys (Spinlock 1 (lk_cpu (l_lk s))) (l_cpu s)
              (if old =? 0 then upd (l_pc s) i Got else l_pc s) (l_extra s)).

Definition acquire_cpu (i : nat) (s : lsys) : outcome lsys unit :=
  Ok tt (Lsys (Spinlock (locked (l_lk s)) (Some i)) (l_cpu s) (upd (l_pc s) i Crit) (l_extra s)).

Definition release_enter (i : nat) (s : lsys) : outcome lsys unit :=
  if negb (holding i (l_lk s)) then Panic "release"
  else Ok tt (Lsys (Spinlock (locked (l_lk s)) None) (l_cpu s) (upd (l_pc s) i Clear) (l_extra s)).

Definition release_swap (i : nat) (s : lsys) : outcome lsys unit :=
  Ok tt (Lsys (Spinlock 0 (lk_cpu (l_lk s))) (l_cpu s) (upd (l_pc s) i Freed) (l_extra s)).

Definition release_pop (i : nat) (s : lsys) : outcome lsys unit :=
  match pop_off (l_cpu s i) with
  | Ok _ c => Ok tt (Lsys (l_lk s) (upd (l_cpu s) i c) (upd (l_pc s) i Out) (l_extra s))
  | Panic m => Panic m
  | Sleeps ch _ => Sleeps ch s
  | OutOfFuel => OutOfFuel
  end.

(** Another lock of the same CPU. *)
Definition other_push (i : nat) (s : lsys) : outcome lsys unit :=
  match push_off (l_cpu s i) with
  | Ok _ c => Ok tt (Lsys (l_lk s) (upd (l_cpu s) i c) (l_pc s) (upd (l_extra s) i (S (l_extra s i))))
  | Panic m => Panic m
  | Sleeps ch _ => Sleeps ch s
  | OutOfFuel => OutOfFuel
  end.

Definition other_pop (i : nat) (s : lsys) : outcome lsys unit :=
  match pop_off (l_cpu s i) with
  | Ok _ c => Ok tt (Lsys (l_lk s) (upd (l_cpu s) i c) (l_pc s) (upd (l_extra s) i (pred (l_extra s i))))
  | Panic m => Panic m
  | Sleeps ch _ => Sleeps ch s
  | OutOfFuel => OutOfFuel
  end.

(** The CPUs interleave freely; a CPU follows the code, and nests fewer than
    [2^31 - 1] locks. *)
Inductive lstep : lsys -> outcome lsys unit -> Prop :=
  | AcqEnter i s : l_pc s i = Out -> Z.of_nat (l_extra s i) < 2 ^ 31 - 2 -> lstep s (acquire_enter i s)
  | AcqSwap i s : l_pc s i = Spin -> lstep s (acquire_swap i s)
  | AcqCpu i s : l_pc s i = Got -> lstep s (acquire_cpu i s)
  | RelEnter i s : l_pc s i = Crit -> lstep s (release_enter i s)
  | RelSwap i s : l_pc s i = Clear -> lstep s (release_swap i s)
  | RelPop i s : l_pc s i = Freed -> lstep s (release_pop i s)
  | OtherPush i s : l_pc s i = Out \/ l_pc s i = Crit -> Z.of_nat (l_extra s i) < 2 ^ 31 - 2 ->
      lstep s (other_push i s)
  | OtherPop i s : l_pc s i = Out \/ l_pc s i = Crit -> (0 < l_extra s i)%nat -> lstep s (other_pop i s).

Inductive reachable (s0 : lsys) : outcome lsys unit -> Prop :=
  | ReachInit : reachable s0 (Ok tt s0)
  | ReachStep s o : reachable s0 (Ok tt s) -> lstep s o -> reachable s0 o.

(** ** The invariant *)

Definition owner (p : pc) : bool := match p with Got | Crit | Clear => true | _ => false end.
Definition depth (p : pc) : Z := match p with Out => 0 | _ => 1 end.

(** A CPU that started with [c0] and holds [d] locks. *)
Record cpu_ok (c0 c : cpu) (d : Z) : Prop := CpuOk {
  co_noff : noff c = d;
  co_out : d = 0 -> sstatus c = sstatus c0;
  co_in : 0 < d -> sstatus c = SIE_off (sstatus c0) /\ intena c = sie c0;
}.

Record linv (c0 : nat -> cpu) (s : lsys) : Prop := Linv {
  li_cpu : forall i, cpu_ok (c0 i) (l_cpu s i) (Z.of_nat (l_extra s i) + depth (l_pc s i));
  li_bound : forall i, Z.of_nat (l_extra s i) <= 2 ^ 31 - 2;
  li_locked : locked (l_lk s) = 0 \/ locked (l_lk s) = 1;
  li_owner : forall i, owner (l_pc s i) = true -> locked (l_lk s) = 1;
  li_unique : forall i j, owner (l_pc s i) = true -> owner (l_pc s j) = true -> i = j;
  li_cpuf : forall i, lk_cpu (l_lk s) = Some i <-> l_pc s i = Crit;
}.

Lemma cpu_push c0 c d :
  0 <= d < 2 ^ 31 - 1 -> cpu_ok c0 c d -> exists c', push_off c = Ok tt c' /\ cpu_ok c0 c' (d + 1).
Proof.
  intros Hd [H1 H2 H3]. rewrite push_off_eq, H1, s32_small by lia. eexists. split; [reflexivity |].
  split; cbn [noff sstatus intena]; [done | lia |]. intros _. destruct (Z.eqb_spec d 0) as [->|Hne].
  - rewrite (H2 eq_refl). split; [done |]. rewrite !sie_bit. by rewrite H2.
  - destruct H3 as [-> ->]; [lia |]. by rewrite SIE_off_idem.
Qed.

Lemma cpu_sie c0 c d : 0 < d -> cpu_ok c0 c d -> sie c = false.
Proof.
  intros Hd [_ _ H3]. destruct (H3 Hd) as [H _]. rewrite sie_bit, H, SIE_off_bit by lia.
  by rewrite andb_false_r.
Qed.

Lemma cpu_pop c0 c d :
  0 < d < 2 ^ 31 -> cpu_ok c0 c d -> exists c', pop_off c = Ok tt c' /\ cpu_ok c0 c' (d - 1).
Proof.
  intros Hd H. pose proof (cpu_sie c0 c d ltac:(lia) H) as Hs. destruct H as [H1 H2 H3].
  rewrite pop_off_eq by (done || lia). eexists. split; [reflexivity |].
  destruct (H3 ltac:(lia)) as [Hss Hin]. rewrite H1, Hss, Hin, sie_bit.
  split; cbn [noff sstatus intena]; [done | |].
  - intros Hd1. rewrite (proj2 (Z.eqb_eq d 1)) by lia. cbn [andb].
    destruct (Z.testbit (sstatus c0) 1) eqn:E; [by apply SIE_off_on | by apply SIE_off_off].
  - intros Hd1. rewrite (proj2 (Z.eqb_neq d 1)) by lia. by rewrite sie_bit.
Qed.



(** Closes goals about the fields of an updated system. *)
Ltac upd_cases :=
  repeat match goal with
  | |- context [upd _ ?i _ ?j] =>
      destruct (decide (j = i)) as [->|]; [rewrite !upd_eq in * | rewrite !upd_ne in * by done]
  | H : context [upd _ ?i _ ?j] |- _ =>
      destruct (decide (j = i)) as [->|]; [rewrite !upd_eq in * | rewrite !upd_ne in * by done]
  end.

Lemma linv_acquire_enter c0 s i :
  linv c0 s -> l_pc s i = Out -> Z.of_nat (l_extra s i) < 2 ^ 31 - 2 ->
  exists s', acquire_enter i s = Ok tt s' /\ linv c0 s'.
Proof.
  intros [Hc Hb Hl Ho Hu Hf] Hp He. unfold acquire_enter. pose proof (Hc i) as Hci. rewrite Hp in Hci.
  destruct (cpu_push (c0 i) (l_cpu s i) (Z.of_nat (l_extra s i) + 0)) as (c' & -> & Hc'); [lia | done |].
  assert (holding i (l_lk s) = false) as Hh.
  { unfold holding. rewrite bool_decide_eq_false_2; [by rewrite andb_false_r |]. by rewrite Hf, Hp. }
  cbn [l_lk]. rewrite Hh. eexists. split; [reflexivity |].
  split; cbn [l_lk l_cpu l_pc l_extra]; [| done | done | | |].
  - intros j. upd_cases; [| done]. cbn [depth]. by rewrite <- Z.add_assoc in Hc'.
  - intros j. upd_cases; [done | apply Ho].
  - intros j k. upd_cases; try done. apply Hu.
  - intros j. rewrite Hf. upd_cases; [by rewrite Hp | done].
Qed.

Lemma linv_pop c0 s i :
  linv c0 s -> l_pc s i = Freed -> exists s', release_pop i s = Ok tt s' /\ linv c0 s'.
Proof.
  intros [Hc Hb Hl Ho Hu Hf] Hp. unfold release_pop. pose proof (Hc i) as Hci. pose proof (Hb i) as Hbi. rewrite Hp in Hci.
  destruct (cpu_pop (c0 i) (l_cpu s i) (Z.of_nat (l_extra s i) + 1)) as (c' & -> & Hc'); [lia | done |].
  eexists. split; [reflexivity |]. split; cbn [l_lk l_cpu l_pc l_extra]; [| done | done | | |].
  - intros j. upd_cases; [| done]. cbn [depth]. by replace (Z.of_nat (l_extra s i) + 0) with (Z.of_nat (l_extra s i) + 1 - 1) by lia.
  - intros j. upd_cases; [done | apply Ho].
  - intros j k. upd_cases; try done. apply Hu.
  - intros j. rewrite Hf. upd_cases; [by rewrite Hp | done].
Qed.

Lemma linv_other_push c0 s i :
  linv c0 s -> Z.of_nat (l_extra s i) < 2 ^ 31 - 2 ->
  exists s', other_push i s = Ok tt s' /\ linv c0 s'.
Proof.
  intros [Hc Hb Hl Ho Hu Hf] He. unfold other_push. pose proof (Hc i) as Hci.
  assert (0 <= depth (l_pc s i) <= 1) as Hd by (destruct (l_pc s i); cbn; lia).
  destruct (cpu_push (c0 i) (l_cpu s i) (Z.of_nat (l_extra s i) + depth (l_pc s i))) as (c' & -> & Hc'); [lia | done |].
  eexists. split; [reflexivity |]. split; cbn [l_lk l_cpu l_pc l_extra]; try done; intros j; upd_cases; try done; [| lia].
  by replace (Z.of_nat (S (l_extra s i)) + depth (l_pc s i))
    with (Z.of_nat (l_extra s i) + depth (l_pc s i) + 1) by lia.
Qed.

Lemma linv_other_pop c0 s i :
  linv c0 s -> (0 < l_extra s i)%nat -> exists s', other_pop i s = Ok tt s' /\ linv c0 s'.
Proof.
  intros [Hc Hb Hl Ho Hu Hf] He. unfold other_pop. pose proof (Hc i) as Hci. pose proof (Hb i) as Hbi.
  assert (0 <= depth (l_pc s i) <= 1) as Hd by (destruct (l_pc s i); cbn; lia).
  destruct (cpu_pop (c0 i) (l_cpu s i) (Z.of_nat (l_extra s i) + depth (l_pc s i))) as (c' & -> & Hc'); [lia | done |].
  eexists. split; [reflexivity |]. split; cbn [l_lk l_cpu l_pc l_extra]; try done; intros j; upd_cases; try done; [| lia].
  by replace (Z.of_nat (pred (l_extra s i)) + depth (l_pc s i))
    with (Z.of_nat (l_extra s i) + depth (l_pc s i) - 1) by lia.
Qed.

Lemma linv_swap c0 s i :
  linv c0 s -> l_pc s i = Spin -> exists s', acquire_swap i s = Ok tt s' /\ linv c0 s'.
Proof.
  intros [Hc Hb Hl Ho Hu Hf] Hp. eexists. split; [reflexivity |]. destruct (Z.eqb_spec (locked (l_lk s)) 0) as [E|E].
  - assert (forall j, owner (l_pc s j) = false) as Hno.
    { intros j. destruct (owner (l_pc s j)) eqn:Hj; [| done]. apply Ho in Hj. lia. }
    split; cbn [l_lk l_cpu l_pc l_extra locked lk_cpu]; [| done | by right | done | |].
    + intros j. pose proof (Hc j). upd_cases; [by rewrite Hp in * | done].
    + intros j k. upd_cases; try done; by rewrite Hno.
    + intros j. rewrite Hf. upd_cases; [by rewrite Hp | done].
  - split; cbn [l_lk l_cpu l_pc l_extra locked lk_cpu]; try done. by right.
Qed.

Lemma linv_local c0 s i p lk :
  linv c0 s -> owner (l_pc s i) = true -> depth p = 1 ->
  locked lk = (if owner p then 1 else 0) -> lk_cpu lk = (if decide (p = Crit) then Some i else None) ->
  linv c0 (Lsys lk (l_cpu s) (upd (l_pc s) i p) (l_extra s)).
Proof.
  intros [Hc Hb Hl Ho Hu Hf] Hp Hd Hk1 Hk2.
  assert (forall j, owner (l_pc s j) = true -> j = i) as Hi by (intros; by apply Hu).
  split; cbn [l_lk l_cpu l_pc l_extra]; [| done | rewrite Hk1; destruct (owner p); auto | | |].
  - intros j. pose proof (Hc j). upd_cases; [| done]. by destruct (l_pc s i), p.
  - intros j. upd_cases; [by rewrite Hk1; intros -> |]. intros Hj%Hi. done.
  - intros j k. upd_cases; try done; intros Hj Hk; [by apply Hi in Hk | by apply Hi in Hj | by apply Hu].
  - intros j. rewrite Hk2. upd_cases.
    + by case_decide.
    + split; [case_decide; congruence |]. intros E. exfalso. assert (j = i); [| done]. apply Hi. by rewrite E.
Qed.

Lemma linv_step c0 s o : linv c0 s -> lstep s o -> exists s', o = Ok tt s' /\ linv c0 s'.
Proof.
  intros Hi Hs. destruct Hs as [i s Hp He|i s Hp|i s Hp|i s Hp|i s Hp|i s Hp|i s Hp He|i s Hp He].
  - by apply linv_acquire_enter.
  - by apply linv_swap.
  - eexists. split; [reflexivity |]. assert (owner (l_pc s i) = true) as Ho by by rewrite Hp.
    apply linv_local; try done. by apply (li_owner _ _ Hi i).
  - assert (owner (l_pc s i) = true) as Ho by by rewrite Hp. pose proof (li_owner _ _ Hi i Ho) as Hk.
    assert (holding i (l_lk s) = true) as Hh.
    { unfold holding. rewrite Hk, bool_decide_eq_true_2; [done |]. by apply (li_cpuf _ _ Hi). }
    unfold release_enter. rewrite Hh. eexists. split; [reflexivity |]. by apply linv_local.
  - eexists. split; [reflexivity |]. apply linv_local; try done; [by rewrite Hp |].
    cbn [lk_cpu]. rewrite decide_False by done. destruct (lk_cpu (l_lk s)) as [j|] eqn:E; [| done].
    apply (li_cpuf _ _ Hi) in E. assert (i = j) as <-; [| congruence].
    apply (li_unique _ _ Hi); by rewrite ?Hp, ?E.
  - by apply linv_pop.
  - by apply linv_other_push.
  - by apply linv_other_pop.
Qed.

Lemma linv_reachable c0 s0 o :
  linv c0 s0 -> reachable s0 o -> exists s, o = Ok tt s /\ linv c0 s.
Proof.
  intros H0 Hr. induction Hr as [|s o Hr IH Hs]; [eauto |].
  destruct IH as (s' & [= <-] & Hi). by eapply linv_step.
Qed.

(** ** Properties *)

Definition lsys_init (c0 : nat -> cpu) : lsys := Lsys initlock c0 (fun _ => Out) (fun _ => O).

Lemma linv_init c0 : (forall i, noff (c0 i) = 0) -> linv c0 (lsys_init c0).
Proof.
  intros H. split; cbn; try done. by left.
Qed.

(** C8: on any number of CPUs and for any interleaving, with other locks
    nested freely, at most one CPU is between [acquire] and [release] of a
    lock, with interrupts off; neither the [acquire] nor the [release] panic
    nor those of [pop_off] can happen; and a CPU that holds no lock has the
    interrupt state it started with. *)
Theorem spinlock_safe (c0 : nat -> cpu) (o : outcome lsys unit) :
  (forall i, noff (c0 i) = 0) -> reachable (lsys_init c0) o ->
  exists s, o = Ok tt s /\
    (forall i j, l_pc s i = Crit -> l_pc s j = Crit -> i = j) /\
    (forall i, l_pc s i = Crit -> sie (l_cpu s i) = false /\ holding i (l_lk s) = true) /\
    (forall i, l_pc s i = Out -> l_extra s i = O -> sstatus (l_cpu s i) = sstatus (c0 i)).
Proof.
  intros H0 Hr. destruct (linv_reachable c0 _ _ (linv_init c0 H0) Hr) as (s & -> & [Hc Hb Hl Ho Hu Hf]).
  exists s. split_and!; [done | | |].
  - intros i j Hi Hj. apply Hu; by rewrite ?Hi, ?Hj.
  - intros i Hi. split.
    + apply (cpu_sie (c0 i) _ (Z.of_nat (l_extra s i) + depth (l_pc s i))); [| apply Hc]. rewrite Hi. cbn. lia.
    + unfold holding. rewrite (Ho i) by by rewrite Hi. cbn. apply bool_decide_eq_true. by apply Hf.
  - intros i Hi He. apply (co_out _ _ _ (Hc i)). by rewrite Hi, He.
Qed.

(** Two CPUs, interrupts on: CPU 0 is in the critical section and CPU 1
    spins. *)
Definition demo_cpus : nat -> cpu := fun _ => Cpu SSTATUS_SIE 0 false.

Definition demo_run : outcome lsys unit :=
  (acquire_enter 0 ;;; acquire_enter 1 ;;; acquire_swap 0 ;;; acquire_swap 1 ;;; acquire_cpu 0)
    (lsys_init demo_cpus).

Lemma reach_bind s0 s (m k : M lsys unit) :
  reachable s0 (Ok tt s) -> lstep s (m s) ->
  (forall s', m s = Ok tt s' -> reachable s0 (Ok tt s') -> reachable s0 (k s')) ->
  reachable s0 ((m ;;; k) s).
Proof.
  intros Hr Hs Hk. pose proof (ReachStep _ _ _ Hr Hs) as H. unfold bind.
  destruct (m s) as [[] s'| | |]; [by apply Hk | done..].
Qed.

Lemma demo_reachable : reachable (lsys_init demo_cpus) demo_run.
Proof.
  apply reach_bind; [apply ReachInit | apply (AcqEnter 0); [done | by vm_compute] |]. intros s [= <-] H.
  apply reach_bind; [exact H | apply (AcqEnter 1); [done | by vm_compute] |]. clear H. intros s [= <-] H.
  apply reach_bind; [exact H | by apply (AcqSwap 0) |]. clear H. intros s [= <-] H.
  apply reach_bind; [exact H | by apply (AcqSwap 1) |]. clear H. intros s [= <-] H.
  eapply ReachStep; [exact H | by apply (AcqCpu 0)].
Qed.

Lemma spinlock_safe_witness :
  exists s, demo_run = Ok tt s /\
    (forall i j, l_pc s i = Crit -> l_pc s j = Crit -> i = j) /\
    (forall i, l_pc s i = Crit -> sie (l_cpu s i) = false /\ holding i (l_lk s) = true) /\
    (forall i, l_pc s i = Out -> l_extra s i = O -> sstatus (l_cpu s i) = sstatus (demo_cpus i)).
Proof. apply (spinlock_safe demo_cpus demo_run); [done | apply demo_reachable]. Defined.

(** [n] nested [push_off]s keep interrupts off, and the matching [n]
    [pop_off]s bring back the interrupt state of before, without panicking. *)
Theorem push_pop_nested (n : nat) (c : cpu) :
  (0 < n)%nat -> Z.of_nat n < 2 ^ 31 -> noff c = 0 ->
  exists c1 c2, repeatM n push_off c = Ok tt c1 /\ sie c1 = false /\ noff c1 = Z.of_nat n /\
    repeatM n pop_off c1 = Ok tt c2 /\ sstatus c2 = sstatus c /\ noff c2 = 0.
Proof.
  intros Hn Hb H0. eexists _, _. rewrite pushes_eq by lia. rewrite decide_False, H0 by lia. cbn [Z.eqb].
  assert (sie (Cpu (SIE_off (sstatus c)) (0 + Z.of_nat n) (sie c)) = false) as Hs.
  { rewrite sie_bit. cbn [sstatus]. rewrite SIE_off_bit by lia. by rewrite andb_false_r. }
  split_and!; [reflexivity | exact Hs | cbn; lia | apply pops_eq; [exact Hs | cbn [noff]; lia] | | cbn [noff]; lia].
  cbn [sstatus noff intena]. rewrite Z.add_0_l, Z.eqb_refl. destruct n; [lia |]. cbn [Nat.eqb negb andb].
  rewrite sie_bit. destruct (Z.testbit (sstatus c) 1) eqn:E; [by apply SIE_off_on | by apply SIE_off_off].
Qed.

Lemma push_pop_nested_witness :
  exists c1 c2, repeatM 3 push_off (Cpu SSTATUS_SIE 0 false) = Ok tt c1 /\ sie c1 = false /\ noff c1 = 3 /\
    repeatM 3 pop_off c1 = Ok tt c2 /\ sstatus c2 = SSTATUS_SIE /\ noff c2 = 0.
Proof. apply (push_pop_nested 3 (Cpu SSTATUS_SIE 0 false)); [lia | lia | reflexivity]. Defined.
