(* ===== verification/Sleeplock.v ===== *)
(** * kernel/sleeplock.c

    A sleep lock is a flag and the pid of its holder, protected by a spin
    lock; one run of [acquiresleep] up to its return or its [sleep] is one
    step.  [releasesleep] wakes every process asleep on the lock; those try
    again.  The invariant gives mutual exclusion between processes and that no
    process stays asleep on a free lock. *)

From S2P Require Import Prelude.

Record sleeplock := SleepLock { sl_locked : Z; sl_pid : Z }.

Definition initsleeplock : sleeplock := SleepLock 0 0.

(** [id] is the address of the lock, [pid] the caller's. *)
Definition acquiresleep (id pid : Z) : M sleeplock unit := fun lk =>
  if negb (sl_locked lk =? 0) then Sleeps (ChLock id) lk
  else Ok tt (SleepLock 1 pid).

(** The result is the channel passed to [wakeup]. *)
Definition releasesleep (id : Z) : M sleeplock chan := fun _ =>
  Ok (ChLock id) (SleepLock 0 0).

Definition holdingsleep (pid : Z) : M sleeplock bool := fun lk =>
  Ok (negb (sl_locked lk =? 0) && (sl_pid lk =? pid)) lk.

(** ** Processes around a sleep lock *)

Inductive sl_state := SlOut | SlWant | SlAsleep | SlHolds.

#[export] Instance sl_state_eq_dec : EqDecision sl_state.
Proof. solve_decision. Defined.

Record slsys := Slsys { sy_lk : sleeplock; sy_proc : gmap Z sl_state }.

(** [wakeup]: every sleeper wants the lock again. *)
Definition wake_all (m : gmap Z sl_state) : gmap Z sl_state :=
  (fun st => if decide (st = SlAsleep) then SlWant else st) <$> m.

Inductive slstep (id : Z) : slsys -> slsys -> Prop :=
  | SlCall pid s : sy_proc s !! pid = Some SlOut ->
      slstep id s (Slsys (sy_lk s) (<[pid := SlWant]> (sy_proc s)))
  | SlGet pid s lk : sy_proc s !! pid = Some SlWant ->
      acquiresleep id pid (sy_lk s) = Ok tt lk ->
      slstep id s (Slsys lk (<[pid := SlHolds]> (sy_proc s)))
  | SlSleep pid s c lk : sy_proc s !! pid = Some SlWant ->
      acquiresleep id pid (sy_lk s) = Sleeps c lk ->
      slstep id s (Slsys lk (<[pid := SlAsleep]> (sy_proc s)))
  | SlRelease pid s c lk : sy_proc s !! pid = Some SlHolds ->
      releasesleep id (sy_lk s) = Ok c lk ->
      slstep id s (Slsys lk (wake_all (<[pid := SlOut]> (sy_proc s)))).

Record slinv (s : slsys) : Prop := Slinv {
  sv_locked : sl_locked (sy_lk s) = 0 \/ sl_locked (sy_lk s) = 1;
  sv_holder : forall pid, sy_proc s !! pid = Some SlHolds <->
    sl_locked (sy_lk s) = 1 /\ sl_pid (sy_lk s) = pid /\ is_Some (sy_proc s !! pid);
  sv_live : sl_locked (sy_lk s) = 1 -> is_Some (sy_proc s !! sl_pid (sy_lk s));
  sv_asleep : forall pid, sy_proc s !! pid = Some SlAsleep -> sl_locked (sy_lk s) = 1;
}.

Lemma wake_all_holds m pid : wake_all m !! pid = Some SlHolds <-> m !! pid = Some SlHolds.
Proof.
  unfold wake_all. rewrite lookup_fmap. destruct (m !! pid) as [[]|]; cbn; naive_solver.
Qed.

Lemma wake_all_asleep m pid : wake_all m !! pid <> Some SlAsleep.
Proof. unfold wake_all. rewrite lookup_fmap. by destruct (m !! pid) as [[]|]. Qed.

Lemma slinv_step id s s' : slinv s -> slstep id s s' -> slinv s'.
Proof.
  intros [H1 H2 H3 H4] Hs. destruct Hs as [pid s Hp|pid s lk Hp Hr|pid s c lk Hp Hr|pid s c lk Hp Hr].
  - split; cbn [sy_lk sy_proc]; [done | | |].
    + intros q. destruct (decide (q = pid)) as [->|Hne].
      * rewrite lookup_insert_eq. split; [done |]. intros (Hl & E & _). exfalso.
        assert (sy_proc s !! pid = Some SlHolds); [| congruence]. apply H2. split_and!; [done | done | by eexists].
      * rewrite lookup_insert_ne by done. apply H2.
    + intros Hl. destruct (decide (sl_pid (sy_lk s) = pid)) as [->|Hne];
        [rewrite lookup_insert_eq; by eexists | rewrite lookup_insert_ne by done; by apply H3].
    + intros q. destruct (decide (q = pid)) as [->|Hne]; [by rewrite lookup_insert_eq |].
      rewrite lookup_insert_ne by done. apply H4.
  - unfold acquiresleep in Hr. destruct (Z.eqb_spec (sl_locked (sy_lk s)) 0) as [E|]; [| done]. injection Hr as <-.
    split; cbn [sy_lk sy_proc sl_locked sl_pid]; [by right | | |].
    + intros q. destruct (decide (q = pid)) as [->|Hne].
      * rewrite lookup_insert_eq. split; [intros _; split_and!; [done | done | by eexists] | done].
      * rewrite lookup_insert_ne by done. split; [intros Hq%H2; lia | naive_solver].
    + intros _. rewrite lookup_insert_eq. by eexists.
    + done.
  - unfold acquiresleep in Hr. destruct (Z.eqb_spec (sl_locked (sy_lk s)) 0) as [|E]; [done |]. injection Hr as _ <-.
    assert (sl_locked (sy_lk s) = 1) as Hl by lia.
    assert (sl_pid (sy_lk s) <> pid) as Hne.
    { intros <-. assert (sy_proc s !! sl_pid (sy_lk s) = Some SlHolds); [| congruence]. apply H2. auto. }
    split; cbn [sy_lk sy_proc]; [done | | |].
    + intros q. destruct (decide (q = pid)) as [->|Hne']; [rewrite lookup_insert_eq; naive_solver |].
      rewrite lookup_insert_ne by done. apply H2.
    + intros _. rewrite lookup_insert_ne by done. by apply H3.
    + done.
  - injection Hr as _ <-. split; cbn [sy_lk sy_proc sl_locked sl_pid]; [by left | | done |].
    + intros q. rewrite wake_all_holds. destruct (decide (q = pid)) as [->|Hne].
      * rewrite lookup_insert_eq. naive_solver.
      * rewrite lookup_insert_ne by done. split; [| naive_solver].
        intros Hq%H2. apply H2 in Hp. naive_solver.
    + intros q Hq. by apply wake_all_asleep in Hq.
Qed.

(** ** Properties *)

Definition slsys_init (procs : gset Z) : slsys := Slsys initsleeplock (gset_to_gmap SlOut procs).


(** Process 1 holds the lock, process 2 is asleep. *)
Definition demo_sl : slsys :=
  Slsys (SleepLock 1 1) (<[2 := SlAsleep]> (<[2 := SlWant]> (<[1 := SlHolds]> (<[1 := SlWant]>
    (gset_to_gmap SlOut {[1; 2]}))))).

Lemma demo_sl_reach : rtc (slstep 7) (slsys_init {[1; 2]}) demo_sl.
Proof.
  eapply rtc_l; [apply (SlCall 7 1); reflexivity |].
  eapply rtc_l; [eapply (SlGet 7 1); reflexivity |].
  eapply rtc_l; [apply (SlCall 7 2); reflexivity |].
  eapply rtc_l; [eapply (SlSleep 7 2); reflexivity |]. apply rtc_refl.
Qed.

