(* ===== verification/Pipe.v ===== *)
(** * kernel/pipe.c

    A pipe is a ring buffer of [PIPESIZE] bytes with two [uint] counters that
    only ever grow (and wrap at 2^32).  [pipewrite] and [piperead] run under
    [pi->lock] until they return or sleep; one such run is one step here, and
    a run that sleeps is continued, from the index it had reached, by another
    step.  The abstract pipe is a queue: what is read is a prefix of what was
    written.  [wakeup] calls are recorded in the state, so that it can be
    stated that no process sleeps while it could run. *)

From S2P Require Import Prelude Riscv Mem Kalloc Uvm Ucopy Usermem.

Definition PIPESIZE : Z := 512.
#[export] Hint Unfold PIPESIZE : consts.

Record pipe := Pipe {
  p_data : list Z;
  nread : Z;
  nwrite : Z;
  readopen : bool;
  writeopen : bool;
}.

(** How a run ends: with a return value, or asleep with the loop index. *)
Inductive prun := PRet (r : Z) | PSleep (i : Z).

Section pipe.
Context {U : Type} `{UserMem U}.
Context (pi : Z). (* the address of the pipe *)

Record pst := Pst { p_pipe : pipe; p_user : U; p_woken : list chan }.

Definition in_user {A} (m : M U A) : M pst A :=
  zoom p_user (fun u s => Pst (p_pipe s) u (p_woken s)) m.
Definition set_pipe (f : pipe -> pipe) : M pst unit :=
  modify (fun s => Pst (f (p_pipe s)) (p_user s) (p_woken s)).
Definition wake (c : chan) : M pst unit :=
  modify (fun s => Pst (p_pipe s) (p_user s) (c :: p_woken s)).

(** [pi->data[pi->nwrite++ % PIPESIZE] = ch] *)
Definition pipe_put (ch : Z) (p : pipe) : pipe :=
  Pipe (<[Z.to_nat (nwrite p mod PIPESIZE) := ch]> (p_data p)) (nread p) (u32 (nwrite p + 1))
       (readopen p) (writeopen p).

(** [ch = pi->data[pi->nread++ % PIPESIZE]] *)
Definition pipe_get (p : pipe) : Z := default 0 (p_data p !! Z.to_nat (nread p mod PIPESIZE)).
Definition pipe_take (p : pipe) : pipe :=
  Pipe (p_data p) (u32 (nread p + 1)) (nwrite p) (readopen p) (writeopen p).

(** The [for] loop of [pipewrite] from index [i], with [k = n - i] iterations
    left; [pt] and [killed] are the caller's page table and flag. *)
Fixpoint pipewrite_loop (k : nat) (pt : Z) (killed : bool) (addr i : Z) : M pst prun :=
  match k with
  | O => wake (ChPipeRead pi) ;;; ret (PRet i)
  | S k' =>
      let! p := gets p_pipe in
      if nwrite p =? u32 (nread p + PIPESIZE) then
        if negb (readopen p) || killed then ret (PRet (-1))
        else wake (ChPipeRead pi) ;;; ret (PSleep i)
      else
        let! '(r, ch) := in_user (um_copyin pt (u64 (addr + i)) 1) in
        if r =? -1 then wake (ChPipeRead pi) ;;; ret (PRet i)
        else
          set_pipe (pipe_put (default 0 (head ch))) ;;;
          pipewrite_loop k' pt killed addr (i + 1)
  end.

(** One run of [pipewrite], started at [i = 0] or resumed after a sleep. *)
Definition pipewrite (pt : Z) (killed : bool) (addr n i : Z) : M pst prun :=
  pipewrite_loop (Z.to_nat (n - i)) pt killed addr i.

Fixpoint piperead_loop (k : nat) (pt : Z) (addr i : Z) : M pst prun :=
  match k with
  | O => wake (ChPipeWrite pi) ;;; ret (PRet i)
  | S k' =>
      let! p := gets p_pipe in
      if nread p =? nwrite p then wake (ChPipeWrite pi) ;;; ret (PRet i)
      else
        let ch := pipe_get p in
        set_pipe pipe_take ;;;
        let! r := in_user (um_copyout pt (u64 (addr + i)) [ch] 1) in
        if r =? -1 then wake (ChPipeWrite pi) ;;; ret (PRet i)
        else piperead_loop k' pt addr (i + 1)
  end.

Definition piperead (pt : Z) (killed : bool) (addr n : Z) : M pst prun :=
  let! p := gets p_pipe in
  if (nread p =? nwrite p) && writeopen p then
    if killed then ret (PRet (-1)) else ret (PSleep 0)
  else piperead_loop (Z.to_nat n) pt addr 0.

(** [true]: both ends are closed and the page of the pipe is freed. *)
Definition pipeclose (writable : bool) : M pst bool :=
  (if writable then
     set_pipe (fun p => Pipe (p_data p) (nread p) (nwrite p) (readopen p) false) ;;;
     wake (ChPipeRead pi)
   else
     set_pipe (fun p => Pipe (p_data p) (nread p) (nwrite p) false (writeopen p)) ;;;
     wake (ChPipeWrite pi)) ;;;
  let! p := gets p_pipe in
  ret (negb (readopen p) && negb (writeopen p)).

(** The fields [pipealloc] sets; [data] is what the page held. *)
Definition pipe_init (data : list Z) : pipe := Pipe data 0 0 true true.

(** ** The queue *)

Definition used (p : pipe) : Z := u32 (nwrite p - nread p).

Record pipe_inv (p : pipe) : Prop := PipeInv {
  pv_data : length (p_data p) = 512%nat;
  pv_byte : Forall is_byte (p_data p);
  pv_read : 0 <= nread p < 2 ^ 32;
  pv_write : 0 <= nwrite p < 2 ^ 32;
  pv_used : used p <= PIPESIZE;
}.

(** The byte [k] places behind the front. *)
Definition slot (p : pipe) (k : Z) : Z :=
  default 0 (p_data p !! Z.to_nat (u32 (nread p + k) mod PIPESIZE)).

Definition content (p : pipe) : list Z := map (slot p) (seqZ 0 (used p)).

Lemma used_range p : 0 <= used p < 2 ^ 32.
Proof. apply u32_range. Qed.

Lemma length_content p : Z.of_nat (length (content p)) = used p.
Proof. unfold content. rewrite length_map, length_seqZ. pose proof (used_range p). lia. Qed.

Ltac u32_solve := unfold used, u32, PIPESIZE in *; change (2 ^ 32) with 4294967296 in *;
  Z.div_mod_to_equations; lia.

Lemma used_0 p : pipe_inv p -> used p = 0 <-> nread p = nwrite p.
Proof. intros [_ _ Hr Hw _]. split; intros; u32_solve. Qed.

Lemma used_full p : pipe_inv p -> (nwrite p =? u32 (nread p + PIPESIZE)) = (used p =? PIPESIZE).
Proof.
  intros [_ _ Hr Hw Hu].
  destruct (Z.eqb_spec (nwrite p) (u32 (nread p + PIPESIZE))), (Z.eqb_spec (used p) PIPESIZE); try done; exfalso; u32_solve.
Qed.

Lemma content_nil p : pipe_inv p -> content p = [] <-> nread p = nwrite p.
Proof.
  intros Hp. rewrite <- used_0 by done. pose proof (length_content p) as Hl. split.
  - intros E. by rewrite E in Hl.
  - intros E. apply length_zero_iff_nil. lia.
Qed.

Lemma lookup_content p (i : nat) :
  Z.of_nat i < used p -> content p !! i = Some (slot p (Z.of_nat i)).
Proof.
  intros Hi. unfold content. change (map ?f ?l) with (f <$> l).
  rewrite list_lookup_fmap, (proj2 (lookup_seqZ 0 (used p) i (Z.of_nat i))); [done |]. lia.
Qed.

Lemma content_put ch p :
  pipe_inv p -> used p < PIPESIZE -> is_byte ch ->
  pipe_inv (pipe_put ch p) /\ content (pipe_put ch p) = content p ++ [ch].
Proof.
  intros [Hd Hby Hr Hw Hu] Hlt Hch. pose proof (used_range p) as Hur.
  assert (used (pipe_put ch p) = used p + 1) as Eu by (unfold used, pipe_put in *; cbn [nwrite nread]; u32_solve).
  assert (0 <= nwrite p mod PIPESIZE < 512) as Hix by (apply Z.mod_pos_bound; klia).
  split; [split; cbn [pipe_put p_data nread nwrite] |].
  - by rewrite length_insert.
  - by apply Forall_insert.
  - done.
  - apply u32_range.
  - rewrite Eu. klia.
  - apply list_eq. intros i. destruct (decide (Z.of_nat i < used p + 1)) as [Hi|Hi].
    2:{ rewrite !lookup_ge_None_2; [done | rewrite length_app; cbn; pose proof (length_content p); lia |].
        pose proof (length_content (pipe_put ch p)). lia. }
    rewrite lookup_content by lia. unfold slot. cbn [pipe_put p_data nread].
    destruct (decide (Z.of_nat i < used p)) as [Hlt'|Hge].
    + rewrite lookup_app_l by (pose proof (length_content p); lia). rewrite lookup_content by done.
      unfold slot. rewrite list_lookup_insert_ne; [done |]. u32_solve.
    + rewrite lookup_app_r by (pose proof (length_content p); lia).
      replace (i - length (content p))%nat with 0%nat by (pose proof (length_content p); lia). cbn.
      replace (u32 (nread p + Z.of_nat i)) with (nwrite p) by u32_solve.
      rewrite list_lookup_insert_eq; [done |]. lia.
Qed.

Lemma content_take p :
  pipe_inv p -> nread p <> nwrite p ->
  pipe_inv (pipe_take p) /\ content p = pipe_get p :: content (pipe_take p) /\ is_byte (pipe_get p).
Proof.
  intros Hp Hne. pose proof (used_0 p Hp) as H0. destruct Hp as [Hd Hby Hr Hw Hu].
  pose proof (used_range p) as Hur.
  assert (used (pipe_take p) = used p - 1) as Eu by (unfold used, pipe_take in *; cbn [nwrite nread]; u32_solve).
  assert (0 <= nread p mod PIPESIZE < 512) as Hix by (apply Z.mod_pos_bound; klia).
  assert (is_byte (pipe_get p)) as Hg.
  { unfold pipe_get. destruct (lookup_lt_is_Some_2 (p_data p) (Z.to_nat (nread p mod PIPESIZE))) as [b Hb]; [lia |].
    rewrite Hb. cbn. rewrite Forall_lookup in Hby. by apply (Hby _ _ Hb). }
  split_and!; [split; cbn [pipe_take p_data nread nwrite]; try done | | done].
  - apply u32_range.
  - rewrite Eu. lia.
  - apply list_eq. intros i. destruct (decide (Z.of_nat i < used p)) as [Hi|Hi].
    2:{ rewrite !lookup_ge_None_2; [done | cbn; pose proof (length_content (pipe_take p)); lia |].
        pose proof (length_content p). lia. }
    rewrite lookup_content by done. destruct i as [|i].
    + unfold slot, pipe_get. cbn. rewrite Z.add_0_r. by rewrite u32_small by lia.
    + change (Some (slot p (Z.of_nat (S i))) = content (pipe_take p) !! i). rewrite lookup_content by lia. unfold slot. cbn [pipe_take p_data nread].
      do 3 f_equal. u32_solve.
Qed.

(** ** Runs *)

Context {ok : U -> Prop} {space : Z -> Prop} `{!UserMemLaws U ok space}.

(** [p'] is [p] with other counters and data. *)
Definition same_ends (p p' : pipe) : Prop := readopen p' = readopen p /\ writeopen p' = writeopen p.

(** A run of [pipewrite] from index [i] with [k] bytes to go appended [bs]. *)
Definition write_post (k : nat) (pt : Z) (killed : bool) (addr i : Z) (s : pst) (bs : list Z)
    (r : prun) (s' : pst) : Prop :=
  pipe_inv (p_pipe s') /\ p_user s' = p_user s /\ same_ends (p_pipe s) (p_pipe s') /\
  content (p_pipe s') = content (p_pipe s) ++ bs /\ (length bs <= k)%nat /\
  (forall j b, bs !! j = Some b -> um_read (p_user s) pt (u64 (addr + i + Z.of_nat j)) = Some b) /\
  match r with
  | PSleep j =>
      j = i + Z.of_nat (length bs) /\ (length bs < k)%nat /\ used (p_pipe s') = PIPESIZE /\
      readopen (p_pipe s) = true /\ killed = false /\ p_woken s' = ChPipeRead pi :: p_woken s
  | PRet r =>
      r = i + Z.of_nat (length bs) /\ p_woken s' = ChPipeRead pi :: p_woken s /\
        (length bs = k \/ um_read (p_user s) pt (u64 (addr + r)) = None) \/
      r = -1 /\ used (p_pipe s') = PIPESIZE /\ (readopen (p_pipe s) = false \/ killed = true) /\
        p_woken s' = p_woken s
  end.

Lemma write_post_cons k pt killed addr i s ch bs r s' :
  pipe_inv (p_pipe s) -> used (p_pipe s) < PIPESIZE -> is_byte ch ->
  um_read (p_user s) pt (u64 (addr + i)) = Some ch ->
  write_post k pt killed addr (i + 1) (Pst (pipe_put ch (p_pipe s)) (p_user s) (p_woken s)) bs r s' ->
  write_post (S k) pt killed addr i s (ch :: bs) r s'.
Proof.
  intros Hp Hu Hch Hrd (I & Us & [E1 E2] & C & L & R & Hr). destruct (content_put ch _ Hp Hu Hch) as [_ Hc].
  cbn [p_pipe p_user p_woken] in *. unfold write_post. cbn [length].
  split_and!; [done | done | done | by rewrite C, Hc, <- (assoc_L (++)) | lia | |].
  - intros [|j] b Hb; [injection Hb as <-; by rewrite Z.add_0_r |].
    rewrite <- (R j b Hb). do 2 f_equal. lia.
  - destruct r as [r|j]; [destruct Hr as [(-> & W & Hr)|Hr] |].
    + left. split_and!; [lia | done |]. destruct Hr as [Hr|Hr]; [left; lia | by right].
    + by right.
    + destruct Hr as (-> & Hr). split_and!; (lia || naive_solver lia).
Qed.

Lemma wp_pipewrite_loop k pt killed addr i s :
  pipe_inv (p_pipe s) -> ok (p_user s) -> space pt ->
  wp (pipewrite_loop k pt killed addr i) (fun r s' => exists bs, write_post k pt killed addr i s bs r s') s.
Proof.
  revert i s. induction k as [|k IH]; intros i s Hp Hok Hpt; cbn [pipewrite_loop].
  { apply wp_bind, wp_modify, wp_ret. exists []. unfold write_post. cbn [p_pipe p_user p_woken length].
    rewrite app_nil_r. split_and!; try done. left. split_and!; [lia | done | by left]. }
  apply wp_bind, wp_gets. rewrite used_full by done. destruct (Z.eqb_spec (used (p_pipe s)) PIPESIZE) as [E|E].
  { destruct (negb (readopen (p_pipe s)) || killed) eqn:Ek.
    - apply wp_ret. exists []. unfold write_post. cbn [length]. rewrite app_nil_r.
      split_and!; try done; [lia |]. right. split_and!; try done.
      apply orb_true_iff in Ek as [?%negb_true_iff|?]; auto.
    - apply orb_false_iff in Ek as [Er%negb_false_iff Ek]. apply wp_bind, wp_modify, wp_ret. exists [].
      unfold write_post. cbn [p_pipe p_user p_woken length]. rewrite app_nil_r. split_and!; try done; lia. }
  assert (used (p_pipe s) < PIPESIZE) as Hlt by (pose proof (pv_used _ Hp); lia).
  apply wp_bind, wp_zoom.
  destruct (um_copyin_ok (p_user s) pt (u64 (addr + i)) 1 Hok Hpt) as (r & ch & Hc & Hrd & Hr);
    [apply u64_range | lia |].
  apply wp_ok. exists (r, ch), (p_user s). split; [exact Hc |]. destruct s as [p u w]. cbn [p_pipe p_user p_woken] in *.
  destruct Hr as [(-> & Hl)|(-> & Hl & Hn)].
  - destruct ch as [|b [|? ?]]; [done | | cbn in Hl; lia]. cbn [Z.eqb default head].
    pose proof (Hrd 0%nat b eq_refl) as Hb. rewrite Z.add_0_r in Hb.
    pose proof (um_read_byte _ _ _ _ Hb) as Hby. destruct (content_put b p Hp Hlt Hby) as [Hp' _].
    apply wp_bind, wp_modify. eapply wp_mono; [apply IH; done |].
    intros r s' (bs & Hpost). exists (b :: bs). by eapply write_post_cons.
  - destruct ch as [|? ?]; [| cbn in Hl; lia]. cbn [Z.eqb]. apply wp_bind, wp_modify, wp_ret. exists [].
    unfold write_post. cbn [p_pipe p_user p_woken length] in *. rewrite app_nil_r, Z.add_0_r in *.
    split_and!; try done; [lia |]. left. split_and!; [lia | done | by right].
Qed.

(** The first [d] bytes of [bs] are in user memory at [va]. *)
Definition delivered (u : U) (pt va : Z) (bs : list Z) (d : nat) (u' : U) : Prop :=
  forall x, 0 <= x -> um_read u' pt x =
    if decide (va <= x < va + Z.of_nat d) then bs !! Z.to_nat (x - va) else um_read u pt x.

(** A run of [piperead]'s copy loop with [k] bytes to go took [bs] out of the
    pipe and delivered [d] of them: all, or all but the last one. *)
Definition read_post (k : nat) (pt addr i : Z) (s : pst) (bs : list Z) (d : nat) (r : prun) (s' : pst) : Prop :=
  pipe_inv (p_pipe s') /\ ok (p_user s') /\ same_ends (p_pipe s) (p_pipe s') /\
  content (p_pipe s) = bs ++ content (p_pipe s') /\ (length bs <= k)%nat /\
  p_woken s' = ChPipeWrite pi :: p_woken s /\ r = PRet (i + Z.of_nat d) /\
  delivered (p_user s) pt (addr + i) bs d (p_user s') /\
  (d = length bs /\ (d = k \/ content (p_pipe s') = []) \/
   S d = length bs /\ um_read (p_user s) pt (addr + i + Z.of_nat d) = None).

Lemma delivered_nil u pt va bs : delivered u pt va bs 0 u.
Proof. intros x _. by rewrite decide_False by lia. Qed.

Lemma delivered_cons u u1 u' pt va b bs d :
  0 <= va ->
  (forall x, 0 <= x -> um_read u1 pt x = if decide (va <= x < va + 1) then [b] !! Z.to_nat (x - va) else um_read u pt x) ->
  delivered u1 pt (va + 1) bs d u' -> delivered u pt va (b :: bs) (S d) u'.
Proof.
  intros Hva H1 H2 x Hx. rewrite H2, H1 by done. repeat case_decide; try lia.
  - replace (Z.to_nat (x - va)) with (S (Z.to_nat (x - (va + 1)))) by lia. done.
  - replace (x - va) with 0 by lia. done.
  - done.
Qed.

Lemma wp_piperead_loop k pt addr i s :
  pipe_inv (p_pipe s) -> ok (p_user s) -> space pt -> 0 <= addr -> 0 <= i ->
  addr + i + Z.of_nat k <= 2 ^ 64 ->
  wp (piperead_loop k pt addr i) (fun r s' => exists bs d, read_post k pt addr i s bs d r s') s.
Proof.
  revert i s. induction k as [|k IH]; intros i s Hp Hok Hpt Ha Hi Hmax; cbn [piperead_loop].
  { apply wp_bind, wp_modify, wp_ret. exists [], O. unfold read_post. cbn [p_pipe p_user p_woken length].
    split_and!; try done; [f_equal; lia | apply delivered_nil | left; split; [done | by left]]. }
  apply wp_bind, wp_gets. destruct (Z.eqb_spec (nread (p_pipe s)) (nwrite (p_pipe s))) as [E|E].
  { apply (content_nil _ Hp) in E. apply wp_bind, wp_modify, wp_ret. exists [], O.
    unfold read_post. cbn [p_pipe p_user p_woken length].
    split_and!; try done; [lia | f_equal; lia | apply delivered_nil | left; split; [done | by right]]. }
  destruct (content_take _ Hp E) as (Hp' & Hc & Hby). destruct s as [p u w]. cbn [p_pipe p_user p_woken] in *.
  apply wp_bind, wp_modify, wp_bind, wp_zoom. cbn [p_pipe p_user p_woken]. rewrite u64_small by lia.
  destruct (um_copyout_ok u pt (addr + i) [pipe_get p] 1 Hok Hpt) as (r & u' & n & Hco & Hok' & Hw & _ & _ & Hr);
    [lia | cbn; lia | by constructor |].
  apply wp_ok. exists r, u'. split; [exact Hco |].
  destruct Hr as [(-> & ->)|(-> & Hn & Hnone)]; cbn [Z.eqb].
  - eapply wp_mono; [apply (IH (i + 1)); cbn [p_pipe p_user]; try done; lia |].
    intros r s' (bs & d & I & O & [E1 E2] & C & L & W & -> & D & Hd). cbn [p_pipe p_user p_woken] in *.
    exists (pipe_get p :: bs), (S d). unfold read_post. cbn [p_pipe p_user p_woken length].
    split_and!; try done; [by rewrite Hc, C | lia | f_equal; lia | |].
    + eapply delivered_cons; [lia | done |]. by rewrite <- Z.add_assoc.
    + destruct Hd as [(-> & Hd)|(Hd & Hu)]; [left; split; [done |]; naive_solver lia | right].
      split; [lia |]. rewrite Hw in Hu by lia. rewrite decide_False in Hu by lia. rewrite <- Hu. f_equal. lia.
  - assert (n = 0) as -> by lia. rewrite Z.add_0_r in *.
    apply wp_bind, wp_modify, wp_ret. exists [pipe_get p], O. unfold read_post. cbn [p_pipe p_user p_woken length].
    split_and!; try done; [lia | f_equal; lia | | right].
    + intros x Hx. rewrite Hw by done. by rewrite !decide_False by lia.
    + split; [done |]. by rewrite Z.add_0_r.
Qed.

(** A whole run of [piperead]. *)
Lemma wp_piperead pt killed addr n s :
  pipe_inv (p_pipe s) -> ok (p_user s) -> space pt -> 0 <= addr -> addr + Z.max 0 n <= 2 ^ 64 ->
  wp (piperead pt killed addr n) (fun r s' =>
    (content (p_pipe s) = [] /\ writeopen (p_pipe s) = true /\ s' = s /\
       r = (if killed then PRet (-1) else PSleep 0)) \/
    ((content (p_pipe s) <> [] \/ writeopen (p_pipe s) = false) /\
       exists bs d, read_post (Z.to_nat n) pt addr 0 s bs d r s')) s.
Proof.
  intros Hp Hok Hpt Ha Hmax. apply wp_bind, wp_gets.
  destruct (Z.eqb_spec (nread (p_pipe s)) (nwrite (p_pipe s))) as [E|E].
  - apply (content_nil _ Hp) in E. destruct (writeopen (p_pipe s)) eqn:Ew; cbn [andb].
    + destruct killed; apply wp_ret; by left.
    + eapply wp_mono; [apply wp_piperead_loop; (done || lia) |]. intros r s' Hr. right. split; [by right | done].
  - eapply wp_mono; [apply wp_piperead_loop; (done || lia) |]. intros r s' Hr. right.
    split; [left | done]. intros E'. apply E. by apply (content_nil _ Hp).
Qed.

(** ** Readers and writers *)

(** A pipe with the processes asleep on its two channels, and two ghost
    lists: everything ever put into the pipe, and everything taken out. *)
Record psys := Psys {
  y_pipe : pipe; y_user : U; y_rs : gset nat; y_ws : gset nat; y_in : list Z; y_out : list Z;
}.

(** The sleepers on channel [c] after [woken]; process [me] went to sleep there or not. *)
Definition sleepers (c : chan) (woken : list chan) (me : option nat) (s : gset nat) : gset nat :=
  (if decide (c ∈ woken) then ∅ else s) ∪ (match me with Some p => {[p]} | None => ∅ end).

Definition asleep (r : prun) (me : nat) : option nat :=
  match r with PSleep _ => Some me | PRet _ => None end.

(** One run of a process that holds the matching end open.  An end is closed
    when its last reference goes, so no process is asleep on it. *)
Inductive pstep : psys -> psys -> Prop :=
  | YRead me pt killed addr n y r s' :
      me ∉ y_rs y -> readopen (y_pipe y) = true -> space pt -> 0 <= addr -> addr + Z.max 0 n <= 2 ^ 64 ->
      piperead pt killed addr n (Pst (y_pipe y) (y_user y) []) = Ok r s' ->
      pstep y (Psys (p_pipe s') (p_user s')
        (sleepers (ChPipeRead pi) (p_woken s') (asleep r me) (y_rs y))
        (sleepers (ChPipeWrite pi) (p_woken s') None (y_ws y))
        (y_in y) (y_out y ++ take (length (content (y_pipe y)) - length (content (p_pipe s'))) (content (y_pipe y))))
  | YWrite me pt addr n i y r s' :
      me ∉ y_ws y -> writeopen (y_pipe y) = true -> space pt ->
      pipewrite pt false addr n i (Pst (y_pipe y) (y_user y) []) = Ok r s' ->
      pstep y (Psys (p_pipe s') (p_user s')
        (sleepers (ChPipeRead pi) (p_woken s') None (y_rs y))
        (sleepers (ChPipeWrite pi) (p_woken s') (asleep r me) (y_ws y))
        (y_in y ++ drop (length (content (y_pipe y))) (content (p_pipe s'))) (y_out y))
  | YClose (writable : bool) y b s' :
      (if writable then y_ws y else y_rs y) = ∅ ->
      pipeclose writable (Pst (y_pipe y) (y_user y) []) = Ok b s' ->
      pstep y (Psys (p_pipe s') (p_user s')
        (sleepers (ChPipeRead pi) (p_woken s') None (y_rs y))
        (sleepers (ChPipeWrite pi) (p_woken s') None (y_ws y)) (y_in y) (y_out y)).

Record psys_inv (y : psys) : Prop := PsysInv {
  yi_pipe : pipe_inv (y_pipe y);
  yi_user : ok (y_user y);
  yi_fifo : y_in y = y_out y ++ content (y_pipe y);
  yi_rs : y_rs y <> ∅ -> content (y_pipe y) = [] /\ writeopen (y_pipe y) = true /\ readopen (y_pipe y) = true;
  yi_ws : y_ws y <> ∅ -> used (y_pipe y) = PIPESIZE /\ readopen (y_pipe y) = true;
}.

Lemma sleepers_woken c w me s : c ∈ w -> sleepers c w me s = match me with Some p => {[p]} | None => ∅ end.
Proof. intros Hc. unfold sleepers. rewrite decide_True by done. set_solver +. Qed.

Lemma sleepers_none c w s : c ∉ w -> sleepers c w None s = s.
Proof. intros Hc. unfold sleepers. rewrite decide_False by done. set_solver +. Qed.

Lemma psys_read y me pt killed addr n r s' :
  psys_inv y -> readopen (y_pipe y) = true -> space pt -> 0 <= addr -> addr + Z.max 0 n <= 2 ^ 64 ->
  piperead pt killed addr n (Pst (y_pipe y) (y_user y) []) = Ok r s' ->
  psys_inv (Psys (p_pipe s') (p_user s')
        (sleepers (ChPipeRead pi) (p_woken s') (asleep r me) (y_rs y))
        (sleepers (ChPipeWrite pi) (p_woken s') None (y_ws y))
        (y_in y) (y_out y ++ take (length (content (y_pipe y)) - length (content (p_pipe s'))) (content (y_pipe y)))).
Proof.
  intros [Ip Iu If Ir Iw] Hop Hpt Ha Hmax Hrun.
  pose proof (wp_det _ _ _ _ _ Hrun (wp_piperead pt killed addr n (Pst (y_pipe y) (y_user y) []) Ip Iu Hpt Ha Hmax)) as Hpost.
  cbn [p_pipe p_user p_woken] in Hpost.
  destruct Hpost as [(Hc & Hwo & -> & ->)|(Hne & bs & d & I & O & [E1 E2] & C & L & W & -> & D & Hd)];
    cbn [p_pipe p_user p_woken] in *.
  - split; cbn [y_pipe y_user y_rs y_ws y_in y_out]; [done | done | | done |].
    + by rewrite If, Hc, take_nil, !app_nil_r.
    + rewrite sleepers_none by apply not_elem_of_nil. done.
  - split; cbn [y_pipe y_user y_rs y_ws y_in y_out asleep]; [done | done | | |].
    + rewrite If, C, length_app. replace (length bs + length (content (p_pipe s')) - length (content (p_pipe s')))%nat
        with (length bs) by lia. by rewrite take_app_length, <- (assoc_L (++)).
    + rewrite W, sleepers_none by (by intros [? | ?%not_elem_of_nil]%elem_of_cons).
      intros Hrs. destruct (Ir Hrs) as (Hc & Hwo & _). rewrite Hc in C. symmetry in C. apply app_nil in C as [_ C].
      by rewrite E1, E2.
    + rewrite W, sleepers_woken by (by left). done.
Qed.

Lemma psys_write y me pt addr n i r s' :
  psys_inv y -> writeopen (y_pipe y) = true -> space pt ->
  pipewrite pt false addr n i (Pst (y_pipe y) (y_user y) []) = Ok r s' ->
  psys_inv (Psys (p_pipe s') (p_user s')
        (sleepers (ChPipeRead pi) (p_woken s') None (y_rs y))
        (sleepers (ChPipeWrite pi) (p_woken s') (asleep r me) (y_ws y))
        (y_in y ++ drop (length (content (y_pipe y))) (content (p_pipe s'))) (y_out y)).
Proof.
  intros [Ip Iu If Ir Iw] Hop Hpt Hrun.
  pose proof (wp_det _ _ _ _ _ Hrun (wp_pipewrite_loop (Z.to_nat (n - i)) pt false addr i (Pst (y_pipe y) (y_user y) []) Ip Iu Hpt)) as
    (bs & I & Us & [E1 E2] & C & L & R & Hr).
  cbn [p_pipe p_user p_woken] in *.
  split; cbn [y_pipe y_user y_rs y_ws y_in y_out]; [done | by rewrite Us | | |].
  - rewrite C, drop_app_length. by rewrite If, (assoc_L (++)).
  - destruct r as [r|j]; [destruct Hr as [(_ & W & _)|(_ & Hf & [Hro|?] & W)] |]; [| | done |].
    + rewrite W, sleepers_woken by (by left). done.
    + rewrite W, sleepers_none by apply not_elem_of_nil. intros Hrs. destruct (Ir Hrs) as (_ & _ & Hro'). congruence.
    + destruct Hr as (_ & _ & _ & _ & _ & W). rewrite W, sleepers_woken by (by left). done.
  - assert (y_ws y <> ∅ -> bs = []) as Hnil.
    { intros [Hf _]%Iw. pose proof (length_content (p_pipe s')) as Hl. rewrite C, length_app in Hl.
      pose proof (length_content (y_pipe y)). pose proof (pv_used _ I). apply length_zero_iff_nil. lia. }
    assert (y_ws y <> ∅ -> used (p_pipe s') = PIPESIZE /\ readopen (p_pipe s') = true) as Hkeep.
    { intros Hws. pose proof (Hnil Hws) as ->. rewrite app_nil_r in C. destruct (Iw Hws) as [Hf Hro].
      rewrite E1. split; [| done]. rewrite <- length_content, C, length_content. done. }
    destruct r as [r|j]; cbn [asleep].
    + assert (ChPipeWrite pi ∉ p_woken s') as Hn.
      { destruct Hr as [(_ & -> & _)|(_ & _ & _ & ->)]; [by intros [? | ?%not_elem_of_nil]%elem_of_cons | apply not_elem_of_nil]. }
      by rewrite sleepers_none.
    + destruct Hr as (_ & _ & Hf & Hro & _ & _). intros _. by rewrite E1.
Qed.

Lemma psys_close y (writable : bool) b s' :
  psys_inv y -> (if writable then y_ws y else y_rs y) = ∅ ->
  pipeclose writable (Pst (y_pipe y) (y_user y) []) = Ok b s' ->
  psys_inv (Psys (p_pipe s') (p_user s')
        (sleepers (ChPipeRead pi) (p_woken s') None (y_rs y))
        (sleepers (ChPipeWrite pi) (p_woken s') None (y_ws y)) (y_in y) (y_out y)).
Proof.
  intros [[P1 P2 P3 P4 P5] Iu If Ir Iw] Hno Hrun. destruct writable; injection Hrun as _ <-;
    cbn [p_pipe p_user p_woken]; (split; cbn [y_pipe y_user y_rs y_ws y_in y_out]; [by split | done | done | |]).
  - rewrite sleepers_woken by (by left). done.
  - rewrite sleepers_none by (by intros [? | ?%not_elem_of_nil]%elem_of_cons). by rewrite Hno.
  - rewrite sleepers_none by (by intros [? | ?%not_elem_of_nil]%elem_of_cons). by rewrite Hno.
  - rewrite sleepers_woken by (by left). done.
Qed.

Lemma psys_step y y' : psys_inv y -> pstep y y' -> psys_inv y'.
Proof.
  intros Hy Hs. destruct Hs; [by eapply psys_read | by eapply psys_write | by eapply psys_close].
Qed.

End pipe.

(** ** Properties *)

Definition psys_init {U} (data : list Z) (u : U) : psys := Psys (pipe_init data) u ∅ ∅ [] [].

Lemma psys_inv_init {U} `{UserMemLaws U ok space} data u :
  length data = 512%nat -> Forall is_byte data -> ok u -> psys_inv (ok := ok) (psys_init data u).
Proof. intros Hl Hb Hu. by split; cbn. Qed.


(** one run of [pipewrite] appends to the pipe a prefix of the caller's
    buffer.  It ends asleep with the pipe full (having woken the readers), or
    returns the number of bytes written, stopping early only at an unreadable
    user address, or returns -1 on a full pipe when the read end is closed or
    the caller was killed. *)
Theorem pipewrite_correct {U} `{UserMemLaws U ok space} (pi pt : Z) (killed : bool) (addr n i : Z) (s : pst) :
  pipe_inv (p_pipe s) -> ok (p_user s) -> space pt ->
  wp (pipewrite pi pt killed addr n i) (fun r s' => exists bs,
    write_post pi (Z.to_nat (n - i)) pt killed addr i s bs r s') s.
Proof. apply wp_pipewrite_loop. Qed.

(** [piperead] sleeps (or returns -1 if killed) on an empty pipe that has
    a writer; otherwise it takes up to [n] bytes from the front and stores them
    in order at the user address, returning how many were stored; every taken
    byte is stored, except possibly a last one whose address is not writable. *)
Theorem piperead_correct {U} `{UserMemLaws U ok space} (pi pt : Z) (killed : bool) (addr n : Z) (s : pst) :
  pipe_inv (p_pipe s) -> ok (p_user s) -> space pt -> 0 <= addr -> addr + Z.max 0 n <= 2 ^ 64 ->
  wp (piperead pi pt killed addr n) (fun r s' =>
    (content (p_pipe s) = [] /\ writeopen (p_pipe s) = true /\ s' = s /\
       r = (if killed then PRet (-1) else PSleep 0)) \/
    ((content (p_pipe s) <> [] \/ writeopen (p_pipe s) = false) /\
       exists bs d, read_post pi (ok := ok) (Z.to_nat n) pt addr 0 s bs d r s')) s.
Proof. apply wp_piperead. Qed.

(** A process with one page, next to an empty pipe. *)
Definition demo_data : list Z := replicate 512 5.

Lemma demo_data_ok : length demo_data = 512%nat /\ Forall is_byte demo_data.
Proof. split; [done | by apply (bool_decide_unpack _)]. Qed.

Definition demo_pst : pst := Pst (pipe_init demo_data) demo2 [].

Lemma demo_pst_inv : pipe_inv (p_pipe demo_pst).
Proof. split; [done | apply demo_data_ok | by vm_compute | by vm_compute | by vm_compute]. Qed.

Lemma pipewrite_witness :
  wp (pipewrite 1 (page_at 0) false 100 3 0) (fun r s' => exists bs,
    write_post 1 3 (page_at 0) false 100 0 demo_pst bs r s') demo_pst.
Proof.
  apply (pipewrite_correct (ok := spaces_ok KERNBASE demo_spaces) 1 (page_at 0) false 100 3 0 demo_pst);
    [apply demo_pst_inv | apply demo_spaces_ok | by left].
Defined.

Lemma piperead_witness :
  wp (piperead 1 (page_at 0) false 100 3) (fun r s' =>
    (content (p_pipe demo_pst) = [] /\ writeopen (p_pipe demo_pst) = true /\ s' = demo_pst /\ r = PSleep 0) \/
    ((content (p_pipe demo_pst) <> [] \/ writeopen (p_pipe demo_pst) = false) /\
       exists bs d, read_post 1 (ok := spaces_ok KERNBASE demo_spaces) 3 (page_at 0) 100 0 demo_pst bs d r s')) demo_pst.
Proof.
  apply (piperead_correct (ok := spaces_ok KERNBASE demo_spaces) 1 (page_at 0) false 100 3 demo_pst);
    [apply demo_pst_inv | apply demo_spaces_ok | by left | lia | lia].
Defined.

