(* ===== verification/Bio.v ===== *)
(** * kernel/bio.c: the buffer cache

    [NBUF] buffers in an array and, threaded through them, the doubly linked
    list of the source, most recently used first; index [NBUF] is the list
    head [bcache.head].  The disk is a map from block numbers to blocks, and
    [disk_rw] is the contract of [virtio_disk_rw]: it
    moves one block between the disk and a buffer.  [lru] is the
    abstract list; the pointer surgery of [binit] and [brelse] is shown to
    implement list operations, and no block is ever in two buffers. *)

From S2P Require Import Prelude Riscv Sleeplock.

Definition BSIZE : Z := 1024.
#[export] Hint Unfold BSIZE : consts.

Record buf := Buf {
  b_valid : bool;
  b_dev : Z;
  b_blockno : Z;
  b_lock : sleeplock;
  b_refcnt : Z;
  b_prev : nat;
  b_next : nat;
  b_data : list Z;
}.

Definition zero_block : list Z := replicate 1024 0.
Definition buf0 : buf := Buf false 0 0 initsleeplock 0 0 0 zero_block.

(** [bcache.buf] and, at index [NBUF], [bcache.head]; and the disk. *)
Record bst := Bst { bufs : list buf; disk : gmap Z (list Z) }.

Definition HEAD : nat := Z.to_nat NBUF.

Definition getb (s : bst) (i : nat) : buf := default buf0 (bufs s !! i).
Definition setb (i : nat) (f : buf -> buf) : M bst unit :=
  modify (fun s => Bst (alter f i (bufs s)) (disk s)).

Definition with_refcnt (n : Z) (b : buf) : buf :=
  Buf (b_valid b) (b_dev b) (b_blockno b) (b_lock b) n (b_prev b) (b_next b) (b_data b).
Definition with_next (n : nat) (b : buf) : buf :=
  Buf (b_valid b) (b_dev b) (b_blockno b) (b_lock b) (b_refcnt b) (b_prev b) n (b_data b).
Definition with_prev (n : nat) (b : buf) : buf :=
  Buf (b_valid b) (b_dev b) (b_blockno b) (b_lock b) (b_refcnt b) n (b_next b) (b_data b).
Definition with_data (d : list Z) (b : buf) : buf :=
  Buf (b_valid b) (b_dev b) (b_blockno b) (b_lock b) (b_refcnt b) (b_prev b) (b_next b) d.
Definition with_valid (v : bool) (b : buf) : buf :=
  Buf v (b_dev b) (b_blockno b) (b_lock b) (b_refcnt b) (b_prev b) (b_next b) (b_data b).
Definition with_lock (l : sleeplock) (b : buf) : buf :=
  Buf (b_valid b) (b_dev b) (b_blockno b) l (b_refcnt b) (b_prev b) (b_next b) (b_data b).

(** The sleep lock of buffer [i]; its address is named by [i]. *)
Definition in_lock {A} (i : nat) (m : M sleeplock A) : M bst A :=
  zoom (fun s => b_lock (getb s i))
       (fun lk s => Bst (alter (with_lock lk) i (bufs s)) (disk s)) m.

(** One iteration of the loop of [binit]. *)
Definition binit_one (b : nat) : M bst unit :=
  let! h := gets (fun s => getb s HEAD) in
  setb b (with_next (b_next h)) ;;;
  setb b (with_prev HEAD) ;;;
  setb b (with_lock initsleeplock) ;;;
  let! h := gets (fun s => getb s HEAD) in
  setb (b_next h) (with_prev b) ;;;
  setb HEAD (with_next b).

Fixpoint binit_loop (n : nat) (b : nat) : M bst unit :=
  match n with
  | O => ret tt
  | S n' => binit_one b ;;; binit_loop n' (S b)
  end.

Definition binit : M bst unit :=
  setb HEAD (with_prev HEAD) ;;;
  setb HEAD (with_next HEAD) ;;;
  binit_loop (Z.to_nat NBUF) 0.

(** The two list traversals of [bget]; the list has [NBUF] elements. *)
Fixpoint bget_find (fuel : nat) (dev blockno : Z) (b : nat) : M bst (option nat) :=
  if decide (b = HEAD) then ret None
  else
    match fuel with
    | O => out_of_fuel
    | S fuel' =>
        let! x := gets (fun s => getb s b) in
        if (b_dev x =? dev) && (b_blockno x =? blockno) then ret (Some b)
        else bget_find fuel' dev blockno (b_next x)
    end.

Fixpoint bget_free (fuel : nat) (b : nat) : M bst (option nat) :=
  if decide (b = HEAD) then ret None
  else
    match fuel with
    | O => out_of_fuel
    | S fuel' =>
        let! x := gets (fun s => getb s b) in
        if b_refcnt x =? 0 then ret (Some b) else bget_free fuel' (b_prev x)
    end.

(** [pid] is the caller's. *)
Definition bget (pid dev blockno : Z) : M bst nat :=
  let! h := gets (fun s => getb s HEAD) in
  let! r := bget_find (Z.to_nat NBUF) dev blockno (b_next h) in
  match r with
  | Some b =>
      setb b (fun x => with_refcnt (u32 (b_refcnt x + 1)) x) ;;;
      in_lock b (acquiresleep (Z.of_nat b) pid) ;;;
      ret b
  | None =>
      let! h := gets (fun s => getb s HEAD) in
      let! r := bget_free (Z.to_nat NBUF) (b_prev h) in
      match r with
      | Some b =>
          setb b (fun x => Buf false dev blockno (b_lock x) 1 (b_prev x) (b_next x) (b_data x)) ;;;
          in_lock b (acquiresleep (Z.of_nat b) pid) ;;;
          ret b
      | None => panic "bget: no buffers"
      end
  end.

Definition disk_rw (b : nat) (write : bool) : M bst unit :=
  modify (fun s =>
    let x := getb s b in
    if write then Bst (bufs s) (<[b_blockno x := b_data x]> (disk s))
    else Bst (alter (with_data (default zero_block (disk s !! b_blockno x))) b (bufs s)) (disk s)).

Definition bread (pid dev blockno : Z) : M bst nat :=
  let! b := bget pid dev blockno in
  let! x := gets (fun s => getb s b) in
  (if negb (b_valid x) then
     disk_rw b false ;;;
     setb b (with_valid true)
   else ret tt) ;;;
  ret b.

Definition bwrite (pid : Z) (b : nat) : M bst unit :=
  let! h := in_lock b (holdingsleep pid) in
  if negb h then panic "bwrite" else disk_rw b true.

(** The list manipulation at the end of [brelse]. *)
Definition move_front (b : nat) : M bst unit :=
  let! x := gets (fun s => getb s b) in
  setb (b_next x) (with_prev (b_prev x)) ;;;
  let! x := gets (fun s => getb s b) in
  setb (b_prev x) (with_next (b_next x)) ;;;
  let! h := gets (fun s => getb s HEAD) in
  setb b (with_next (b_next h)) ;;;
  setb b (with_prev HEAD) ;;;
  let! h := gets (fun s => getb s HEAD) in
  setb (b_next h) (with_prev b) ;;;
  setb HEAD (with_next b).

Definition brelse (pid : Z) (b : nat) : M bst unit :=
  let! h := in_lock b (holdingsleep pid) in
  if negb h then panic "brelse"
  else
    in_lock b (releasesleep (Z.of_nat b)) ;;;
    setb b (fun x => with_refcnt (u32 (b_refcnt x - 1)) x) ;;;
    let! x := gets (fun s => getb s b) in
    if b_refcnt x =? 0 then move_front b else ret tt.

Definition bpin (b : nat) : M bst unit := setb b (fun x => with_refcnt (u32 (b_refcnt x + 1)) x).
Definition bunpin (b : nat) : M bst unit := setb b (fun x => with_refcnt (u32 (b_refcnt x - 1)) x).

(** ** The list *)

Section dll.
Implicit Types s : bst.

Definition nxt s i := b_next (getb s i).
Definition prv s i := b_prev (getb s i).

(** Following [next] from [x] visits [l] and then [y]; [prev] leads back. *)
Fixpoint linked s (x : nat) (l : list nat) (y : nat) : Prop :=
  match l with
  | [] => nxt s x = y /\ prv s y = x
  | z :: l' => nxt s x = z /\ prv s z = x /\ linked s z l' y
  end.

Lemma linked_app s x l1 z l2 y :
  linked s x (l1 ++ z :: l2) y <-> linked s x l1 z /\ linked s z l2 y.
Proof.
  revert x. induction l1 as [|w l1 IH]; intros x; cbn [linked app]; [tauto |]. rewrite IH. tauto.
Qed.

Lemma linked_frame s s' x l y :
  (forall i, i ∈ x :: l -> nxt s' i = nxt s i) -> (forall i, i ∈ l ++ [y] -> prv s' i = prv s i) ->
  linked s x l y -> linked s' x l y.
Proof.
  revert x. induction l as [|z l IH]; intros x Hn Hp; cbn [linked].
  - rewrite Hn, Hp by (by left). done.
  - intros (H1 & H2 & H3). rewrite Hn by (by left). rewrite Hp by (by left). split_and!; [done.. |].
    apply IH; [| | done]; intros i Hi; [apply Hn | apply Hp]; by right.
Qed.

(** The last element of [x :: l]. *)
Lemma linked_last s x l y : linked s x l y -> prv s y = default x (last l).
Proof.
  revert x. induction l as [|z l IH]; intros x; cbn [linked]; [by intros [_ ?] |].
  intros (_ & _ & H). rewrite (IH z H). rewrite last_cons. by destruct (last l).
Qed.

Lemma linked_first s x l y : linked s x l y -> nxt s x = default y (head l).
Proof. destruct l; cbn; naive_solver. Qed.

(** The cache: [NBUF] buffers and the head; [l] is the LRU list. *)
Record lru_inv s (l : list nat) : Prop := LruInv {
  lr_len : length (bufs s) = S HEAD;
  lr_perm : l ≡ₚ seq 0 HEAD;
  lr_link : linked s HEAD l HEAD;
}.

Lemma lru_nodup s l : lru_inv s l -> NoDup l /\ (HEAD ∉ l) /\ (forall i, i ∈ l <-> (i < HEAD)%nat).
Proof.
  intros [_ Hp _]. split_and!.
  - rewrite Hp. apply NoDup_seq.
  - rewrite Hp, elem_of_seq. lia.
  - intros i. rewrite Hp, elem_of_seq. lia.
Qed.

Lemma getb_setb s s' i j f :
  setb i f s = Ok tt s' -> (i < length (bufs s))%nat ->
  getb s' j = if decide (j = i) then f (getb s j) else getb s j.
Proof.
  intros [= <-] Hi. unfold getb. cbn [bufs]. case_decide as E.
  - subst. rewrite list_lookup_alter_eq. destruct (lookup_lt_is_Some_2 _ _ Hi) as [b ->]. done.
  - by rewrite list_lookup_alter_ne.
Qed.

Lemma length_setb s s' i f : setb i f s = Ok tt s' -> length (bufs s') = length (bufs s).
Proof. intros [= <-]. cbn. apply length_alter. Qed.

(** The same buffers, but for the list pointers. *)
Definition same_core s s' : Prop :=
  disk s' = disk s /\ length (bufs s') = length (bufs s) /\
  forall i, exists p n, getb s' i = with_prev p (with_next n (getb s i)).

(** Re-attaching the rest of a list behind [p]. *)
Lemma linked_attach s s' b p l y :
  linked s b l y -> nxt s' p = nxt s b -> prv s' (nxt s b) = p ->
  (forall i, i ∈ l -> nxt s' i = nxt s i) ->
  (forall i, i ∈ tail (l ++ [y]) -> prv s' i = prv s i) ->
  linked s' p l y.
Proof.
  destruct l as [|z l]; cbn [linked app tail].
  - intros [-> _] -> -> _ _. done.
  - intros (-> & _ & H) -> -> Hn Hp. split_and!; [done.. |]. by apply (linked_frame s).
Qed.

Lemma wp_setb i f (Q : unit -> bst -> Prop) s :
  (i < length (bufs s))%nat ->
  (forall s', disk s' = disk s -> length (bufs s') = length (bufs s) ->
     (forall j, getb s' j = if decide (j = i) then f (getb s j) else getb s j) -> Q tt s') ->
  wp (setb i f) Q s.
Proof.
  intros Hi HQ. apply wp_ok. eexists tt, _. split; [reflexivity |]. apply HQ; [done | apply length_alter |].
  intros j. by eapply (getb_setb s).
Qed.

(** The pointers after [move_front b]. *)
Lemma move_front_ptrs s b :
  length (bufs s) = S HEAD -> (b < HEAD)%nat -> (nxt s b <= HEAD)%nat -> (prv s b <= HEAD)%nat ->
  nxt s b <> b -> prv s b <> b ->
  let n := nxt s b in let p := prv s b in
  let f := if decide (p = HEAD) then n else nxt s HEAD in
  (f <= HEAD)%nat -> f <> b ->
  wp (move_front b) (fun _ s' => same_core s s' /\
    (forall i, nxt s' i = if decide (i = HEAD) then b else if decide (i = b) then f
                          else if decide (i = p) then n else nxt s i) /\
    (forall i, prv s' i = if decide (i = f) then b else if decide (i = b) then HEAD
                          else if decide (i = n) then p else prv s i)) s.
Proof.
  intros Hlen Hb Hn Hp Hnb Hpb n p f Hf Hfb.
  unfold move_front. apply wp_bind, wp_gets. fold (nxt s b) (prv s b). fold n p.
  apply wp_bind, wp_setb; [lia |]. intros s1 D1 L1 G1.
  apply wp_bind, wp_gets. assert (getb s1 b = getb s b) as E1 by (by rewrite G1, decide_False).
  rewrite E1. fold (nxt s b) (prv s b). fold n p.
  apply wp_bind, wp_setb; [lia |]. intros s2 D2 L2 G2.
  assert (nxt s2 HEAD = f) as E2.
  { unfold nxt, f. rewrite G2. destruct (decide (HEAD = p)) as [<-|Hne].
    - by rewrite decide_True.
    - rewrite decide_False by done. rewrite G1. by case_decide. }
  apply wp_bind, wp_gets. fold (nxt s2 HEAD). rewrite E2.
  apply wp_bind, wp_setb; [lia |]. intros s3 D3 L3 G3.
  apply wp_bind, wp_setb; [lia |]. intros s4 D4 L4 G4.
  assert (nxt s4 HEAD = f) as E4.
  { unfold nxt. rewrite G4, decide_False, G3, decide_False by lia. exact E2. }
  apply wp_bind, wp_gets. fold (nxt s4 HEAD). rewrite E4. clearbody f. clearbody n p.
  apply wp_bind, wp_setb; [lia |]. intros s5 D5 L5 G5.
  apply wp_setb; [lia |]. intros s6 D6 L6 G6. split_and!; [split_and!; [congruence | congruence |] | |].
  - intros i. exists (prv s6 i), (nxt s6 i). unfold prv, nxt. rewrite G6, G5, G4, G3, G2, G1.
    repeat case_decide; cbn; by destruct (getb s i).
  - intros i. unfold nxt at 1. rewrite G6, G5, G4, G3, G2, G1.
    repeat case_decide; subst; cbn; done.
  - intros i. unfold prv at 1. rewrite G6, G5, G4, G3, G2, G1.
    repeat case_decide; subst; cbn; done.
Qed.

(** Solves membership goals from a [NoDup] hypothesis. *)
Ltac nds H :=
  repeat (setoid_rewrite NoDup_app in H || setoid_rewrite NoDup_cons in H).

(** The new pointers link the list with [b] in front. *)
Lemma linked_move s s' l1 b l2 f :
  linked s HEAD (l1 ++ b :: l2) HEAD -> NoDup (HEAD :: l1 ++ b :: l2) ->
  f = default (nxt s b) (head l1) ->
  (forall i, nxt s' i = if decide (i = HEAD) then b else if decide (i = b) then f
                        else if decide (i = prv s b) then nxt s b else nxt s i) ->
  (forall i, prv s' i = if decide (i = f) then b else if decide (i = b) then HEAD
                        else if decide (i = nxt s b) then prv s b else prv s i) ->
  linked s' HEAD (b :: l1 ++ l2) HEAD.
Proof.
  intros [H1 H2]%linked_app Hnd Hf Nx Pv.
  pose proof (linked_last _ _ _ _ H1) as Hp. pose proof (linked_first _ _ _ _ H2) as Hn.
  remember (nxt s b) as n eqn:En. remember (prv s b) as p eqn:Ep.
  assert (n ∈ l2 ++ [HEAD]) as Hnin by (rewrite Hn; destruct l2; by left).
  assert (forall i, i ∈ tail (l2 ++ [HEAD]) -> i <> n) as Hti.
  { intros i Hi ->. rewrite Hn in Hi. destruct l2 as [|z l2]; [by apply not_elem_of_nil in Hi |].
    (nds Hnd; set_solver +Hnd Hi). }
  assert (f <> b) as Hfb by (destruct l1; cbn in Hf; subst f; (nds Hnd; set_solver +Hnd Hnin)).
  cbn [linked]. split_and!; [by rewrite Nx, decide_True | by rewrite Pv, decide_False, decide_True |].
  assert (forall i, i ∈ tail (l2 ++ [HEAD]) -> i ∈ l2 ++ [HEAD]) as Htl by (destruct l2; set_solver).
  destruct l1 as [|g l1]; cbn in Hf, Hp; subst f; cbn [app].
  - apply (linked_attach s s' b b l2 HEAD H2); rewrite <- ?En.
    + rewrite Nx, decide_False, decide_True; [done | done | (nds Hnd; set_solver +Hnd)].
    + by rewrite Pv, decide_True.
    + intros i Hi. rewrite Nx, !decide_False; (nds Hnd; set_solver +Hnd Hi Hp).
    + intros i Hi. pose proof (Hti i Hi). rewrite Pv, !decide_False; [done | done | | done].
      pose proof (Htl i Hi). (nds Hnd; set_solver +Hnd H0).
  - cbn [linked]. split_and!; [by rewrite Nx, decide_False, decide_True by (nds Hnd; set_solver +Hnd )| by rewrite Pv, decide_True |].
    destruct H1 as (_ & _ & H1). cbn [app] in *. assert (p ∈ g :: l1) as Hpin.
    { rewrite Hp, last_cons. destruct (last l1) eqn:E; cbn; [right; by apply last_Some_elem_of | by left]. }
    assert (linked s' p l2 HEAD) as Hr.
    { apply (linked_attach s s' b p l2 HEAD H2); rewrite <- ?En.
      - rewrite Nx, decide_False, decide_False, decide_True; [done | done | (nds Hnd; set_solver +Hnd Hpin )| (nds Hnd; set_solver +Hnd Hpin)].
      - rewrite Pv, decide_False, decide_False, decide_True; [done | done | |]; (nds Hnd; set_solver +Hnd Hnin).
      - intros i Hi. rewrite Nx, !decide_False; (nds Hnd; set_solver +Hnd Hi Hpin).
      - intros i Hi. pose proof (Hti i Hi). apply Htl in Hi.
        rewrite Pv, !decide_False; [done | done | |]; (nds Hnd; set_solver +Hnd Hi). }
    destruct l1 as [|q l1 _] using rev_ind; [cbn in Hp; by rewrite Hp in Hr |].
    apply linked_app in H1 as [H1 [_ Hpp]]. rewrite <- Ep in Hpp. rewrite Hpp in *. clear p Ep Hpp Hp.
    rewrite <- app_assoc. apply linked_app. split; [| done].
    apply (linked_frame s); [| | done].
    + intros i Hi. rewrite Nx, !decide_False; [done | | |]; (nds Hnd; set_solver +Hnd Hi).
    + intros i Hi. rewrite Pv, !decide_False; [done | | |]; (nds Hnd; set_solver +Hnd Hi Hnin).
Qed.

(** [move_front] moves [b] to the front of the list. *)
Lemma wp_move_front s l1 b l2 :
  lru_inv s (l1 ++ b :: l2) ->
  wp (move_front b) (fun _ s' => lru_inv s' (b :: l1 ++ l2) /\ same_core s s') s.
Proof.
  intros Hi. destruct (lru_nodup _ _ Hi) as (Hnd & Hh & Hlt). destruct Hi as [Hlen Hperm Hlink].
  pose proof Hlink as [H1 H2]%linked_app.
  pose proof (linked_last _ _ _ _ H1) as Hp. pose proof (linked_first _ _ _ _ H2) as Hn.
  assert (b < HEAD)%nat as Hb by (apply Hlt; set_solver).
  assert (prv s b ∈ HEAD :: l1) as Hpin.
  { rewrite Hp. destruct (last l1) eqn:E; cbn; [right; by apply last_Some_elem_of | by left]. }
  assert (nxt s b ∈ l2 ++ [HEAD]) as Hnin by (rewrite Hn; destruct l2; by left).
  assert (forall i, i ∈ HEAD :: l1 ++ l2 -> (i <= HEAD)%nat /\ i <> b) as Hin.
  { intros i [->|Hi]%elem_of_cons; [lia |].
    split; [apply Nat.lt_le_incl, Hlt; set_solver +Hi | intros ->; (nds Hnd; set_solver +Hi Hnd)]. }
  assert ((if decide (prv s b = HEAD) then nxt s b else nxt s HEAD) = default (nxt s b) (head l1)) as Hf.
  { destruct l1 as [|g l1]; cbn in *; [by rewrite decide_True |].
    rewrite decide_False; [by destruct H1 as (-> & _) |]. rewrite Hp, last_cons.
    destruct (last l1) as [q|] eqn:E; cbn; [apply last_Some_elem_of in E |]; intros ->; set_solver. }
  assert (default (nxt s b) (head l1) ∈ HEAD :: l1 ++ l2) as Hfin
    by (destruct l1; cbn in *; set_solver +Hnin).
  eapply wp_mono.
  { apply (move_front_ptrs s b); rewrite ?Hf; try done; apply Hin; set_solver +Hpin Hnin Hfin. }
  intros [] s' (Hc & Nx & Pv). rewrite Hf in Nx, Pv. split; [split | done].
  - destruct Hc as (_ & -> & _). done.
  - rewrite <- Hperm. by rewrite Permutation_middle.
  - eapply linked_move; [exact Hlink | apply NoDup_cons; by split | reflexivity | exact Nx | exact Pv].
Qed.

(** [binit] builds the list from any array of [NBUF] + 1 buffers. *)
Lemma wp_binit_one s l b :
  length (bufs s) = S HEAD -> linked s HEAD l HEAD -> NoDup (HEAD :: b :: l) -> (b < HEAD)%nat ->
  (forall i, i ∈ l -> (i < HEAD)%nat) ->
  wp (binit_one b) (fun _ s' => linked s' HEAD (b :: l) HEAD /\ length (bufs s') = S HEAD /\ disk s' = disk s /\
    forall i, exists p n lk, getb s' i = with_lock lk (with_prev p (with_next n (getb s i))) /\
      (lk = initsleeplock \/ lk = b_lock (getb s i))) s.
Proof.
  intros Hlen Hl Hnd Hb Hlt. pose proof (linked_first _ _ _ _ Hl) as Hf.
  assert (nxt s HEAD ∈ l ++ [HEAD]) as Hfin by (rewrite Hf; destruct l; by left).
  assert (nxt s HEAD <= HEAD)%nat.
  { apply elem_of_app in Hfin as [?%Hlt| ->%list_elem_of_singleton]; lia. }
  unfold binit_one. apply wp_bind, wp_gets. fold (nxt s HEAD). remember (nxt s HEAD) as f eqn:Ef.
  apply wp_bind, wp_setb; [lia |]. intros s1 D1 L1 G1.
  apply wp_bind, wp_setb; [lia |]. intros s2 D2 L2 G2.
  apply wp_bind, wp_setb; [lia |]. intros s3 D3 L3 G3.
  assert (nxt s3 HEAD = f) as E3.
  { unfold nxt. rewrite G3, decide_False, G2, decide_False, G1, decide_False by lia. done. }
  apply wp_bind, wp_gets. fold (nxt s3 HEAD). rewrite E3.
  apply wp_bind, wp_setb; [lia |]. intros s4 D4 L4 G4.
  apply wp_setb; [lia |]. intros s5 D5 L5 G5. split_and!; [| congruence | congruence |].
  - assert (forall i, nxt s5 i = if decide (i = HEAD) then b else if decide (i = b) then f else nxt s i) as Nx.
    { intros i. unfold nxt at 1. rewrite G5, G4, G3, G2, G1. repeat case_decide; subst; done. }
    assert (forall i, prv s5 i = if decide (i = f) then b else if decide (i = b) then HEAD else prv s i) as Pv.
    { intros i. unfold prv at 1. rewrite G5, G4, G3, G2, G1. repeat case_decide; subst; done. }
    nds Hnd. cbn [linked]. split_and!; [by rewrite Nx, decide_True | |].
    { rewrite Pv. case_decide; [set_solver +Hnd Hfin H0 | by rewrite decide_True]. }
    apply (linked_attach s s5 HEAD b l HEAD Hl); rewrite <- ?Ef.
    + rewrite Nx, decide_False, decide_True; [done | done | lia].
    + by rewrite Pv, decide_True.
    + intros i Hi. rewrite Nx, !decide_False; set_solver +Hnd Hi.
    + intros i Hi. rewrite Pv, !decide_False; [done | |].
      * destruct l; [by apply not_elem_of_nil in Hi |]. cbn in Hi. set_solver +Hnd Hi.
      * destruct l; [by apply not_elem_of_nil in Hi |]. cbn in Hi, Hf. rewrite Hf. nds Hnd. set_solver +Hnd Hi.
  - intros i. exists (prv s5 i), (nxt s5 i), (b_lock (getb s5 i)). unfold prv, nxt.
    rewrite G5, G4, G3, G2, G1. repeat case_decide; subst; cbn; destruct (getb s _); naive_solver.
Qed.

(** Apart from the list pointers and the lock, nothing changes in [binit]. *)
Definition same_but_lock s s' : Prop :=
  disk s' = disk s /\ forall i, exists p n lk,
    getb s' i = with_lock lk (with_prev p (with_next n (getb s i))) /\
    (lk = initsleeplock \/ lk = b_lock (getb s i)).

Lemma same_but_lock_trans s1 s2 s3 : same_but_lock s1 s2 -> same_but_lock s2 s3 -> same_but_lock s1 s3.
Proof.
  intros [D1 H1] [D2 H2]. split; [congruence |]. intros i.
  destruct (H1 i) as (p1 & n1 & k1 & E1 & K1), (H2 i) as (p2 & n2 & k2 & E2 & K2).
  exists p2, n2, k2. rewrite E2, E1 in *. split; [done |]. cbn in K2. naive_solver.
Qed.

Lemma wp_binit_loop n s b :
  length (bufs s) = S HEAD -> linked s HEAD (reverse (seq 0 b)) HEAD -> (b + n = HEAD)%nat ->
  wp (binit_loop n b) (fun _ s' => linked s' HEAD (reverse (seq 0 HEAD)) HEAD /\
    length (bufs s') = S HEAD /\ same_but_lock s s') s.
Proof.
  revert s b. induction n as [|n IH]; intros s b Hlen Hl Hn; cbn [binit_loop].
  - apply wp_ret. replace HEAD with b at 2 by lia. split_and!; [done.. |]. split; [done |].
    intros i. exists (prv s i), (nxt s i), (b_lock (getb s i)). split; [| by right].
    unfold prv, nxt. by destruct (getb s i).
  - apply wp_bind. assert (forall i, i ∈ reverse (seq 0 b) -> (i < b)%nat) as Hlt.
    { intros i. rewrite elem_of_reverse, elem_of_seq. lia. }
    eapply wp_mono; [apply (wp_binit_one s (reverse (seq 0 b)) b); [done | done | | lia |] |].
    + rewrite !NoDup_cons. split_and!; [| | rewrite reverse_Permutation; apply NoDup_seq].
      * intros [?|?%Hlt]%elem_of_cons; lia.
      * intros ?%Hlt. lia.
    + intros i Hi%Hlt. lia.
    + intros [] s1 (Hl1 & Hlen1 & Hd & Hc).
      eapply wp_mono; [apply (IH s1 (S b)); [done | | lia] |].
      * by rewrite seq_S, reverse_snoc.
      * intros [] s2 (? & ? & ?). split_and!; [done.. |]. by eapply same_but_lock_trans.
Qed.

Lemma wp_binit s :
  length (bufs s) = S HEAD ->
  wp binit (fun _ s' => lru_inv s' (reverse (seq 0 HEAD)) /\ same_but_lock s s') s.
Proof.
  intros Hlen. unfold binit.
  apply wp_bind, wp_setb; [lia |]. intros s1 D1 L1 G1.
  apply wp_bind, wp_setb; [lia |]. intros s2 D2 L2 G2.
  eapply wp_mono; [apply wp_binit_loop; [congruence | | done] |].
  - change (nxt s2 HEAD = HEAD /\ prv s2 HEAD = HEAD). unfold nxt, prv. rewrite G2, decide_True, G1, decide_True by done. done.
  - intros [] s3 (Hl & Hlen3 & Hs). split.
    + split; [done | by rewrite reverse_Permutation | done].
    + eapply same_but_lock_trans; [| done]. split; [congruence |]. intros i.
      exists (prv s2 i), (nxt s2 i), (b_lock (getb s i)). split; [| by right]. unfold prv, nxt.
      rewrite G2, G1. case_decide; by destruct (getb s i).
Qed.

(** The traversals of [bget] are searches of the list. *)
Definition holds s (dev blockno : Z) (i : nat) : bool :=
  (b_dev (getb s i) =? dev) && (b_blockno (getb s i) =? blockno).
Definition unused s (i : nat) : bool := b_refcnt (getb s i) =? 0.

Lemma bget_find_spec s dev blockno l fuel x :
  linked s x l HEAD -> HEAD ∉ l -> (length l <= fuel)%nat ->
  bget_find fuel dev blockno (nxt s x) s = Ok (List.find (holds s dev blockno) l) s.
Proof.
  revert fuel x. induction l as [|z l IH]; intros fuel x Hl Hh Hf; cbn [linked] in Hl.
  - destruct Hl as [-> _]. by destruct fuel; cbn [bget_find]; rewrite decide_True.
  - destruct Hl as (-> & _ & Hl). destruct fuel as [|fuel]; [by cbn in Hf; lia |]. cbn [bget_find].
    rewrite decide_False by set_solver +Hh. unfold bind, gets. cbn [List.find].
    unfold holds at 1. destruct (_ && _); [done |]. apply IH; [done | set_solver +Hh | cbn in Hf; lia].
Qed.

Lemma bget_free_spec s l fuel x :
  linked s HEAD l x -> HEAD ∉ l -> (length l <= fuel)%nat ->
  bget_free fuel (prv s x) s = Ok (List.find (unused s) (reverse l)) s.
Proof.
  revert fuel x. induction l as [|z l IH] using rev_ind; intros fuel x Hl Hh Hf.
  - destruct Hl as [_ ->]. by destruct fuel; cbn [bget_free]; rewrite decide_True.
  - apply linked_app in Hl as [Hl [_ ->]]. rewrite length_app in Hf. rewrite reverse_snoc.
    destruct fuel as [|fuel]; [by cbn in Hf; lia |]. cbn [bget_free].
    rewrite decide_False by set_solver +Hh. unfold bind, gets. cbn [List.find].
    unfold unused at 1. destruct (_ =? _); [done |]. apply IH; [done | set_solver +Hh | cbn in Hf; lia].
Qed.
End dll.

(** ** The cache *)

Section cache.
Implicit Types s : bst.

Definition on_disk s (n : Z) : list Z := default zero_block (disk s !! n).
Definition is_locked s (i : nat) : bool := negb (sl_locked (b_lock (getb s i)) =? 0).

(** What a reader of block [n] of [dev] sees: the cached data, or the disk's. *)
Definition content s (dev n : Z) : list Z :=
  match List.find (fun i => holds s dev n i && b_valid (getb s i)) (seq 0 HEAD) with
  | Some i => b_data (getb s i)
  | None => on_disk s n
  end.

(** Device 0 is the mark of a buffer that was never used. *)
Record cache_inv s (l : list nat) : Prop := CacheInv {
  ci_lru : lru_inv s l;
  ci_uniq : forall i j, (i < HEAD)%nat -> (j < HEAD)%nat -> b_dev (getb s i) <> 0 ->
    b_dev (getb s i) = b_dev (getb s j) -> b_blockno (getb s i) = b_blockno (getb s j) -> i = j;
  ci_ref : forall i, (i < HEAD)%nat -> 0 <= b_refcnt (getb s i) < 2 ^ 32;
  ci_clean : forall i, (i < HEAD)%nat -> b_refcnt (getb s i) = 0 -> b_valid (getb s i) = true ->
    b_data (getb s i) = on_disk s (b_blockno (getb s i));
}.

(** A buffer in use is not recycled. *)
Definition lock_inv s : Prop :=
  forall i, (i < HEAD)%nat -> is_locked s i = true -> b_refcnt (getb s i) <> 0.

Lemma holds_true s dev n i :
  holds s dev n i = true <-> b_dev (getb s i) = dev /\ b_blockno (getb s i) = n.
Proof. unfold holds. rewrite andb_true_iff, !Z.eqb_eq. done. Qed.

Lemma find_seq_some (P : nat -> bool) n i :
  List.find P (seq 0 n) = Some i -> (i < n)%nat /\ P i = true.
Proof. intros [Hi HP]%List.find_some. apply List.in_seq in Hi. split; [lia | done]. Qed.

Lemma find_seq_none (P : nat -> bool) n i :
  List.find P (seq 0 n) = None -> (i < n)%nat -> P i = false.
Proof. intros H Hi. apply (List.find_none _ _ H), List.in_seq. lia. Qed.

Lemma content_hit s l dev n i :
  cache_inv s l -> dev <> 0 -> (i < HEAD)%nat -> holds s dev n i = true ->
  content s dev n = if b_valid (getb s i) then b_data (getb s i) else on_disk s n.
Proof.
  intros Hc Hd Hi Hh. unfold content. destruct (List.find _ _) as [j|] eqn:E.
  - apply find_seq_some in E as [Hj [Hhj Hv]%andb_true_iff].
    apply holds_true in Hh as [E1 E2], Hhj as [E3 E4].
    assert (i = j) as -> by (apply (ci_uniq s l Hc); congruence). by rewrite Hv.
  - pose proof (find_seq_none _ _ i E Hi) as Hn. cbn in Hn. rewrite Hh in Hn. cbn in Hn. by rewrite Hn.
Qed.

Lemma content_miss s dev n :
  (forall i, (i < HEAD)%nat -> holds s dev n i = false) -> content s dev n = on_disk s n.
Proof.
  intros H. unfold content. destruct (List.find _ _) as [j|] eqn:E; [| done].
  apply find_seq_some in E as [Hj [Hh _]%andb_true_iff]. by rewrite H in Hh.
Qed.

Lemma holder_dec s dev n :
  (exists i, (i < HEAD)%nat /\ holds s dev n i = true) \/ (forall i, (i < HEAD)%nat -> holds s dev n i = false).
Proof.
  destruct (List.find (holds s dev n) (seq 0 HEAD)) as [i|] eqn:E.
  - left. exists i. by apply find_seq_some in E.
  - right. intros i. by apply find_seq_none.
Qed.

(** Buffer [b] becomes [x]; nothing else changes. *)
Definition updated s s' (b : nat) (x : buf) : Prop :=
  disk s' = disk s /\ length (bufs s') = length (bufs s) /\
  forall j, getb s' j = if decide (j = b) then x else getb s j.

Lemma updated_inv s s' b x l :
  cache_inv s l -> updated s s' b x -> (b < HEAD)%nat ->
  b_next x = nxt s b -> b_prev x = prv s b ->
  (b_dev x <> 0 -> forall j, (j < HEAD)%nat -> j <> b -> holds s (b_dev x) (b_blockno x) j = false) ->
  0 <= b_refcnt x < 2 ^ 32 ->
  (b_refcnt x = 0 -> b_valid x = true -> b_data x = on_disk s (b_blockno x)) ->
  cache_inv s' l.
Proof.
  intros [[Hlen Hp Hl] Hu Hr Hcl] (D & L & G) Hb Hnx Hpv Hux Hrx Hclx. split.
  - split; [congruence | done |]. apply (linked_frame s); [| | done]; intros i _.
    + unfold nxt. rewrite G. by case_decide; subst.
    + unfold prv. rewrite G. by case_decide; subst.
  - intros i j Hi Hj. rewrite !G. intros Hd Ed En. case_decide; case_decide; subst; [done | | |].
    + assert (holds s (b_dev x) (b_blockno x) j = true) by (by apply holds_true). by rewrite Hux in *.
    + rewrite Ed in Hd. assert (holds s (b_dev x) (b_blockno x) i = true) by (by apply holds_true). by rewrite Hux in *.
    + by apply Hu.
  - intros i Hi. rewrite G. case_decide; [done | by apply Hr].
  - intros i Hi. unfold on_disk. rewrite G, D. case_decide; [exact Hclx | by apply Hcl].
Qed.

Lemma updated_content s s' b x l d n :
  cache_inv s l -> cache_inv s' l -> updated s s' b x -> (b < HEAD)%nat -> d <> 0 ->
  (b_dev x = d -> b_blockno x = n -> content s d n = if b_valid x then b_data x else on_disk s n) ->
  (holds s d n b = true -> ~ (b_dev x = d /\ b_blockno x = n) -> content s d n = on_disk s n) ->
  content s' d n = content s d n.
Proof.
  intros Hc Hc' (D & L & G) Hb Hd Hnew Hold.
  assert (on_disk s' n = on_disk s n) as Ed by (unfold on_disk; by rewrite D).
  destruct (holder_dec s' d n) as [(i & Hi & Hh)|Hno].
  - rewrite (content_hit s' l d n i), Ed by done.
    apply holds_true in Hh as [E1 E2]. rewrite G in E1, E2. rewrite G.
    destruct (decide (i = b)) as [->|Hne]; [by rewrite Hnew |].
    symmetry. apply (content_hit s l); [done.. |]. by apply holds_true.
  - rewrite (content_miss s' d n Hno), Ed. symmetry. destruct (holds s d n b) eqn:Hhb.
    + apply Hold; [done |]. intros Hx. specialize (Hno b Hb). unfold holds in Hno.
      rewrite G, decide_True in Hno by done. apply andb_false_iff in Hno. rewrite !Z.eqb_neq in Hno. naive_solver.
    + apply content_miss. intros i Hi. destruct (decide (i = b)) as [->|Hne]; [done |].
      specialize (Hno i Hi). unfold holds in *. by rewrite G, decide_False in Hno.
Qed.

Lemma updated_trans s s1 s2 b x y : updated s s1 b x -> updated s1 s2 b y -> updated s s2 b y.
Proof.
  intros (D1 & L1 & G1) (D2 & L2 & G2). split_and!; [congruence | congruence |].
  intros j. rewrite G2, G1. by case_decide.
Qed.

Lemma setb_updated s b f :
  (b < length (bufs s))%nat -> exists s', setb b f s = Ok tt s' /\ updated s s' b (f (getb s b)).
Proof.
  intros Hb. eexists. split; [reflexivity |]. split_and!; [done | apply length_alter |].
  intros j. erewrite getb_setb; [| reflexivity | done]. case_decide; by subst.
Qed.

Lemma acquire_free s b pid :
  (b < length (bufs s))%nat -> is_locked s b = false ->
  exists s', in_lock b (acquiresleep (Z.of_nat b) pid) s = Ok tt s' /\
    updated s s' b (with_lock (SleepLock 1 pid) (getb s b)).
Proof.
  intros Hb Hl. unfold is_locked in Hl. unfold in_lock, zoom, acquiresleep. rewrite Hl.
  by destruct (setb_updated s b (with_lock (SleepLock 1 pid)) Hb) as (s' & [= <-] & ?); eexists.
Qed.

Lemma acquire_busy s b pid :
  (b < length (bufs s))%nat -> is_locked s b = true ->
  exists s', in_lock b (acquiresleep (Z.of_nat b) pid) s = Sleeps (ChLock (Z.of_nat b)) s' /\
    updated s s' b (getb s b).
Proof.
  intros Hb Hl. unfold is_locked in Hl. unfold in_lock, zoom, acquiresleep. rewrite Hl.
  destruct (setb_updated s b (with_lock (b_lock (getb s b))) Hb) as (s' & [= <-] & Hu).
  eexists. split; [reflexivity |]. replace (getb s b) with (with_lock (b_lock (getb s b)) (getb s b)) at 2; [done |].
  by destruct (getb s b).
Qed.

Lemma disk_read_updated s b :
  (b < length (bufs s))%nat ->
  exists s', disk_rw b false s = Ok tt s' /\
    updated s s' b (with_data (on_disk s (b_blockno (getb s b))) (getb s b)).
Proof.
  intros Hb. destruct (setb_updated s b (with_data (on_disk s (b_blockno (getb s b)))) Hb) as (s' & E & Hu).
  exists s'. split; [| done]. rewrite <- E. done.
Qed.

(** After [bget]: the read from the disk, when the buffer is not valid. *)
Definition fetched s (x : buf) : buf :=
  if b_valid x then x else with_valid true (with_data (on_disk s (b_blockno x)) x).

Lemma bread_tail s0 s b x :
  updated s0 s b x -> (b < length (bufs s0))%nat ->
  exists s',
    (let! x := gets (fun s => getb s b) in
     (if negb (b_valid x) then disk_rw b false ;;; setb b (with_valid true) else ret tt) ;;; ret b) s = Ok b s' /\
    updated s0 s' b (fetched s0 x).
Proof.
  intros Hu Hb. pose proof Hu as (D & L & G). assert (getb s b = x) as Ex by (by rewrite G, decide_True).
  unfold bind at 1, gets. rewrite Ex. unfold fetched. destruct (b_valid x) eqn:Hv; cbn [negb].
  - exists s. done.
  - destruct (disk_read_updated s b) as (s1 & E1 & U1); [lia |].
    destruct (setb_updated s1 b (with_valid true)) as (s2 & E2 & U2); [destruct U1 as (_ & -> & _); lia |].
    exists s2. unfold bind. rewrite E1, E2. split; [done |].
    eapply updated_trans; [exact Hu |]. eapply updated_trans; [exact U1 |].
    destruct U1 as (_ & _ & G1). rewrite G1, decide_True, Ex in U2 by done.
    unfold on_disk in *. by rewrite D in U2.
Qed.

Lemma find_holder s l dev n b :
  cache_inv s l -> dev <> 0 -> (b < HEAD)%nat -> holds s dev n b = true ->
  List.find (holds s dev n) l = Some b.
Proof.
  intros Hc Hd Hb Hh. destruct (lru_nodup _ _ (ci_lru _ _ Hc)) as (_ & _ & Hin).
  destruct (List.find _ _) as [j|] eqn:E.
  - apply List.find_some in E as [Hj Hhj]. apply list_elem_of_In, Hin in Hj.
    apply holds_true in Hh as [E1 E2], Hhj as [E3 E4]. f_equal. apply (ci_uniq s l Hc); congruence.
  - apply (List.find_none _ _) with (x := b) in E; [by rewrite E in Hh |]. by apply list_elem_of_In, Hin.
Qed.

Lemma find_lru s l P b : cache_inv s l -> List.find P (reverse l) = Some b -> (b < HEAD)%nat /\ P b = true.
Proof.
  intros Hc [Hb HP]%List.find_some. destruct (lru_nodup _ _ (ci_lru _ _ Hc)) as (_ & _ & Hin).
  by apply list_elem_of_In, elem_of_reverse, Hin in Hb.
Qed.

(** The buffer [b] that [bread] returns. *)
Record bread_post s l pid dev n b s' : Prop := BreadPost {
  br_buf : (b < HEAD)%nat /\ b_dev (getb s' b) = dev /\ b_blockno (getb s' b) = n;
  br_data : b_valid (getb s' b) = true /\ b_data (getb s' b) = content s dev n;
  br_lock : b_lock (getb s' b) = SleepLock 1 pid;
  br_ref : b_refcnt (getb s' b) = if holds s dev n b then b_refcnt (getb s b) + 1 else 1;
  br_inv : cache_inv s' l;
  br_disk : disk s' = disk s;
  br_content : forall d k, d <> 0 -> content s' d k = content s d k;
  br_others : forall j, j <> b -> getb s' j = getb s j;
}.

(** Any update of [b] that makes it the locked buffer of the block. *)
Lemma bread_post_intro s l pid dev n b x s' :
  cache_inv s l -> dev <> 0 -> (b < HEAD)%nat -> updated s s' b x ->
  b_next x = nxt s b -> b_prev x = prv s b -> b_dev x = dev -> b_blockno x = n ->
  b_lock x = SleepLock 1 pid -> b_valid x = true -> b_data x = content s dev n ->
  b_refcnt x = (if holds s dev n b then b_refcnt (getb s b) + 1 else 1) -> 0 < b_refcnt x < 2 ^ 32 ->
  (forall j, (j < HEAD)%nat -> j <> b -> holds s dev n j = false) ->
  (holds s dev n b = false -> b_refcnt (getb s b) = 0) ->
  bread_post s l pid dev n b s'.
Proof.
  intros Hc Hd Hb Hu Hnx Hpv Ed En El Ev Edata Er Hr Hoth Hfree.
  assert (cache_inv s' l) as Hc'.
  { eapply updated_inv; try done; [by rewrite Ed, En | lia | lia]. }
  pose proof Hu as (D & _ & G). assert (getb s' b = x) as Ex by (by rewrite G, decide_True).
  split; rewrite ?Ex; try done.
  - intros d k Hdk. eapply updated_content; [exact Hc | exact Hc' | exact Hu | done | done | |].
    + intros E1 E2. rewrite Ev, Edata. congruence.
    + intros Hold Hne. destruct (holds s dev n b) eqn:Hh.
      * apply holds_true in Hold as [? ?], Hh as [? ?]. destruct Hne. split; congruence.
      * rewrite (content_hit s l d k b) by done. apply holds_true in Hold as [_ <-].
        destruct (b_valid (getb s b)) eqn:Hv; [| done]. apply (ci_clean s l Hc); auto.
  - intros j Hj. by rewrite G, decide_False.
Qed.

Lemma bread_hit s l pid dev n b :
  cache_inv s l -> dev <> 0 -> (b < HEAD)%nat -> holds s dev n b = true -> b_refcnt (getb s b) < 2 ^ 32 - 1 ->
  is_locked s b = false ->
  exists s', bread pid dev n s = Ok b s' /\ bread_post s l pid dev n b s'.
Proof.
  intros Hc Hd Hb Hh Hrl Hlk. destruct (lru_nodup _ _ (ci_lru _ _ Hc)) as (_ & Hhd & _).
  pose proof (lr_len _ _ (ci_lru _ _ Hc)) as Hlen.
  destruct (setb_updated s b (fun x => with_refcnt (u32 (b_refcnt x + 1)) x)) as (s1 & E1 & U1); [lia |].
  pose proof U1 as (D1 & L1 & G1).
  destruct (acquire_free s1 b pid) as (s2 & E2 & U2); [lia | by unfold is_locked in *; rewrite G1, decide_True |].
  rewrite G1, decide_True in U2 by done. pose proof (updated_trans _ _ _ _ _ _ U1 U2) as U.
  destruct (bread_tail _ _ _ _ U) as (s3 & E3 & U3); [lia |].
  exists s3. split.
  - unfold bread, bget, bind at 1 2 3. unfold gets at 1. fold (nxt s HEAD).
    rewrite (bget_find_spec s dev n l); [| apply Hc | done |
      by rewrite (Permutation_length (lr_perm _ _ (ci_lru _ _ Hc))), length_seq].
    rewrite (find_holder s l dev n b) by done. unfold bind at 1. rewrite E1. unfold bind at 1. rewrite E2. exact E3.
  - pose proof (ci_ref _ _ Hc b Hb). apply holds_true in Hh as Hh'. destruct Hh' as [Ed En].
    eapply bread_post_intro; [done | done | done | exact U3 | ..];
      rewrite ?Hh; unfold fetched; destruct (b_valid (getb s b)) eqn:Hv; cbn; rewrite ?Hv; cbn; try done;
      try (rewrite u32_small; lia).
    + by rewrite (content_hit s l dev n b), Hv.
    + rewrite (content_hit s l dev n b), Hv by done. by rewrite En.
    + intros j Hj Hne. destruct (holds s dev n j) eqn:Hhj; [| done]. apply holds_true in Hhj as [? ?].
      destruct Hne. apply (ci_uniq s l Hc); congruence.
    + intros j Hj Hne. destruct (holds s dev n j) eqn:Hhj; [| done]. apply holds_true in Hhj as [? ?].
      destruct Hne. apply (ci_uniq s l Hc); congruence.
Qed.

Lemma bget_search s l dev n :
  cache_inv s l ->
  bget_find (Z.to_nat NBUF) dev n (nxt s HEAD) s = Ok (List.find (holds s dev n) l) s /\
  bget_free (Z.to_nat NBUF) (prv s HEAD) s = Ok (List.find (unused s) (reverse l)) s.
Proof.
  intros Hc. destruct (lru_nodup _ _ (ci_lru _ _ Hc)) as (_ & Hhd & _).
  assert (length l <= Z.to_nat NBUF)%nat
    by (by rewrite (Permutation_length (lr_perm _ _ (ci_lru _ _ Hc))), length_seq).
  split; [apply bget_find_spec | apply bget_free_spec]; try done; apply Hc.
Qed.

(** A cached block whose buffer is in use: the caller waits for the lock with
    the buffer's reference count already raised. *)
Lemma bread_busy s l pid dev n b :
  cache_inv s l -> dev <> 0 -> (b < HEAD)%nat -> holds s dev n b = true -> is_locked s b = true ->
  exists s', bread pid dev n s = Sleeps (ChLock (Z.of_nat b)) s' /\
    updated s s' b (with_refcnt (u32 (b_refcnt (getb s b) + 1)) (getb s b)).
Proof.
  intros Hc Hd Hb Hh Hlk. pose proof (lr_len _ _ (ci_lru _ _ Hc)) as Hlen.
  destruct (setb_updated s b (fun x => with_refcnt (u32 (b_refcnt x + 1)) x)) as (s1 & E1 & U1); [lia |].
  pose proof U1 as (D1 & L1 & G1).
  destruct (acquire_busy s1 b pid) as (s2 & E2 & U2); [lia | by unfold is_locked in *; rewrite G1, decide_True |].
  rewrite G1, decide_True in U2 by done. exists s2. split; [| by eapply updated_trans].
  unfold bread, bget, bind at 1 2 3. unfold gets at 1. fold (nxt s HEAD).
  destruct (bget_search s l dev n Hc) as [-> _]. rewrite (find_holder s l dev n b) by done.
  unfold bind at 1. rewrite E1. unfold bind at 1. by rewrite E2.
Qed.

(** A block that is not cached takes over the least recently used buffer
    that nobody references. *)
Lemma bread_miss s l pid dev n b :
  cache_inv s l -> lock_inv s -> dev <> 0 -> List.find (holds s dev n) l = None ->
  List.find (unused s) (reverse l) = Some b ->
  exists s', bread pid dev n s = Ok b s' /\ bread_post s l pid dev n b s'.
Proof.
  intros Hc Hk Hd Hno Hfr. pose proof (lr_len _ _ (ci_lru _ _ Hc)) as Hlen.
  destruct (find_lru s l _ _ Hc Hfr) as [Hb Hun%Z.eqb_eq].
  assert (forall j, (j < HEAD)%nat -> holds s dev n j = false) as Hmiss.
  { intros j Hj. apply (List.find_none _ _ Hno), list_elem_of_In. by apply (lru_nodup _ _ (ci_lru _ _ Hc)). }
  destruct (setb_updated s b (fun x => Buf false dev n (b_lock x) 1 (b_prev x) (b_next x) (b_data x)))
    as (s1 & E1 & U1); [lia |]. pose proof U1 as (D1 & L1 & G1).
  destruct (acquire_free s1 b pid) as (s2 & E2 & U2); [lia | |].
  { destruct (is_locked s1 b) eqn:Hlk; [| done]. unfold is_locked in Hlk. rewrite G1, decide_True in Hlk by done.
    by destruct (Hk b Hb). }
  rewrite G1, decide_True in U2 by done. pose proof (updated_trans _ _ _ _ _ _ U1 U2) as U.
  destruct (bread_tail _ _ _ _ U) as (s3 & E3 & U3); [lia |]. exists s3. split.
  - unfold bread, bget, bind at 1 2 3. unfold gets at 1. fold (nxt s HEAD).
    destruct (bget_search s l dev n Hc) as [-> Hf]. rewrite Hno. unfold bind at 1. unfold gets at 1.
    fold (prv s HEAD). unfold bind at 1. rewrite Hf, Hfr. unfold bind at 1. rewrite E1.
    unfold bind at 1. rewrite E2. exact E3.
  - eapply bread_post_intro; [done | done | done | exact U3 | ..]; cbn; rewrite ?Hmiss by done; try done.
    + by rewrite content_miss.
    + intros j Hj _. by apply Hmiss.
Qed.

Lemma bread_full s l pid dev n :
  cache_inv s l -> List.find (holds s dev n) l = None -> List.find (unused s) (reverse l) = None ->
  bread pid dev n s = Panic "bget: no buffers".
Proof.
  intros Hc Hno Hfr. destruct (bget_search s l dev n Hc) as [Hf1 Hf2]. unfold nxt, prv in *.
  unfold bread, bget, bind, gets. by rewrite Hf1, Hno, Hf2, Hfr.
Qed.

Lemma holding_buf s b pid :
  exists s', in_lock b (holdingsleep pid) s =
    Ok (is_locked s b && (sl_pid (b_lock (getb s b)) =? pid)) s' /\
  disk s' = disk s /\ length (bufs s') = length (bufs s) /\ (forall j, getb s' j = getb s j).
Proof.
  eexists. split; [reflexivity |]. cbn. split_and!; [done | apply length_alter |]. intros j. unfold getb. cbn [bufs].
  destruct (decide (b = j)) as [->|Hne]; [| by rewrite list_lookup_alter_ne].
  rewrite list_lookup_alter_eq. destruct (bufs s !! j) as [[]|] eqn:E; [| done]. done.
Qed.

Lemma u32_pred_zero r : 0 <= r < 2 ^ 32 -> u32 (r - 1) = 0 -> r = 1.
Proof.
  intros Hr. destruct (decide (r = 0)) as [->|]; [by vm_compute |]. rewrite u32_small; lia.
Qed.

(** States that agree but for the pointers of the list. *)
Lemma same_core_inv s s' l l' :
  cache_inv s l -> same_core s s' -> lru_inv s' l' -> cache_inv s' l'.
Proof.
  intros [_ Hu Hr Hcl] (D & _ & G) Hl.
  assert (forall i, b_dev (getb s' i) = b_dev (getb s i) /\ b_blockno (getb s' i) = b_blockno (getb s i) /\
    b_refcnt (getb s' i) = b_refcnt (getb s i) /\ b_lock (getb s' i) = b_lock (getb s i) /\
    b_valid (getb s' i) = b_valid (getb s i) /\ b_data (getb s' i) = b_data (getb s i)) as Hg.
  { intros i. destruct (G i) as (p & n & ->). done. }
  split; [done | ..]; unfold is_locked, on_disk; rewrite ?D.
  - intros i j. destruct (Hg i) as (-> & -> & _), (Hg j) as (-> & -> & _). apply Hu.
  - intros i. destruct (Hg i) as (_ & _ & -> & _). apply Hr.
  - intros i. destruct (Hg i) as (_ & -> & -> & _ & -> & ->). apply Hcl.
Qed.

Lemma same_core_content s s' d n : same_core s s' -> content s' d n = content s d n.
Proof.
  intros (D & _ & G). unfold content, on_disk. rewrite D.
  assert (forall i, b_data (getb s' i) = b_data (getb s i) /\
    holds s' d n i && b_valid (getb s' i) = holds s d n i && b_valid (getb s i)) as Hg.
  { intros i. unfold holds. by destruct (G i) as (p & q & ->). }
  assert (forall l, List.find (fun i => holds s' d n i && b_valid (getb s' i)) l =
                    List.find (fun i => holds s d n i && b_valid (getb s i)) l) as ->.
  { induction l as [|i l IH]; cbn; [done |]. destruct (Hg i) as [_ ->]. by rewrite IH. }
  destruct (List.find _ _) as [i|]; [| done]. by destruct (Hg i) as [-> _].
Qed.

(** What [brelse] leaves: [b] unlocked, one reference fewer, and in front of
    the list when that was the last one. *)
Record brelse_post s l b s' : Prop := BrelsePost {
  bl_lock : b_lock (getb s' b) = initsleeplock;
  bl_ref : b_refcnt (getb s' b) = u32 (b_refcnt (getb s b) - 1);
  bl_inv : exists l', cache_inv s' l' /\
    (if b_refcnt (getb s b) =? 1 then exists l1 l2, l = l1 ++ b :: l2 /\ l' = b :: l1 ++ l2 else l' = l);
  bl_core : forall j, b_dev (getb s' j) = b_dev (getb s j) /\ b_blockno (getb s' j) = b_blockno (getb s j) /\
    b_valid (getb s' j) = b_valid (getb s j) /\ b_data (getb s' j) = b_data (getb s j) /\
    (j <> b -> b_lock (getb s' j) = b_lock (getb s j) /\ b_refcnt (getb s' j) = b_refcnt (getb s j));
  bl_disk : disk s' = disk s;
  bl_content : forall d k, d <> 0 -> content s' d k = content s d k;
}.

Lemma wp_brelse s l pid b :
  cache_inv s l -> (b < HEAD)%nat -> is_locked s b = true -> sl_pid (b_lock (getb s b)) = pid ->
  (b_refcnt (getb s b) = 1 -> b_valid (getb s b) = true ->
   b_data (getb s b) = on_disk s (b_blockno (getb s b))) ->
  wp (brelse pid b) (fun _ s' => brelse_post s l b s') s.
Proof.
  intros Hc Hb Hlk Hpid Hcl. pose proof (lr_len _ _ (ci_lru _ _ Hc)) as Hlen.
  pose proof (ci_ref _ _ Hc b Hb) as Href. pose proof (u32_range (b_refcnt (getb s b) - 1)) as Hr'.
  unfold brelse. apply wp_bind. destruct (holding_buf s b pid) as (s0 & E0 & D0 & L0 & G0).
  apply wp_ok. eexists _, _. split; [exact E0 |]. rewrite Hlk, Hpid, Z.eqb_refl. cbn [andb negb].
  destruct (setb_updated s0 b (with_lock initsleeplock)) as (s1 & E1 & U1); [lia |].
  apply wp_bind, wp_ok. eexists _, s1. split; [by injection E1 as <- |]. clear E1.
  destruct (setb_updated s1 b (fun x => with_refcnt (u32 (b_refcnt x - 1)) x)) as (s2 & E2 & U2).
  { destruct U1 as (_ & -> & _). lia. }
  apply wp_bind, wp_ok. exists tt, s2. split; [exact E2 |].
  assert (updated s s2 b (with_refcnt (u32 (b_refcnt (getb s b) - 1)) (with_lock initsleeplock (getb s b)))) as U.
  { destruct U1 as (D1 & L1 & G1), U2 as (D2 & L2 & G2). split_and!; [congruence | congruence |].
    intros j. rewrite G2. case_decide; [| by rewrite G1, decide_False, G0].
    rewrite G1, decide_True, !G0 by done. done. }
  clear E2. pose proof U as (D2 & L2 & G2).
  assert (cache_inv s2 l) as Hc2.
  { eapply updated_inv; try done; cbn; [| intros E0' Ev; apply Hcl; [by apply u32_pred_zero | done]].
    intros Hd j Hj Hne. destruct (holds s _ _ j) eqn:Hh; [| done]. apply holds_true in Hh as [? ?].
    destruct Hne. symmetry; by apply (ci_uniq s l Hc). }
  assert (forall d k, d <> 0 -> content s2 d k = content s d k) as Hct.
  { intros d k Hd. eapply updated_content; [exact Hc | exact Hc2 | exact U | done | done | |]; cbn.
    - intros E3 E4. apply (content_hit s l); [done.. |]. by apply holds_true.
    - intros [? ?]%holds_true Hne. by destruct Hne. }
  apply wp_bind, wp_gets. rewrite G2, decide_True by done. cbn [b_refcnt with_refcnt with_lock].
  assert ((u32 (b_refcnt (getb s b) - 1) =? 0) = (b_refcnt (getb s b) =? 1)) as ->.
  { apply eq_bool_prop_intro. rewrite !Is_true_true, !Z.eqb_eq. split; [by apply u32_pred_zero | by intros ->]. }
  destruct (b_refcnt (getb s b) =? 1) eqn:E1; [| apply wp_ret; split; rewrite ?G2, ?decide_True, ?E1 by done; eauto;
    intros j; rewrite G2; case_decide; subst; naive_solver].
  assert (b ∈ l) as (l1 & l2 & ->)%list_elem_of_split by (by apply (lru_nodup _ _ (ci_lru _ _ Hc))).
  eapply wp_mono; [apply wp_move_front, Hc2 |]. intros [] s3 [Hl3 Hs3].
  destruct (proj2 (proj2 Hs3) b) as (p & q & G3). rewrite G2, decide_True in G3 by done. split; rewrite ?G3, ?E1; try done.
  - eexists. split; [by eapply same_core_inv | eauto].
  - intros j. destruct (proj2 (proj2 Hs3) j) as (p' & q' & ->). cbn. rewrite G2. case_decide; subst; naive_solver.
  - by destruct Hs3 as (-> & _).
  - intros d k Hd. rewrite (same_core_content s2 s3) by done. by apply Hct.
Qed.

Lemma wp_binit_cache s :
  length (bufs s) = S HEAD -> (forall i, (i < HEAD)%nat -> getb s i = buf0) ->
  wp binit (fun _ s' => cache_inv s' (reverse (seq 0 HEAD)) /\ disk s' = disk s /\
    forall i, (i < HEAD)%nat -> exists p n, getb s' i = with_prev p (with_next n buf0)) s.
Proof.
  intros Hlen H0. eapply wp_mono; [by apply wp_binit |]. intros [] s' [Hl [D G]].
  assert (forall i, (i < HEAD)%nat -> exists p n, getb s' i = with_prev p (with_next n buf0)) as Hg.
  { intros i Hi. destruct (G i) as (p & n & lk & -> & Hk). rewrite H0 in * by done. exists p, n.
    by destruct Hk as [->| ->]. }
  split_and!; [| done | done]. split; [done | ..]; unfold is_locked; intros i; [intros j | ..]; intros Hi; destruct (Hg i Hi) as (p & n & ->); cbn; done.
Qed.

End cache.

(** C26: [bread] on a consistent cache.  A cached block whose buffer is free
    is returned as it is in the cache; an uncached one is read from the disk
    into the least recently used unreferenced buffer; the caller holds the
    buffer's lock, the data is what any reader would see ([content]), and no
    block's visible content changes, evictions included.  When the buffer is
    locked the caller sleeps on it with the reference already taken, and when
    every buffer is referenced the kernel panics. *)
Theorem bread_correct s l pid dev n :
  cache_inv s l -> lock_inv s -> dev <> 0 -> (forall i, (i < HEAD)%nat -> b_refcnt (getb s i) < 2 ^ 32 - 1) ->
  match List.find (holds s dev n) l with
  | Some b =>
      if is_locked s b then
        exists s', bread pid dev n s = Sleeps (ChLock (Z.of_nat b)) s' /\
          updated s s' b (with_refcnt (b_refcnt (getb s b) + 1) (getb s b))
      else exists s', bread pid dev n s = Ok b s' /\ bread_post s l pid dev n b s'
  | None =>
      match List.find (unused s) (reverse l) with
      | Some b => exists s', bread pid dev n s = Ok b s' /\ bread_post s l pid dev n b s'
      | None => bread pid dev n s = Panic "bget: no buffers"
      end
  end.
Proof.
  intros Hc Hk Hd Hr. destruct (List.find (holds s dev n) l) as [b|] eqn:E.
  - apply List.find_some in E as [Hb%list_elem_of_In Hh]. apply (lru_nodup _ _ (ci_lru _ _ Hc)) in Hb.
    destruct (is_locked s b) eqn:Hlk; [| apply bread_hit; auto].
    destruct (bread_busy s l pid dev n b) as (s' & E & U); try done. exists s'. split; [done |].
    pose proof (ci_ref _ _ Hc b Hb). pose proof (Hr b Hb). by rewrite u32_small in U by lia.
  - destruct (List.find (unused s) (reverse l)) as [b|] eqn:E2; [by apply bread_miss | by eapply bread_full].
Qed.

(** C27: [brelse] by the lock's holder unlocks the buffer and drops one
    reference; with the last reference the buffer moves to the front of the
    LRU list.  The cache stays consistent and no block's visible content
    changes, provided that a modified buffer still has another reference
    (the log's pin) when it is released.  A caller without the lock panics. *)
Theorem brelse_correct s l pid b :
  cache_inv s l -> (b < HEAD)%nat ->
  (b_refcnt (getb s b) = 1 -> b_valid (getb s b) = true ->
   b_data (getb s b) = on_disk s (b_blockno (getb s b))) ->
  if is_locked s b && (sl_pid (b_lock (getb s b)) =? pid)
  then exists s', brelse pid b s = Ok tt s' /\ brelse_post s l b s'
  else brelse pid b s = Panic "brelse".
Proof.
  intros Hc Hb Hcl. destruct (is_locked s b && _) eqn:Hh.
  - apply andb_true_iff in Hh as [Hlk Hpid%Z.eqb_eq].
    pose proof (wp_brelse s l pid b Hc Hb Hlk Hpid Hcl) as ([] & s' & ? & ?)%wp_ok. eauto.
  - unfold brelse, bind at 1. destruct (holding_buf s b pid) as (s0 & -> & _). by rewrite Hh.
Qed.

(** The cache after boot, with one written block on the disk. *)
Definition demo_disk : gmap Z (list Z) := {[ 7 := replicate 1024 65 ]}.
Definition demo_bss : bst := Bst (replicate 31 buf0) demo_disk.
Definition demo_boot : bst := match binit demo_bss with Ok _ s => s | _ => demo_bss end.

Lemma demo_bss_zero i : (i < HEAD)%nat -> getb demo_bss i = buf0.
Proof.
  intros Hi. unfold getb, demo_bss. cbn [bufs].
  rewrite (lookup_replicate_2 31 buf0 i); [done |]. unfold HEAD in Hi. klia.
Qed.

Lemma demo_boot_inv : cache_inv demo_boot (reverse (seq 0 HEAD)).
Proof.
  unfold demo_boot. pose proof (wp_binit_cache demo_bss eq_refl demo_bss_zero) as H.
  destruct (proj1 (wp_ok _ _ _) H) as ([] & s' & E & Hc & _). clear H. rewrite E. exact Hc.
Qed.

Lemma demo_boot_refs i : (i < HEAD)%nat -> b_refcnt (getb demo_boot i) = 0.
Proof.
  intros Hi. assert (forallb (fun i => b_refcnt (getb demo_boot i) =? 0) (seq 0 HEAD) = true) as Hf
    by (vm_compute; reflexivity).
  apply Z.eqb_eq. rewrite List.forallb_forall in Hf. apply Hf, List.in_seq. lia.
Qed.

Lemma demo_boot_locks : lock_inv demo_boot.
Proof.
  intros i Hi. assert (forallb (fun i => negb (is_locked demo_boot i)) (seq 0 HEAD) = true) as Hf
    by (vm_compute; reflexivity).
  rewrite List.forallb_forall in Hf. specialize (Hf i ltac:(apply List.in_seq; lia)).
  intros E. rewrite E in Hf. discriminate Hf.
Qed.

Lemma bread_witness : exists s',
  bread 3 1 7 demo_boot = Ok 0%nat s' /\ b_data (getb s' 0) = replicate 1024 65.
Proof.
  pose proof (bread_correct demo_boot (reverse (seq 0 HEAD)) 3 1 7 demo_boot_inv demo_boot_locks ltac:(lia)) as H.
  assert (forall i, (i < HEAD)%nat -> b_refcnt (getb demo_boot i) < 2 ^ 32 - 1) as Hr
    by (intros i Hi; rewrite (demo_boot_refs i Hi); lia).
  specialize (H Hr). clear Hr.
  assert (List.find (holds demo_boot 1 7) (reverse (seq 0 HEAD)) = None) as E1 by (vm_compute; reflexivity).
  assert (List.find (unused demo_boot) (reverse (reverse (seq 0 HEAD))) = Some 0%nat) as E2 by (vm_compute; reflexivity).
  rewrite E1, E2 in H. destruct H as (s' & E & H). exists s'. split; [exact E |].
  rewrite (proj2 (br_data _ _ _ _ _ _ _ H)). vm_compute. reflexivity.
Defined.

(** The same buffer, released by the process that read it. *)
Definition demo_held : bst := match bread 3 1 7 demo_boot with Ok _ s => s | _ => demo_boot end.

Lemma demo_held_inv : cache_inv demo_held (reverse (seq 0 HEAD)).
Proof.
  assert (List.find (holds demo_boot 1 7) (reverse (seq 0 HEAD)) = None) as E1 by (vm_compute; reflexivity).
  assert (List.find (unused demo_boot) (reverse (reverse (seq 0 HEAD))) = Some 0%nat) as E2 by (vm_compute; reflexivity).
  destruct (bread_miss demo_boot _ 3 1 7 0 demo_boot_inv demo_boot_locks ltac:(lia) E1 E2) as (s' & E & H).
  unfold demo_held. rewrite E. apply H.
Qed.

Lemma brelse_witness : exists s', brelse 3 0 demo_held = Ok tt s' /\ b_refcnt (getb s' 0) = 0.
Proof.
  pose proof (brelse_correct demo_held (reverse (seq 0 HEAD)) 3 0 demo_held_inv ltac:(unfold HEAD; klia)
    (fun _ _ => ltac:(vm_compute; reflexivity))) as H.
  assert (is_locked demo_held 0 && (sl_pid (b_lock (getb demo_held 0)) =? 3) = true) as E by (vm_compute; reflexivity).
  rewrite E in H. destruct H as (s' & E' & H). exists s'. split; [exact E' |].
  rewrite (bl_ref _ _ _ _ H). vm_compute. reflexivity.
Defined.
