(* ===== verification/Bcache.v ===== *)
(** * The buffer cache as the file system sees it

    [bstate s refs H] describes a cache used by one process [pid] on one
    device: [refs n] is the reference count of block [n], [H] the set of
    blocks whose buffers the process holds locked.  [view s n] is what a
    reader of block [n] sees.  The functions of bio.c are given laws in these
    terms; the log and the file system are verified against them. *)

From S2P Require Import Prelude Riscv Sleeplock Bio.

(** [b->data] is overwritten. *)
Definition bset (b : nat) (d : list Z) : M bst unit := setb b (with_data d).

Section bcache.
Context (dev pid : Z).
Implicit Types (s : bst) (refs : Z -> Z) (H : gset Z).

Definition view s (n : Z) : list Z := content s dev n.
Definition handle s (n : Z) (b : nat) : Prop := (b < HEAD)%nat /\ holds s dev n b = true.
Definition lock_for H (n : Z) : sleeplock := if decide (n ∈ H) then SleepLock 1 pid else initsleeplock.

(** Buffer [i] is unused since boot, or caches a block of the device. *)
Definition buf_state s refs H (i : nat) : Prop :=
  (b_dev (getb s i) = 0 /\ b_refcnt (getb s i) = 0 /\ b_valid (getb s i) = false /\ b_lock (getb s i) = initsleeplock) \/
  (b_dev (getb s i) = dev /\ b_refcnt (getb s i) = refs (b_blockno (getb s i)) /\
   b_lock (getb s i) = lock_for H (b_blockno (getb s i))).

Record bstate s refs H : Prop := BState {
  bs_inv : exists l, cache_inv s l;
  bs_buf : forall i, (i < HEAD)%nat -> buf_state s refs H i;
  bs_cached : forall n, refs n <> 0 \/ n ∈ H -> exists i, handle s n i /\ b_valid (getb s i) = true;
}.

(** No buffer with a holder has a zero count. *)
Definition counted refs H : Prop := forall n, n ∈ H -> refs n <> 0.

(** Fewer than [NBUF] blocks are referenced. *)
Definition roomy refs : Prop := exists A : gset Z, (forall n, refs n <> 0 -> n ∈ A) /\ Z.of_nat (size A) < NBUF.

Context (Hdev : dev <> 0).

Lemma handle_dev s n b : handle s n b -> b_dev (getb s b) = dev /\ b_blockno (getb s b) = n.
Proof. intros [_ Hh]. by apply holds_true in Hh. Qed.

Lemma handle_fun s refs H n b c : bstate s refs H -> handle s n b -> handle s n c -> b = c.
Proof.
  intros [[l Hc] _ _] Hb Hcc. pose proof (handle_dev _ _ _ Hb) as [E1 E2]. pose proof (handle_dev _ _ _ Hcc) as [E3 E4].
  destruct Hb, Hcc. apply (ci_uniq s l Hc); congruence.
Qed.

Lemma handle_state s refs H n b :
  bstate s refs H -> handle s n b -> b_refcnt (getb s b) = refs n /\ b_lock (getb s b) = lock_for H n.
Proof.
  intros Hs Hb. pose proof (handle_dev _ _ _ Hb) as [E1 E2]. destruct Hb as [Hb _].
  destruct (bs_buf _ _ _ Hs b Hb) as [(? & _)|(_ & Hr & Hl)]; [congruence |]. by rewrite Hr, Hl, E2.
Qed.

Lemma handle_view s refs H n b :
  bstate s refs H -> handle s n b ->
  view s n = if b_valid (getb s b) then b_data (getb s b) else on_disk s n.
Proof. intros [[l Hc] _ _] [Hb Hh]. by apply (content_hit s l). Qed.

Lemma held_view s refs H n b :
  bstate s refs H -> handle s n b -> n ∈ H -> b_data (getb s b) = view s n.
Proof.
  intros Hs Hb Hn. rewrite (handle_view s refs H n b Hs Hb).
  destruct (bs_cached _ _ _ Hs n (or_intror Hn)) as (i & Hi & Hv).
  by rewrite (handle_fun s refs H n b i), Hv.
Qed.

Lemma bstate_lock_inv s refs H : bstate s refs H -> counted refs H -> lock_inv s.
Proof.
  intros Hs Hc i Hi Hl. unfold is_locked in Hl. destruct (bs_buf _ _ _ Hs i Hi) as [(_ & _ & _ & E)|(_ & -> & E)].
  - by rewrite E in Hl.
  - apply Hc. rewrite E in Hl. unfold lock_for in Hl. by case_decide.
Qed.

Lemma bstate_ext s refs refs' H : (forall n, refs' n = refs n) -> bstate s refs H -> bstate s refs' H.
Proof.
  intros E [Hc Hb Hv]. split; [done | |].
  - intros i Hi. unfold buf_state. rewrite E. by apply Hb.
  - intros n. rewrite E. apply Hv.
Qed.

(** When fewer than [NBUF] blocks are referenced, some buffer is not. *)
Lemma roomy_unused s refs H l :
  bstate s refs H -> cache_inv s l -> roomy refs -> exists b, List.find (unused s) (reverse l) = Some b.
Proof.
  intros Hs Hc (A & HA & Hsz). destruct (List.find (unused s) (reverse l)) as [b|] eqn:E; [by exists b |]. exfalso.
  assert (forall i, (i < HEAD)%nat -> b_refcnt (getb s i) <> 0) as Hall.
  { intros i Hi. apply Z.eqb_neq. apply (List.find_none _ _ E), list_elem_of_In, elem_of_reverse.
    by apply (lru_nodup _ _ (ci_lru _ _ Hc)). }
  assert (forall i, (i < HEAD)%nat -> b_dev (getb s i) = dev /\ refs (b_blockno (getb s i)) <> 0) as Hdv.
  { intros i Hi. pose proof (Hall i Hi). by destruct (bs_buf _ _ _ Hs i Hi) as [(_ & ? & _)|(-> & <- & _)]. }
  set (f := fun i => b_blockno (getb s i)).
  assert (NoDup (f <$> seq 0 HEAD)) as Hnd.
  { apply NoDup_fmap_2_strong; [| apply NoDup_seq]. intros i j Hi%elem_of_seq Hj%elem_of_seq Hf.
    destruct (Hdv i), (Hdv j); [lia.. |]. apply (ci_uniq s l Hc); [lia | lia | congruence | congruence | done]. }
  assert (size (list_to_set (C := gset Z) (f <$> seq 0 HEAD)) <= size A)%nat as Hle.
  { apply subseteq_size. intros n (i & -> & Hi%elem_of_seq)%elem_of_list_to_set%list_elem_of_fmap.
    apply HA, Hdv. lia. }
  rewrite size_list_to_set, length_fmap, length_seq in Hle by done. unfold HEAD in Hle. klia.
Qed.

(** One buffer changes its count, lock or data, and no buffer its identity. *)
Lemma bstate_change s s' refs H H' l' n b r :
  bstate s refs H -> cache_inv s' l' -> handle s n b ->
  (forall j, b_dev (getb s' j) = b_dev (getb s j) /\ b_blockno (getb s' j) = b_blockno (getb s j) /\
     b_valid (getb s' j) = b_valid (getb s j)) ->
  (forall j, j <> b -> b_lock (getb s' j) = b_lock (getb s j) /\ b_refcnt (getb s' j) = b_refcnt (getb s j)) ->
  b_refcnt (getb s' b) = r -> b_lock (getb s' b) = lock_for H' n ->
  (forall m, m <> n -> m ∈ H' <-> m ∈ H) -> (r <> 0 \/ n ∈ H' -> b_valid (getb s b) = true) ->
  bstate s' (upd refs n r) H' /\ (forall m c, handle s m c <-> handle s' m c).
Proof.
  intros Hs Hc' Hb Hid Hoth Hr Hl HH Hv.
  assert (forall m c, handle s m c <-> handle s' m c) as Hhd.
  { intros m c. unfold handle, holds. by destruct (Hid c) as (-> & -> & _). }
  split; [split; [by exists l' | |] | done].
  - intros i Hi. destruct (Hid i) as (E1 & E2 & E3). unfold buf_state. rewrite E1, E2, E3.
    destruct (decide (i = b)) as [->|Hne].
    + right. pose proof (handle_dev _ _ _ Hb) as [Ed ->]. by rewrite upd_eq, Hr, Hl.
    + destruct (Hoth i Hne) as [-> ->]. destruct (bs_buf _ _ _ Hs i Hi) as [?|(Ed & Er & El)]; [by left | right].
      assert (b_blockno (getb s i) <> n) as Hn.
      { intros En. apply Hne, (handle_fun s refs H n); [done | | done]. split; [done | by apply holds_true]. }
      split_and!; [done | by rewrite upd_ne |]. rewrite El. unfold lock_for. apply decide_ext. by rewrite HH.
  - intros m Hm. destruct (decide (m = n)) as [->|Hne].
    + exists b. rewrite <- Hhd. rewrite upd_eq in Hm. destruct (Hid b) as (_ & _ & ->). auto.
    + rewrite upd_ne, HH in Hm by done. destruct (bs_cached _ _ _ Hs m Hm) as (i & Hi & Hvi).
      exists i. rewrite <- Hhd. by destruct (Hid i) as (_ & _ & ->).
Qed.

(** The state after [bread], from what bio.c promises of it. *)
Definition bread_view s refs H n b s' : Prop :=
  bstate s' (upd refs n (refs n + 1)) ({[n]} ∪ H) /\ handle s' n b /\
  (forall m, view s' m = view s m) /\ disk s' = disk s /\
  (forall m c, m ∈ H -> handle s m c -> handle s' m c).

Lemma bread_post_view s refs H n l b s' :
  bstate s refs H -> n ∉ H -> counted refs H -> bread_post s l pid dev n b s' ->
  (handle s n b \/ (refs n = 0 /\ b_refcnt (getb s b) = 0 /\ holds s dev n b = false /\ forall c, ~ handle s n c)) ->
  bread_view s refs H n b s'.
Proof.
  intros Hs Hn Hcnt [(Hb & Ed & En) [Ev Edata] El Er Hc' D Hct Hoth] Hcase.
  assert (handle s' n b) as Hh' by (split; [done | by apply holds_true]).
  assert (forall m c, c <> b -> handle s' m c <-> handle s m c) as Hhc.
  { intros m c Hne. unfold handle, holds. by rewrite Hoth. }
  assert (forall m, m <> n -> ~ handle s' m b) as Hb'.
  { intros m Hm Hhm. destruct (handle_dev _ _ _ Hhm). congruence. }
  assert (b_refcnt (getb s' b) = refs n + 1) as Er'.
  { rewrite Er. destruct Hcase as [Hb0|(E0 & _ & E2 & _)]; [| rewrite E2; lia].
    destruct (handle_state s refs H n b Hs Hb0) as [<- _]. by destruct Hb0 as [_ ->]. }
  assert (forall m c, m <> n -> (refs m <> 0 \/ m ∈ H) -> handle s m c -> c <> b) as Hother.
  { intros m c Hm Hrm Hmc ->. destruct Hcase as [Hb0|(_ & Hz & _)].
    - destruct (handle_dev _ _ _ Hb0), (handle_dev _ _ _ Hmc). congruence.
    - destruct (handle_state s refs H m b Hs Hmc) as [E _].
      destruct Hrm as [?|Hin]; [congruence |]. by apply (Hcnt m Hin); congruence. }
  split_and!; [split; [by exists l | |] | done | | done |].
  - intros i Hi. destruct (decide (i = b)) as [->|Hne].
    + right. rewrite Ed, En, upd_eq. unfold lock_for. rewrite decide_True by set_solver +. done.
    + unfold buf_state. rewrite (Hoth i Hne). destruct (bs_buf _ _ _ Hs i Hi) as [?|(E1 & E2 & E3)]; [by left | right].
      assert (b_blockno (getb s i) <> n) as Hni.
      { intros E. assert (handle s' n i) as Hi' by (apply Hhc; [done | split; [done | by apply holds_true]]).
        apply Hne. destruct (handle_dev _ _ _ Hi'). apply (ci_uniq s' l Hc'); congruence. }
      split_and!; [done | by rewrite upd_ne |]. rewrite E3. unfold lock_for. apply decide_ext. set_solver +Hni.
  - intros m Hm. destruct (decide (m = n)) as [->|Hne]; [by exists b |].
    rewrite upd_ne in Hm by done. assert (refs m <> 0 \/ m ∈ H) as Hm' by set_solver +Hm Hne.
    destruct (bs_cached _ _ _ Hs m Hm') as (i & Hi & Hvi). pose proof (Hother m i Hne Hm' Hi) as Hib.
    exists i. rewrite Hhc, Hoth by done. done.
  - intros m. by apply Hct.
  - intros m c Hm Hmc. assert (m <> n) by congruence. apply Hhc; [| done]. by eapply Hother; eauto.
Qed.

(** [bread]: the block's buffer, locked and with one more reference. *)
Lemma wp_bread s refs H n :
  bstate s refs H -> n ∉ H -> counted refs H -> 0 <= refs n < 2 ^ 32 - 1 -> (refs n <> 0 \/ roomy refs) ->
  wp (bread pid dev n) (bread_view s refs H n) s.
Proof.
  intros Hs Hn Hcnt Hr Hroom. destruct (bs_inv _ _ _ Hs) as [l Hc].
  pose proof (bstate_lock_inv s refs H Hs Hcnt) as Hk.
  destruct (List.find (holds s dev n) l) as [b|] eqn:Ef.
  - apply List.find_some in Ef as [Hb%list_elem_of_In Hh]. apply (lru_nodup _ _ (ci_lru _ _ Hc)) in Hb.
    assert (handle s n b) as Hbn by done. destruct (handle_state s refs H n b Hs Hbn) as [Er El].
    destruct (bread_hit s l pid dev n b) as (s' & E & Hp); try done; [lia | |].
    { unfold is_locked. rewrite El. unfold lock_for. by rewrite decide_False. }
    apply wp_ok. exists b, s'. split; [done |]. eapply bread_post_view; [done.. | by left].
  - assert (forall c, ~ handle s n c) as Hno.
    { intros c [Hcb Hch]. apply (List.find_none _ _) with (x := c) in Ef; [by rewrite Ef in Hch |].
      apply list_elem_of_In. by apply (lru_nodup _ _ (ci_lru _ _ Hc)). }
    assert (refs n = 0) as Hr0.
    { destruct (decide (refs n = 0)) as [|Hne]; [done |].
      destruct (bs_cached _ _ _ Hs n (or_introl Hne)) as (i & Hi & _). by destruct (Hno i). }
    destruct Hroom as [?|Hroom]; [done |]. destruct (roomy_unused s refs H l Hs Hc Hroom) as [b Hb].
    destruct (bread_miss s l pid dev n b) as (s' & E & Hp); try done.
    apply wp_ok. exists b, s'. split; [done |]. eapply bread_post_view; [done.. | right].
    destruct (find_lru s l _ _ Hc Hb) as [Hbl Hz%Z.eqb_eq]. split_and!; try done.
    destruct (holds s dev n b) eqn:Eh; [| done]. by destruct (Hno b).
Qed.

(** Without a reference the cache agrees with the disk. *)
Lemma unref_view s refs H n : bstate s refs H -> refs n = 0 -> view s n = on_disk s n.
Proof.
  intros Hs Hr. destruct (bs_inv _ _ _ Hs) as [l Hc]. destruct (holder_dec s dev n) as [(i & Hi & Hh)|Hno].
  - unfold view. rewrite (content_hit s l dev n i) by done. destruct (b_valid (getb s i)) eqn:Hv; [| done].
    destruct (handle_state s refs H n i Hs (conj Hi Hh)) as [Er _]. apply holds_true in Hh as [_ En].
    rewrite <- En. apply (ci_clean s l Hc); congruence.
  - by apply content_miss.
Qed.

(** A buffer that is its block's only cache and keeps its identity. *)
Lemma updated_same_block s s' refs H n b x l :
  bstate s refs H -> cache_inv s l -> handle s n b -> updated s s' b x ->
  b_next x = nxt s b -> b_prev x = prv s b -> b_dev x = dev -> b_blockno x = n ->
  0 <= b_refcnt x < 2 ^ 32 -> (b_refcnt x = 0 -> b_valid x = true -> b_data x = on_disk s n) ->
  cache_inv s' l /\
  (forall m, view s' m = if decide (m = n) then (if b_valid x then b_data x else on_disk s n) else view s m).
Proof.
  intros Hs Hc Hb Hu Hnx Hpv Ed En Hr Hcl.
  assert (cache_inv s' l) as Hc'.
  { eapply updated_inv; try done; [by destruct Hb | | by rewrite En].
    intros _ j Hj Hne. rewrite Ed, En. destruct (holds s dev n j) eqn:E; [| done].
    destruct Hne. by apply (handle_fun s refs H n). }
  split; [done |]. intros m. destruct Hu as (D & L & G). case_decide as Hm; [subst m | unfold view].
  - assert (handle s' n b) as Hb'.
    { destruct Hb. split; [done |]. apply holds_true. rewrite G, decide_True by done. done. }
    destruct Hb' as [? Hh']. unfold view. rewrite (content_hit s' l dev n b), G, decide_True by done.
    unfold on_disk. by rewrite D.
  - apply (updated_content s s' b x l); try done; [by destruct Hb | congruence |].
    intros Hold _. destruct (handle_dev _ _ _ Hb). apply holds_true in Hold as [? ?]. congruence.
Qed.

Lemma wp_bset s refs H n b d :
  bstate s refs H -> handle s n b -> n ∈ H -> refs n <> 0 ->
  wp (bset b d) (fun _ s' => bstate s' refs H /\ (forall m, view s' m = upd (view s) n d m) /\
    disk s' = disk s /\ (forall m c, handle s m c <-> handle s' m c)) s.
Proof.
  intros Hs Hb Hn Hr. destruct (bs_inv _ _ _ Hs) as [l Hc]. pose proof (lr_len _ _ (ci_lru _ _ Hc)).
  destruct (setb_updated s b (with_data d)) as (s' & E & U); [destruct Hb; lia |].
  apply wp_ok. exists tt, s'. split; [exact E |].
  destruct (handle_state _ _ _ _ _ Hs Hb) as [Er El]. destruct (handle_dev _ _ _ Hb) as [Ed En].
  pose proof (ci_ref _ _ Hc b (proj1 Hb)).
  assert (b_valid (getb s b) = true) as Hv.
  { destruct (bs_cached _ _ _ Hs n (or_intror Hn)) as (i & Hi & Hv). by rewrite (handle_fun s refs H n b i). }
  destruct (updated_same_block s s' refs H n b _ l Hs Hc Hb U) as [Hc' Hview]; cbn; try done; [congruence |].
  destruct U as (D & L & G).
  destruct (bstate_change s s' refs H H l n b (refs n) Hs Hc' Hb) as [Hs' Hh]; try done.
  - intros j. rewrite G. case_decide; by subst.
  - intros j Hne. by rewrite G, decide_False.
  - by rewrite G, decide_True.
  - by rewrite G, decide_True.
  - split_and!; [| | done | done].
    + eapply bstate_ext; [| exact Hs']. intros m. unfold upd. case_decide; by subst.
    + intros m. rewrite Hview. cbn. unfold upd. case_decide; by rewrite ?Hv.
Qed.

Lemma wp_brelse_law s refs H n b :
  bstate s refs H -> handle s n b -> n ∈ H -> (refs n = 1 -> view s n = on_disk s n) ->
  wp (brelse pid b) (fun _ s' => bstate s' (upd refs n (u32 (refs n - 1))) (H ∖ {[n]}) /\
    (forall m, view s' m = view s m) /\ disk s' = disk s /\ (forall m c, handle s m c <-> handle s' m c)) s.
Proof.
  intros Hs Hb Hn Hcl. destruct (bs_inv _ _ _ Hs) as [l Hc].
  destruct (handle_state _ _ _ _ _ Hs Hb) as [Er El]. destruct (handle_dev _ _ _ Hb) as [Ed En].
  assert (b_lock (getb s b) = SleepLock 1 pid) as El' by (rewrite El; unfold lock_for; by rewrite decide_True).
  eapply wp_mono; [apply (wp_brelse s l pid b Hc (proj1 Hb)) |].
  - unfold is_locked. by rewrite El'.
  - by rewrite El'.
  - rewrite Er, En. intros E1 _. rewrite <- Hcl by done. by apply (held_view s refs H).
  - intros [] s' [Hl Hr (l' & Hc' & _) Hcore D Hct].
    destruct (bstate_change s s' refs H (H ∖ {[n]}) l' n b (u32 (refs n - 1)) Hs Hc' Hb) as [Hs' Hh].
    + intros j. destruct (Hcore j) as (-> & -> & -> & _). done.
    + intros j Hj. destruct (Hcore j) as (_ & _ & _ & _ & Hx). by apply Hx.
    + by rewrite Hr, Er.
    + rewrite Hl. unfold lock_for. by rewrite decide_False by set_solver +.
    + set_solver +.
    + intros _. destruct (bs_cached _ _ _ Hs n (or_intror Hn)) as (i & Hi & Hv). by rewrite (handle_fun s refs H n b i).
    + split_and!; [done | | done | done]. intros m. by apply Hct.
Qed.

(** [bpin] and [bunpin]: any new count. *)
Lemma wp_bcount s refs H n b f :
  bstate s refs H -> handle s n b -> n ∈ H -> 0 <= f (refs n) < 2 ^ 32 -> (f (refs n) = 0 -> view s n = on_disk s n) ->
  wp (setb b (fun x => with_refcnt (f (b_refcnt x)) x)) (fun _ s' =>
    bstate s' (upd refs n (f (refs n))) H /\ (forall m, view s' m = view s m) /\ disk s' = disk s /\
    (forall m c, handle s m c <-> handle s' m c)) s.
Proof.
  intros Hs Hb Hn Hr Hcl. destruct (bs_inv _ _ _ Hs) as [l Hc]. pose proof (lr_len _ _ (ci_lru _ _ Hc)).
  destruct (setb_updated s b (fun x => with_refcnt (f (b_refcnt x)) x)) as (s' & E & U); [destruct Hb; lia |].
  apply wp_ok. exists tt, s'. split; [exact E |].
  destruct (handle_state _ _ _ _ _ Hs Hb) as [Er El]. destruct (handle_dev _ _ _ Hb) as [Ed En].
  assert (b_valid (getb s b) = true) as Hv.
  { destruct (bs_cached _ _ _ Hs n (or_intror Hn)) as (i & Hi & Hv). by rewrite (handle_fun s refs H n b i). }
  rewrite Er in U. destruct (updated_same_block s s' refs H n b _ l Hs Hc Hb U) as [Hc' Hview]; cbn; try done.
  { intros E0 _. rewrite (held_view s refs H n b Hs Hb Hn). by apply Hcl. }
  destruct U as (D & L & G).
  destruct (bstate_change s s' refs H H l n b (f (refs n)) Hs Hc' Hb) as [Hs' Hh]; try done.
  - intros j. rewrite G. case_decide; by subst.
  - intros j Hne. by rewrite G, decide_False.
  - by rewrite G, decide_True.
  - by rewrite G, decide_True.
  - split_and!; [done | | done | done]. intros m. rewrite Hview. cbn. case_decide; [| done]. subst m.
    rewrite Hv. by apply (held_view s refs H).
Qed.

Lemma wp_bwrite s refs H n b :
  bstate s refs H -> handle s n b -> n ∈ H ->
  wp (bwrite pid b) (fun _ s' => bstate s' refs H /\ (forall m, view s' m = view s m) /\
    disk s' = <[n := view s n]> (disk s) /\ (forall m c, handle s m c <-> handle s' m c)) s.
Proof.
  intros Hs Hb Hn. destruct (bs_inv _ _ _ Hs) as [l Hc].
  destruct (handle_state _ _ _ _ _ Hs Hb) as [Er El]. destruct (handle_dev _ _ _ Hb) as [Ed En].
  unfold bwrite. apply wp_bind. destruct (holding_buf s b pid) as (s0 & E0 & D0 & L0 & G0).
  apply wp_ok. eexists _, s0. split; [exact E0 |]. unfold is_locked. rewrite El. unfold lock_for.
  rewrite decide_True by done. cbn [sl_locked sl_pid Z.eqb negb andb]. rewrite Z.eqb_refl. cbn [negb].
  apply wp_modify. set (s' := Bst _ _).
  assert (forall j, getb s' j = getb s j) as G by (intros j; apply G0).
  assert (disk s' = <[n := view s n]> (disk s)) as D.
  { cbn. by rewrite D0, !G0, En, (held_view s refs H n b). }
  assert (length (bufs s') = length (bufs s)) as L by exact L0. clearbody s'.
  assert (forall m, on_disk s' m = if decide (m = n) then view s n else on_disk s m) as Hd.
  { intros m. unfold on_disk. rewrite D. case_decide; [subst; by rewrite lookup_insert_eq | by rewrite lookup_insert_ne]. }
  assert (cache_inv s' l) as Hc'.
  { destruct Hc as [[Hlen Hp Hl] Hu Hrf Hcl]. split.
    - split; [congruence | done |]. apply (linked_frame s); [| | done]; intros; unfold nxt, prv; by rewrite G.
    - intros i j. rewrite !G. apply Hu.
    - intros i. rewrite G. apply Hrf.
    - intros i Hi. rewrite G, Hd. intros Hz Hv. case_decide as Em; [| by apply Hcl].
      assert (handle s n i) as Hin.
      { split; [done |]. apply holds_true. destruct (bs_buf _ _ _ Hs i Hi) as [(_ & _ & ? & _)|(-> & _)]; [congruence | done]. }
      by rewrite (held_view s refs H n i). }
  assert (forall m c, handle s m c <-> handle s' m c) as Hh by (intros; unfold handle, holds; by rewrite G).
  split_and!; [split; [by exists l | |] | | done | done].
  - intros i Hi. unfold buf_state. rewrite G. by apply (bs_buf _ _ _ Hs).
  - intros m Hm. destruct (bs_cached _ _ _ Hs m Hm) as (i & Hi & Hv). exists i. by rewrite <- Hh, G.
  - intros m. unfold view. destruct (holder_dec s dev m) as [(i & Hi & Hm)|Hno].
    + rewrite (content_hit s' l dev m i), (content_hit s l dev m i), G, Hd by (done || (by apply Hh)).
      case_decide as Em; [subst m | done].
      destruct (bs_cached _ _ _ Hs n (or_intror Hn)) as (j & Hj & Hv). by rewrite (handle_fun s refs H n i j), Hv.
    + rewrite !content_miss, Hd; [| done | intros i Hi; unfold holds; rewrite G; by apply Hno].
      rewrite decide_False; [done |]. intros ->. destruct Hb as [Hb1 Hb2]. by rewrite Hno in Hb2.
Qed.

End bcache.
