(* ===== verification/Layout.v ===== *)
(** * Bytes of on-disk structures

    A block is a list of bytes.  The structures the kernel overlays on a
    block (log header, inode, directory entry, indirect block) are read and
    written as little-endian fields at byte offsets. *)

From S2P Require Import Prelude.

Fixpoint le_val (bs : list Z) : Z :=
  match bs with
  | [] => 0
  | b :: r => u8 b + 256 * le_val r
  end.

Fixpoint le_bytes (k : nat) (v : Z) : list Z :=
  match k with
  | O => []
  | S k' => v mod 256 :: le_bytes k' (v / 256)
  end.

(** [len] bytes at offset [off], and their replacement. *)
Definition slice (l : list Z) (off len : nat) : list Z := take len (drop off l).
Definition splice (l : list Z) (off : nat) (bs : list Z) : list Z :=
  take off l ++ bs ++ drop (off + length bs) l.

Definition get_le (k : nat) (l : list Z) (off : Z) : Z := le_val (slice l (Z.to_nat off) k).
Definition put_le (k : nat) (l : list Z) (off v : Z) : list Z := splice l (Z.to_nat off) (le_bytes k v).

Definition get8 := get_le 1.
Definition get16 := get_le 2.
Definition get32 := get_le 4.
Definition get64 := get_le 8.
Definition put8 := put_le 1.
Definition put16 := put_le 2.
Definition put32 := put_le 4.

Lemma length_le_bytes k v : length (le_bytes k v) = k.
Proof. revert v. induction k as [|k IH]; intros v; cbn; [done |]. by rewrite IH. Qed.

Lemma le_val_bytes k v : le_val (le_bytes k v) = v mod 256 ^ Z.of_nat k.
Proof.
  revert v. induction k as [|k IH]; intros v; cbn [le_bytes le_val]; [by rewrite Z.mod_1_r |].
  rewrite IH, Nat2Z.inj_succ, Z.pow_succ_r by lia. unfold u8. change (2 ^ 8) with 256.
  rewrite Z.mod_mod by lia. rewrite Z.rem_mul_r by lia. lia.
Qed.

Lemma le_val_range bs : 0 <= le_val bs < 256 ^ Z.of_nat (length bs).
Proof.
  induction bs as [|b bs IH]; cbn [le_val length]; [lia |].
  pose proof (u8_range b). rewrite Nat2Z.inj_succ, Z.pow_succ_r by lia. lia.
Qed.

Lemma get_le_range k l off : 0 <= get_le k l off < 256 ^ Z.of_nat k.
Proof.
  unfold get_le, slice. pose proof (le_val_range (take k (drop (Z.to_nat off) l))) as Hr.
  assert (256 ^ Z.of_nat (length (take k (drop (Z.to_nat off) l))) <= 256 ^ Z.of_nat k); [| lia].
  apply Z.pow_le_mono_r; [lia |]. rewrite length_take. lia.
Qed.

Lemma length_splice l off bs : (off + length bs <= length l)%nat -> length (splice l off bs) = length l.
Proof. intros. unfold splice. rewrite !length_app, length_take, length_drop. lia. Qed.

Lemma length_slice l off len : (off + len <= length l)%nat -> length (slice l off len) = len.
Proof. intros. unfold slice. rewrite length_take, length_drop. lia. Qed.

Lemma lookup_splice l off bs i :
  (off + length bs <= length l)%nat ->
  splice l off bs !! i = if decide (off <= i < off + length bs)%nat then bs !! (i - off)%nat else l !! i.
Proof.
  intros Hlen. unfold splice. destruct (decide (i < off)%nat) as [Hi|Hi].
  - rewrite lookup_app_l by (rewrite length_take; lia). rewrite lookup_take_lt by lia. by rewrite decide_False by lia.
  - rewrite lookup_app_r by (rewrite length_take; lia). rewrite length_take, Nat.min_l by lia.
    case_decide as Hin.
    + by rewrite lookup_app_l by lia.
    + rewrite lookup_app_r by lia. rewrite lookup_drop. f_equal. lia.
Qed.

Lemma lookup_slice l off len i :
  slice l off len !! i = if decide (i < len)%nat then l !! (off + i)%nat else None.
Proof.
  unfold slice. case_decide.
  - by rewrite lookup_take_lt, lookup_drop.
  - by rewrite lookup_take_ge by lia.
Qed.

Lemma slice_splice_eq l off bs :
  (off + length bs <= length l)%nat -> slice (splice l off bs) off (length bs) = bs.
Proof.
  intros Hlen. unfold slice, splice. rewrite drop_app_length' by (rewrite length_take; lia).
  by rewrite take_app_length.
Qed.

Lemma slice_splice_ne l off bs o len :
  (off + length bs <= length l)%nat -> (o + len <= off \/ off + length bs <= o)%nat ->
  slice (splice l off bs) o len = slice l o len.
Proof.
  intros Hlen Ho. apply list_eq. intros i. rewrite !lookup_slice. case_decide; [| done].
  rewrite lookup_splice by done. by rewrite decide_False by lia.
Qed.

Lemma length_put_le k l off v : 0 <= off -> off + Z.of_nat k <= Z.of_nat (length l) -> length (put_le k l off v) = length l.
Proof. intros. apply length_splice. rewrite length_le_bytes. lia. Qed.

Lemma get_put_eq k l off v :
  0 <= off -> off + Z.of_nat k <= Z.of_nat (length l) ->
  get_le k (put_le k l off v) off = v mod 256 ^ Z.of_nat k.
Proof.
  intros H0 Hlen. unfold get_le, put_le. pose proof (slice_splice_eq l (Z.to_nat off) (le_bytes k v)) as E.
  rewrite length_le_bytes in E. rewrite E by lia. apply le_val_bytes.
Qed.

Lemma get_put_ne k j l off v o :
  0 <= off -> off + Z.of_nat k <= Z.of_nat (length l) -> 0 <= o ->
  (o + Z.of_nat j <= off \/ off + Z.of_nat k <= o) ->
  get_le j (put_le k l off v) o = get_le j l o.
Proof.
  intros H0 Hlen Ho Hd. unfold get_le, put_le. rewrite slice_splice_ne; [done | |]; rewrite length_le_bytes; lia.
Qed.
