(* ===== verification/Log.v ===== *)
(** * kernel/log.c: the write-ahead log

    The functions of log.c over the buffer cache of Bio.v.  The state keeps,
    besides the cache and [struct log], every disk content since the start
    (newest first): a crash leaves one of them.  [recovered d] is the file
    system a disk [d] stands for, its committed transaction included.  The
    theorems: a commit moves [recovered] from the old file system to the new
    one in one step, whatever the crash point; recovery installs [recovered];
    the space reservation of [begin_op]; and the reference count that
    recovery leaves behind. *)

From S2P Require Import Prelude Riscv Sleeplock Bio Bcache Layout.

Record logheader := Logheader { lh_n : Z; lh_block : list Z }.

Record log := Log {
  lg_start : Z;
  lg_size : Z;
  lg_outstanding : Z;
  lg_committing : bool;
  lg_dev : Z;
  lg_lh : logheader;
}.

Record lst := Lst {
  l_b : bst;
  l_log : log;
  l_disks : list (gmap Z (list Z));
  l_woken : list chan;
}.

Definition in_b {A} (m : M bst A) : M lst A :=
  zoom l_b (fun b s => Lst b (l_log s) (l_disks s) (l_woken s)) m.
Definition set_log (f : log -> log) : M lst unit :=
  modify (fun s => Lst (l_b s) (f (l_log s)) (l_disks s) (l_woken s)).
Definition log_wakeup : M lst unit :=
  modify (fun s => Lst (l_b s) (l_log s) (l_disks s) (ChLog :: l_woken s)).

Definition with_lh (h : logheader) (g : log) : log :=
  Log (lg_start g) (lg_size g) (lg_outstanding g) (lg_committing g) (lg_dev g) h.
Definition with_outstanding (n : Z) (g : log) : log :=
  Log (lg_start g) (lg_size g) n (lg_committing g) (lg_dev g) (lg_lh g).
Definition with_committing (c : bool) (g : log) : log :=
  Log (lg_start g) (lg_size g) (lg_outstanding g) c (lg_dev g) (lg_lh g).

(** [lh.block[i]]. *)
Definition blk (h : logheader) (i : Z) : Z := default 0 (lh_block h !! Z.to_nat i).
Definition set_blk (i v : Z) (h : logheader) : logheader :=
  Logheader (lh_n h) (<[Z.to_nat i := v]> (lh_block h)).
Definition with_n (n : Z) (h : logheader) : logheader := Logheader n (lh_block h).

Section log.
Context (pid : Z).

(** [bwrite], noting the new disk. *)
Definition l_bwrite (b : nat) : M lst unit :=
  in_b (bwrite pid b) ;;;
  modify (fun s => Lst (l_b s) (l_log s) (disk (l_b s) :: l_disks s) (l_woken s)).

Definition bdata (b : nat) : M lst (list Z) := gets (fun s => b_data (getb (l_b s) b)).

(** One iteration of [install_trans]. *)
Definition install_one (tail : Z) : M lst unit :=
  let! g := gets l_log in
  let! lbuf := in_b (bread pid (lg_dev g) (u32 (lg_start g + tail + 1))) in
  let! dbuf := in_b (bread pid (lg_dev g) (u32 (blk (lg_lh g) tail))) in
  let! d := bdata lbuf in
  in_b (bset dbuf d) ;;;
  l_bwrite dbuf ;;;
  in_b (bunpin dbuf) ;;;
  in_b (brelse pid lbuf) ;;;
  in_b (brelse pid dbuf).

Definition repeat_for (n : Z) (body : Z -> M lst unit) : M lst unit :=
  for_range (R := unit) (Z.to_nat n) 0 (fun i => body i ;;; ret None) ;;; ret tt.

Definition install_trans : M lst unit :=
  let! g := gets l_log in
  repeat_for (lh_n (lg_lh g)) install_one.

(** The header as the bytes of its block. *)
Definition read_blocks (d : list Z) (n : Z) (h : logheader) : logheader :=
  fold_left (fun h i => set_blk i (s32 (get32 d (4 + 4 * i))) h) (seqZ 0 n) h.

Definition read_head : M lst unit :=
  let! g := gets l_log in
  let! buf := in_b (bread pid (lg_dev g) (u32 (lg_start g))) in
  let! d := bdata buf in
  let n := s32 (get32 d 0) in
  set_log (fun g => with_lh (read_blocks d n (with_n n (lg_lh g))) g) ;;;
  in_b (brelse pid buf).

Definition put_blocks (h : logheader) (n : Z) (d : list Z) : list Z :=
  fold_left (fun d i => put32 d (4 + 4 * i) (blk h i)) (seqZ 0 n) d.

Definition write_head : M lst unit :=
  let! g := gets l_log in
  let! buf := in_b (bread pid (lg_dev g) (u32 (lg_start g))) in
  let! d := bdata buf in
  in_b (bset buf (put_blocks (lg_lh g) (lh_n (lg_lh g)) (put32 d 0 (lh_n (lg_lh g))))) ;;;
  l_bwrite buf ;;;
  in_b (brelse pid buf).

Definition recover_from_log : M lst unit :=
  read_head ;;;
  install_trans ;;;
  set_log (fun g => with_lh (with_n 0 (lg_lh g)) g) ;;;
  write_head.

(** [sizeof(struct logheader)]. *)
Definition SIZEOF_LOGHEADER : Z := 4 + 4 * LOGSIZE.

(** [logstart] and [nlog] of the superblock. *)
Definition initlog (dev logstart nlog : Z) : M lst unit :=
  if BSIZE <=? SIZEOF_LOGHEADER then panic "initlog: too big logheader"
  else
    set_log (fun g => Log (s32 logstart) (s32 nlog) (lg_outstanding g) (lg_committing g) dev (lg_lh g)) ;;;
    recover_from_log.

(** One run, up to the return or the [sleep]; a sleeper starts again. *)
Definition begin_op : M lst unit :=
  let! g := gets l_log in
  if lg_committing g then sleep_on ChLog
  else if LOGSIZE <? lh_n (lg_lh g) + (lg_outstanding g + 1) * MAXOPBLOCKS then sleep_on ChLog
  else set_log (fun g => with_outstanding (lg_outstanding g + 1) g).

(** One iteration of [write_log]. *)
Definition write_one (tail : Z) : M lst unit :=
  let! g := gets l_log in
  let! to := in_b (bread pid (lg_dev g) (u32 (lg_start g + tail + 1))) in
  let! from := in_b (bread pid (lg_dev g) (u32 (blk (lg_lh g) tail))) in
  let! d := bdata from in
  in_b (bset to d) ;;;
  l_bwrite to ;;;
  in_b (brelse pid from) ;;;
  in_b (brelse pid to).

Definition write_log : M lst unit :=
  let! g := gets l_log in
  repeat_for (lh_n (lg_lh g)) write_one.

Definition commit : M lst unit :=
  let! g := gets l_log in
  if 0 <? lh_n (lg_lh g) then
    write_log ;;;
    write_head ;;;
    install_trans ;;;
    set_log (fun g => with_lh (with_n 0 (lg_lh g)) g) ;;;
    write_head
  else ret tt.

(** The part of [end_op] before [commit]; the result is [do_commit]. *)
Definition end_op_enter : M lst bool :=
  set_log (fun g => with_outstanding (lg_outstanding g - 1) g) ;;;
  let! g := gets l_log in
  if lg_committing g then panic "log.committing"
  else if lg_outstanding g =? 0 then set_log (with_committing true) ;;; ret true
  else log_wakeup ;;; ret false.

Definition end_op : M lst unit :=
  let! do_commit := end_op_enter in
  if do_commit then
    commit ;;;
    set_log (with_committing false) ;;;
    log_wakeup
  else ret tt.

(** The index of [blockno] among the first [n] blocks, or [n]. *)
Fixpoint log_find (fuel : nat) (h : logheader) (blockno i : Z) : Z :=
  match fuel with
  | O => i
  | S fuel' => if u32 (blk h i) =? blockno then i else log_find fuel' h blockno (i + 1)
  end.

Definition log_write (b : nat) : M lst unit :=
  let! g := gets l_log in
  let n := lh_n (lg_lh g) in
  if (LOGSIZE <=? n) || (lg_size g - 1 <=? n) then panic "too big a transaction"
  else if lg_outstanding g <? 1 then panic "log_write outside of trans"
  else
    let! blockno := gets (fun s => b_blockno (getb (l_b s) b)) in
    let i := log_find (Z.to_nat n) (lg_lh g) blockno 0 in
    set_log (fun g => with_lh (set_blk i (s32 blockno) (lg_lh g)) g) ;;;
    if i =? n then
      in_b (bpin b) ;;;
      set_log (fun g => with_lh (with_n (n + 1) (lg_lh g)) g)
    else ret tt.

End log.

(** ** The header's bytes *)

Lemma u32_s32 z : u32 (s32 z) = u32 z.
Proof.
  unfold u32, s32, signed. change (32 - 1) with 31. pose proof (Z.div_mod (z + 2 ^ 31) (2 ^ 32)) as E.
  replace ((z + 2 ^ 31) mod 2 ^ 32 - 2 ^ 31) with (z + (- ((z + 2 ^ 31) / 2 ^ 32)) * 2 ^ 32) by lia.
  by rewrite Z.mod_add by lia.
Qed.

Lemma length_put_blocks h l d :
  length d = 1024%nat -> Forall (fun i => 0 <= i < 255) l ->
  length (fold_left (fun d i => put32 d (4 + 4 * i) (blk h i)) l d) = 1024%nat.
Proof.
  intros Hd Hl. revert d Hd. induction Hl as [|i l Hi Hl IH]; intros d Hd; cbn; [done |].
  apply IH. unfold put32. rewrite length_put_le; lia.
Qed.

Lemma get_put_blocks h l d j :
  length d = 1024%nat -> Forall (fun i => 0 <= i < 255) l -> 0 <= j < 255 ->
  get32 (fold_left (fun d i => put32 d (4 + 4 * i) (blk h i)) l d) (4 + 4 * j) =
  if decide (j ∈ l) then u32 (blk h j) else get32 d (4 + 4 * j).
Proof.
  intros Hd Hl Hj. revert d Hd. induction Hl as [|i l Hi Hl IH]; intros d Hd; cbn [fold_left]; [done |].
  rewrite IH by (unfold put32; rewrite length_put_le; lia).
  destruct (decide (j ∈ l)) as [Hin|Hout]; [by rewrite decide_True by set_solver +Hin |].
  destruct (decide (j = i)) as [->|Hne].
  - rewrite decide_True by set_solver +. unfold get32, put32. by rewrite get_put_eq by lia.
  - rewrite decide_False by set_solver +Hne Hout. unfold get32, put32. apply get_put_ne; lia.
Qed.

Lemma get_put_blocks_n h l d :
  length d = 1024%nat -> Forall (fun i => 0 <= i < 255) l ->
  get32 (fold_left (fun d i => put32 d (4 + 4 * i) (blk h i)) l d) 0 = get32 d 0.
Proof.
  intros Hd Hl. revert d Hd. induction Hl as [|i l Hi Hl IH]; intros d Hd; cbn [fold_left]; [done |].
  rewrite IH by (unfold put32; rewrite length_put_le; lia). apply get_put_ne; lia.
Qed.

(** The bytes [write_head] leaves in the header block. *)
Definition head_bytes (h : logheader) (d : list Z) : list Z := put_blocks h (lh_n h) (put32 d 0 (lh_n h)).

Lemma head_bytes_spec h d :
  length d = 1024%nat -> 0 <= lh_n h <= LOGSIZE ->
  length (head_bytes h d) = 1024%nat /\ s32 (get32 (head_bytes h d) 0) = lh_n h /\
  forall i, 0 <= i < lh_n h -> u32 (s32 (get32 (head_bytes h d) (4 + 4 * i))) = u32 (blk h i).
Proof.
  intros Hd Hn. assert (length (put32 d 0 (lh_n h)) = 1024%nat) as Hd' by (unfold put32; rewrite length_put_le; lia).
  assert (Forall (fun i => 0 <= i < 255) (seqZ 0 (lh_n h))) as Hl.
  { apply Forall_forall. intros i Hi%elem_of_seqZ. klia. }
  split_and!.
  - by apply length_put_blocks.
  - unfold head_bytes, put_blocks. rewrite get_put_blocks_n by done. unfold get32, put32.
    rewrite get_put_eq by lia. change (256 ^ Z.of_nat 4) with (2 ^ 32). rewrite Z.mod_small by klia.
    apply s32_small. klia.
  - intros i Hi. unfold head_bytes, put_blocks. rewrite get_put_blocks by (done || klia).
    rewrite decide_True by (apply elem_of_seqZ; lia). rewrite u32_s32. unfold u32. by rewrite Z.mod_mod by lia.
Qed.

Lemma read_blocks_spec d l h :
  Forall (fun i => 0 <= i < Z.of_nat (length (lh_block h))) l -> NoDup l ->
  let h' := fold_left (fun h i => set_blk i (s32 (get32 d (4 + 4 * i))) h) l h in
  lh_n h' = lh_n h /\ length (lh_block h') = length (lh_block h) /\
  forall i, 0 <= i -> blk h' i = if decide (i ∈ l) then s32 (get32 d (4 + 4 * i)) else blk h i.
Proof.
  intros Hl Hnd. revert h Hl. induction Hnd as [|i l Hi Hnd IH]; intros h Hl; [done |].
  apply Forall_cons in Hl as [Hi0 Hl]. cbn [fold_left].
  destruct (IH (set_blk i (s32 (get32 d (4 + 4 * i))) h)) as (E1 & E2 & E3).
  { cbn. by rewrite length_insert. }
  cbn zeta. rewrite E1, E2. cbn [lh_n set_blk lh_block]. split_and!; [done | by rewrite length_insert |].
  intros j Hj. rewrite E3 by done. destruct (decide (j ∈ l)) as [Hin|Hout]; [by rewrite decide_True by set_solver +Hin |].
  unfold blk. cbn [set_blk lh_block]. destruct (decide (j = i)) as [->|Hne].
  - rewrite decide_True by set_solver +. rewrite list_lookup_insert_eq by lia. done.
  - rewrite decide_False by set_solver +Hne Hout. rewrite list_lookup_insert_ne by lia. done.
Qed.

(** ** What a disk stands for *)

Section recovered.
Context (start : Z).
Implicit Types d : gmap Z (list Z).

Definition home d (m : Z) : list Z := default zero_block (d !! m).

Definition hdr_n d : Z := s32 (get32 (home d start) 0).
Definition hdr_blk d (i : Z) : Z := u32 (s32 (get32 (home d start) (4 + 4 * i))).

(** Block [m] after replaying the log on [d]: the last logged copy. *)
Definition recovered d (m : Z) : list Z :=
  match List.find (fun i => hdr_blk d i =? m) (reverse (seqZ 0 (hdr_n d))) with
  | Some i => home d (start + i + 1)
  | None => home d m
  end.

(** A header that the code can have written: distinct home blocks outside the
    log, and no more of them than the log and the cache can take. *)
Record hdr_ok (size : Z) d : Prop := HdrOk {
  hk_n : 0 <= hdr_n d < size;
  hk_size : size <= LOGSIZE;
  hk_inj : forall i j, 0 <= i < hdr_n d -> 0 <= j < hdr_n d -> hdr_blk d i = hdr_blk d j -> i = j;
  hk_out : forall i, 0 <= i < hdr_n d -> ~ (start <= hdr_blk d i < start + size);
  hk_len : length (home d start) = 1024%nat;
}.

Lemma find_ext {A} (P Q : A -> bool) l : (forall x, P x = Q x) -> List.find P l = List.find Q l.
Proof. intros H. induction l as [|x l IH]; cbn; [done |]. by rewrite H, IH. Qed.

Lemma find_rev_seqZ (P : Z -> bool) n :
  match List.find P (reverse (seqZ 0 n)) with
  | Some i => 0 <= i < n /\ P i = true
  | None => forall i, 0 <= i < n -> P i = false
  end.
Proof.
  destruct (List.find _ _) as [i|] eqn:E.
  - apply List.find_some in E as [Hi HP]. apply list_elem_of_In, elem_of_reverse, elem_of_seqZ in Hi. split; [lia | done].
  - intros i Hi. apply (List.find_none _ _ E), list_elem_of_In, elem_of_reverse, elem_of_seqZ. lia.
Qed.

Lemma hdr_ext d d' : home d' start = home d start -> hdr_n d' = hdr_n d /\ forall i, hdr_blk d' i = hdr_blk d i.
Proof. intros E. unfold hdr_n, hdr_blk. by rewrite E. Qed.

Lemma hdr_ok_ext size d d' : home d' start = home d start -> hdr_ok size d -> hdr_ok size d'.
Proof.
  intros E [Hn Hs Hi Ho Hl]. destruct (hdr_ext d d' E) as [En Eb].
  split; rewrite ?En, ?E; [done | done | | | done]; intros *; rewrite !Eb; auto.
Qed.

Lemma recovered_ext d d' m :
  home d' start = home d start ->
  (forall i, 0 <= i < hdr_n d -> home d' (start + i + 1) = home d (start + i + 1)) ->
  ((forall i, 0 <= i < hdr_n d -> hdr_blk d i <> m) -> home d' m = home d m) ->
  recovered d' m = recovered d m.
Proof.
  intros E Hl Hm. destruct (hdr_ext d d' E) as [En Eb]. unfold recovered. rewrite En.
  rewrite (find_ext (fun i => hdr_blk d' i =? m) (fun i => hdr_blk d i =? m)) by (intros; by rewrite Eb).
  pose proof (find_rev_seqZ (fun i => hdr_blk d i =? m) (hdr_n d)) as Hf. destruct (List.find _ _) as [i|].
  - apply Hl, Hf.
  - apply Hm. intros i Hi. apply Z.eqb_neq, Hf, Hi.
Qed.

Lemma recovered_nil d m : hdr_n d = 0 -> recovered d m = home d m.
Proof. intros E. unfold recovered. by rewrite E. Qed.

Lemma home_insert d n b m : home (<[n := b]> d) m = if decide (m = n) then b else home d m.
Proof. unfold home. case_decide; [subst; by rewrite lookup_insert_eq | by rewrite lookup_insert_ne]. Qed.

(** A logged block, and any block that is not logged. *)
Lemma recovered_logged size d i : hdr_ok size d -> 0 <= i < hdr_n d -> recovered d (hdr_blk d i) = home d (start + i + 1).
Proof.
  intros Hok Hi. unfold recovered.
  pose proof (find_rev_seqZ (fun j => hdr_blk d j =? hdr_blk d i) (hdr_n d)) as Hf. destruct (List.find _ _) as [j|].
  - destruct Hf as [Hj Hji%Z.eqb_eq]. by rewrite (hk_inj _ _ Hok j i).
  - specialize (Hf i Hi). cbn in Hf. by rewrite Z.eqb_refl in Hf.
Qed.

Lemma recovered_unlogged d m : (forall i, 0 <= i < hdr_n d -> hdr_blk d i <> m) -> recovered d m = home d m.
Proof.
  intros Hm. unfold recovered. pose proof (find_rev_seqZ (fun i => hdr_blk d i =? m) (hdr_n d)) as Hf.
  destruct (List.find _ _) as [i|]; [| done]. destruct Hf as [Hi Hj%Z.eqb_eq]. by destruct (Hm i Hi).
Qed.

(** Installing a logged block, or writing the unused part of the log, leaves
    what the disk stands for. *)
Lemma recovered_install size d i m :
  hdr_ok size d -> 0 <= i < hdr_n d ->
  recovered (<[hdr_blk d i := home d (start + i + 1)]> d) m = recovered d m.
Proof.
  intros Hok Hi. pose proof (hk_out _ _ Hok i Hi). pose proof (hk_n _ _ Hok).
  apply recovered_ext; intros *; rewrite ?home_insert.
  - by rewrite decide_False by lia.
  - intros Hj. by rewrite decide_False by lia.
  - intros Hm. rewrite decide_False; [done |]. intros ->. by destruct (Hm i).
Qed.

End recovered.

Section laws.
Context (dev pid : Z) (Hdev : dev <> 0).
Implicit Types (s : lst) (refs : Z -> Z).

Abbreviation bstate := (bstate dev pid).
Abbreviation view := (view dev).

Definition logs s (start size : Z) : Prop :=
  lg_start (l_log s) = start /\ lg_size (l_log s) = size /\ lg_dev (l_log s) = dev.

(** [s'] differs from [s] in the cache and the disk, the new disks being [ds]. *)
Definition wrote s s' (ds : list (gmap Z (list Z))) : Prop :=
  l_log s' = l_log s /\ l_woken s' = l_woken s /\ l_disks s' = ds ++ l_disks s.

Lemma l_bwrite_law s refs H n b :
  bstate (l_b s) refs H -> handle dev (l_b s) n b -> n ∈ H ->
  wp (l_bwrite pid b) (fun _ s' => bstate (l_b s') refs H /\ (forall m, view (l_b s') m = view (l_b s) m) /\
    disk (l_b s') = <[n := view (l_b s) n]> (disk (l_b s)) /\
    (forall m c, handle dev (l_b s) m c <-> handle dev (l_b s') m c) /\ wrote s s' [disk (l_b s')]) s.
Proof.
  intros Hs Hb Hn. unfold l_bwrite. apply wp_bind, wp_zoom.
  eapply wp_mono; [by eapply wp_bwrite |]. intros [] t (H1 & H2 & H3 & H4).
  apply wp_modify. cbn. done.
Qed.

(** [roomy] with one or two more blocks. *)
Definition roomy_for (k : Z) refs : Prop :=
  exists A : gset Z, (forall n, refs n <> 0 -> n ∈ A) /\ Z.of_nat (size A) + k <= NBUF.

Lemma roomy_for_roomy refs k : 1 <= k -> roomy_for k refs -> roomy refs.
Proof. intros Hk (A & HA & Hsz). exists A. split; [done | lia]. Qed.

Lemma roomy_for_upd refs k n v : roomy_for (k + 1) refs -> roomy_for k (upd refs n v).
Proof.
  intros (A & HA & Hsz). exists ({[n]} ∪ A). split.
  - intros m. unfold upd. case_decide; [set_solver | intros ?%HA; set_solver].
  - rewrite size_union_alt, size_singleton. pose proof (subseteq_size (A ∖ {[n]}) A ltac:(set_solver +)). lia.
Qed.

(** The two [bread]s that start an iteration of [install_trans] and of
    [write_log]: a log block [lb] and a home block [db]. *)
Record both_read s refs lb db lbuf dbuf s2 : Prop := BothRead {
  bo_state : bstate (l_b s2) (upd (upd refs lb 1) db (refs db + 1)) {[ db; lb ]};
  bo_lb : handle dev (l_b s2) lb lbuf;
  bo_db : handle dev (l_b s2) db dbuf;
  bo_view : forall m, view (l_b s2) m = view (l_b s) m;
  bo_disk : disk (l_b s2) = disk (l_b s);
  bo_rest : wrote s s2 [];
}.

Lemma wp_both_read {A} s refs lb db (k : nat -> nat -> M lst A) Q :
  bstate (l_b s) refs ∅ -> lb <> db -> refs lb = 0 -> 0 <= refs db <= 1 ->
  roomy_for 1 refs -> (refs db <> 0 \/ roomy_for 2 refs) ->
  (forall lbuf dbuf s2, both_read s refs lb db lbuf dbuf s2 -> wp (k lbuf dbuf) Q s2) ->
  wp (let! lbuf := in_b (bread pid dev lb) in let! dbuf := in_b (bread pid dev db) in k lbuf dbuf) Q s.
Proof.
  intros Hs Hne Hr1 Hr2 Hroom Hroom2 HQ. apply wp_bind, wp_zoom. eapply wp_mono.
  { apply (wp_bread dev pid Hdev (l_b s) refs ∅ lb Hs); [set_solver + | by intros ? ?%elem_of_empty | lia |].
    right. by apply (roomy_for_roomy refs 1). }
  intros lbuf s1 (B1 & K1 & V1 & D1 & _). apply wp_bind, wp_zoom. cbn [l_b]. eapply wp_mono.
  { apply (wp_bread dev pid Hdev s1 _ _ db B1).
    - set_solver +Hne.
    - intros n Hn. replace n with lb by set_solver. rewrite upd_eq. lia.
    - rewrite upd_ne by congruence. lia.
    - rewrite upd_ne by congruence. destruct Hroom2 as [?|?]; [by left | right].
      apply (roomy_for_roomy _ 1); [lia |]. by apply (roomy_for_upd refs 1). }
  intros dbuf s2 (B2 & K2 & V2 & D2 & H2). apply HQ. rewrite (upd_ne refs), Hr1 in B2 by congruence.
  split; cbn [l_b]; try done.
  - by rewrite (union_empty_r_L (C := gset Z)) in B2.
  - apply H2; [set_solver + | done].
  - intros m. by rewrite V2, V1.
  - by rewrite D2, D1.
Qed.

(** Copying a block: [bread] of a source and a target, the target written to
    disk, as in the loops of [install_trans] and [write_log]. *)
Lemma wp_install_one s refs start size t :
  let lb := start + t + 1 in let db := u32 (blk (lg_lh (l_log s)) t) in
  bstate (l_b s) refs ∅ -> logs s start size -> 0 <= lb < 2 ^ 32 -> lb <> db -> refs lb = 0 -> 0 <= refs db <= 1 ->
  roomy_for 1 refs -> (refs db <> 0 \/ roomy_for 2 refs) ->
  wp (install_one pid t) (fun _ s' =>
    bstate (l_b s') (upd refs db (u32 (refs db - 1))) ∅ /\
    (forall m, view (l_b s') m = upd (view (l_b s)) db (view (l_b s) lb) m) /\
    disk (l_b s') = <[db := on_disk (l_b s) lb]> (disk (l_b s)) /\ wrote s s' [disk (l_b s')]) s.
Proof.
  intros lb db Hs (E1 & E2 & E3) Hlb Hne Hr1 Hr2 Hroom Hroom2. unfold install_one.
  pose proof (unref_view dev pid Hdev _ _ _ lb Hs Hr1) as Hlbv.
  apply wp_bind, wp_gets. rewrite E1, E3. fold db. fold lb. rewrite (u32_small lb) by done.
  apply (wp_both_read s refs lb db); try done. intros lbuf dbuf s2 [B2 K1 K2 V2 D2 (W1 & W2 & W3)].
  apply wp_bind, wp_gets. cbn [l_b].
  rewrite (held_view dev pid Hdev (l_b s2) _ _ lb lbuf B2 K1) by set_solver +. rewrite V2. apply wp_bind, wp_zoom. eapply wp_mono.
  { apply (wp_bset dev pid Hdev (l_b s2) _ _ db _ _ B2 K2); [set_solver + | rewrite upd_eq; lia]. }
  intros [] s3 (B3 & V3 & D3 & H3). apply wp_bind. eapply wp_mono.
  { eapply l_bwrite_law; cbn [l_b]; [exact B3 | by apply H3 | set_solver +]. }
  cbn [l_b]. intros [] s4 (B4 & V4 & D4 & H4 & W4). apply wp_bind, wp_zoom.
  rewrite V3, upd_eq in D4. assert (view (l_b s4) db = on_disk (l_b s4) db) as Hdb4.
  { rewrite V4, V3, upd_eq. unfold on_disk. by rewrite D4, lookup_insert_eq. }
  eapply wp_mono.
  { apply (wp_bcount dev pid Hdev (l_b s4) _ _ db dbuf (fun r => u32 (r - 1)) B4); [by apply H4, H3 | set_solver + | apply u32_range | done]. }
  intros [] s5 (B5 & V5 & D5 & H5). rewrite upd_eq in B5. replace (refs db + 1 - 1) with (refs db) in B5 by lia.
  rewrite (u32_small (refs db)) in B5 by lia.
  assert (forall m, view s5 m = upd (view (l_b s)) db (view (l_b s) lb) m) as V.
  { intros m. rewrite V5, V4, V3. unfold upd. case_decide; [done | by rewrite V2]. }
  assert (disk s5 = <[db := view (l_b s) lb]> (disk (l_b s))) as D by congruence.
  apply wp_bind, wp_zoom. cbn [l_b]. eapply wp_mono.
  { apply (wp_brelse_law dev pid Hdev s5 _ _ lb lbuf B5); [by apply H5, H4, H3 | set_solver + |]. intros _.
    rewrite V, upd_ne by done. unfold on_disk in *. by rewrite D, lookup_insert_ne. }
  intros [] s6 (B6 & V6 & D6 & H6). apply wp_zoom. cbn [l_b]. eapply wp_mono.
  { apply (wp_brelse_law dev pid Hdev s6 _ _ db dbuf B6); [by apply H6, H5, H4, H3 | set_solver +Hne |]. intros _.
    rewrite V6, V, upd_eq. unfold on_disk. by rewrite D6, D, lookup_insert_eq. }
  intros [] s7 (B7 & V7 & D7 & _). cbn [l_b l_disks l_log l_woken].
  assert (disk s7 = disk (l_b s4)) as E7 by congruence.
  split_and!.
  - eapply bstate_ext; [| replace (∅ : gset Z) with (({[db; lb]} : gset Z) ∖ {[lb]} ∖ {[db]}) by set_solver +Hne; exact B7].
    intros m. unfold upd. repeat case_decide; subst; try congruence. rewrite u32_small; lia.
  - intros m. by rewrite V7, V6, V.
  - by rewrite D7, D6, D, Hlbv.
  - unfold wrote in *. cbn [l_log l_woken l_disks] in *. rewrite E7. destruct W4 as (-> & -> & ->).
    by rewrite W1, W2, W3.
Qed.

Lemma wp_write_one s refs start size t :
  let lb := start + t + 1 in let db := u32 (blk (lg_lh (l_log s)) t) in
  bstate (l_b s) refs ∅ -> logs s start size -> 0 <= lb < 2 ^ 32 -> lb <> db -> refs lb = 0 -> refs db = 1 ->
  roomy_for 1 refs ->
  wp (write_one pid t) (fun _ s' =>
    bstate (l_b s') refs ∅ /\
    (forall m, view (l_b s') m = upd (view (l_b s)) lb (view (l_b s) db) m) /\
    disk (l_b s') = <[lb := view (l_b s) db]> (disk (l_b s)) /\ wrote s s' [disk (l_b s')]) s.
Proof.
  intros lb db Hs (E1 & E2 & E3) Hlb Hne Hr1 Hr2 Hroom. unfold write_one.
  apply wp_bind, wp_gets. rewrite E1, E3. fold db. fold lb. rewrite (u32_small lb) by done.
  apply (wp_both_read s refs lb db); try done; [lia | left; lia |].
  intros to from s2 [B2 K1 K2 V2 D2 (W1 & W2 & W3)]. rewrite Hr2 in B2.
  apply wp_bind, wp_gets. rewrite (held_view dev pid Hdev (l_b s2) _ _ db from B2 K2) by set_solver +.
  rewrite V2. apply wp_bind, wp_zoom. eapply wp_mono.
  { apply (wp_bset dev pid Hdev (l_b s2) _ _ lb _ _ B2 K1); [set_solver + |]. by rewrite upd_ne, upd_eq by done. }
  intros [] s3 (B3 & V3 & D3 & H3). apply wp_bind. eapply wp_mono.
  { eapply l_bwrite_law; cbn [l_b]; [exact B3 | by apply H3 | set_solver +]. }
  cbn [l_b]. intros [] s4 (B4 & V4 & D4 & H4 & W4). rewrite V3, upd_eq in D4.
  apply wp_bind, wp_zoom. eapply wp_mono.
  { apply (wp_brelse_law dev pid Hdev (l_b s4) _ _ db from B4); [by apply H4, H3 | set_solver + |].
    rewrite upd_eq. lia. }
  intros [] s5 (B5 & V5 & D5 & H5). apply wp_zoom. cbn [l_b]. eapply wp_mono.
  { apply (wp_brelse_law dev pid Hdev s5 _ _ lb to B5); [by apply H5, H4, H3 | set_solver +Hne |]. intros _.
    rewrite V5, V4, V3, upd_eq. unfold on_disk. by rewrite D5, D4, lookup_insert_eq. }
  intros [] s6 (B6 & V6 & D6 & _). cbn [l_b]. assert (disk s6 = disk (l_b s4)) as E6 by congruence.
  split_and!.
  - eapply bstate_ext; [| replace (∅ : gset Z) with (({[db; lb]} : gset Z) ∖ {[db]} ∖ {[lb]}) by set_solver +; exact B6].
    intros m. unfold upd. repeat case_decide; subst; try congruence; rewrite u32_small; lia.
  - intros m. rewrite V6, V5, V4, V3. unfold upd. case_decide; [done | by rewrite V2].
  - congruence.
  - unfold wrote in *. cbn [l_log l_woken l_disks] in *. rewrite E6. destruct W4 as (-> & -> & ->).
    by rewrite W1, W2, W3.
Qed.

Lemma wp_write_head s refs start size :
  bstate (l_b s) refs ∅ -> logs s start size -> 0 <= start < 2 ^ 32 -> refs start = 0 -> roomy_for 1 refs ->
  wp (write_head pid) (fun _ s' => let d' := head_bytes (lg_lh (l_log s)) (on_disk (l_b s) start) in
    bstate (l_b s') refs ∅ /\ (forall m, view (l_b s') m = upd (view (l_b s)) start d' m) /\
    disk (l_b s') = <[start := d']> (disk (l_b s)) /\ wrote s s' [disk (l_b s')]) s.
Proof.
  intros Hs (E1 & E2 & E3) Hst Hr Hroom. unfold write_head.
  pose proof (unref_view dev pid Hdev _ _ _ start Hs Hr) as Hv.
  apply wp_bind, wp_gets. rewrite E1, E3, u32_small by done. apply wp_bind, wp_zoom. eapply wp_mono.
  { apply (wp_bread dev pid Hdev (l_b s) refs ∅ start Hs); [set_solver + | by intros ? ?%elem_of_empty | lia |].
    right. by apply (roomy_for_roomy refs 1). }
  intros b s1 (B1 & K1 & V1 & D1 & _). rewrite Hr in B1.
  apply wp_bind, wp_gets. cbn [l_b]. rewrite (held_view dev pid Hdev s1 _ _ start b B1 K1), V1, Hv by set_solver +.
  fold (head_bytes (lg_lh (l_log s)) (on_disk (l_b s) start)). set (d' := head_bytes _ _).
  apply wp_bind, wp_zoom. eapply wp_mono.
  { apply (wp_bset dev pid Hdev s1 _ _ start b d' B1 K1); [set_solver + |]. by rewrite upd_eq. }
  intros [] s2 (B2 & V2 & D2 & H2). apply wp_bind. eapply wp_mono.
  { eapply l_bwrite_law; cbn [l_b]; [exact B2 | by apply H2 | set_solver +]. }
  cbn [l_b]. intros [] s3 (B3 & V3 & D3 & H3 & W3). rewrite V2, upd_eq in D3.
  apply wp_zoom. eapply wp_mono.
  { apply (wp_brelse_law dev pid Hdev (l_b s3) _ _ start b B3); [by apply H3, H2 | set_solver + |]. intros _.
    rewrite V3, V2, upd_eq. unfold on_disk. by rewrite D3, lookup_insert_eq. }
  intros [] s4 (B4 & V4 & D4 & _). cbn [l_b]. split_and!.
  - eapply bstate_ext; [| replace (∅ : gset Z) with (({[start]} ∪ ∅ : gset Z) ∖ {[start]}) by set_solver +; exact B4].
    intros m. unfold upd. repeat case_decide; subst; by rewrite ?Hr.
  - intros m. rewrite V4, V3, V2. unfold upd. by case_decide.
  - congruence.
  - unfold wrote in *. cbn [l_log l_woken l_disks] in *. rewrite D4. done.
Qed.

Lemma wp_read_head s refs start size :
  bstate (l_b s) refs ∅ -> logs s start size -> 0 <= start < 2 ^ 32 -> refs start = 0 -> roomy_for 1 refs ->
  wp (read_head pid) (fun _ s' => let d := on_disk (l_b s) start in let n := s32 (get32 d 0) in
    bstate (l_b s') refs ∅ /\ (forall m, view (l_b s') m = view (l_b s) m) /\ disk (l_b s') = disk (l_b s) /\
    l_log s' = with_lh (read_blocks d n (with_n n (lg_lh (l_log s)))) (l_log s) /\
    l_woken s' = l_woken s /\ l_disks s' = l_disks s) s.
Proof.
  intros Hs (E1 & E2 & E3) Hst Hr Hroom. unfold read_head.
  pose proof (unref_view dev pid Hdev _ _ _ start Hs Hr) as Hv.
  apply wp_bind, wp_gets. rewrite E1, E3, u32_small by done. apply wp_bind, wp_zoom. eapply wp_mono.
  { apply (wp_bread dev pid Hdev (l_b s) refs ∅ start Hs); [set_solver + | by intros ? ?%elem_of_empty | lia |].
    right. by apply (roomy_for_roomy refs 1). }
  intros b s1 (B1 & K1 & V1 & D1 & _). rewrite Hr in B1.
  apply wp_bind, wp_gets. cbn [l_b]. rewrite (held_view dev pid Hdev s1 _ _ start b B1 K1), V1, Hv by set_solver +.
  apply wp_bind, wp_modify. cbn [l_b]. apply wp_zoom. cbn [l_b]. eapply wp_mono.
  { apply (wp_brelse_law dev pid Hdev s1 _ _ start b B1 K1); [set_solver + |]. intros _. rewrite V1, Hv.
    unfold on_disk. by rewrite D1. }
  intros [] s2 (B2 & V2 & D2 & _). cbn. split_and!; try done.
  - eapply bstate_ext; [| replace (∅ : gset Z) with (({[start]} ∪ ∅ : gset Z) ∖ {[start]}) by set_solver +; exact B2].
    intros m. unfold upd. repeat case_decide; subst; by rewrite ?Hr.
  - intros m. by rewrite V2, V1.
  - congruence.
Qed.

End laws.

Lemma wp_repeat_for n body (I : Z -> lst -> Prop) (Q : unit -> lst -> Prop) s :
  I 0 s -> (forall i s1, 0 <= i < n -> I i s1 -> wp (body i) (fun _ s2 => I (i + 1) s2) s1) ->
  (forall s1, I (Z.max 0 n) s1 -> Q tt s1) -> wp (repeat_for n body) Q s.
Proof.
  intros H0 Hb HQ. unfold repeat_for. apply wp_bind. apply (wp_for_range _ I); [done | |].
  - intros i s1 Hi HI. apply wp_bind. eapply wp_mono; [apply Hb; [lia | done] |]. intros [] s2 H2. by apply wp_ret.
  - intros s1 H1. apply wp_ret, HQ. replace (Z.max 0 n) with (0 + Z.of_nat (Z.to_nat n)) by lia. done.
Qed.

(** ** Installing a transaction *)

Section install.
Context (dev pid start size : Z).
Implicit Types (s : lst) (refs : Z -> Z) (d : gmap Z (list Z)).

Abbreviation bstate := (bstate dev pid).
Abbreviation view := (view dev).
Abbreviation hdr_n := (hdr_n start).
Abbreviation hdr_blk := (hdr_blk start).
Abbreviation recovered := (recovered start).
Abbreviation hdr_ok := (hdr_ok start size).

Definition in_log (m : Z) : Prop := start <= m < start + size.

(** Block [m] is among the first [t] of the header of [d]. *)
Definition logged d (t m : Z) : bool := existsb (fun i => hdr_blk d i =? m) (seqZ 0 t).

Lemma logged_true d t m : logged d t m = true <-> exists i, 0 <= i < t /\ hdr_blk d i = m.
Proof.
  unfold logged. rewrite List.existsb_exists. split.
  - intros (i & Hi%list_elem_of_In%elem_of_seqZ & E%Z.eqb_eq). exists i. split; [lia | done].
  - intros (i & Hi & E). exists i. rewrite Z.eqb_eq. split; [| done]. apply list_elem_of_In, elem_of_seqZ. lia.
Qed.

Lemma logged_false d t m : logged d t m = false <-> forall i, 0 <= i < t -> hdr_blk d i <> m.
Proof.
  rewrite <- not_true_iff_false, logged_true. split; [intros H i Hi E; apply H; eauto | intros H (i & Hi & E); by apply (H i)].
Qed.

Lemma logged_succ d t m : 0 <= t -> logged d (t + 1) m = logged d t m || (hdr_blk d t =? m).
Proof.
  intros Ht. unfold logged. replace (seqZ 0 (t + 1)) with (seqZ 0 t ++ [t]); [by rewrite List.existsb_app; cbn; rewrite orb_false_r |].
  by rewrite seqZ_app by lia.
Qed.

(** The in-memory header agrees with the one on disk. *)
Definition in_core (h : logheader) d : Prop :=
  lh_n h = hdr_n d /\ forall i, 0 <= i < hdr_n d -> u32 (blk h i) = hdr_blk d i.

(** Reference counts and contents when [t] blocks are installed. *)
Definition refs_at refs d t (m : Z) : Z := if logged d t m then u32 (refs m - 1) else refs m.
Definition inst_at d (f : Z -> list Z) t (m : Z) : list Z := if logged d t m then recovered d m else f m.

Record installed s refs d t s' : Prop := Installed {
  in_state : bstate (l_b s') (refs_at refs d t) ∅;
  in_view : forall m, view (l_b s') m = inst_at d (view (l_b s)) t m;
  in_disk : forall m, home (disk (l_b s')) m = inst_at d (home d) t m;
  in_log_same : l_log s' = l_log s /\ l_woken s' = l_woken s;
  in_hist : exists ds, l_disks s' = ds ++ l_disks s /\
    Forall (fun d' => hdr_ok d' /\ forall m, recovered d' m = recovered d m) ds;
}.

Lemma logged_start d t : hdr_ok d -> t <= hdr_n d -> logged d t start = false.
Proof. intros Hok Ht. pose proof (hk_n _ _ _ Hok). apply logged_false. intros i Hi E. apply (hk_out _ _ _ Hok i); lia. Qed.

Lemma logged_slot d t i : hdr_ok d -> t <= hdr_n d -> 0 <= i < hdr_n d -> logged d t (start + i + 1) = false.
Proof.
  intros Hok Ht Hi. pose proof (hk_n _ _ _ Hok). apply logged_false. intros j Hj E. apply (hk_out _ _ _ Hok j); lia.
Qed.

(** The disk with [t] blocks installed stands for the same file system. *)
Lemma installed_recovered d d' t :
  hdr_ok d -> 0 <= t <= hdr_n d -> (forall m, home d' m = inst_at d (home d) t m) ->
  hdr_ok d' /\ forall m, recovered d' m = recovered d m.
Proof.
  intros Hok Ht Hd. pose proof (hk_n _ _ _ Hok).
  assert (home d' start = home d start) as E0 by (rewrite Hd; unfold inst_at; by rewrite logged_start by (done || lia)).
  split; [by apply (hdr_ok_ext start size d) |]. intros m. apply recovered_ext; [done | |].
  - intros i Hi. rewrite Hd. unfold inst_at. by rewrite logged_slot by (done || lia).
  - intros Hm. rewrite Hd. unfold inst_at. rewrite (proj2 (logged_false d t m)); [done |].
    intros i Hi. apply Hm. lia.
Qed.

Lemma logged_next d t : hdr_ok d -> 0 <= t < hdr_n d -> logged d t (hdr_blk d t) = false.
Proof. intros Hok Ht. apply logged_false. intros i Hi E. apply (hk_inj _ _ _ Hok) in E; lia. Qed.

Lemma refs_at_succ refs d t m :
  hdr_ok d -> 0 <= t < hdr_n d ->
  refs_at refs d (t + 1) m = upd (refs_at refs d t) (hdr_blk d t) (u32 (refs (hdr_blk d t) - 1)) m.
Proof.
  intros Hok Ht. unfold refs_at, upd. rewrite logged_succ by lia. case_decide as E.
  - subst m. by rewrite Z.eqb_refl, orb_true_r.
  - rewrite (proj2 (Z.eqb_neq _ _)), orb_false_r by congruence. done.
Qed.

Lemma inst_at_succ d f t m :
  hdr_ok d -> 0 <= t < hdr_n d ->
  inst_at d f (t + 1) m = upd (inst_at d f t) (hdr_blk d t) (home d (start + t + 1)) m.
Proof.
  intros Hok Ht. unfold inst_at, upd. rewrite logged_succ by lia. case_decide as E.
  - subst m. rewrite Z.eqb_refl, orb_true_r. by apply (recovered_logged start size).
  - rewrite (proj2 (Z.eqb_neq _ _)), orb_false_r by congruence. done.
Qed.

(** The reference counts of the logged blocks: 1 in [commit] (pinned by
    [log_write]), 0 in recovery. *)
Definition pin_state refs d : Prop :=
  (forall i, 0 <= i < hdr_n d -> refs (hdr_blk d i) = 1) /\ roomy_for 1 refs \/
  (forall i, 0 <= i < hdr_n d -> refs (hdr_blk d i) = 0) /\ roomy_for (hdr_n d + 1) refs.

Lemma roomy_for_ext refs refs' k : (forall m, refs m = 0 -> refs' m = 0) -> roomy_for k refs -> roomy_for k refs'.
Proof. intros E (A & HA & Hsz). exists A. split; [| done]. intros m Hm. apply HA. intros E0. by apply Hm, E. Qed.

Lemma pin_state_roomy refs d t :
  hdr_ok d -> pin_state refs d -> 0 <= t <= hdr_n d ->
  roomy_for 1 (refs_at refs d t) /\
  forall i, 0 <= i < hdr_n d -> t < hdr_n d -> 0 <= refs (hdr_blk d i) <= 1 /\ (refs (hdr_blk d i) <> 0 \/ roomy_for 2 (refs_at refs d t)).
Proof.
  intros Hok [[Hp Hr]|[Hp Hr]] Ht.
  - split; [| intros i Hi _; rewrite Hp by done; lia]. eapply roomy_for_ext; [| exact Hr].
    intros m Em. unfold refs_at. destruct (logged d t m) eqn:E; [| done].
    apply logged_true in E as (i & Hi & <-). rewrite Hp in Em by lia. done.
  - assert (roomy_for (hdr_n d + 1 - t) (refs_at refs d t)) as (A & HA & Hsz).
    { destruct Hr as (A & HA & Hsz). exists (list_to_set (hdr_blk d <$> seqZ 0 t) ∪ A). split.
      - intros m. unfold refs_at. destruct (logged d t m) eqn:E; [| intros ?%HA; set_solver].
        intros _. apply elem_of_union_l, elem_of_list_to_set, list_elem_of_fmap.
        apply logged_true in E as (i & Hi & <-). exists i. split; [done |]. apply elem_of_seqZ. lia.
      - rewrite size_union_alt, size_list_to_set, length_fmap, length_seqZ.
        + pose proof (subseteq_size (A ∖ list_to_set (hdr_blk d <$> seqZ 0 t)) A ltac:(set_solver +)). lia.
        + apply NoDup_fmap_2_strong; [| apply NoDup_seqZ]. intros i j Hi%elem_of_seqZ Hj%elem_of_seqZ E.
          apply (hk_inj _ _ _ Hok); [lia.. | done]. }
    split; [exists A; split; [done | lia] |]. intros i Hi Hlt. split; [rewrite Hp by done; lia |].
    right. exists A. split; [done | lia].
Qed.

Context (Hdev : dev <> 0) (Hstart : 0 <= start) (Hend : start + size < 2 ^ 31).

Lemma install_step s refs d t s1 :
  hdr_ok d -> in_core (lg_lh (l_log s)) d -> logs dev s start size -> 0 <= t < hdr_n d ->
  (forall m, in_log m -> refs m = 0) -> 0 <= refs (hdr_blk d t) <= 1 -> installed s refs d t s1 ->
  roomy_for 1 (refs_at refs d t) -> (refs (hdr_blk d t) <> 0 \/ roomy_for 2 (refs_at refs d t)) ->
  wp (install_one pid t) (fun _ s2 => installed s refs d (t + 1) s2) s1.
Proof.
  intros Hok [_ Hcore] Hlg Ht Hlog Hr [Hst Hv Hd [El Ew] (ds & Eds & Hds)] Hroom Hroom2.
  pose proof (hk_n _ _ _ Hok) as Hn. pose proof (hk_out _ _ _ Hok t Ht) as Hout.
  assert (u32 (blk (lg_lh (l_log s1)) t) = hdr_blk d t) as Edb by (rewrite El; apply Hcore; lia).
  assert (refs_at refs d t (start + t + 1) = 0) as Elb.
  { unfold refs_at. rewrite logged_slot by (done || lia). apply Hlog. unfold in_log. lia. }
  assert (refs_at refs d t (hdr_blk d t) = refs (hdr_blk d t)) as Erd.
  { unfold refs_at. by rewrite logged_next. }
  pose proof (unref_view dev pid Hdev _ _ _ _ Hst Elb) as Elv.
  assert (home (disk (l_b s1)) (start + t + 1) = home d (start + t + 1)) as Ehl.
  { rewrite Hd. unfold inst_at. by rewrite logged_slot by (done || lia). }
  eapply wp_mono.
  { apply (wp_install_one dev pid Hdev s1 (refs_at refs d t) start size t Hst); rewrite ?Edb, ?Erd; try done; [| lia | lia].
    destruct Hlg as (? & ? & ?). unfold logs. by rewrite El. }
  intros [] s2 (Hst2 & Hv2 & Hd2 & (El2 & Ew2 & Eds2)). rewrite Edb, ?Erd in *.
  assert (on_disk (l_b s1) (start + t + 1) = home d (start + t + 1)) as Eod by exact Ehl. rewrite Eod in Hd2.
  assert (forall m, home (disk (l_b s2)) m = inst_at d (home d) (t + 1) m) as Hd'.
  { intros m. rewrite Hd2, home_insert, inst_at_succ by done. unfold upd. case_decide; [done | apply Hd]. }
  split; [| | done | by rewrite El2, Ew2 |].
  - eapply bstate_ext; [| exact Hst2]. intros m. by rewrite refs_at_succ.
  - intros m. rewrite Hv2, inst_at_succ by done. unfold upd. case_decide; [by rewrite Elv | apply Hv].
  - exists (disk (l_b s2) :: ds). rewrite Eds2, Eds. split; [done |]. constructor; [| done].
    apply (installed_recovered d _ (t + 1)); [done | lia | done].
Qed.

Lemma wp_install_trans s refs :
  let d := disk (l_b s) in
  hdr_ok d -> in_core (lg_lh (l_log s)) d -> logs dev s start size -> bstate (l_b s) refs ∅ ->
  (forall m, in_log m -> refs m = 0) -> pin_state refs d ->
  wp (install_trans pid) (fun _ s2 => installed s refs d (hdr_n d) s2) s.
Proof.
  intros d Hok Hcore Hlg Hst Hlog Hpin. pose proof (hk_n _ _ _ Hok). unfold install_trans.
  apply wp_bind, wp_gets. rewrite (proj1 Hcore). apply (wp_repeat_for _ _ (fun t => installed s refs d t)).
  - split; try done. by exists [].
  - intros t s1 Ht Hi. destruct (pin_state_roomy refs d t Hok Hpin) as [Hr1 Hr2]; [lia |].
    destruct (Hr2 t) as [Hr3 Hr4]; [lia.. |]. by apply install_step.
  - intros s1. by rewrite Z.max_r by lia.
Qed.

End install.

(** ** Recovery *)

Section recovery.
Context (dev pid start size : Z).
Implicit Types (s : lst) (refs : Z -> Z) (d : gmap Z (list Z)).

Abbreviation bstate := (bstate dev pid).
Abbreviation view := (view dev).
Abbreviation hdr_n := (hdr_n start).
Abbreviation hdr_blk := (hdr_blk start).
Abbreviation recovered := (recovered start).
Abbreviation hdr_ok := (hdr_ok start size).

(** [d'] stands for the same blocks as [d], the header's own block apart. *)
Definition stands d d' : Prop := hdr_ok d' /\ forall m, m <> start -> recovered d' m = recovered d m.

(** Rewriting the header of [d] from an in-memory header [h]. *)
Lemma rewrite_head d h :
  length (home d start) = 1024%nat -> 0 <= lh_n h <= LOGSIZE ->
  let d' := <[start := head_bytes h (home d start)]> d in
  length (home d' start) = 1024%nat /\ hdr_n d' = lh_n h /\
  (forall i, 0 <= i < lh_n h -> hdr_blk d' i = u32 (blk h i)) /\
  (forall m, m <> start -> home d' m = home d m).
Proof.
  intros Hl Hn d'. destruct (head_bytes_spec h (home d start) Hl Hn) as (L & N & B).
  assert (home d' start = head_bytes h (home d start)) as E by (unfold d'; by rewrite home_insert, decide_True).
  unfold Log.hdr_n, Log.hdr_blk. rewrite E. split_and!; try done.
  intros m Hm. unfold d'. by rewrite home_insert, decide_False.
Qed.

Lemma hdr_ok_nil d : hdr_n d = 0 -> length (home d start) = 1024%nat -> 0 < size <= LOGSIZE -> hdr_ok d.
Proof. intros E L Hs. split; try done; rewrite ?E; intros; lia. Qed.

Lemma cleared d : length (home d start) = 1024%nat -> 0 < size <= LOGSIZE -> forall h, lh_n h = 0 ->
  let d' := <[start := head_bytes h (home d start)]> d in
  hdr_ok d' /\ hdr_n d' = 0 /\ forall m, m <> start -> home d' m = home d m /\ recovered d' m = home d m.
Proof.
  intros L Hs h Hh d'. destruct (rewrite_head d h L) as (L' & N & _ & Hm); [rewrite Hh; klia |]. rewrite Hh in N.
  fold d' in L', N, Hm. split_and!; [by apply hdr_ok_nil | done |]. intros m Hne. rewrite recovered_nil by done.
  split; by apply Hm.
Qed.

(** All [n] blocks installed: the home locations are what the disk stood for. *)
Lemma inst_all d m : inst_at start d (home d) (hdr_n d) m = recovered d m.
Proof.
  unfold inst_at. destruct (logged start d (hdr_n d) m) eqn:E; [done |].
  symmetry. apply recovered_unlogged. by apply logged_false.
Qed.

(** What [recover_from_log] leaves, from a disk [d]. *)
Record recover_post d s s' : Prop := RecoverPost {
  rp_state : bstate (l_b s') (refs_at start (fun _ => 0) d (hdr_n d)) ∅;
  rp_home : forall m, m <> start -> home (disk (l_b s')) m = recovered d m;
  rp_clear : hdr_n (disk (l_b s')) = 0;
  rp_n : lh_n (lg_lh (l_log s')) = 0;
  rp_cfg : logs dev s' start size;
  rp_log : length (lh_block (lg_lh (l_log s'))) = Z.to_nat LOGSIZE /\
    lg_outstanding (l_log s') = lg_outstanding (l_log s) /\ lg_committing (l_log s') = lg_committing (l_log s);
  rp_hdr : hdr_ok (disk (l_b s'));
  rp_view : forall m, m <> start -> view (l_b s') m = recovered d m;
  rp_hist : exists ds, l_disks s' = ds ++ l_disks s /\ Forall (stands d) ds;
}.

Context (Hdev : dev <> 0) (Hstart : 0 <= start) (Hend : start + size < 2 ^ 31).

Lemma wp_recover_from_log s :
  let d := disk (l_b s) in
  hdr_ok d -> logs dev s start size -> length (lh_block (lg_lh (l_log s))) = Z.to_nat LOGSIZE ->
  bstate (l_b s) (fun _ => 0) ∅ ->
  wp (recover_from_log pid) (fun _ s' => recover_post d s s') s.
Proof.
  intros d Hok Hlg Hlen Hst. pose proof (hk_n _ _ _ Hok) as Hn. pose proof (hk_size _ _ _ Hok) as Hsz.
  assert (forall k, k <= NBUF -> roomy_for k (fun _ => 0)) as Hroom.
  { intros k Hk. exists ∅. split; [done |]. rewrite size_empty. lia. }
  unfold recover_from_log. apply wp_bind.
  eapply wp_mono; [apply (wp_read_head dev pid Hdev s (fun _ => 0) start size Hst Hlg); [lia | done | apply Hroom; klia] |].
  intros [] s1 (Hst1 & Hv1 & Hd1 & El1 & Ew1 & Eds1). unfold on_disk in El1. fold d in El1. fold (home d start) in El1.
  change (s32 (get32 (home d start) 0)) with (hdr_n d) in El1.
  destruct (read_blocks_spec (home d start) (seqZ 0 (hdr_n d)) (with_n (hdr_n d) (lg_lh (l_log s)))) as (R1 & R2 & R3).
  { apply Forall_forall. intros i Hi%elem_of_seqZ. cbn. rewrite Hlen. klia. }
  { apply NoDup_seqZ. }
  apply wp_bind. eapply wp_mono.
  { apply (wp_install_trans dev pid start size Hdev Hstart Hend s1 (fun _ => 0)); rewrite ?Hd1; fold d; try done.
    - rewrite El1. split; [exact R1 |]. intros i Hi. cbn [lg_lh with_lh]. unfold read_blocks. rewrite R3 by lia.
      rewrite decide_True by (apply elem_of_seqZ; lia). done.
    - destruct Hlg as (? & ? & ?). unfold logs. by rewrite El1.
    - right. split; [done |]. apply Hroom. klia. }
  rewrite Hd1. fold d. intros [] s2 [Hst2 Hv2 Hd2 [El2 Ew2] (ds & Eds2 & Hds)].
  apply wp_bind, wp_modify. set (s3 := Lst _ _ _ _).
  destruct (pin_state_roomy start size (fun _ => 0) d (hdr_n d) Hok) as [Hr3 _].
  { right. split; [done |]. apply Hroom. klia. } { lia. }
  assert (logs dev s3 start size) as Hlg3.
  { destruct Hlg as (? & ? & ?). unfold logs. cbn. by rewrite El2, El1. }
  eapply wp_mono.
  { apply (wp_write_head dev pid Hdev s3 (refs_at start (fun _ => 0) d (hdr_n d)) start size Hst2 Hlg3); [lia | | done].
    unfold refs_at. by rewrite (logged_start start size) by (done || lia). }
  intros [] s4 (Hst4 & Hv4 & Hd4 & (El4 & Ew4 & Eds4)). 
  change (disk (l_b s4) = <[start := head_bytes (lg_lh (l_log s3)) (home (disk (l_b s2)) start)]> (disk (l_b s2))) in Hd4.
  assert (home (disk (l_b s2)) start = home d start) as Ehs.
  { rewrite Hd2. unfold inst_at. by rewrite (logged_start start size) by (done || lia). }
  destruct (cleared (disk (l_b s2))) with (h := lg_lh (l_log s3)) as (Hok4 & Hn4 & Hm4); [| lia | done |].
  { rewrite Ehs. apply (hk_len _ _ _ Hok). }
  rewrite <- Hd4 in Hok4, Hn4, Hm4.
  assert (forall m, m <> start -> home (disk (l_b s4)) m = recovered d m) as Hhome.
  { intros m Hm. destruct (Hm4 m Hm) as [-> _]. rewrite Hd2. apply inst_all. }
  split; [done | done | done | by rewrite El4 | unfold logs; by rewrite El4 | | done | |].
  - rewrite El4. cbn. rewrite El2, El1. cbn. split_and!; [| done | done]. unfold read_blocks. by rewrite R2.
  - intros m Hm. rewrite Hv4, upd_ne, Hv2, <- inst_all by done. unfold inst_at. destruct (logged _ _ _ _); [done |].
    rewrite Hv1. by apply (unref_view dev pid Hdev _ _ _ _ Hst).
  - exists (disk (l_b s4) :: ds). rewrite Eds4. change (l_disks s3) with (l_disks s2). rewrite Eds2, Eds1. split; [done |]. constructor.
    + split; [done |]. intros m Hm. destruct (Hm4 m Hm) as [<- ->]. by apply Hhome.
    + eapply Forall_impl; [exact Hds |]. intros d' [? Hd']. split; [done |]. intros m _. apply Hd'.
Qed.

End recovery.

(** ** Commit *)

Section commit.
Context (dev pid start size : Z).
Implicit Types (s : lst) (d : gmap Z (list Z)).

Abbreviation bstate := (bstate dev pid).
Abbreviation view := (view dev).
Abbreviation hdr_n := (hdr_n start).
Abbreviation hdr_blk := (hdr_blk start).
Abbreviation recovered := (recovered start).
Abbreviation hdr_ok := (hdr_ok start size).
Abbreviation in_log := (in_log start size).

Definition tx_n s : Z := lh_n (lg_lh (l_log s)).
Definition tx_blk s (i : Z) : Z := u32 (blk (lg_lh (l_log s)) i).
Definition in_tx s (m : Z) : bool := existsb (fun i => tx_blk s i =? m) (seqZ 0 (tx_n s)).
Definition tx_refs s (m : Z) : Z := if in_tx s m then 1 else 0.

(** A transaction in memory: its blocks are distinct, outside the log, and
    pinned in the cache; nothing else is referenced; the log on disk is empty. *)
Record tx s : Prop := Tx {
  tx_state : bstate (l_b s) (tx_refs s) ∅;
  tx_cfg : logs dev s start size;
  tx_room : 0 <= tx_n s < size;
  tx_size : size <= LOGSIZE;
  tx_inj : forall i j, 0 <= i < tx_n s -> 0 <= j < tx_n s -> tx_blk s i = tx_blk s j -> i = j;
  tx_out : forall i, 0 <= i < tx_n s -> ~ in_log (tx_blk s i);
  tx_clear : hdr_n (disk (l_b s)) = 0;
  tx_len : length (home (disk (l_b s)) start) = 1024%nat;
}.

Lemma in_tx_true s m : in_tx s m = true <-> exists i, 0 <= i < tx_n s /\ tx_blk s i = m.
Proof.
  unfold in_tx. rewrite List.existsb_exists. split.
  - intros (i & Hi%list_elem_of_In%elem_of_seqZ & E%Z.eqb_eq). exists i. split; [lia | done].
  - intros (i & Hi & E). exists i. rewrite Z.eqb_eq. split; [| done]. apply list_elem_of_In, elem_of_seqZ. lia.
Qed.

Lemma tx_refs_log s m : tx s -> in_log m -> tx_refs s m = 0.
Proof.
  intros Ht Hm. unfold tx_refs. destruct (in_tx s m) eqn:E; [| done].
  apply in_tx_true in E as (i & Hi & <-). by destruct (tx_out s Ht i Hi).
Qed.

Lemma tx_refs_blk s i : 0 <= i < tx_n s -> tx_refs s (tx_blk s i) = 1.
Proof. intros Hi. unfold tx_refs. rewrite (proj2 (in_tx_true s (tx_blk s i))); eauto. Qed.

Lemma tx_roomy s : tx s -> roomy_for 1 (tx_refs s).
Proof.
  intros Ht. pose proof (tx_room s Ht). pose proof (tx_size s Ht).
  exists (list_to_set (tx_blk s <$> seqZ 0 (tx_n s))). split.
  - intros m. unfold tx_refs. destruct (in_tx s m) eqn:E; [| done]. intros _.
    apply in_tx_true in E as (i & Hi & <-). apply elem_of_list_to_set, list_elem_of_fmap.
    exists i. split; [done |]. apply elem_of_seqZ. lia.
  - rewrite size_list_to_set, length_fmap, length_seqZ; [klia |].
    apply NoDup_fmap_2_strong; [| apply NoDup_seqZ]. intros i j Hi%elem_of_seqZ Hj%elem_of_seqZ.
    apply (tx_inj s Ht); lia.
Qed.

(** [d'] stands for the file system before the transaction, or after it. *)
Definition old_or_new s d' : Prop :=
  hdr_ok d' /\ ((forall m, ~ in_log m -> recovered d' m = home (disk (l_b s)) m) \/
                (forall m, ~ in_log m -> recovered d' m = view (l_b s) m)).

(** After [t] iterations of [write_log]. *)
Record written s t s1 : Prop := Written {
  wr_state : bstate (l_b s1) (tx_refs s) ∅;
  wr_slots : forall i, 0 <= i < t -> home (disk (l_b s1)) (start + i + 1) = view (l_b s) (tx_blk s i);
  wr_head : home (disk (l_b s1)) start = home (disk (l_b s)) start;
  wr_home : forall m, ~ in_log m -> home (disk (l_b s1)) m = home (disk (l_b s)) m;
  wr_view : forall m, ~ in_log m -> view (l_b s1) m = view (l_b s) m;
  wr_same : l_log s1 = l_log s /\ l_woken s1 = l_woken s;
  wr_hist : exists ds, l_disks s1 = ds ++ l_disks s /\ Forall (old_or_new s) ds;
}.

Lemma stands_old s d :
  tx s -> home d start = home (disk (l_b s)) start -> (forall m, ~ in_log m -> home d m = home (disk (l_b s)) m) ->
  old_or_new s d.
Proof.
  intros Ht Eh Hm. pose proof (tx_clear s Ht) as Ec. pose proof (tx_room s Ht). pose proof (tx_size s Ht).
  destruct (hdr_ext start _ _ Eh) as [En _]. rewrite Ec in En. split.
  - apply hdr_ok_nil; [done | rewrite Eh; apply Ht | lia].
  - left. intros m Hout. rewrite recovered_nil by done. by apply Hm.
Qed.

Context (Hdev : dev <> 0) (Hstart : 0 <= start) (Hend : start + size < 2 ^ 31).

Lemma write_step s t s1 :
  tx s -> 0 <= t < tx_n s -> written s t s1 -> wp (write_one pid t) (fun _ s2 => written s (t + 1) s2) s1.
Proof.
  intros Ht Hi [Hst Hsl Hh Hm Hv [El Ew] (ds & Eds & Hds)].
  pose proof (tx_room s Ht). pose proof (tx_out s Ht t Hi) as Hout.
  assert (u32 (blk (lg_lh (l_log s1)) t) = tx_blk s t) as Edb by (by rewrite El).
  assert (in_log (start + t + 1)) as Hlb by (unfold Log.in_log; lia).
  eapply wp_mono.
  { apply (wp_write_one dev pid Hdev s1 (tx_refs s) start size t Hst); rewrite ?Edb.
    - destruct (tx_cfg s Ht) as (? & ? & ?). unfold logs. by rewrite El.
    - lia.
    - intros E. apply Hout. by rewrite <- E.
    - by apply tx_refs_log.
    - by apply tx_refs_blk.
    - by apply tx_roomy. }
  rewrite Edb. intros [] s2 (Hst2 & Hv2 & Hd2 & (El2 & Ew2 & Eds2)). rewrite (Hv _ Hout) in Hd2, Hv2.
  assert (home (disk (l_b s2)) start = home (disk (l_b s)) start) as Hh2
    by (by rewrite Hd2, home_insert, decide_False by lia).
  assert (forall m, ~ in_log m -> home (disk (l_b s2)) m = home (disk (l_b s)) m) as Hm2.
  { intros m Hnm. rewrite Hd2, home_insert, decide_False by (by intros ->). by apply Hm. }
  split; [done | | done | done | | by rewrite El2, Ew2 |].
  - intros i Hii. rewrite Hd2, home_insert. case_decide as E.
    + replace i with t by lia. done.
    + apply Hsl. lia.
  - intros m Hnm. rewrite Hv2, upd_ne by (by intros ->). by apply Hv.
  - exists (disk (l_b s2) :: ds). rewrite Eds2, Eds. split; [done |]. constructor; [| done]. by apply stands_old.
Qed.

Lemma wp_write_log s : tx s -> wp (write_log pid) (fun _ s1 => written s (tx_n s) s1) s.
Proof.
  intros Ht. pose proof (tx_room s Ht). unfold write_log. apply wp_bind, wp_gets. fold (tx_n s).
  apply (wp_repeat_for _ _ (fun t => written s t)).
  - split; try done; [apply Ht | lia | by exists []].
  - intros t s1 Hi Hw. by apply write_step.
  - intros s1. by rewrite Z.max_r by lia.
Qed.

(** The header write is the commit point: the disk now stands for the new
    file system. *)
Record committed s s2 : Prop := Committed {
  cm_state : bstate (l_b s2) (tx_refs s) ∅;
  cm_hdr : hdr_ok (disk (l_b s2));
  cm_core : in_core start (lg_lh (l_log s)) (disk (l_b s2));
  cm_new : forall m, ~ in_log m -> recovered (disk (l_b s2)) m = view (l_b s) m;
  cm_view : forall m, ~ in_log m -> view (l_b s2) m = view (l_b s) m;
  cm_same : l_log s2 = l_log s /\ l_woken s2 = l_woken s;
  cm_hist : exists ds, l_disks s2 = ds ++ l_disks s /\ Forall (old_or_new s) ds;
}.

Lemma wp_commit_point s s1 :
  tx s -> written s (tx_n s) s1 -> wp (write_head pid) (fun _ s2 => committed s s2) s1.
Proof.
  intros Ht [Hst Hsl Hh Hm Hv [El Ew] (ds & Eds & Hds)]. pose proof (tx_room s Ht). pose proof (tx_size s Ht).
  assert (in_log start) as Hsin by (unfold Log.in_log; lia).
  eapply wp_mono.
  { apply (wp_write_head dev pid Hdev s1 (tx_refs s) start size Hst).
    - destruct (tx_cfg s Ht) as (? & ? & ?). unfold logs. by rewrite El.
    - lia.
    - by apply tx_refs_log.
    - by apply tx_roomy. }
  intros [] s2 (Hst2 & Hv2 & Hd2 & (El2 & Ew2 & Eds2)).
  change (on_disk (l_b s1) start) with (home (disk (l_b s1)) start) in *. rewrite El in Hd2, Hv2.
  destruct (rewrite_head start (disk (l_b s1)) (lg_lh (l_log s))) as (L2 & N2 & B2 & M2).
  { rewrite Hh. apply Ht. } { fold (tx_n s). lia. }
  rewrite <- Hd2 in L2, N2, B2, M2. fold (tx_n s) in N2, B2.
  assert (forall i, 0 <= i < tx_n s -> hdr_blk (disk (l_b s2)) i = tx_blk s i) as B by exact B2.
  assert (hdr_ok (disk (l_b s2))) as Hok2.
  { split; rewrite ?N2; try done; [lia.. | |].
    - intros i j Hi Hj. rewrite !B by done. by apply (tx_inj s Ht).
    - intros i Hi. rewrite B by done. by apply (tx_out s Ht). }
  assert (forall m, ~ in_log m -> recovered (disk (l_b s2)) m = view (l_b s) m) as Hnew.
  { intros m Hnm. assert (m <> start) as Hms by (by intros ->). destruct (in_tx s m) eqn:E.
    - apply in_tx_true in E as (i & Hi & <-). rewrite <- (B i Hi), (recovered_logged start size) by (done || lia).
      rewrite M2 by lia. rewrite (B i Hi). by apply Hsl.
    - rewrite recovered_unlogged, M2, Hm by (done || (intros i Hi Ei; rewrite N2 in Hi; rewrite B in Ei by done;
        apply not_true_iff_false in E; apply E, in_tx_true; eauto)).
      symmetry. apply (unref_view dev pid Hdev _ _ _ _ (tx_state s Ht)). unfold tx_refs. by rewrite E. }
  split; try done.
  - split; [by rewrite N2 |]. intros i. rewrite N2. intros Hi. by rewrite B.
  - intros m Hnm. rewrite Hv2, upd_ne by (by intros ->). by apply Hv.
  - by rewrite El2, Ew2.
  - exists (disk (l_b s2) :: ds). rewrite Eds2, Eds. split; [done |]. constructor; [| done]. split; [done | by right].
Qed.

(** What [commit] leaves. *)
Record commit_post s s' : Prop := CommitPost {
  cp_state : bstate (l_b s') (fun _ => 0) ∅;
  cp_log : l_log s' = with_lh (with_n 0 (lg_lh (l_log s))) (l_log s) /\ l_woken s' = l_woken s;
  cp_clear : hdr_n (disk (l_b s')) = 0 /\ length (home (disk (l_b s')) start) = 1024%nat;
  cp_view : forall m, ~ in_log m -> view (l_b s') m = view (l_b s) m;
  cp_home : forall m, ~ in_log m -> home (disk (l_b s')) m = view (l_b s) m;
  cp_hist : exists ds, l_disks s' = ds ++ l_disks s /\ Forall (old_or_new s) ds;
}.

(** From the commit point on: install, clear the log. *)
Lemma wp_commit_tail s s2 :
  tx s -> committed s s2 ->
  wp (install_trans pid ;;; set_log (fun g => with_lh (with_n 0 (lg_lh g)) g) ;;; write_head pid)
    (fun _ s' => commit_post s s') s2.
Proof.
  intros Ht [Hst Hok Hcore Hnew Hv [El Ew] (ds & Eds & Hds)]. pose proof (hk_n _ _ _ Hok) as Hn.
  set (d := disk (l_b s2)) in *. pose proof (hk_size _ _ _ Hok) as Hsz.
  assert (logs dev s2 start size) as Hlg by (destruct (tx_cfg s Ht) as (? & ? & ?); unfold logs; by rewrite El).
  assert (hdr_n d = tx_n s) as En by (symmetry; apply Hcore).
  assert (forall i, 0 <= i < hdr_n d -> hdr_blk d i = tx_blk s i) as Eb.
  { intros i Hi. symmetry. by apply Hcore. }
  assert (pin_state start (tx_refs s) d) as Hpin.
  { left. split; [| by apply tx_roomy]. intros i Hi. rewrite Eb by done. apply tx_refs_blk. lia. }
  assert (forall m, logged start d (hdr_n d) m = in_tx s m) as Elg.
  { intros m. apply eq_bool_prop_intro. rewrite !Is_true_true, logged_true, in_tx_true, En.
    split; intros (i & Hi & <-); exists i; (split; [done |]); [symmetry |]; apply Eb; lia. }
  apply wp_bind. eapply wp_mono.
  { apply (wp_install_trans dev pid start size Hdev Hstart Hend s2 (tx_refs s)); try done.
    - by rewrite El.
    - intros m Hm. by apply tx_refs_log. }
  fold d. intros [] s3 [Hst3 Hv3 Hd3 [El3 Ew3] (ds3 & Eds3 & Hds3)]. apply wp_bind, wp_modify. set (s4 := Lst _ _ _ _).
  assert (bstate (l_b s4) (fun _ => 0) ∅) as Hst4.
  { eapply bstate_ext; [| exact Hst3]. intros m. unfold refs_at. rewrite Elg. unfold tx_refs.
    by destruct (in_tx s m). }
  assert (home (disk (l_b s3)) start = home d start) as Ehs.
  { rewrite Hd3. unfold inst_at. by rewrite (logged_start start size) by (done || lia). }
  eapply wp_mono.
  { apply (wp_write_head dev pid Hdev s4 (fun _ => 0) start size Hst4).
    - unfold logs. cbn. by rewrite El3.
    - lia.
    - done.
    - exists ∅. split; [done |]. rewrite size_empty. klia. }
  intros [] s5 (Hst5 & Hv5 & Hd5 & (El5 & Ew5 & Eds5)).
  change (disk (l_b s5) = <[start := head_bytes (lg_lh (l_log s4)) (home (disk (l_b s3)) start)]> (disk (l_b s3))) in Hd5.
  destruct (cleared start size (disk (l_b s3))) with (h := lg_lh (l_log s4)) as (Hok5 & Hn5 & Hm5); [| lia | done |].
  { rewrite Ehs. apply (hk_len _ _ _ Hok). }
  rewrite <- Hd5 in Hok5, Hn5, Hm5.
  assert (forall m, ~ in_log m -> m <> start) as Hns by (intros m Hm ->; apply Hm; unfold Log.in_log; lia).
  assert (forall m, ~ in_log m -> home (disk (l_b s5)) m = view (l_b s) m) as Hhome.
  { intros m Hm. destruct (Hm5 m (Hns m Hm)) as [-> _]. rewrite Hd3, inst_all. by apply Hnew. }
  split; [done | | | | done |].
  - rewrite El5, Ew5. cbn. by rewrite El3, El, Ew3, Ew.
  - split; [done | apply Hok5].
  - intros m Hm. rewrite Hv5, upd_ne by (by apply Hns). change (view (l_b s4) m) with (view (l_b s3) m).
    rewrite Hv3. unfold inst_at. destruct (logged _ _ _ _); [by apply Hnew | by apply Hv].
  - exists (disk (l_b s5) :: ds3 ++ ds). rewrite Eds5. change (l_disks s4) with (l_disks s3). rewrite Eds3, Eds.
    split; [cbn; by rewrite <- app_assoc |]. constructor; [| apply Forall_app; split; [| done]].
    + split; [done |]. right. intros m Hm. destruct (Hm5 m (Hns m Hm)) as [<- ->]. by apply Hhome.
    + eapply Forall_impl; [exact Hds3 |]. intros d' [Hok' Hr']. split; [done |]. right. intros m Hm.
      rewrite Hr'. by apply Hnew.
Qed.

Lemma wp_commit s : tx s -> 0 < tx_n s -> wp (commit pid) (fun _ s' => commit_post s s') s.
Proof.
  intros Ht Hn. unfold commit. apply wp_bind, wp_gets. fold (tx_n s). rewrite (proj2 (Z.ltb_lt _ _)) by done.
  apply wp_bind. eapply wp_mono; [by apply wp_write_log |]. intros [] s1 Hw.
  apply wp_bind. eapply wp_mono; [by apply wp_commit_point |]. intros [] s2 Hc. by apply wp_commit_tail.
Qed.

End commit.
