(* ===== verification/Txn.v ===== *)
(** * Transactions

    What log.c and bio.c promise to the file system between [begin_op] and
    [end_op]: an interface [Blocks] of block operations with its laws, and
    their proof for the buffer cache with the log.  A transaction holds some
    buffers ([H]); those it has modified but not passed to [log_write] are
    dirty ([D]). *)

From S2P Require Import Prelude Riscv Sleeplock Bio Bcache Layout Log.

(** ** The interface *)

(** The block operations of the source: [bread(dev, n)], reading and writing
    [b->data], [log_write(b)] and [brelse(b)]. *)
Class Blocks (S : Type) := {
  blk_read : Z -> Z -> M S nat;
  blk_data : nat -> M S (list Z);
  blk_set : nat -> list Z -> M S unit;
  blk_log : nat -> M S unit;
  blk_rel : nat -> M S unit;
}.

(** The operations that open, close and recover the log. *)
Class LogOps (S : Type) := {
  op_begin : M S unit;
  op_end : M S unit;
  op_init : Z -> Z -> Z -> M S unit;
}.

(** [ok s H D] is the invariant, [vw s n] the contents of block [n],
    [hd s n b] that [b] is the buffer of block [n], [room s] how many more
    blocks can be logged; [loggable n] excludes the log's own blocks. *)
Class BlockLaws (S : Type) `{Blocks S} (dev : Z) (loggable : Z -> Prop) (ok : S -> gset Z -> gset Z -> Prop)
    (vw : S -> Z -> list Z) (hd : S -> Z -> nat -> Prop) (room : S -> Z) := {
  bk_len : forall s H D n, ok s H D -> length (vw s n) = 1024%nat;
  bk_read : forall s H D n, ok s H D -> n ∉ H -> 0 <= n < 2 ^ 31 -> (size H < 3)%nat ->
    wp (blk_read dev n) (fun b s' => ok s' ({[n]} ∪ H) D /\ hd s' n b /\ (forall m, vw s' m = vw s m) /\
      room s' = room s /\ (forall m c, m ∈ H -> hd s m c -> hd s' m c)) s;
  bk_data : forall s H D n b, ok s H D -> hd s n b -> n ∈ H ->
    wp (blk_data b) (fun d s' => d = vw s n /\ s' = s) s;
  bk_set : forall s H D n b d, ok s H D -> hd s n b -> n ∈ H -> length d = 1024%nat ->
    wp (blk_set b d) (fun _ s' => ok s' H ({[n]} ∪ D) /\ (forall m, vw s' m = upd (vw s) n d m) /\
      room s' = room s /\ (forall m c, hd s m c <-> hd s' m c)) s;
  bk_log : forall s H D n b, ok s H D -> hd s n b -> n ∈ H -> loggable n -> 1 <= room s ->
    wp (blk_log b) (fun _ s' => ok s' H (D ∖ {[n]}) /\ (forall m, vw s' m = vw s m) /\
      room s - 1 <= room s' /\ (forall m c, hd s m c <-> hd s' m c)) s;
  bk_rel : forall s H D n b, ok s H D -> hd s n b -> n ∈ H -> n ∉ D ->
    wp (blk_rel b) (fun _ s' => ok s' (H ∖ {[n]}) D /\ (forall m, vw s' m = vw s m) /\
      room s' = room s /\ (forall m c, hd s m c <-> hd s' m c)) s;
}.

(** ** The implementation *)

#[export] Instance log_blocks (pid : Z) : Blocks lst := {
  blk_read dev n := in_b (bread pid dev n);
  blk_data b := bdata b;
  blk_set b d := in_b (bset b d);
  blk_log b := log_write b;
  blk_rel b := in_b (brelse pid b);
}.

#[export] Instance log_ops (pid : Z) : LogOps lst := {
  op_begin := begin_op;
  op_end := end_op pid;
  op_init := initlog pid;
}.

Section txn.
Context (dev pid start size : Z).
Implicit Types (s : lst) (H D : gset Z).

Abbreviation bstate := (bstate dev pid).
Abbreviation view := (view dev).
Abbreviation in_log := (in_log start size).

Definition refs_of s H (m : Z) : Z := tx_refs s m + (if decide (m ∈ H) then 1 else 0).

(** How many more blocks the log takes: [log_write] stops at [log.size - 1],
    and the pinned blocks must leave three buffers. *)
Definition log_room s : Z := size - 3 - tx_n s.

Record txn s H D : Prop := Txn {
  tn_state : bstate (l_b s) (refs_of s H) H;
  tn_cfg : logs dev s start size;
  tn_room : 0 <= tx_n s <= size - 3;
  tn_size : size <= LOGSIZE;
  tn_blocks : length (lh_block (lg_lh (l_log s))) = Z.to_nat LOGSIZE;
  tn_inj : forall i j, 0 <= i < tx_n s -> 0 <= j < tx_n s -> tx_blk s i = tx_blk s j -> i = j;
  tn_out : forall i, 0 <= i < tx_n s -> ~ in_log (tx_blk s i);
  tn_op : 1 <= lg_outstanding (l_log s);
  tn_clear : hdr_n start (disk (l_b s)) = 0;
  tn_len : forall n, length (view (l_b s) n) = 1024%nat;
  tn_hdr : length (home (disk (l_b s)) start) = 1024%nat;
  tn_dirty : D ⊆ H;
  tn_clean : forall n, n ∈ H -> n ∉ D -> in_tx s n = false -> view (l_b s) n = on_disk (l_b s) n;
}.

(** Between transactions nothing is held. *)
Lemma txn_tx s : txn s ∅ ∅ -> tx dev pid start size s.
Proof.
  intros [Hs Hc Hr Hsz _ Hi Ho _ Hcl _ Hh _ _]. split; try done; [| lia].
  eapply bstate_ext; [| exact Hs]. intros m. unfold refs_of. rewrite decide_False by set_solver +. lia.
Qed.

Lemma in_tx_dec s n : {in_tx s n = true} + {in_tx s n = false}.
Proof. destruct (in_tx s n); auto. Qed.

Lemma refs_of_range s H n : 0 <= refs_of s H n <= 2.
Proof. unfold refs_of, tx_refs. destruct (in_tx s n), (decide (n ∈ H)); lia. Qed.

Lemma refs_of_counted s H : counted (refs_of s H) H.
Proof. intros n Hn. unfold refs_of, tx_refs. rewrite decide_True by done. destruct (in_tx s n); lia. Qed.

(** The referenced blocks are those of the transaction and those held. *)
Lemma refs_of_roomy s H D : txn s H D -> (base.size H < 3)%nat -> roomy (refs_of s H).
Proof.
  intros Ht Hsz. pose proof (tn_room _ _ _ Ht). pose proof (tn_size _ _ _ Ht).
  exists (list_to_set (tx_blk s <$> seqZ 0 (tx_n s)) ∪ H). split.
  - intros n. unfold refs_of, tx_refs. destruct (in_tx s n) eqn:E.
    + intros _. apply in_tx_true in E as (i & Hi & <-). apply elem_of_union_l, elem_of_list_to_set, list_elem_of_fmap.
      exists i. split; [done |]. apply elem_of_seqZ. lia.
    + case_decide; [set_solver | done].
  - rewrite size_union_alt, size_list_to_set, length_fmap, length_seqZ.
    + pose proof (subseteq_size (H ∖ list_to_set (tx_blk s <$> seqZ 0 (tx_n s))) H ltac:(set_solver +)). klia.
    + apply NoDup_fmap_2_strong; [| apply NoDup_seqZ]. intros i j Hi%elem_of_seqZ Hj%elem_of_seqZ.
      apply (tn_inj _ _ _ Ht); lia.
Qed.

(** A state with the same log and the same visible blocks. *)
Lemma txn_frame s b' H D H' D' :
  txn s H D -> let s' := Lst b' (l_log s) (l_disks s) (l_woken s) in
  bstate b' (refs_of s H') H' -> disk b' = disk (l_b s) -> (forall n, length (view b' n) = 1024%nat) -> D' ⊆ H' ->
  (forall n, n ∈ H' -> n ∉ D' -> in_tx s n = false -> view b' n = on_disk (l_b s) n) ->
  txn s' H' D' /\ log_room s' = log_room s.
Proof.
  intros [Hs Hc Hr Hsz Hbl Hi Ho Hop Hcl Hv Hh Hd Hcn] s' Hs' Ed Hv' Hd' Hcn'.
  split; [| done]. split; cbn; try done; [by rewrite Ed | by rewrite Ed |].
  intros n H1 H2 H3. unfold on_disk. rewrite Ed. by apply Hcn'.
Qed.

Context (Hdev : dev <> 0).

Lemma txn_read s H D n :
  txn s H D -> n ∉ H -> 0 <= n < 2 ^ 31 -> (base.size H < 3)%nat ->
  wp (in_b (bread pid dev n)) (fun b s' => txn s' ({[n]} ∪ H) D /\ handle dev (l_b s') n b /\
    (forall m, view (l_b s') m = view (l_b s) m) /\ log_room s' = log_room s /\
    (forall m c, m ∈ H -> handle dev (l_b s) m c -> handle dev (l_b s') m c)) s.
Proof.
  intros Ht Hn Hrange Hsz. apply wp_zoom. pose proof (refs_of_range s H n).
  eapply wp_mono.
  { apply (wp_bread dev pid Hdev (l_b s) (refs_of s H) H n); [apply Ht | done | apply refs_of_counted | lia |].
    right. by apply (refs_of_roomy s H D). }
  intros b t (B & K & V & E & Hk). cbn [l_b].
  destruct (txn_frame s t H D ({[n]} ∪ H) D Ht) as [Ht' Hr']; try done.
  - eapply bstate_ext; [| exact B]. intros m. unfold refs_of, upd. destruct (decide (m = n)) as [->|Em].
    + rewrite !decide_True, decide_False by set_solver +Hn. lia.
    + destruct (decide (m ∈ H)); [rewrite decide_True by set_solver | rewrite decide_False by set_solver]; done.
  - intros m. rewrite V. apply Ht.
  - pose proof (tn_dirty _ _ _ Ht). set_solver.
  - intros m Hm HmD Hin. rewrite V. destruct (decide (m ∈ H)) as [|Hout]; [by apply Ht |].
    apply (unref_view dev pid Hdev _ _ _ _ (tn_state _ _ _ Ht)). unfold refs_of, tx_refs.
    by rewrite Hin, decide_False.
Qed.

Lemma txn_data s H D n b :
  txn s H D -> handle dev (l_b s) n b -> n ∈ H -> wp (bdata b) (fun d s' => d = view (l_b s) n /\ s' = s) s.
Proof. intros Ht Hb Hn. apply wp_gets. split; [| done]. eapply held_view; [done | apply Ht | done | done]. Qed.

Lemma txn_set s H D n b d :
  txn s H D -> handle dev (l_b s) n b -> n ∈ H -> length d = 1024%nat ->
  wp (in_b (bset b d)) (fun _ s' => txn s' H ({[n]} ∪ D) /\
    (forall m, view (l_b s') m = upd (view (l_b s)) n d m) /\ log_room s' = log_room s /\
    (forall m c, handle dev (l_b s) m c <-> handle dev (l_b s') m c)) s.
Proof.
  intros Ht Hb Hn Hd. apply wp_zoom.
  eapply wp_mono; [apply (wp_bset dev pid Hdev (l_b s) _ H n b d (tn_state _ _ _ Ht) Hb Hn), refs_of_counted, Hn |].
  intros [] t (B & V & E & Hk). cbn [l_b].
  destruct (txn_frame s t H D H ({[n]} ∪ D) Ht) as [Ht' Hr']; try done.
  - intros m. rewrite V. unfold upd. case_decide; [done | apply Ht].
  - pose proof (tn_dirty _ _ _ Ht). set_solver.
  - intros m Hm HmD Hin. rewrite V, upd_ne by set_solver +HmD. apply Ht; [done | set_solver +HmD | done].
Qed.

Lemma txn_rel s H D n b :
  txn s H D -> handle dev (l_b s) n b -> n ∈ H -> n ∉ D ->
  wp (in_b (brelse pid b)) (fun _ s' => txn s' (H ∖ {[n]}) D /\
    (forall m, view (l_b s') m = view (l_b s) m) /\ log_room s' = log_room s /\
    (forall m c, handle dev (l_b s) m c <-> handle dev (l_b s') m c)) s.
Proof.
  intros Ht Hb Hn HnD. apply wp_zoom. pose proof (refs_of_range s H n).
  eapply wp_mono.
  { apply (wp_brelse_law dev pid Hdev (l_b s) _ H n b (tn_state _ _ _ Ht) Hb Hn). intros Er.
    apply Ht; [done | done |]. unfold refs_of, tx_refs in Er. rewrite decide_True in Er by done. by destruct (in_tx s n). }
  intros [] t (B & V & E & Hk). cbn [l_b].
  destruct (txn_frame s t H D (H ∖ {[n]}) D Ht) as [Ht' Hr']; try done.
  - eapply bstate_ext; [| exact B]. intros m. unfold refs_of, upd, tx_refs. destruct (decide (m = n)) as [->|Em].
    + rewrite decide_False, decide_True by set_solver +Hn. destruct (in_tx s n); by rewrite u32_small.
    + destruct (decide (m ∈ H)); [rewrite decide_True by set_solver | rewrite decide_False by set_solver]; done.
  - intros m. rewrite V. apply Ht.
  - pose proof (tn_dirty _ _ _ Ht). set_solver.
  - intros m Hm HmD Hin. rewrite V. apply Ht; [set_solver +Hm | done | done].
Qed.

Lemma log_find_spec fuel h b i :
  let r := log_find fuel h b i in
  i <= r <= i + Z.of_nat fuel /\ (r < i + Z.of_nat fuel -> u32 (blk h r) = b) /\ forall j, i <= j < r -> u32 (blk h j) <> b.
Proof.
  revert i. induction fuel as [|fuel IH]; intros i; cbn [log_find]; [split_and!; lia |].
  destruct (u32 (blk h i) =? b) eqn:E; cbn zeta.
  - apply Z.eqb_eq in E. split_and!; [lia.. | done |]. lia.
  - apply Z.eqb_neq in E. destruct (IH (i + 1)) as (H1 & H2 & H3). split_and!; [lia.. | intros; apply H2; lia |].
    intros j Hj. destruct (decide (j = i)) as [->|]; [done |]. apply H3. lia.
Qed.

(** Whether the block is in the transaction already. *)
Lemma log_find_tx s n :
  0 <= tx_n s -> let i := log_find (Z.to_nat (tx_n s)) (lg_lh (l_log s)) n 0 in
  0 <= i <= tx_n s /\ (i < tx_n s -> tx_blk s i = n) /\ in_tx s n = negb (i =? tx_n s).
Proof.
  intros Hn i. destruct (log_find_spec (Z.to_nat (tx_n s)) (lg_lh (l_log s)) n 0) as (H1 & H2 & H3).
  fold i in H1, H2, H3. split_and!; [lia.. | intros; apply H2; lia |].
  destruct (Z.eqb_spec i (tx_n s)) as [E|E]; cbn [negb].
  - apply not_true_iff_false. rewrite in_tx_true. intros (j & Hj & Ej). apply (H3 j); [lia | done].
  - apply in_tx_true. exists i. split; [lia |]. apply H2. lia.
Qed.

(** The header after [log_write]. *)
Lemma blk_set_blk h i j v :
  0 <= i < Z.of_nat (length (lh_block h)) -> 0 <= j -> blk (set_blk i v h) j = if decide (j = i) then v else blk h j.
Proof.
  intros Hi Hj. unfold blk, set_blk. cbn. case_decide as E; [subst; by rewrite list_lookup_insert_eq by lia |].
  by rewrite list_lookup_insert_ne by lia.
Qed.

(** [s'] is [s] with block [n] in the transaction. *)
Record logs_block s n s' : Prop := LogsBlock {
  lb_cfg : logs dev s' start size;
  lb_op : lg_outstanding (l_log s') = lg_outstanding (l_log s);
  lb_len : length (lh_block (lg_lh (l_log s'))) = length (lh_block (lg_lh (l_log s)));
  lb_n : tx_n s <= tx_n s' <= tx_n s + 1;
  lb_in : forall m, in_tx s' m = in_tx s m || (m =? n);
  lb_inj : forall i j, 0 <= i < tx_n s' -> 0 <= j < tx_n s' -> tx_blk s' i = tx_blk s' j -> i = j;
}.

(** Storing [n] at the index found, the count raised when it is new. *)
Lemma logs_block_intro s n s' i :
  0 <= n < 2 ^ 32 -> 0 <= tx_n s -> logs dev s start size ->
  (forall i j, 0 <= i < tx_n s -> 0 <= j < tx_n s -> tx_blk s i = tx_blk s j -> i = j) ->
  0 <= i < Z.of_nat (length (lh_block (lg_lh (l_log s)))) -> i <= tx_n s -> (i < tx_n s -> tx_blk s i = n) ->
  in_tx s n = negb (i =? tx_n s) ->
  l_log s' = with_lh (Logheader (if i =? tx_n s then tx_n s + 1 else tx_n s)
                        (lh_block (set_blk i (s32 n) (lg_lh (l_log s))))) (l_log s) ->
  logs_block s n s'.
Proof.
  intros Hn Htn Hc Hinj Hil Hi Hfound Hin El.
  assert (tx_n s' = if i =? tx_n s then tx_n s + 1 else tx_n s) as En' by (unfold tx_n; by rewrite El).
  assert (forall j, 0 <= j -> tx_blk s' j = if decide (j = i) then n else tx_blk s j) as Eb'.
  { intros j Hj. unfold tx_blk. rewrite El. pose proof (blk_set_blk (lg_lh (l_log s)) i j (s32 n) Hil Hj) as Eq.
    change (blk (lg_lh (with_lh (Logheader ?a ?b) ?c)) j) with (blk (Logheader 0 b) j).
    change (blk (set_blk i (s32 n) (lg_lh (l_log s))) j)
      with (blk (Logheader 0 (lh_block (set_blk i (s32 n) (lg_lh (l_log s))))) j) in Eq.
    rewrite Eq. case_decide; [by rewrite u32_s32, u32_small | done]. }
  assert (forall j, 0 <= j < tx_n s -> tx_blk s' j = tx_blk s j) as Eold.
  { intros j Hj. rewrite Eb' by lia. case_decide; [subst; rewrite Hfound; lia | done]. }
  destruct Hc as (? & ? & ?). split; try (by unfold logs; rewrite ?El).
  - rewrite El. cbn. by rewrite length_insert.
  - rewrite En'. destruct (i =? tx_n s); lia.
  - intros m. apply eq_bool_prop_intro. rewrite orb_True, !Is_true_true, !in_tx_true, Z.eqb_eq. split.
    + intros (j & Hj & <-). rewrite Eb' by lia. case_decide; [by right |]. left. exists j. split; [| done].
      rewrite En' in Hj. destruct (Z.eqb_spec i (tx_n s)); lia.
    + intros [(j & Hj & <-)| ->]; [exists j | exists i].
      * split; [rewrite En'; destruct (i =? tx_n s); lia | by apply Eold].
      * split; [rewrite En'; destruct (Z.eqb_spec i (tx_n s)); lia |]. by rewrite Eb', decide_True by lia.
  - intros j k Hj Hk. rewrite En' in Hj, Hk. rewrite !Eb' by lia. destruct (Z.eqb_spec i (tx_n s)) as [Ei|Ei]; cbn in Hin.
    + assert (forall k, 0 <= k < tx_n s -> tx_blk s k <> n) as Hnew.
      { intros k' Hk' E. apply not_true_iff_false in Hin. apply Hin, in_tx_true. eauto. }
      repeat case_decide; subst; try done; intros E; [by destruct (Hnew k); [lia |] | by destruct (Hnew j); [lia |] |].
      apply Hinj; [lia.. | done].
    + repeat case_decide; subst; try done; intros E; apply Hinj; try lia; rewrite ?Hfound; lia || done.
Qed.

Lemma txn_logged s s' H D n :
  txn s H D -> n ∈ H -> ~ in_log n -> 1 <= log_room s -> logs_block s n s' ->
  bstate (l_b s') (refs_of s' H) H -> (forall m, view (l_b s') m = view (l_b s) m) -> disk (l_b s') = disk (l_b s) ->
  txn s' H (D ∖ {[n]}) /\ log_room s - 1 <= log_room s'.
Proof.
  intros [Hst Hc Hr Hsz Hbl Hi Ho Hop Hcl Hv Hh Hd Hcn] Hn Hout Hroom [Lc Lo Ll Ln Lin Linj] Hst' V E.
  unfold log_room in *. split; [split | lia]; try done.
  - lia.
  - congruence.
  - intros i Hi'. assert (in_tx s' (tx_blk s' i) = true) as Hin by (apply in_tx_true; eauto).
    rewrite Lin in Hin. apply orb_true_iff in Hin as [(j & Hj & <-)%in_tx_true|En%Z.eqb_eq]; [by apply Ho | by rewrite En].
  - lia.
  - by rewrite E.
  - intros m. rewrite V. apply Hv.
  - by rewrite E.
  - set_solver +Hd.
  - intros m Hm HmD Hmt. rewrite V. unfold on_disk. rewrite E. rewrite Lin in Hmt.
    apply orb_false_iff in Hmt as [Hmt Hne%Z.eqb_neq]. apply Hcn; [done | set_solver +HmD Hne | done].
Qed.

Lemma txn_log s H D n b :
  txn s H D -> handle dev (l_b s) n b -> n ∈ H -> ~ in_log n -> 0 <= n < 2 ^ 31 -> 1 <= log_room s ->
  wp (log_write b) (fun _ s' => txn s' H (D ∖ {[n]}) /\ (forall m, view (l_b s') m = view (l_b s) m) /\
    log_room s - 1 <= log_room s' /\ (forall m c, handle dev (l_b s) m c <-> handle dev (l_b s') m c) /\
    in_tx s' n = true) s.
Proof.
  intros Ht Hb Hn Hout Hrange Hroom. pose proof (tn_room _ _ _ Ht) as Hr. pose proof (tn_size _ _ _ Ht).
  pose proof (tn_op _ _ _ Ht) as Hop. unfold log_room in Hroom. destruct (handle_dev _ _ _ _ Hb) as [_ En].
  unfold log_write. apply wp_bind, wp_gets. fold (tx_n s). destruct (tn_cfg _ _ _ Ht) as (C1 & C2 & C3).
  rewrite C2, !(proj2 (Z.leb_gt _ _)), (proj2 (Z.ltb_ge _ _)) by klia. cbn [orb].
  apply wp_bind, wp_gets. rewrite En. destruct (log_find_tx s n) as (L1 & L2 & L3); [lia |].
  set (i := log_find _ _ _ _) in *.
  assert (0 <= i < Z.of_nat (length (lh_block (lg_lh (l_log s))))) as Hil by (rewrite (tn_blocks _ _ _ Ht); klia).
  assert (forall s', logs_block s n s' -> in_tx s' n = true) as Hin'.
  { intros s' Hlb. by rewrite (lb_in _ _ _ Hlb), Z.eqb_refl, orb_true_r. }
  assert (forall s', l_log s' = with_lh (Logheader (if i =? tx_n s then tx_n s + 1 else tx_n s)
    (lh_block (set_blk i (s32 n) (lg_lh (l_log s))))) (l_log s) -> logs_block s n s') as Hlb.
  { intros s' El. apply (logs_block_intro s n s' i); try done; [lia.. | apply Ht | apply Ht | lia]. }
  apply wp_bind, wp_modify. cbn [l_log l_b]. destruct (i =? tx_n s) eqn:Ei; cbn [negb] in L3.
  - apply wp_bind, wp_zoom. pose proof (refs_of_range s H n). eapply wp_mono.
    { apply (wp_bcount dev pid Hdev (l_b s) _ H n b (fun r => u32 (r + 1)) (tn_state _ _ _ Ht) Hb Hn); [apply u32_range |].
      rewrite u32_small by lia. lia. }
    intros [] t (B & V & E & Hk). apply wp_modify. set (s' := Lst _ _ _ _).
    specialize (Hlb s' eq_refl). destruct (txn_logged s s' H D n Ht Hn Hout Hroom Hlb) as [Ht' Hr']; [.. | split_and!; try done; by apply Hin']; try done.
    eapply bstate_ext; [| exact B]. intros m. rewrite u32_small by lia.
    unfold upd, refs_of, tx_refs. rewrite (lb_in _ _ _ Hlb), L3. destruct (decide (m = n)) as [->|Hm].
    + rewrite L3, Z.eqb_refl. cbn [orb]. lia.
    + by rewrite (proj2 (Z.eqb_neq _ _)), orb_false_r.
  - apply wp_ret. set (s' := Lst _ _ _ _). specialize (Hlb s' eq_refl).
    destruct (txn_logged s s' H D n Ht Hn Hout Hroom Hlb) as [Ht' Hr']; [.. | split_and!; try done; by apply Hin']; try done.
    eapply bstate_ext; [| apply Ht]. intros m. unfold refs_of, tx_refs. rewrite (lb_in _ _ _ Hlb).
    destruct (Z.eqb_spec m n) as [->|]; [by rewrite L3 | by rewrite orb_false_r].
Qed.

End txn.

(** The laws of [Blocks] hold for the kernel's log. *)
#[export] Instance log_block_laws (dev pid start size : Z) :
  dev <> 0 ->
  BlockLaws lst (H := log_blocks pid) dev (fun n => 0 <= n < 2 ^ 31 /\ ~ in_log start size n)
    (txn dev pid start size) (fun s => view dev (l_b s)) (fun s => handle dev (l_b s)) (log_room size).
Proof.
  intros Hdev. split.
  - intros s H D n Ht. apply Ht.
  - intros. by apply txn_read.
  - intros. by eapply txn_data.
  - intros. by eapply txn_set.
  - intros s H D n b Ht Hb Hn [Hrange Hout] Hr. eapply wp_mono; [by eapply txn_log | naive_solver].
  - intros. by eapply txn_rel.
Qed.
