(* ===== verification/Crash.v ===== *)
(** * Crash safety of the file system's transactions

    [boot d] is the kernel's memory after a reset with disk [d]: the buffer
    cache built by [binit], the log structure zero.  The theorems run
    [initlog] from it on every disk a crash can leave. *)

From S2P Require Import Prelude Riscv Sleeplock Bio Bcache Layout Log Txn.

Definition log0 : log := Log 0 0 0 false 0 (Logheader 0 (replicate 30 0)).
Definition bss (d : gmap Z (list Z)) : bst := Bst (replicate 31 buf0) d.
Definition boot (d : gmap Z (list Z)) : lst :=
  match binit (bss d) with
  | Ok _ b => Lst b log0 [] []
  | _ => Lst (bss d) log0 [] []
  end.

Lemma bss_zero d i : (i < HEAD)%nat -> getb (bss d) i = buf0.
Proof.
  intros Hi. unfold getb, bss. cbn [bufs].
  rewrite (lookup_replicate_2 31 buf0 i); [done |]. unfold HEAD in Hi. klia.
Qed.

Lemma boot_state dev pid d :
  dev <> 0 -> bstate dev pid (l_b (boot d)) (fun _ => 0) ∅ /\ disk (l_b (boot d)) = d /\ l_log (boot d) = log0 /\
    l_disks (boot d) = [].
Proof.
  intros Hdev. unfold boot. pose proof (wp_binit_cache (bss d) eq_refl (bss_zero d)) as Hw.
  destruct (proj1 (wp_ok _ _ _) Hw) as ([] & b & E & Hc & Hd & Hb). clear Hw. rewrite E. clear E. cbn.
  split_and!; try done. split; [eauto | |].
  - intros i Hi. left. by destruct (Hb i Hi) as (p & n & ->).
  - intros n [?|?]; [done | set_solver].
Qed.

Section crash.
Context (dev pid start size : Z) (Hdev : dev <> 0) (Hstart : 0 <= start) (Hend : start + size < 2 ^ 31).
Implicit Types (s : lst) (d : gmap Z (list Z)).

Abbreviation in_log := (in_log start size).
Abbreviation hdr_ok := (hdr_ok start size).
Abbreviation recovered := (recovered start).

Lemma initlog_from s d :
  bstate dev pid (l_b s) (fun _ => 0) ∅ -> disk (l_b s) = d -> l_log s = log0 -> hdr_ok d ->
  exists s', initlog pid dev start size s = Ok tt s' /\ recover_post dev pid start size d s s'.
Proof.
  intros Hst Ed El Hok. pose proof (hk_n _ _ _ Hok).
  set (s1 := Lst (l_b s) (Log start size 0 false dev (lg_lh log0)) (l_disks s) (l_woken s)).
  pose proof (wp_recover_from_log dev pid start size Hdev Hstart Hend s1) as Hw. cbn [l_b s1] in Hw. rewrite Ed in Hw.
  specialize (Hw Hok (conj eq_refl (conj eq_refl eq_refl)) eq_refl Hst).
  destruct (proj1 (wp_ok _ _ _) Hw) as ([] & s' & E & Hp). clear Hw. exists s'. split.
  - unfold initlog. change (BSIZE <=? SIZEOF_LOGHEADER) with false. unfold bind at 1, set_log, modify. rewrite El.
    cbn [lg_outstanding lg_committing lg_lh log0]. rewrite !s32_small by lia. exact E.
  - destruct Hp as [? ? ? ? ? (? & ? & ?) ? ? Hh]. split; try done. by rewrite El.
Qed.

Lemma initlog_boot d :
  hdr_ok d -> exists s', initlog pid dev start size (boot d) = Ok tt s' /\
    recover_post dev pid start size d (boot d) s'.
Proof. intros Hok. destruct (boot_state dev pid d Hdev) as (Hst & Ed & El & _). exact (initlog_from _ d Hst Ed El Hok). Qed.

(** The disks at which a crash during [commit] can leave the machine. *)
Definition crash_disks s s' : list (gmap Z (list Z)) :=
  disk (l_b s) :: take (length (l_disks s') - length (l_disks s)) (l_disks s').

Lemma commit_crashes s s' d :
  tx dev pid start size s -> commit_post dev pid start size s s' -> d ∈ crash_disks s s' ->
  old_or_new dev start size s d.
Proof.
  intros Ht Hp [->|Hd]%elem_of_cons; [by apply (stands_old dev pid) |].
  destruct (cp_hist _ _ _ _ _ _ Hp) as (ds & E & Hds). rewrite E, length_app in Hd.
  replace (length ds + length (l_disks s) - length (l_disks s))%nat with (length ds) in Hd by lia.
  rewrite take_app_length in Hd. by eapply Forall_forall in Hds.
Qed.

End crash.

(** C1: [commit] is atomic with respect to crashes.  It terminates with every
    block of the transaction at its home location and the log empty; and from
    whatever disk a crash leaves on the way (each of its writes being a
    possible last one), the kernel booted on that disk recovers either the
    file system from before the transaction, in every block, or the one from
    after it, in every block. *)
Theorem commit_crash_atomic dev pid pid' start size s :
  dev <> 0 -> 0 <= start -> start + size < 2 ^ 31 -> tx dev pid start size s -> 0 < tx_n s ->
  exists s', commit pid s = Ok tt s' /\ commit_post dev pid start size s s' /\
    forall d, d ∈ crash_disks s s' -> exists s2, initlog pid' dev start size (boot d) = Ok tt s2 /\
      ((forall m, ~ in_log start size m -> home (disk (l_b s2)) m = home (disk (l_b s)) m) \/
       (forall m, ~ in_log start size m -> home (disk (l_b s2)) m = view dev (l_b s) m)).
Proof.
  intros Hdev Hstart Hend Ht Hn. pose proof (wp_commit dev pid start size Hdev Hstart Hend s Ht Hn) as Hw.
  destruct (proj1 (wp_ok _ _ _) Hw) as ([] & s' & E & Hp). clear Hw. exists s'. split_and!; [exact E | exact Hp |].
  intros d Hd. destruct (commit_crashes dev pid start size s s' d Ht Hp Hd) as [Hok Hon].
  destruct (initlog_boot dev pid' start size Hdev Hstart Hend d Hok) as (s2 & E2 & Hr). exists s2. split; [exact E2 |].
  pose proof (hk_n _ _ _ Hok). assert (forall m, ~ in_log start size m -> m <> start) as Hne.
  { intros m Hm ->. apply Hm. unfold in_log. lia. }
  destruct Hon as [Hon|Hon]; [left | right]; intros m Hm; rewrite (rp_home _ _ _ _ _ _ _ Hr) by (by apply Hne); by apply Hon.
Qed.

(** C17: recovery installs exactly what the disk stands for, clears the log,
    and can itself be interrupted anywhere: booted again on any disk a crash
    during [initlog] leaves, the kernel ends with the same blocks. *)
Theorem recovery_idempotent dev pid pid' start size d :
  dev <> 0 -> 0 <= start -> start + size < 2 ^ 31 -> hdr_ok start size d ->
  exists s1, initlog pid dev start size (boot d) = Ok tt s1 /\
    (forall m, m <> start -> home (disk (l_b s1)) m = recovered start d m) /\ hdr_n start (disk (l_b s1)) = 0 /\
    forall d', d' ∈ l_disks s1 -> exists s2, initlog pid' dev start size (boot d') = Ok tt s2 /\
      forall m, m <> start -> home (disk (l_b s2)) m = home (disk (l_b s1)) m.
Proof.
  intros Hdev Hstart Hend Hok. destruct (initlog_boot dev pid start size Hdev Hstart Hend d Hok) as (s1 & E1 & Hr).
  exists s1. split_and!; [exact E1 | apply Hr | apply Hr |]. intros d' Hd'.
  destruct (rp_hist _ _ _ _ _ _ _ Hr) as (ds & Eds & Hds). destruct (boot_state dev pid d Hdev) as (_ & _ & _ & Eh).
  rewrite Eds, Eh, app_nil_r in Hd'. destruct (proj1 (Forall_forall _ _) Hds d' Hd') as [Hok' Hst].
  destruct (initlog_boot dev pid' start size Hdev Hstart Hend d' Hok') as (s2 & E2 & Hr2). exists s2. split; [exact E2 |].
  intros m Hm. rewrite (rp_home _ _ _ _ _ _ _ Hr2), (rp_home _ _ _ _ _ _ _ Hr) by done. by apply Hst.
Qed.

(** C38: after recovery every replayed block's buffer has the reference count
    [2^32 - 1]: [install_trans] calls [bunpin] on buffers that recovery never
    pinned, and [brelse] decrements the count below zero. *)
Theorem recovery_unpins_unpinned dev pid start size d i :
  dev <> 0 -> 0 <= start -> start + size < 2 ^ 31 -> hdr_ok start size d -> 0 <= i < hdr_n start d ->
  exists s1 b, initlog pid dev start size (boot d) = Ok tt s1 /\
    handle dev (l_b s1) (hdr_blk start d i) b /\ b_refcnt (getb (l_b s1) b) = 2 ^ 32 - 1.
Proof.
  intros Hdev Hstart Hend Hok Hi. destruct (initlog_boot dev pid start size Hdev Hstart Hend d Hok) as (s1 & E1 & Hr).
  assert (refs_at start (fun _ => 0) d (hdr_n start d) (hdr_blk start d i) = 2 ^ 32 - 1) as Er.
  { unfold refs_at. rewrite (proj2 (logged_true start d (hdr_n start d) (hdr_blk start d i))); [done | eauto]. }
  pose proof (rp_state _ _ _ _ _ _ _ Hr) as Hst.
  destruct (bs_cached _ _ _ _ _ Hst (hdr_blk start d i)) as (b & Hb & _); [left; by rewrite Er |].
  exists s1, b. split_and!; [exact E1 | exact Hb |].
  destruct (handle_state dev pid Hdev _ _ _ _ _ Hst Hb) as [-> _]. exact Er.
Qed.

(** ** A transaction from boot *)

Lemma txn_begin dev pid start size s :
  bstate dev pid (l_b s) (fun _ => 0) ∅ -> dev <> 0 -> logs dev s start size -> lh_n (lg_lh (l_log s)) = 0 ->
  3 <= size <= LOGSIZE -> length (lh_block (lg_lh (l_log s))) = Z.to_nat LOGSIZE ->
  lg_outstanding (l_log s) = 0 -> lg_committing (l_log s) = false -> hdr_n start (disk (l_b s)) = 0 ->
  (forall n, length (home (disk (l_b s)) n) = 1024%nat) ->
  wp begin_op (fun _ s' => txn dev pid start size s' ∅ ∅ /\ l_b s' = l_b s /\ tx_n s' = 0) s.
Proof.
  intros Hst Hdev Hlg Hn Hsz Hbl Hop Hcm Hh Hl. unfold begin_op. apply wp_bind, wp_gets. rewrite Hcm, Hn, Hop.
  change (LOGSIZE <? 0 + (0 + 1) * MAXOPBLOCKS) with false. apply wp_modify. cbn [l_b l_log].
  set (s' := Lst _ _ _ _). assert (tx_n s' = 0) as En by exact Hn.
  split_and!; [| done | done]. split; rewrite ?En; try done; try lia.
  - eapply bstate_ext; [| exact Hst]. intros m. unfold refs_of, tx_refs.
    rewrite decide_False by set_solver +. destruct (in_tx s' m) eqn:E; [| done].
    apply in_tx_true in E as (i & Hi & _). rewrite En in Hi. lia.
  - cbn. rewrite Hop. lia.
  - intros n. cbn. rewrite (unref_view dev pid Hdev _ _ _ n Hst eq_refl). apply Hl.
Qed.

(** One block written in a transaction. *)
Lemma tx_one dev pid start size s n :
  txn dev pid start size s ∅ ∅ -> dev <> 0 -> ~ in_log start size n -> 0 <= n < 2 ^ 31 -> 1 <= log_room size s ->
  wp (let! b := in_b (bread pid dev n) in in_b (bset b (replicate 1024 7)) ;;; log_write b ;;; in_b (brelse pid b))
    (fun _ s' => txn dev pid start size s' ∅ ∅ /\ 0 < tx_n s') s.
Proof.
  intros Ht Hdev Hout Hn Hr. apply wp_bind.
  eapply wp_mono; [apply (txn_read dev pid start size Hdev s ∅ ∅ n Ht); [set_solver + | done | by rewrite size_empty; lia] |].
  intros b s1 (T1 & K1 & _ & R1 & _). apply wp_bind.
  eapply wp_mono; [apply (txn_set dev pid start size Hdev s1 _ _ n b _ T1 K1); [set_solver + | by rewrite length_replicate] |].
  intros [] s2 (T2 & _ & R2 & K2). apply wp_bind.
  eapply wp_mono; [apply (txn_log dev pid start size Hdev s2 _ _ n b T2); [by apply K2 | set_solver + | done | done | lia] |].
  intros [] s3 (T3 & _ & _ & K3 & Hin).
  eapply wp_mono; [apply (txn_rel dev pid start size Hdev s3 _ _ n b T3); [by apply K3, K2 | set_solver + | set_solver +] |].
  intros [] s4 (T4 & _ & R4 & _). split.
  - by replace (({[n]} ∪ ∅ : gset Z) ∖ {[n]}) with (∅ : gset Z) in T4 by set_solver +.
  - apply in_tx_true in Hin as (i & Hi & _). unfold log_room in R4. lia.
Qed.

(** A transaction begun after boot, on any disk with an empty log. *)
Lemma txn_boot d :
  hdr_n 2 d = 0 -> (forall n, length (home d n) = 1024%nat) ->
  exists s, txn 1 3 2 30 s ∅ ∅ /\ tx_n s = 0 /\ forall m, m <> 2 -> view 1 (l_b s) m = home d m.
Proof.
  intros E0 Hd. assert (hdr_ok 2 30 d) as Hok by (apply hdr_ok_nil; [done | done | klia]).
  destruct (initlog_boot 1 3 2 30 ltac:(lia) ltac:(lia) ltac:(lia) d Hok) as (s0 & _ & Hr).
  destruct (boot_state 1 3 d ltac:(lia)) as (_ & _ & El & _).
  destruct Hr as [Hst Hh Hc Hn Hcfg (Hbl & Ho & Hcm) Hok' Hv _]. rewrite El in Ho, Hcm. clear El. rewrite E0 in Hst.
  assert (forall n, length (home (disk (l_b s0)) n) = 1024%nat) as Hl.
  { intros n. destruct (decide (n = 2)) as [->|Hne]; [apply (hk_len _ _ _ Hok') |].
    by rewrite Hh, recovered_nil by done. }
  pose proof (txn_begin 1 3 2 30 s0 Hst ltac:(lia) Hcfg Hn ltac:(klia) Hbl Ho Hcm Hc Hl) as Hw.
  destruct (proj1 (wp_ok _ _ _) Hw) as (? & s & _ & Hs & Eb & En). exists s. split_and!; [exact Hs | exact En |].
  intros m Hm. rewrite Eb, Hv by done. by apply recovered_nil.
Qed.

Lemma demo_tx : exists s, tx 1 3 2 30 s /\ 0 < tx_n s.
Proof.
  assert (hdr_n 2 ∅ = 0) as E0 by (vm_compute; reflexivity).
  destruct (txn_boot ∅ E0) as (s & Ht & En & _); [done |].
  pose proof (tx_one 1 3 2 30 s 100 Ht ltac:(lia) ltac:(unfold in_log; lia) ltac:(lia) ltac:(unfold log_room; lia)) as Hw.
  destruct (proj1 (wp_ok _ _ _) Hw) as (? & s' & _ & Hs & Hn). exists s'. split; [by apply txn_tx | done].
Qed.

Lemma commit_crash_witness : exists s s', tx 1 3 2 30 s /\ commit 3 s = Ok tt s' /\
  exists s2, initlog 4 1 2 30 (boot (disk (l_b s))) = Ok tt s2.
Proof.
  destruct demo_tx as (s & Ht & Hn).
  destruct (commit_crash_atomic 1 3 4 2 30 s ltac:(lia) ltac:(lia) ltac:(lia) Ht Hn) as (s' & E & _ & Hcr).
  exists s, s'. split_and!; [exact Ht | exact E |].
  destruct (Hcr (disk (l_b s)) ltac:(by left)) as (s2 & E2 & _). by exists s2.
Defined.

(** A disk with a committed transaction of one block: number 100, copy in the
    first log slot. *)
Definition demo_committed : gmap Z (list Z) :=
  {[ 2 := put32 (put32 zero_block 0 1) 4 100; 3 := replicate 1024 9 ]}.

Lemma demo_committed_ok : hdr_ok 2 30 demo_committed.
Proof.
  assert (hdr_n 2 demo_committed = 1) as En by (by vm_compute).
  assert (hdr_blk 2 demo_committed 0 = 100) as Eb by (by vm_compute).
  split; rewrite ?En; [lia | klia | intros; lia | | by vm_compute].
  intros i Hi. replace i with 0 by lia. rewrite Eb. lia.
Qed.

Lemma recovery_witness : exists s1, initlog 3 1 2 30 (boot demo_committed) = Ok tt s1 /\
  home (disk (l_b s1)) 100 = replicate 1024 9.
Proof.
  destruct (recovery_idempotent 1 3 3 2 30 demo_committed ltac:(lia) ltac:(lia) ltac:(lia) demo_committed_ok)
    as (s1 & E & Hm & _). exists s1. split; [exact E |]. rewrite (Hm 100 ltac:(lia)). vm_compute. reflexivity.
Defined.

Lemma recovery_unpins_witness : exists s1 b, initlog 3 1 2 30 (boot demo_committed) = Ok tt s1 /\
  b_refcnt (getb (l_b s1) b) = 2 ^ 32 - 1.
Proof.
  assert (hdr_n 2 demo_committed = 1) as En by (vm_compute; reflexivity).
  destruct (recovery_unpins_unpinned 1 3 2 30 demo_committed 0 ltac:(lia) ltac:(lia) ltac:(lia) demo_committed_ok ltac:(lia))
    as (s1 & b & E & _ & Hr). exists s1, b. split; [exact E | exact Hr].
Defined.
