(* ===== verification/Logspace.v ===== *)
(** * Log space: what [begin_op] reserves

    File-system operations that begin, log blocks and end, in any order.  An
    operation that stays within [MAXOPBLOCKS] blocks never finds the log
    full, whatever the others do; the reservation is against [LOGSIZE], while
    [log_write] also stops at [log.size - 1]. *)

From S2P Require Import Prelude Riscv Sleeplock Bio Bcache Layout Log Txn Crash.

(** ** Functions that leave [struct log] alone *)

Definition same_log (s s' : lst) : Prop := l_log s' = l_log s.

#[local] Instance same_log_preorder : PreOrder same_log.
Proof. split; [done |]. unfold same_log. intros s1 s2 s3 E1 E2. congruence. Qed.

Lemma keeps_in_b {A} (m : M bst A) : keeps same_log (in_b m).
Proof. by apply keeps_zoom. Qed.

Lemma keeps_l_bwrite pid b : keeps same_log (l_bwrite pid b).
Proof. apply keeps_bind; [apply _ | apply keeps_in_b |]. intros _. by apply keeps_modify. Qed.

#[local] Hint Resolve keeps_in_b keeps_l_bwrite : keeps.

Lemma keeps_repeat_for n body : (forall i, keeps same_log (body i)) -> keeps same_log (repeat_for n body).
Proof.
  intros Hb. unfold repeat_for. apply keeps_bind; [apply _ | | intros; apply keeps_ret; apply _].
  apply keeps_for_range; [apply _ |]. intros i. apply keeps_bind; [apply _ | apply Hb | intros; apply keeps_ret; apply _].
Qed.

Lemma keeps_install pid : keeps same_log (install_trans pid).
Proof.
  apply keeps_bind; [apply _ | keeps_tac |]. intros g. apply keeps_repeat_for. intros i. unfold install_one, bdata. keeps_tac.
Qed.

Lemma keeps_write_log pid : keeps same_log (write_log pid).
Proof.
  apply keeps_bind; [apply _ | keeps_tac |]. intros g. apply keeps_repeat_for. intros i. unfold write_one, bdata. keeps_tac.
Qed.

Lemma keeps_write_head pid : keeps same_log (write_head pid).
Proof. unfold write_head, bdata. keeps_tac. Qed.

(** [commit] empties the in-memory header and changes nothing else of it. *)
Lemma commit_log pid s s' :
  commit pid s = Ok tt s' -> 0 <= tx_n s -> l_log s' = with_lh (with_n 0 (lg_lh (l_log s))) (l_log s).
Proof.
  unfold commit. intros (g & s0 & [= <- <-] & E)%bind_ok Hn. fold (tx_n s) in E. destruct (Z.ltb_spec 0 (tx_n s)).
  - apply bind_ok in E as ([] & s1 & E1%keeps_write_log & E). apply bind_ok in E as ([] & s2 & E2%keeps_write_head & E).
    apply bind_ok in E as ([] & s3 & E3%keeps_install & E). apply bind_ok in E as ([] & s4 & [= <-] & E).
    apply keeps_write_head in E. rewrite E. unfold same_log in *. cbn. by rewrite E3, E2, E1.
  - injection E as <-. assert (lh_n (lg_lh (l_log s)) = 0) as E0 by (unfold tx_n in *; lia).
    destruct (l_log s) as [? ? ? ? ? [n bl]]. cbn in *. by subst n.
Qed.

(** ** Operations in progress *)

(** [u] lists how many [log_write]s each operation in progress has made. *)
Inductive opstep (pid : Z) : lst * list Z -> lst * list Z -> Prop :=
  | OpBegin s u s' : begin_op s = Ok tt s' -> opstep pid (s, u) (s', 0 :: u)
  | OpLog s u1 k u2 b s' : k < MAXOPBLOCKS -> log_write b s = Ok tt s' ->
      opstep pid (s, u1 ++ k :: u2) (s', u1 ++ k + 1 :: u2)
  | OpEnd s u1 k u2 s' : end_op pid s = Ok tt s' -> opstep pid (s, u1 ++ k :: u2) (s', u1 ++ u2)
  | OpBuf s u s' : l_log s' = l_log s -> opstep pid (s, u) (s', u).

Definition used (u : list Z) : Z := foldr Z.add 0 u.

(** Every operation's unused blocks still fit. *)
Record space_inv (y : lst * list Z) : Prop := SpaceInv {
  sp_out : lg_outstanding (l_log y.1) = Z.of_nat (length y.2);
  sp_idle : lg_committing (l_log y.1) = false;
  sp_n : 0 <= tx_n y.1;
  sp_used : Forall (fun k => 0 <= k <= MAXOPBLOCKS) y.2;
  sp_fits : tx_n y.1 + MAXOPBLOCKS * Z.of_nat (length y.2) - used y.2 <= LOGSIZE;
}.

Lemma used_app u1 u2 : used (u1 ++ u2) = used u1 + used u2.
Proof. unfold used. induction u1 as [|k u1 IH]; cbn [foldr app]; lia. Qed.

Lemma used_nonneg u : Forall (fun k => 0 <= k <= MAXOPBLOCKS) u -> 0 <= used u <= MAXOPBLOCKS * Z.of_nat (length u).
Proof. unfold used. induction 1 as [|k u Hk Hu IH]; cbn [foldr length]; klia. Qed.

Lemma log_write_log b s s' :
  log_write b s = Ok tt s' -> 0 <= tx_n s ->
  tx_n s <= tx_n s' <= tx_n s + 1 /\ lg_outstanding (l_log s') = lg_outstanding (l_log s) /\
  lg_committing (l_log s') = lg_committing (l_log s) /\ lg_size (l_log s') = lg_size (l_log s).
Proof.
  unfold log_write. intros (g & s0 & [= <- <-] & E)%bind_ok Hn. destruct (_ || _); [discriminate E |].
  destruct (_ <? 1); [discriminate E |]. apply bind_ok in E as (bn & s1 & [= <- <-] & E).
  apply bind_ok in E as ([] & s2 & [= <-] & E). destruct (_ =? _).
  - apply bind_ok in E as ([] & s3 & E3%keeps_in_b & [= <-]). unfold tx_n. cbn. unfold same_log in E3. rewrite E3. cbn.
    split_and!; try done; lia.
  - injection E as <-. unfold tx_n. cbn. split_and!; try done; lia.
Qed.

Lemma begin_op_inv s u s' : begin_op s = Ok tt s' -> space_inv (s, u) -> space_inv (s', 0 :: u).
Proof.
  unfold begin_op. intros (g & s0 & [= <- <-] & E)%bind_ok [Ho Hc Hn Hu Hf]. cbn [fst snd] in *. rewrite Hc in E.
  destruct (Z.ltb_spec LOGSIZE (lh_n (lg_lh (l_log s)) + (lg_outstanding (l_log s) + 1) * MAXOPBLOCKS)); [discriminate E |].
  injection E as <-. pose proof (used_nonneg u Hu). unfold tx_n in *.
  split; cbn [fst snd l_log with_outstanding lg_outstanding lg_committing lg_lh tx_n length used foldr]; try done;
    [lia | constructor; [klia | done] |]. unfold tx_n. cbn. fold (used u). klia.
Qed.

Lemma end_op_inv pid s u1 k u2 s' : end_op pid s = Ok tt s' -> space_inv (s, u1 ++ k :: u2) -> space_inv (s', u1 ++ u2).
Proof.
  intros E [Ho Hc Hn Hu Hf]. cbn [fst snd] in *. rewrite length_app in Ho, Hf. cbn [length] in Ho, Hf.
  rewrite used_app in Hf. cbn [used foldr] in Hf. fold (used u2) in Hf.
  apply Forall_app in Hu as [Hu1 [Hk Hu2]%Forall_cons]. pose proof (used_nonneg u1 Hu1). pose proof (used_nonneg u2 Hu2).
  assert (Forall (fun k => 0 <= k <= MAXOPBLOCKS) (u1 ++ u2)) as Hu' by (apply Forall_app; done).
  unfold end_op in E. apply bind_ok in E as (dc & s1 & E1 & E).
  unfold end_op_enter in E1. apply bind_ok in E1 as ([] & s2 & [= <-] & E1).
  apply bind_ok in E1 as (g & s3 & [= <- <-] & E1). cbn [l_log with_outstanding lg_committing lg_outstanding] in E1.
  rewrite Hc in E1. destruct (Z.eqb_spec (lg_outstanding (l_log s) - 1) 0) as [E0|E0].
  - apply bind_ok in E1 as ([] & s4 & [= <-] & [= <- <-]).
    apply bind_ok in E as ([] & s5 & E5 & E). apply bind_ok in E as ([] & s6 & [= <-] & [= <-]).
    apply commit_log in E5; [| exact Hn]. assert (u1 = [] /\ u2 = []) as [-> ->].
    { destruct u1, u2; cbn [length] in Ho; split; try done; lia. }
    split; unfold tx_n; cbn; rewrite ?E5; cbn; try done; klia.
  - apply bind_ok in E1 as ([] & s4 & [= <-] & [= <- <-]). injection E as <-.
    split; unfold tx_n in *; cbn [fst snd l_log with_outstanding lg_outstanding lg_committing lg_lh]; try done.
    + rewrite length_app. lia.
    + rewrite length_app, used_app. klia.
Qed.

Lemma opstep_inv pid y y' : opstep pid y y' -> space_inv y -> space_inv y'.
Proof.
  intros Hs. destruct Hs as [s u s' E|s u1 k u2 b s' Hk E|s u1 k u2 s' E|s u s' El].
  - by apply begin_op_inv.
  - intros [Ho Hc Hn Hu Hf]. cbn [fst snd] in *. destruct (log_write_log b s s' E Hn) as (L1 & L2 & L3 & _).
    rewrite length_app, used_app in *. cbn [length used foldr] in *. fold (used u2) in *.
    apply Forall_app in Hu as [Hu1 [Hk' Hu2]%Forall_cons].
    split; cbn [fst snd]; rewrite ?length_app, ?used_app; cbn [length used foldr]; fold (used u2); try lia; try congruence.
    apply Forall_app. split; [done |]. constructor; [lia | done].
  - by eapply end_op_inv.
  - intros [Ho Hc Hn Hu Hf]. unfold tx_n in *. cbn [fst snd] in *. split; unfold tx_n; cbn [fst snd]; by rewrite ?El.
Qed.

(** C25: whatever operations are in progress, an operation that has logged
    fewer than [MAXOPBLOCKS] blocks finds space: the header never outgrows its
    [LOGSIZE] slots, and on a log of more than [LOGSIZE] blocks its next
    [log_write] succeeds. *)
Theorem log_space pid s0 s u1 k u2 b :
  lg_outstanding (l_log s0) = 0 -> lg_committing (l_log s0) = false -> tx_n s0 = 0 ->
  rtc (opstep pid) (s0, []) (s, u1 ++ k :: u2) -> k < MAXOPBLOCKS ->
  0 <= tx_n s < LOGSIZE /\ (LOGSIZE < lg_size (l_log s) -> exists s', log_write b s = Ok tt s').
Proof.
  intros Ho Hc Hn Hr Hk. assert (space_inv (s, u1 ++ k :: u2)) as [So Sc Sn Su Sf].
  { assert (space_inv (s0, [])) as H0 by (split; cbn [fst snd]; rewrite ?Hn; cbn; done || klia).
    remember (s, u1 ++ k :: u2) as y eqn:Ey. clear Ey. revert H0.
    induction Hr as [y|y y1 y2 H1 H2 IH]; [done |]. intros H0. by eapply IH, opstep_inv. }
  cbn [fst snd] in *. rewrite length_app, used_app in Sf. cbn [length used foldr] in Sf. fold (used u2) in Sf.
  apply Forall_app in Su as [Hu1 [_ Hu2]%Forall_cons]. pose proof (used_nonneg u1 Hu1). pose proof (used_nonneg u2 Hu2).
  assert (0 <= tx_n s < LOGSIZE) as Htn by klia. split; [done |]. intros Hsz.
  rewrite length_app in So. cbn [length] in So. unfold log_write, bind at 1, gets at 1. fold (tx_n s).
  rewrite !(proj2 (Z.leb_gt _ _)), (proj2 (Z.ltb_ge _ _)) by lia. cbn [orb]. unfold bind, gets, set_log, modify.
  destruct (_ =? tx_n s); cbn; eauto.
Qed.

(** ** The log that mkfs makes *)

(** [mkfs] gives the log [LOGSIZE] blocks, header included. *)
Definition mkfs_nlog : Z := LOGSIZE.

(** One block of an operation, as the file system writes it. *)
Definition write_block (pid dev n : Z) : M lst unit :=
  let! b := in_b (bread pid dev n) in
  log_write b ;;;
  in_b (brelse pid b).

Fixpoint write_blocks (k : nat) (pid dev n : Z) : M lst unit :=
  match k with
  | O => ret tt
  | S k' => write_block pid dev n ;;; write_blocks k' pid dev (n + 1)
  end.

(** Three operations of [MAXOPBLOCKS] blocks each. *)
Definition three_ops : M lst unit :=
  initlog 3 1 2 mkfs_nlog ;;;
  begin_op ;;; begin_op ;;; begin_op ;;;
  write_blocks (Z.to_nat MAXOPBLOCKS) 3 1 100 ;;;
  write_blocks (Z.to_nat MAXOPBLOCKS) 3 1 110 ;;;
  write_blocks (Z.to_nat MAXOPBLOCKS) 3 1 120.


(** One operation, begun on a log of 40 blocks. *)
Definition demo_log40 : lst := Lst (bss ∅) (Log 2 40 0 false 1 (Logheader 0 (replicate 30 0))) [] [].
Definition demo_log40' : lst := Lst (bss ∅) (Log 2 40 1 false 1 (Logheader 0 (replicate 30 0))) [] [].

Lemma log_space_witness : exists s', log_write 0 demo_log40' = Ok tt s'.
Proof.
  apply (log_space 3 demo_log40 demo_log40' [] 0 [] 0%nat); [reflexivity | reflexivity | reflexivity | | klia | cbn; klia].
  apply rtc_once. apply (OpBegin 3 demo_log40 [] demo_log40'). reflexivity.
Defined.
