(* ===== verification/Fs.v ===== *)
(** * kernel/fs.c: the file system

    The five layers of fs.c over the block interface of Txn.v: block
    allocation, inodes and their cache, file contents, directories and path
    names.  The state is the block store, the superblock, the inode cache and
    user memory (read and written through Usermem.v).  A pointer to a cached
    inode is its index.  Kernel buffers are byte lists: [readi] and [writei]
    with [user_dst == 0] return or take the bytes.  Proofs are in Balloc.v,
    Inode.v, Contents.v, Filedata.v and Path.v. *)

From S2P Require Import Prelude Riscv KString Sleeplock Layout Usermem Bio Txn.

(** ** On-disk format: kernel/fs.h *)

Definition ROOTINO : Z := 1.
Definition FSMAGIC : Z := 0x10203040.
Definition NDIRECT : Z := 12.
Definition NINDIRECT : Z := BSIZE / 4.
Definition MAXFILE : Z := NDIRECT + NINDIRECT.
Definition DIRSIZ : Z := 14.
Definition T_DIR : Z := 1.
Definition T_FILE : Z := 2.
Definition T_DEVICE : Z := 3.

Record superblock := Superblock {
  sb_magic : Z; sb_size : Z; sb_nblocks : Z; sb_ninodes : Z;
  sb_nlog : Z; sb_logstart : Z; sb_inodestart : Z; sb_bmapstart : Z;
}.

Record dinode := Dinode {
  d_type : Z; d_major : Z; d_minor : Z; d_nlink : Z; d_size : Z; d_addrs : list Z;
}.
Definition SIZEOF_DINODE : Z := 64.
Definition IPB : Z := BSIZE / SIZEOF_DINODE.
Definition IBLOCK (i : Z) (sb : superblock) : Z := u32 (i / IPB + sb_inodestart sb).
Definition BPB : Z := BSIZE * 8.
Definition BBLOCK (b : Z) (sb : superblock) : Z := u32 (b / BPB + sb_bmapstart sb).

Record dirent := Dirent { de_inum : Z; de_name : list Z }.
Definition SIZEOF_DIRENT : Z := 16.

#[export] Hint Unfold ROOTINO NDIRECT NINDIRECT MAXFILE DIRSIZ T_DIR T_FILE T_DEVICE
  SIZEOF_DINODE IPB BPB SIZEOF_DIRENT : consts.

(** A [struct superblock], a [struct dinode] and a [struct dirent] as bytes. *)
Definition get_superblock (d : list Z) : superblock :=
  Superblock (get32 d 0) (get32 d 4) (get32 d 8) (get32 d 12) (get32 d 16) (get32 d 20) (get32 d 24) (get32 d 28).

Definition get_dinode (d : list Z) (off : Z) : dinode :=
  Dinode (s16 (get16 d off)) (s16 (get16 d (off + 2))) (s16 (get16 d (off + 4))) (s16 (get16 d (off + 6)))
         (get32 d (off + 8)) (map (fun i => get32 d (off + 12 + 4 * i)) (seqZ 0 (NDIRECT + 1))).

Fixpoint put_words (d : list Z) (off : Z) (ws : list Z) : list Z :=
  match ws with
  | [] => d
  | w :: ws' => put_words (put32 d off w) (off + 4) ws'
  end.

Definition put_dinode (d : list Z) (off : Z) (n : dinode) : list Z :=
  put_words (put32 (put16 (put16 (put16 (put16 d off (d_type n)) (off + 2) (d_major n)) (off + 4) (d_minor n))
                     (off + 6) (d_nlink n)) (off + 8) (d_size n))
            (off + 12) (d_addrs n).

Definition get_dirent (d : list Z) : dirent := Dirent (get16 d 0) (slice d 2 14).
Definition put_dirent (e : dirent) : list Z := le_bytes 2 (de_inum e) ++ de_name e.

(** ** In memory: kernel/file.h *)

Record inode := Inode {
  i_dev : Z; i_inum : Z; i_ref : Z; i_lock : sleeplock; i_valid : bool;
  i_type : Z; i_major : Z; i_minor : Z; i_nlink : Z; i_size : Z; i_addrs : list Z;
}.
Definition inode0 : inode := Inode 0 0 0 initsleeplock false 0 0 0 0 0 (replicate 13 0).

Record stat := Stat { st_dev : Z; st_ino : Z; st_type : Z; st_nlink : Z; st_size : Z }.

(** Where [readi] puts bytes and [writei] takes them from. *)
Inductive dest := UserDst (pt va : Z) | KernDst.
Inductive source := UserSrc (pt va : Z) | KernSrc (bs : list Z).

(** ** Names *)

(** A C string as its bytes; reading past the end gives the terminating 0. *)
Definition char_at (l : list Z) (i : Z) : Z := default 0 (l !! Z.to_nat i).

Definition namecmp (s t : list Z) : Z := KString.strncmp (char_at s) (char_at t) DIRSIZ.

(** [strncpy(dst, s, DIRSIZ)] into a buffer of [DIRSIZ] bytes. *)
Fixpoint cstr (l : list Z) : list Z :=
  match l with
  | [] => []
  | c :: l' => if c =? 0 then [] else c :: cstr l'
  end.
Definition pad_name (s : list Z) : list Z := take 14 (cstr s ++ replicate 14 0).

(** [while (c == '/') path++] and its converse, up to the end of the string. *)
Definition SLASH : Z := 47.
Fixpoint skip_slashes (path : list Z) : list Z :=
  match path with
  | c :: path' => if c =? SLASH then skip_slashes path' else path
  | [] => []
  end.

(** The bytes before the next slash or NUL, and the rest. *)
Fixpoint span_elem (path : list Z) : list Z * list Z :=
  match path with
  | c :: path' =>
      if (c =? SLASH) || (c =? 0) then ([], path)
      else let '(e, r) := span_elem path' in (c :: e, r)
  | [] => ([], [])
  end.

(** [None] for the null pointer; otherwise the rest of the path and [name],
    cut at [DIRSIZ] bytes. *)
Definition skipelem (path : list Z) : option (list Z * list Z) :=
  let p := skip_slashes path in
  if char_at p 0 =? 0 then None
  else
    let '(e, r) := span_elem p in
    Some (skip_slashes r, if DIRSIZ <=? Z.of_nat (length e) then take (Z.to_nat DIRSIZ) e else e).

Section fs.
Context {S U : Type} `{Blocks S} `{LogOps S} `{UserMem U}.

Record fst := Fst { f_blk : S; f_sb : superblock; f_inodes : list inode; f_user : U }.

Definition in_blk {A} (m : M S A) : M fst A :=
  zoom f_blk (fun b s => Fst b (f_sb s) (f_inodes s) (f_user s)) m.
Definition in_usr {A} (m : M U A) : M fst A :=
  zoom f_user (fun u s => Fst (f_blk s) (f_sb s) (f_inodes s) u) m.

Definition geti (s : fst) (ip : nat) : inode := default inode0 (f_inodes s !! ip).
Definition seti (ip : nat) (f : inode -> inode) : M fst unit :=
  modify (fun s => Fst (f_blk s) (f_sb s) (alter f ip (f_inodes s)) (f_user s)).

Definition with_iref (r : Z) (i : inode) : inode :=
  Inode (i_dev i) (i_inum i) r (i_lock i) (i_valid i) (i_type i) (i_major i) (i_minor i) (i_nlink i) (i_size i) (i_addrs i).
Definition with_ilock (l : sleeplock) (i : inode) : inode :=
  Inode (i_dev i) (i_inum i) (i_ref i) l (i_valid i) (i_type i) (i_major i) (i_minor i) (i_nlink i) (i_size i) (i_addrs i).
Definition with_ivalid (v : bool) (i : inode) : inode :=
  Inode (i_dev i) (i_inum i) (i_ref i) (i_lock i) v (i_type i) (i_major i) (i_minor i) (i_nlink i) (i_size i) (i_addrs i).
Definition with_itype (t : Z) (i : inode) : inode :=
  Inode (i_dev i) (i_inum i) (i_ref i) (i_lock i) (i_valid i) t (i_major i) (i_minor i) (i_nlink i) (i_size i) (i_addrs i).
Definition with_inlink (n : Z) (i : inode) : inode :=
  Inode (i_dev i) (i_inum i) (i_ref i) (i_lock i) (i_valid i) (i_type i) (i_major i) (i_minor i) n (i_size i) (i_addrs i).
Definition with_dev_nums (major minor : Z) (i : inode) : inode :=
  Inode (i_dev i) (i_inum i) (i_ref i) (i_lock i) (i_valid i) (i_type i) major minor (i_nlink i) (i_size i) (i_addrs i).
Definition with_isize (z : Z) (i : inode) : inode :=
  Inode (i_dev i) (i_inum i) (i_ref i) (i_lock i) (i_valid i) (i_type i) (i_major i) (i_minor i) (i_nlink i) z (i_addrs i).
Definition with_iaddr (k a : Z) (i : inode) : inode :=
  Inode (i_dev i) (i_inum i) (i_ref i) (i_lock i) (i_valid i) (i_type i) (i_major i) (i_minor i) (i_nlink i) (i_size i)
        (<[Z.to_nat k := a]> (i_addrs i)).
Definition with_disk (n : dinode) (i : inode) : inode :=
  Inode (i_dev i) (i_inum i) (i_ref i) (i_lock i) (i_valid i) (d_type n) (d_major n) (d_minor n) (d_nlink n) (d_size n) (d_addrs n).
Definition to_disk (i : inode) : dinode :=
  Dinode (i_type i) (i_major i) (i_minor i) (i_nlink i) (i_size i) (i_addrs i).
Definition iaddr (i : inode) (k : Z) : Z := default 0 (i_addrs i !! Z.to_nat k).

Definition in_ilock {A} (ip : nat) (m : M sleeplock A) : M fst A :=
  zoom (fun s => i_lock (geti s ip))
       (fun lk s => Fst (f_blk s) (f_sb s) (alter (with_ilock lk) ip (f_inodes s)) (f_user s)) m.

(** ** Blocks *)

Definition readsb (dev : Z) : M fst unit :=
  let! bp := in_blk (blk_read dev 1) in
  let! d := in_blk (blk_data bp) in
  modify (fun s => Fst (f_blk s) (get_superblock d) (f_inodes s) (f_user s)) ;;;
  in_blk (blk_rel bp).

Definition fsinit (dev : Z) : M fst unit :=
  readsb dev ;;;
  let! sb := gets f_sb in
  if negb (sb_magic sb =? FSMAGIC) then panic "invalid file system"
  else in_blk (op_init dev (sb_logstart sb) (sb_nlog sb)).

Definition bzero (dev bno : Z) : M fst unit :=
  let! bp := in_blk (blk_read dev (u32 bno)) in
  in_blk (blk_set bp zero_block) ;;;
  in_blk (blk_log bp) ;;;
  in_blk (blk_rel bp).

(** [m = 1 << (bi % 8)] against byte [bi / 8]. *)
Definition bit_byte (d : list Z) (bi : Z) : Z := default 0 (d !! Z.to_nat (bi / 8)).
Definition bit_mask (bi : Z) : Z := Z.shiftl 1 (bi mod 8).
Definition bit_clear (d : list Z) (bi : Z) : bool := Z.land (bit_byte d bi) (bit_mask bi) =? 0.
Definition bit_set (d : list Z) (bi : Z) : list Z :=
  <[Z.to_nat (bi / 8) := u8 (Z.lor (bit_byte d bi) (bit_mask bi))]> d.
Definition bit_reset (d : list Z) (bi : Z) : list Z :=
  <[Z.to_nat (bi / 8) := u8 (Z.land (bit_byte d bi) (Z.lnot (bit_mask bi)))]> d.

(** The inner loop of [balloc]: the first clear bit below [BPB] and [sb.size]. *)
Fixpoint balloc_scan (fuel : nat) (d : list Z) (size b bi : Z) : option Z :=
  match fuel with
  | O => None
  | Datatypes.S fuel' =>
      if u32 (b + bi) <? size then
        if bit_clear d bi then Some bi else balloc_scan fuel' d size b (bi + 1)
      else None
  end.

Fixpoint balloc_loop (fuel : nat) (dev b : Z) : M fst Z :=
  let! sb := gets f_sb in
  if u32 b <? sb_size sb then
    match fuel with
    | O => out_of_fuel
    | Datatypes.S fuel' =>
        let! bp := in_blk (blk_read dev (BBLOCK b sb)) in
        let! d := in_blk (blk_data bp) in
        match balloc_scan (Z.to_nat BPB) d (sb_size sb) b 0 with
        | Some bi =>
            in_blk (blk_set bp (bit_set d bi)) ;;;
            in_blk (blk_log bp) ;;;
            in_blk (blk_rel bp) ;;;
            bzero dev (b + bi) ;;;
            ret (b + bi)
        | None =>
            in_blk (blk_rel bp) ;;;
            balloc_loop fuel' dev (b + BPB)
        end
    end
  else panic "balloc: out of blocks".

Definition balloc (dev : Z) : M fst Z :=
  let! sb := gets f_sb in balloc_loop (Z.to_nat (sb_size sb / BPB + 1)) dev 0.

Definition bfree (dev b : Z) : M fst unit :=
  let! sb := gets f_sb in
  let! bp := in_blk (blk_read dev (BBLOCK b sb)) in
  let! d := in_blk (blk_data bp) in
  let bi := b mod BPB in
  if bit_clear d bi then panic "freeing free block"
  else
    in_blk (blk_set bp (bit_reset d bi)) ;;;
    in_blk (blk_log bp) ;;;
    in_blk (blk_rel bp).

(** ** Inodes *)

(** The entry for an inode, or the first unused entry. *)
Fixpoint iget_scan (l : list inode) (dev inum : Z) (ip : nat) (empty : option nat) : option nat * option nat :=
  match l with
  | [] => (None, empty)
  | i :: l' =>
      if (0 <? i_ref i) && (i_dev i =? dev) && (i_inum i =? inum) then (Some ip, empty)
      else iget_scan l' dev inum (Datatypes.S ip)
             (match empty with None => if i_ref i =? 0 then Some ip else None | Some _ => empty end)
  end.

Definition iget (dev inum : Z) : M fst nat :=
  let! l := gets f_inodes in
  match iget_scan l dev inum 0 None with
  | (Some ip, _) => seti ip (fun i => with_iref (i_ref i + 1) i) ;;; ret ip
  | (None, None) => panic "iget: no inodes"
  | (None, Some ip) =>
      seti ip (fun i => Inode dev inum 1 (i_lock i) false (i_type i) (i_major i) (i_minor i) (i_nlink i) (i_size i) (i_addrs i)) ;;;
      ret ip
  end.

Definition iinit : M fst unit :=
  modify (fun s => Fst (f_blk s) (f_sb s) (with_ilock initsleeplock <$> f_inodes s) (f_user s)).

Definition inode_off (inum : Z) : Z := (inum mod IPB) * SIZEOF_DINODE.

(** [for (inum = 1; inum < sb.ninodes; inum++)] *)
Fixpoint ialloc_loop (fuel : nat) (dev type inum : Z) : M fst nat :=
  match fuel with
  | O => panic "ialloc: no inodes"
  | Datatypes.S fuel' =>
      let! sb := gets f_sb in
      let! bp := in_blk (blk_read dev (IBLOCK inum sb)) in
      let! d := in_blk (blk_data bp) in
      if d_type (get_dinode d (inode_off inum)) =? 0 then
        in_blk (blk_set bp (put_dinode d (inode_off inum) (Dinode type 0 0 0 0 (replicate 13 0)))) ;;;
        in_blk (blk_log bp) ;;;
        in_blk (blk_rel bp) ;;;
        iget dev inum
      else
        in_blk (blk_rel bp) ;;;
        ialloc_loop fuel' dev type (inum + 1)
  end.

Definition ialloc (dev type : Z) : M fst nat :=
  let! sb := gets f_sb in ialloc_loop (Z.to_nat (sb_ninodes sb - 1)) dev type 1.

Definition iupdate (ip : nat) : M fst unit :=
  let! i := gets (fun s => geti s ip) in
  let! sb := gets f_sb in
  let! bp := in_blk (blk_read (i_dev i) (IBLOCK (i_inum i) sb)) in
  let! d := in_blk (blk_data bp) in
  in_blk (blk_set bp (put_dinode d (inode_off (i_inum i)) (to_disk i))) ;;;
  in_blk (blk_log bp) ;;;
  in_blk (blk_rel bp).

Definition idup (ip : nat) : M fst nat := seti ip (fun i => with_iref (i_ref i + 1) i) ;;; ret ip.

(** [pid] is the caller's. *)
Definition ilock (pid : Z) (ip : nat) : M fst unit :=
  let! i := gets (fun s => geti s ip) in
  if i_ref i <? 1 then panic "ilock"
  else
    in_ilock ip (acquiresleep (Z.of_nat ip) pid) ;;;
    let! i := gets (fun s => geti s ip) in
    if negb (i_valid i) then
      let! sb := gets f_sb in
      let! bp := in_blk (blk_read (i_dev i) (IBLOCK (i_inum i) sb)) in
      let! d := in_blk (blk_data bp) in
      seti ip (with_disk (get_dinode d (inode_off (i_inum i)))) ;;;
      in_blk (blk_rel bp) ;;;
      seti ip (with_ivalid true) ;;;
      let! i := gets (fun s => geti s ip) in
      if i_type i =? 0 then panic "ilock: no type" else ret tt
    else ret tt.

Definition iunlock (pid : Z) (ip : nat) : M fst unit :=
  let! h := in_ilock ip (holdingsleep pid) in
  let! i := gets (fun s => geti s ip) in
  if negb h || (i_ref i <? 1) then panic "iunlock"
  else in_ilock ip (releasesleep (Z.of_nat ip)) ;;; ret tt.

(** ** Contents *)

Definition bmap (ip : nat) (bn : Z) : M fst Z :=
  let! i := gets (fun s => geti s ip) in
  if bn <? NDIRECT then
    if iaddr i bn =? 0 then
      let! addr := balloc (i_dev i) in
      seti ip (with_iaddr bn addr) ;;;
      ret addr
    else ret (iaddr i bn)
  else
    let bn := bn - NDIRECT in
    if bn <? NINDIRECT then
      let! addr :=
        (if iaddr i NDIRECT =? 0 then
           let! addr := balloc (i_dev i) in
           seti ip (with_iaddr NDIRECT addr) ;;;
           ret addr
         else ret (iaddr i NDIRECT)) in
      let! bp := in_blk (blk_read (i_dev i) addr) in
      let! d := in_blk (blk_data bp) in
      if get32 d (4 * bn) =? 0 then
        let! addr := balloc (i_dev i) in
        let! d := in_blk (blk_data bp) in
        in_blk (blk_set bp (put32 d (4 * bn) addr)) ;;;
        in_blk (blk_log bp) ;;;
        in_blk (blk_rel bp) ;;;
        ret addr
      else
        in_blk (blk_rel bp) ;;;
        ret (get32 d (4 * bn))
    else panic "bmap: out of range".

Fixpoint itrunc_direct (fuel : nat) (ip : nat) (k : Z) : M fst unit :=
  match fuel with
  | O => ret tt
  | Datatypes.S fuel' =>
      let! i := gets (fun s => geti s ip) in
      (if negb (iaddr i k =? 0) then
         bfree (i_dev i) (iaddr i k) ;;;
         seti ip (with_iaddr k 0)
       else ret tt) ;;;
      itrunc_direct fuel' ip (k + 1)
  end.

(** The loop over the indirect block [bp]. *)
Fixpoint itrunc_indirect (fuel : nat) (dev : Z) (bp : nat) (j : Z) : M fst unit :=
  match fuel with
  | O => ret tt
  | Datatypes.S fuel' =>
      let! d := in_blk (blk_data bp) in
      (if negb (get32 d (4 * j) =? 0) then bfree dev (get32 d (4 * j)) else ret tt) ;;;
      itrunc_indirect fuel' dev bp (j + 1)
  end.

Definition itrunc (ip : nat) : M fst unit :=
  itrunc_direct (Z.to_nat NDIRECT) ip 0 ;;;
  let! i := gets (fun s => geti s ip) in
  (if negb (iaddr i NDIRECT =? 0) then
     let! bp := in_blk (blk_read (i_dev i) (iaddr i NDIRECT)) in
     itrunc_indirect (Z.to_nat NINDIRECT) (i_dev i) bp 0 ;;;
     in_blk (blk_rel bp) ;;;
     bfree (i_dev i) (iaddr i NDIRECT) ;;;
     seti ip (with_iaddr NDIRECT 0)
   else ret tt) ;;;
  seti ip (with_isize 0) ;;;
  iupdate ip.

Definition iput (pid : Z) (ip : nat) : M fst unit :=
  let! i := gets (fun s => geti s ip) in
  (if (i_ref i =? 1) && i_valid i && (i_nlink i =? 0) then
     in_ilock ip (acquiresleep (Z.of_nat ip) pid) ;;;
     itrunc ip ;;;
     seti ip (with_itype 0) ;;;
     iupdate ip ;;;
     seti ip (with_ivalid false) ;;;
     in_ilock ip (releasesleep (Z.of_nat ip)) ;;; ret tt
   else ret tt) ;;;
  seti ip (fun i => with_iref (i_ref i - 1) i).

Definition iunlockput (pid : Z) (ip : nat) : M fst unit := iunlock pid ip ;;; iput pid ip.

Definition stati (ip : nat) : M fst stat :=
  let! i := gets (fun s => geti s ip) in
  ret (Stat (s32 (i_dev i)) (i_inum i) (i_type i) (i_nlink i) (i_size i)).

(** proc.c: the bytes go to user memory, or to the kernel buffer, which is
    the second result of [readi]. *)
Definition either_copyout (dst : dest) (tot : Z) (bs : list Z) : M fst Z :=
  match dst with
  | UserDst pt va => in_usr (um_copyout pt (u64 (va + tot)) bs (Z.of_nat (length bs)))
  | KernDst => ret 0
  end.

(** The bytes that arrived: all of [len] when the result is 0. *)
Definition either_copyin (src : source) (tot len : Z) : M fst (Z * list Z) :=
  match src with
  | UserSrc pt va => in_usr (um_copyin pt (u64 (va + tot)) len)
  | KernSrc bs => ret (0, slice bs (Z.to_nat tot) (Z.to_nat len))
  end.

Fixpoint readi_loop (fuel : nat) (ip : nat) (dst : dest) (off n tot : Z) (acc : list Z) : M fst (Z * list Z) :=
  if tot <? n then
    match fuel with
    | O => out_of_fuel
    | Datatypes.S fuel' =>
        let! i := gets (fun s => geti s ip) in
        let! addr := bmap ip (off / BSIZE) in
        let! bp := in_blk (blk_read (i_dev i) addr) in
        let m := Z.min (u32 (n - tot)) (BSIZE - off mod BSIZE) in
        let! d := in_blk (blk_data bp) in
        let bs := slice d (Z.to_nat (off mod BSIZE)) (Z.to_nat m) in
        let! r := either_copyout dst tot bs in
        in_blk (blk_rel bp) ;;;
        if r =? -1 then ret (tot, acc)
        else readi_loop fuel' ip dst (u32 (off + m)) n (u32 (tot + m)) (acc ++ bs)
    end
  else ret (tot, acc).

(** At most one iteration per block touched. *)
Definition rw_fuel (n : Z) : nat := Z.to_nat (n / BSIZE + 2).

Definition readi (ip : nat) (dst : dest) (off n : Z) : M fst (Z * list Z) :=
  let! i := gets (fun s => geti s ip) in
  if (i_size i <? off) || (u32 (off + n) <? off) then ret (0, [])
  else
    let n := if i_size i <? u32 (off + n) then u32 (i_size i - off) else n in
    readi_loop (rw_fuel n) ip dst off n 0 [].

(** The result is [off] when the loop ends. *)
Fixpoint writei_loop (fuel : nat) (ip : nat) (src : source) (off n tot : Z) : M fst Z :=
  if tot <? n then
    match fuel with
    | O => out_of_fuel
    | Datatypes.S fuel' =>
        let! i := gets (fun s => geti s ip) in
        let! addr := bmap ip (off / BSIZE) in
        let! bp := in_blk (blk_read (i_dev i) addr) in
        let m := Z.min (u32 (n - tot)) (BSIZE - off mod BSIZE) in
        let! d := in_blk (blk_data bp) in
        let! '(r, bs) := either_copyin src tot m in
        in_blk (blk_set bp (splice d (Z.to_nat (off mod BSIZE)) bs)) ;;;
        if r =? -1 then in_blk (blk_rel bp) ;;; ret off
        else
          in_blk (blk_log bp) ;;;
          in_blk (blk_rel bp) ;;;
          writei_loop fuel' ip src (u32 (off + m)) n (u32 (tot + m))
    end
  else ret off.

Definition writei (ip : nat) (src : source) (off n : Z) : M fst Z :=
  let! i := gets (fun s => geti s ip) in
  if (i_size i <? off) || (u32 (off + n) <? off) then ret (-1)
  else if MAXFILE * BSIZE <? u32 (off + n) then ret (-1)
  else
    let! off := writei_loop (rw_fuel n) ip src off n 0 in
    (if 0 <? n then
       let! i := gets (fun s => geti s ip) in
       (if i_size i <? off then seti ip (with_isize off) else ret tt) ;;;
       iupdate ip
     else ret tt) ;;;
    ret (s32 n).

(** ** Directories *)

Fixpoint dirlookup_loop (fuel : nat) (dp : nat) (name : list Z) (off : Z) : M fst (option (nat * Z)) :=
  let! i := gets (fun s => geti s dp) in
  if off <? i_size i then
    match fuel with
    | O => out_of_fuel
    | Datatypes.S fuel' =>
        let! '(r, bs) := readi dp KernDst off SIZEOF_DIRENT in
        if negb (r =? SIZEOF_DIRENT) then panic "dirlookup read"
        else
          let de := get_dirent bs in
          if de_inum de =? 0 then dirlookup_loop fuel' dp name (u32 (off + SIZEOF_DIRENT))
          else if namecmp name (de_name de) =? 0 then
            let! ip := iget (i_dev i) (de_inum de) in
            ret (Some (ip, off))
          else dirlookup_loop fuel' dp name (u32 (off + SIZEOF_DIRENT))
    end
  else ret None.

Definition dir_fuel (size : Z) : nat := Z.to_nat (size / SIZEOF_DIRENT + 1).

(** The inode and the offset stored in [*poff]. *)
Definition dirlookup (dp : nat) (name : list Z) : M fst (option (nat * Z)) :=
  let! i := gets (fun s => geti s dp) in
  if negb (i_type i =? T_DIR) then panic "dirlookup not DIR"
  else dirlookup_loop (dir_fuel (i_size i)) dp name 0.

(** The offset of the first free entry, or the end of the directory. *)
Fixpoint dirlink_loop (fuel : nat) (dp : nat) (off : Z) : M fst Z :=
  let! i := gets (fun s => geti s dp) in
  if off <? i_size i then
    match fuel with
    | O => out_of_fuel
    | Datatypes.S fuel' =>
        let! '(r, bs) := readi dp KernDst off SIZEOF_DIRENT in
        if negb (r =? SIZEOF_DIRENT) then panic "dirlink read"
        else if de_inum (get_dirent bs) =? 0 then ret off
        else dirlink_loop fuel' dp (off + SIZEOF_DIRENT)
    end
  else ret off.

Definition dirlink (pid : Z) (dp : nat) (name : list Z) (inum : Z) : M fst Z :=
  let! r := dirlookup dp name in
  match r with
  | Some (ip, _) => iput pid ip ;;; ret (-1)
  | None =>
      let! i := gets (fun s => geti s dp) in
      let! off := dirlink_loop (dir_fuel (i_size i)) dp 0 in
      let! r := writei dp (KernSrc (put_dirent (Dirent (u16 inum) (pad_name name)))) off SIZEOF_DIRENT in
      if negb (r =? SIZEOF_DIRENT) then panic "dirlink" else ret 0
  end.

(** ** Paths *)

(** The loop of [namex]; [name] is the element copied last. *)
Fixpoint namex_loop (fuel : nat) (pid : Z) (ip : nat) (path : list Z) (parent : bool) (name : list Z)
    : M fst (option nat * list Z) :=
  match skipelem path with
  | None =>
      if parent then iput pid ip ;;; ret (None, name) else ret (Some ip, name)
  | Some (path', name') =>
      match fuel with
      | O => out_of_fuel
      | Datatypes.S fuel' =>
          ilock pid ip ;;;
          let! i := gets (fun s => geti s ip) in
          if negb (i_type i =? T_DIR) then iunlockput pid ip ;;; ret (None, name')
          else if parent && (char_at path' 0 =? 0) then iunlock pid ip ;;; ret (Some ip, name')
          else
            let! r := dirlookup ip name' in
            match r with
            | None => iunlockput pid ip ;;; ret (None, name')
            | Some (next, _) => iunlockput pid ip ;;; namex_loop fuel' pid next path' parent name'
            end
      end
  end.

(** [cwd] is the caller's; the result is the inode and [name]. *)
Definition namex (pid : Z) (cwd : nat) (path : list Z) (parent : bool) : M fst (option nat * list Z) :=
  let! ip := (if char_at path 0 =? SLASH then iget ROOTDEV ROOTINO else idup cwd) in
  namex_loop (length path) pid ip path parent [].

Definition namei (pid : Z) (cwd : nat) (path : list Z) : M fst (option nat) :=
  let! '(ip, _) := namex pid cwd path false in ret ip.

Definition nameiparent (pid : Z) (cwd : nat) (path : list Z) : M fst (option nat * list Z) :=
  namex pid cwd path true.

End fs.
