(* ===== verification/Fsblk.v ===== *)
(** * Rules for the block operations inside the file system's state

    The laws of the block interface, lifted to the state of Fs.v, and the
    common sequence set, log, release. *)

From S2P Require Import Prelude Riscv Layout Usermem Bio Bcache Txn Fs.

Section rules.
Context {S U : Type} {HB : Blocks S} `{BL : !BlockLaws S dev loggable ok vw hnd room} {HU : UserMem U}.
Implicit Types (s : fst (S := S) (U := U)) (H D : gset Z).

Definition fok s H D : Prop := ok (f_blk s) H D.
Definition V s (n : Z) : list Z := vw (f_blk s) n.
Definition froom s : Z := room (f_blk s).
Definition fhd s (n : Z) (b : nat) : Prop := hnd (f_blk s) n b.

(** Only the block store differs. *)
Definition same_rest s s' : Prop := f_sb s' = f_sb s /\ f_inodes s' = f_inodes s /\ f_user s' = f_user s.

Lemma same_rest_refl s : same_rest s s.
Proof. done. Qed.

Lemma same_rest_trans s1 s2 s3 : same_rest s1 s2 -> same_rest s2 s3 -> same_rest s1 s3.
Proof. intros (E1 & E2 & E3) (E4 & E5 & E6). unfold same_rest. by rewrite E4, E5, E6, E1, E2, E3. Qed.

Lemma wp_f_read s H D n (Q : nat -> fst -> Prop) :
  fok s H D -> n ∉ H -> 0 <= n < 2 ^ 31 -> (size H < 3)%nat ->
  (forall b s', fok s' ({[n]} ∪ H) D -> fhd s' n b -> (forall m, V s' m = V s m) -> froom s' = froom s ->
     (forall m c, m ∈ H -> fhd s m c -> fhd s' m c) -> same_rest s s' -> Q b s') ->
  wp (in_blk (blk_read dev n)) Q s.
Proof.
  intros Hok Hn Hr Hsz HQ. apply wp_zoom. eapply wp_mono; [by apply bk_read |].
  intros b t (H1 & H2 & H3 & H4 & H5). by apply HQ.
Qed.

Lemma wp_f_data s H D n b (Q : list Z -> fst -> Prop) :
  fok s H D -> fhd s n b -> n ∈ H -> Q (V s n) s -> wp (in_blk (blk_data b)) Q s.
Proof.
  intros Hok Hb Hn HQ. apply wp_zoom. eapply wp_mono; [by eapply bk_data |].
  intros d t [-> ->]. by destruct s.
Qed.

Lemma wp_f_set s H D n b d (Q : unit -> fst -> Prop) :
  fok s H D -> fhd s n b -> n ∈ H -> length d = 1024%nat ->
  (forall s', fok s' H ({[n]} ∪ D) -> (forall m, V s' m = upd (V s) n d m) -> froom s' = froom s ->
     (forall m c, fhd s m c <-> fhd s' m c) -> same_rest s s' -> Q tt s') ->
  wp (in_blk (blk_set b d)) Q s.
Proof.
  intros Hok Hb Hn Hd HQ. apply wp_zoom. eapply wp_mono; [by eapply bk_set |].
  intros [] t (H1 & H2 & H3 & H4). by apply HQ.
Qed.

Lemma wp_f_log s H D n b (Q : unit -> fst -> Prop) :
  fok s H D -> fhd s n b -> n ∈ H -> loggable n -> 1 <= froom s ->
  (forall s', fok s' H (D ∖ {[n]}) -> (forall m, V s' m = V s m) -> froom s - 1 <= froom s' ->
     (forall m c, fhd s m c <-> fhd s' m c) -> same_rest s s' -> Q tt s') ->
  wp (in_blk (blk_log b)) Q s.
Proof.
  intros Hok Hb Hn Hl Hr HQ. apply wp_zoom. eapply wp_mono; [by eapply bk_log |].
  intros [] t (H1 & H2 & H3 & H4). by apply HQ.
Qed.

Lemma wp_f_rel s H D n b (Q : unit -> fst -> Prop) :
  fok s H D -> fhd s n b -> n ∈ H -> n ∉ D ->
  (forall s', fok s' (H ∖ {[n]}) D -> (forall m, V s' m = V s m) -> froom s' = froom s ->
     (forall m c, fhd s m c <-> fhd s' m c) -> same_rest s s' -> Q tt s') ->
  wp (in_blk (blk_rel b)) Q s.
Proof.
  intros Hok Hb Hn HnD HQ. apply wp_zoom. eapply wp_mono; [by eapply bk_rel |].
  intros [] t (H1 & H2 & H3 & H4). by apply HQ.
Qed.

(** The block just read is released unchanged. *)
Lemma wp_f_done s s0 H D n b (Q : unit -> fst -> Prop) :
  fok s ({[n]} ∪ H) D -> n ∉ H -> n ∉ D -> fhd s n b ->
  (forall m c, m ∈ H -> fhd s0 m c -> fhd s m c) ->
  (forall s', fok s' H D -> (forall m, V s' m = V s m) -> froom s' = froom s ->
     (forall m c, m ∈ H -> fhd s0 m c -> fhd s' m c) -> same_rest s s' -> Q tt s') ->
  wp (in_blk (blk_rel b)) Q s.
Proof.
  intros Hok Hn HnD Hb Hk HQ. eapply wp_f_rel; [exact Hok | exact Hb | set_solver + | done |].
  intros s' H1 H2 H3 H4 H5. apply HQ; try done.
  - by replace (({[n]} ∪ H) ∖ {[n]}) with H in H1 by set_solver +Hn.
  - intros m c Hm Hc. by apply H4, Hk.
Qed.

(** A held block gets new contents, is logged and released. *)
Lemma wp_f_update {A} s s0 H D n b d (k : M fst A) (Q : A -> fst -> Prop) :
  fok s ({[n]} ∪ H) D -> n ∉ H -> n ∉ D -> fhd s n b -> loggable n -> 1 <= froom s -> length d = 1024%nat ->
  (forall m c, m ∈ H -> fhd s0 m c -> fhd s m c) ->
  (forall s', fok s' H D -> (forall m, V s' m = upd (V s) n d m) -> froom s - 1 <= froom s' ->
     (forall m c, m ∈ H -> fhd s0 m c -> fhd s' m c) -> same_rest s s' -> wp k Q s') ->
  wp (in_blk (blk_set b d) ;;; in_blk (blk_log b) ;;; in_blk (blk_rel b) ;;; k) Q s.
Proof.
  intros Hok Hn HnD Hb Hl Hr Hd Hk HQ. apply wp_bind. eapply wp_f_set; [exact Hok | exact Hb | set_solver + | done |].
  intros s1 O1 V1 R1 K1 F1. apply wp_bind. eapply wp_f_log; [exact O1 | by apply K1 | set_solver + | done | lia |].
  intros s2 O2 V2 R2 K2 F2. apply wp_bind.
  replace (({[n]} ∪ D) ∖ {[n]}) with D in O2 by set_solver +HnD.
  eapply (wp_f_done s2 s0 H D n b); [exact O2 | done | done | by apply K2, K1 | intros; by apply K2, K1, Hk |].
  intros s3 O3 V3 R3 K3 F3. apply HQ; try done; [| lia |].
  - intros m. by rewrite V3, V2, V1.
  - eapply same_rest_trans; [exact F1 |]. by eapply same_rest_trans.
Qed.

Lemma wp_f_update_last s s0 H D n b d (Q : unit -> fst -> Prop) :
  fok s ({[n]} ∪ H) D -> n ∉ H -> n ∉ D -> fhd s n b -> loggable n -> 1 <= froom s -> length d = 1024%nat ->
  (forall m c, m ∈ H -> fhd s0 m c -> fhd s m c) ->
  (forall s', fok s' H D -> (forall m, V s' m = upd (V s) n d m) -> froom s - 1 <= froom s' ->
     (forall m c, m ∈ H -> fhd s0 m c -> fhd s' m c) -> same_rest s s' -> Q tt s') ->
  wp (in_blk (blk_set b d) ;;; in_blk (blk_log b) ;;; in_blk (blk_rel b)) Q s.
Proof.
  intros Hok Hn HnD Hb Hl Hr Hd Hk HQ.
  assert (wp (in_blk (blk_set b d) ;;; in_blk (blk_log b) ;;; in_blk (blk_rel b) ;;; ret tt) Q s) as Hw.
  { eapply (wp_f_update s s0 H D n b d); [done.. |]. intros s' H1 H2 H3 H4 H5. apply wp_ret. by apply HQ. }
  eapply wp_eq; [| exact Hw]. unfold bind. destruct (in_blk (blk_set b d) s) as [? s1| | |]; [| done..].
  destruct (in_blk (blk_log b) s1) as [? s2| | |]; [| done..]. destruct (in_blk (blk_rel b) s2) as [[] s3| | |]; done.
Qed.

Lemma V_len s H D n : fok s H D -> length (V s n) = 1024%nat.
Proof. intros Hok. exact (bk_len (f_blk s) H D n Hok). Qed.

End rules.
