(* ===== verification/Path.v ===== *)
(** * Path names: the loop of [namex] over [skipelem]

    [components] is the reference: split at slashes, drop empty elements.
    [skipelem] delivers them one by one, cut at [DIRSIZ] bytes. *)

From S2P Require Import Prelude Riscv Layout Fs.

Fixpoint split_slash (l : list Z) : list (list Z) :=
  match l with
  | [] => [[]]
  | c :: l' =>
      if c =? SLASH then [] :: split_slash l'
      else match split_slash l' with
           | e :: es => (c :: e) :: es
           | [] => [[c]]
           end
  end.

Definition nonempty (e : list Z) : bool := match e with [] => false | _ => true end.
Definition components (path : list Z) : list (list Z) := List.filter nonempty (split_slash path).

(** A C string has no NUL before its end. *)
Definition no_nul (l : list Z) : Prop := Forall (fun c => c <> 0) l.

Lemma split_slash_nonnil l : split_slash l <> [].
Proof. destruct l as [|c l]; cbn; [done |]. destruct (c =? SLASH); [done |]. by destruct (split_slash l). Qed.

Lemma components_slash l : components (SLASH :: l) = components l.
Proof. done. Qed.

Lemma components_skip l : components (skip_slashes l) = components l.
Proof.
  induction l as [|c l IH]; cbn [skip_slashes]; [done |]. destruct (Z.eqb_spec c SLASH) as [->|]; [| done].
  by rewrite IH, components_slash.
Qed.

Lemma skip_slashes_head l : head (skip_slashes l) <> Some SLASH.
Proof.
  induction l as [|c l IH]; cbn [skip_slashes]; [done |]. destruct (Z.eqb_spec c SLASH); [done |]. cbn. congruence.
Qed.

Lemma skip_slashes_suffix l : exists k, skip_slashes l = drop k l.
Proof.
  induction l as [|c l [k IH]]; cbn [skip_slashes]; [by exists 0%nat |].
  destruct (c =? SLASH); [by exists (S k) | by exists 0%nat].
Qed.

Lemma no_nul_skip l : no_nul l -> no_nul (skip_slashes l).
Proof. intros Hl. destruct (skip_slashes_suffix l) as [k ->]. by apply Forall_drop. Qed.

Lemma span_elem_spec l : no_nul l ->
  let '(e, r) := span_elem l in l = e ++ r /\ (SLASH ∉ e) /\ (r = [] \/ exists r', r = SLASH :: r').
Proof.
  induction 1 as [|c l Hc Hl IH]; cbn [span_elem].
  - split_and!; [done | set_solver | by left].
  - destruct (Z.eqb_spec c SLASH) as [->|Hs]; cbn [orb].
    + split_and!; [done | set_solver | right; by eexists].
    + rewrite (proj2 (Z.eqb_neq c 0)) by done. destruct (span_elem l) as [e r]. destruct IH as (-> & He & Hr).
      split_and!; [done | | done]. intros [?|?]%elem_of_cons; congruence.
Qed.

Lemma split_slash_elem e r : SLASH ∉ e -> (r = [] \/ exists r', r = SLASH :: r') ->
  split_slash (e ++ r) = e :: match r with [] => [] | _ :: r' => split_slash r' end.
Proof.
  intros He Hr. induction e as [|c e IH]; cbn [app split_slash].
  - destruct Hr as [->|[r' ->]]; done.
  - rewrite (proj2 (Z.eqb_neq c SLASH)) by (intros ->; set_solver). rewrite IH by set_solver. done.
Qed.

Lemma skip_slashes_length l : (length (skip_slashes l) <= length l)%nat.
Proof. destruct (skip_slashes_suffix l) as [k ->]. rewrite length_drop. lia. Qed.

(** [skipelem] is the head of the path's components: it fails exactly
    when the path has none; otherwise it copies the first one, cut at [DIRSIZ]
    bytes, and returns a strictly shorter path without a leading slash that
    has the others. *)
Theorem skipelem_components path :
  no_nul path ->
  match components path with
  | [] => skipelem path = None
  | e :: es => exists rest, skipelem path = Some (rest, take (Z.to_nat DIRSIZ) e) /\
      components rest = es /\ no_nul rest /\ head rest <> Some SLASH /\ (length rest < length path)%nat
  end.
Proof.
  intros Hn. pose proof (components_skip path) as Ec. pose proof (skip_slashes_head path) as Hh.
  pose proof (no_nul_skip path Hn) as Hn'. pose proof (skip_slashes_length path) as Hlen. unfold skipelem.
  destruct (skip_slashes path) as [|c p] eqn:Ep; [by rewrite <- Ec |].
  assert (c <> 0) as Hc0 by (by inversion Hn'). assert (c <> SLASH) as Hcs by (cbn in Hh; congruence).
  change (char_at (c :: p) 0) with c. rewrite (proj2 (Z.eqb_neq c 0)) by done.
  pose proof (span_elem_spec (c :: p) Hn') as Hs. destruct (span_elem (c :: p)) as [e r] eqn:Es.
  destruct Hs as (E & He & Hr). rewrite <- Ec, E. unfold components. rewrite split_slash_elem by done.
  assert (exists e', e = c :: e') as [e' ->].
  { destruct e as [|c' e']; [| by injection E as -> _; exists e']. destruct Hr as [->|[r' ->]]; [done |].
    cbn in E. by injection E as -> _. }
  cbn [List.filter nonempty]. exists (skip_slashes r). split_and!.
  - f_equal. f_equal. destruct (Z.leb_spec DIRSIZ (Z.of_nat (length (c :: e')))) as [|Hlt]; [done |].
    rewrite take_ge; [done | lia].
  - destruct Hr as [->|[r' ->]]; [done |]. apply (components_skip (SLASH :: r')).
  - apply no_nul_skip. rewrite E in Hn'. by apply Forall_app in Hn' as [_ ?].
  - apply skip_slashes_head.
  - pose proof (skip_slashes_length r). rewrite E in Hlen. rewrite length_app in Hlen. cbn [length] in Hlen. lia.
Qed.

(** ["//usr/bin"] *)
Lemma skipelem_witness : exists rest,
  skipelem [47; 47; 117; 115; 114; 47; 98; 105; 110] = Some (rest, [117; 115; 114]) /\ components rest = [[98; 105; 110]].
Proof.
  destruct (skipelem_components [47; 47; 117; 115; 114; 47; 98; 105; 110]) as (rest & E & Ec & _).
  - repeat constructor; lia.
  - exists rest. split; [exact E | exact Ec].
Defined.
