(* ===== verification/Balloc.v ===== *)
(** * Block allocation: the free bitmap of fs.c

    [free s b] says that the bit of block [b] is clear.  [balloc] takes the
    lowest free block and zeroes it, [bfree] gives one back; both are verified
    against the block interface. *)

From S2P Require Import Prelude Riscv Layout Usermem Bio Bcache Log Txn Crash Fs Fsblk.

(** ** Bits *)

Lemma bit_clear_testbit d bi : bit_clear d bi = negb (Z.testbit (bit_byte d bi) (bi mod 8)).
Proof.
  unfold bit_clear, bit_mask. pose proof (Z.mod_pos_bound bi 8 ltac:(lia)) as Hk. set (x := bit_byte d bi).
  set (k := bi mod 8) in *. assert (Z.land x (Z.shiftl 1 k) = if Z.testbit x k then 2 ^ k else 0) as ->.
  { apply Z.bits_inj'. intros n Hn. rewrite Z.land_spec, Z.shiftl_1_l, Z.pow2_bits_eqb by lia.
    destruct (Z.eqb_spec k n) as [<-|Hne].
    - destruct (Z.testbit x k); cbn; [by rewrite Z.pow2_bits_true | by rewrite Z.bits_0].
    - rewrite andb_false_r. destruct (Z.testbit x k); [by rewrite Z.pow2_bits_false by lia | by rewrite Z.bits_0]. }
  destruct (Z.testbit x k); cbn [negb]; [| done]. apply Z.eqb_neq. pose proof (Z.pow_pos_nonneg 2 k). lia.
Qed.

Lemma u8_testbit x k : 0 <= k < 8 -> Z.testbit (u8 x) k = Z.testbit x k.
Proof. intros Hk. unfold u8. by rewrite Z.mod_pow2_bits_low by lia. Qed.

(** Changing byte [bi / 8] so that only bit [bi mod 8] differs. *)
Lemma bit_clear_write d bi v bj :
  0 <= bi -> 0 <= bj -> bi / 8 < Z.of_nat (length d) ->
  (forall k, 0 <= k < 8 -> Z.testbit v k = if k =? bi mod 8 then Z.testbit v (bi mod 8) else Z.testbit (bit_byte d bi) k) ->
  bit_clear (<[Z.to_nat (bi / 8) := u8 v]> d) bj =
    if bi =? bj then negb (Z.testbit v (bi mod 8)) else bit_clear d bj.
Proof.
  intros Hi Hj Hlen Hv. pose proof (Z.mod_pos_bound bi 8 ltac:(lia)). pose proof (Z.mod_pos_bound bj 8 ltac:(lia)).
  pose proof (Z.div_mod bi 8 ltac:(lia)). pose proof (Z.div_mod bj 8 ltac:(lia)).
  pose proof (Z.div_pos bi 8 Hi ltac:(lia)). pose proof (Z.div_pos bj 8 Hj ltac:(lia)).
  rewrite !bit_clear_testbit. unfold bit_byte at 1. destruct (decide (bj / 8 = bi / 8)) as [Ed|Ed].
  - rewrite Ed, list_lookup_insert_eq by lia. cbn [from_option id]. rewrite u8_testbit by lia.
    destruct (Z.eqb_spec bi bj) as [->|Hne]; [done |]. rewrite Hv by lia.
    rewrite (proj2 (Z.eqb_neq _ _)) by lia. unfold bit_byte. by rewrite Ed.
  - rewrite list_lookup_insert_ne by lia. rewrite (proj2 (Z.eqb_neq bi bj)) by congruence. done.
Qed.

Lemma bit_clear_set d bi bj :
  0 <= bi -> 0 <= bj -> bi / 8 < Z.of_nat (length d) ->
  bit_clear (bit_set d bi) bj = if bi =? bj then false else bit_clear d bj.
Proof.
  intros Hi Hj Hlen. pose proof (Z.mod_pos_bound bi 8 ltac:(lia)). unfold bit_set, bit_mask.
  rewrite Z.shiftl_1_l, bit_clear_write; [| done | done | done |].
  - by rewrite Z.lor_spec, Z.pow2_bits_true, orb_true_r by lia.
  - intros k Hk. rewrite !Z.lor_spec, !Z.pow2_bits_eqb, Z.eqb_refl, orb_true_r by lia.
    destruct (Z.eqb_spec k (bi mod 8)) as [->|Hne]; [by rewrite Z.eqb_refl, orb_true_r |].
    by rewrite (proj2 (Z.eqb_neq (bi mod 8) k)), orb_false_r by congruence.
Qed.

Lemma bit_clear_reset d bi bj :
  0 <= bi -> 0 <= bj -> bi / 8 < Z.of_nat (length d) ->
  bit_clear (bit_reset d bi) bj = if bi =? bj then true else bit_clear d bj.
Proof.
  intros Hi Hj Hlen. pose proof (Z.mod_pos_bound bi 8 ltac:(lia)). unfold bit_reset, bit_mask.
  rewrite Z.shiftl_1_l, bit_clear_write; [| done | done | done |].
  - by rewrite Z.land_spec, Z.lnot_spec, Z.pow2_bits_true, andb_false_r by lia.
  - intros k Hk. rewrite !Z.land_spec, !Z.lnot_spec, !Z.pow2_bits_eqb, Z.eqb_refl, andb_false_r by lia.
    destruct (Z.eqb_spec k (bi mod 8)) as [->|Hne]; [by rewrite Z.eqb_refl, andb_false_r |].
    by rewrite (proj2 (Z.eqb_neq (bi mod 8) k)), andb_true_r by congruence.
Qed.

Lemma balloc_scan_spec fuel d size b bi :
  0 <= b -> 0 <= bi -> b + bi + Z.of_nat fuel < 2 ^ 32 ->
  match balloc_scan fuel d size b bi with
  | Some r => bi <= r < bi + Z.of_nat fuel /\ b + r < size /\ bit_clear d r = true /\
      forall j, bi <= j < r -> bit_clear d j = false
  | None => forall j, bi <= j < bi + Z.of_nat fuel -> b + j < size -> bit_clear d j = false
  end.
Proof.
  intros Hb. revert bi. induction fuel as [|fuel IH]; intros bi Hbi Hr; cbn [balloc_scan]; [intros; lia |].
  rewrite u32_small by lia. destruct (Z.ltb_spec (b + bi) size) as [Hlt|Hge]; [| intros; lia].
  destruct (bit_clear d bi) eqn:E; [split_and!; [lia.. | done |]; intros; lia |].
  specialize (IH (bi + 1) ltac:(lia) ltac:(lia)). destruct (balloc_scan _ _ _ _ _) as [r|].
  - destruct IH as (H1 & H2 & H3 & H4). split_and!; [lia.. | done |]. intros j Hj.
    destruct (decide (j = bi)) as [->|]; [done |]. apply H4. lia.
  - intros j Hj Hlt'. destruct (decide (j = bi)) as [->|]; [done |]. apply IH; lia.
Qed.

(** ** The bitmap *)

Section balloc.
Context {S U : Type} {HB : Blocks S} `{BL : !BlockLaws S dev loggable ok vw hnd room} {HU : UserMem U}.
Implicit Types (s : fst (S := S) (U := U)) (H D : gset Z).

Abbreviation fok := (fok (ok := ok)).
Abbreviation V := (V (vw := vw)).
Abbreviation froom := (froom (room := room)).
Abbreviation fhd := (fhd (hnd := hnd)).

(** Block [n] holds part of the bitmap. *)
Definition is_bmap (sb : superblock) (n : Z) : Prop :=
  sb_bmapstart sb <= n <= sb_bmapstart sb + (sb_size sb - 1) / BPB.

(** The block [b] is free. *)
Definition free s (b : Z) : bool := bit_clear (V s (BBLOCK b (f_sb s))) (b mod BPB).

(** A superblock that describes a disk: the bitmap is in range and outside
    the log. *)
Record bmap_geom (sb : superblock) : Prop := BmapGeom {
  bg_size : 0 < sb_size sb < 2 ^ 30;
  bg_start : 0 <= sb_bmapstart sb < 2 ^ 30;
  bg_log : forall n, is_bmap sb n -> loggable n;
}.

(** The bitmap marks its own blocks and the log as used. *)
Definition free_data s : Prop :=
  forall b, 0 <= b < sb_size (f_sb s) -> free s b = true -> loggable b /\ ~ is_bmap (f_sb s) b.

Lemma BBLOCK_eq sb b : bmap_geom sb -> 0 <= b < sb_size sb -> BBLOCK b sb = sb_bmapstart sb + b / BPB /\ is_bmap sb (BBLOCK b sb).
Proof.
  intros [Hs Hb _] Hr. assert (0 <= b / BPB <= (sb_size sb - 1) / BPB) as Hd.
  { split; [apply Z.div_pos; klia | apply Z.div_le_mono; klia]. }
  assert ((sb_size sb - 1) / BPB <= sb_size sb - 1) by (apply Z.div_le_upper_bound; klia).
  assert (BBLOCK b sb = sb_bmapstart sb + b / BPB) as E by (unfold BBLOCK; rewrite u32_small; lia).
  split; [done |]. rewrite E. unfold is_bmap. lia.
Qed.

Record balloc_post s H (b : Z) s' : Prop := BallocPost {
  bp_free : 0 <= b < sb_size (f_sb s) /\ free s b = true;
  bp_least : forall j, 0 <= j < b -> free s j = false;
  bp_ok : fok s' H ∅;
  bp_view : forall m, V s' m =
    if decide (m = b) then zero_block
    else if decide (m = BBLOCK b (f_sb s)) then bit_set (V s m) (b mod BPB) else V s m;
  bp_room : froom s - 2 <= froom s';
  bp_hd : forall m c, m ∈ H -> fhd s m c -> fhd s' m c;
  bp_rest : same_rest s s';
}.

Lemma wp_bzero s s0 H bno :
  fok s H ∅ -> bno ∉ H -> 0 <= bno < 2 ^ 31 -> loggable bno -> (size H < 3)%nat -> 1 <= froom s ->
  (forall m c, m ∈ H -> fhd s0 m c -> fhd s m c) ->
  wp (bzero dev bno) (fun _ s' => fok s' H ∅ /\ (forall m, V s' m = upd (V s) bno zero_block m) /\
    froom s - 1 <= froom s' /\ (forall m c, m ∈ H -> fhd s0 m c -> fhd s' m c) /\ same_rest s s') s.
Proof.
  intros Hok Hn Hr Hl Hsz Hroom Hk. unfold bzero. rewrite u32_small by lia. apply wp_bind.
  eapply wp_f_read; [exact Hok | done | lia | done |]. intros b s1 O1 K1 V1 R1 H1 F1.
  eapply (wp_f_update_last s1 s0 H ∅ bno b); try done; [lia | |].
  - intros m c Hm Hc. apply H1; [done |]. by apply Hk.
  - intros s2 O2 V2 R2 K2 F2. split_and!; [done | | lia | done | by eapply same_rest_trans].
    intros m. rewrite V2. unfold upd. by rewrite V1.
Qed.

(** The blocks held by the caller are neither bitmap blocks nor free. *)
Definition apart s H : Prop :=
  (forall n, is_bmap (f_sb s) n -> n ∉ H) /\ (forall b, 0 <= b < sb_size (f_sb s) -> free s b = true -> b ∉ H).

(** The case in which the scan of a bitmap block finds a clear bit. *)
Lemma wp_balloc_take s0 s H b bi bp :
  bmap_geom (f_sb s0) -> free_data s0 -> apart s0 H -> (size H < 3)%nat -> 2 <= froom s0 ->
  0 <= b -> b mod BPB = 0 -> 0 <= bi < BPB -> b + bi < sb_size (f_sb s0) ->
  bit_clear (V s0 (BBLOCK b (f_sb s0))) bi = true -> (forall j, 0 <= j < b + bi -> free s0 j = false) ->
  fok s ({[BBLOCK b (f_sb s0)]} ∪ H) ∅ -> fhd s (BBLOCK b (f_sb s0)) bp -> (forall m, V s m = V s0 m) ->
  froom s = froom s0 -> (forall m c, m ∈ H -> fhd s0 m c -> fhd s m c) -> same_rest s0 s ->
  wp (in_blk (blk_set bp (bit_set (V s0 (BBLOCK b (f_sb s0))) bi)) ;;; in_blk (blk_log bp) ;;; in_blk (blk_rel bp) ;;;
      bzero dev (b + bi) ;;; ret (b + bi)) (balloc_post s0 H) s.
Proof.
  intros Hg Hfd [Hap1 Hap2] Hsz Hroom Hb Hmod Hbi Hlt Hclr Hleast Hok Hbp HV HR HK HF.
  assert ((b + bi) / BPB = b / BPB /\ (b + bi) mod BPB = bi) as [Ediv Emod].
  { pose proof (Z.div_mod b BPB ltac:(klia)). rewrite Hmod in *. replace (b + bi) with (bi + b / BPB * BPB) by lia.
    rewrite Z.div_add, Z.mod_add, Z.div_small, Z.mod_small by klia. lia. }
  assert (BBLOCK (b + bi) (f_sb s0) = BBLOCK b (f_sb s0)) as Ebb by (unfold BBLOCK; by rewrite Ediv).
  assert (free s0 (b + bi) = true) as Hfree by (unfold free; by rewrite Ebb, Emod).
  destruct (Hfd (b + bi) ltac:(lia) Hfree) as [Hlog Hnb]. pose proof (Hap2 (b + bi) ltac:(lia) Hfree) as Hnot.
  destruct (BBLOCK_eq (f_sb s0) (b + bi) Hg ltac:(lia)) as [_ Hbm]. rewrite Ebb in Hbm.
  pose proof (Hap1 _ Hbm) as Hnot'. assert (b + bi <> BBLOCK b (f_sb s0)) as Hne by (by intros E; rewrite E in Hnb).
  pose proof (bg_size _ Hg).
  eapply (wp_f_update s s0 H ∅ (BBLOCK b (f_sb s0)) bp); try done; [by apply (bg_log _ Hg) | lia | |].
  - unfold bit_set. rewrite length_insert, <- HV. exact (V_len _ _ _ _ Hok).
  - intros s1 O1 V1 R1 K1 F1. apply wp_bind. eapply wp_mono.
    { apply (wp_bzero s1 s0 H (b + bi)); try done; lia. }
    intros [] s2 (O2 & V2 & R2 & K2 & F2). apply wp_ret. split; try done; [split; [lia | done] | | lia |].
    + intros m. rewrite V2. unfold upd at 1. destruct (decide (m = b + bi)); [done |].
      rewrite V1. unfold upd. rewrite Ebb, Emod. case_decide; [subst; done | by rewrite HV].
    + eapply same_rest_trans; [exact HF |]. by eapply same_rest_trans.
Qed.

(** All blocks below [b] are used, [b] a multiple of [BPB]. *)
Lemma wp_balloc_loop s0 s H fuel b :
  bmap_geom (f_sb s0) -> free_data s0 -> apart s0 H -> (size H < 3)%nat -> 2 <= froom s0 ->
  0 <= b -> b mod BPB = 0 -> sb_size (f_sb s0) < b + BPB * Z.of_nat fuel -> b <= sb_size (f_sb s0) + BPB ->
  (forall j, 0 <= j < b -> j < sb_size (f_sb s0) -> free s0 j = false) ->
  (exists j, 0 <= j < sb_size (f_sb s0) /\ free s0 j = true) ->
  fok s H ∅ -> (forall m, V s m = V s0 m) -> froom s = froom s0 ->
  (forall m c, m ∈ H -> fhd s0 m c -> fhd s m c) -> same_rest s0 s ->
  wp (balloc_loop fuel dev b) (balloc_post s0 H) s.
Proof.
  intros Hg Hfd Hap Hsz Hroom. revert s b.
  induction fuel as [|fuel IH]; intros s b Hb Hmod Hfuel Hbs Hleast Hex Hok HV HR HK HF; cbn [balloc_loop];
    apply wp_bind, wp_gets; destruct HF as (Esb & HF'); rewrite Esb; pose proof (bg_size _ Hg) as Hs;
    rewrite u32_small by klia; destruct (Z.ltb_spec b (sb_size (f_sb s0))) as [Hlt|Hge].
  - klia.
  - destruct Hex as (j & Hj & Hf). rewrite Hleast in Hf by lia. done.
  - destruct (BBLOCK_eq (f_sb s0) b Hg ltac:(lia)) as [Ebb Hbm]. pose proof (bg_start _ Hg).
    assert (0 <= b / BPB <= b) by (split; [apply Z.div_pos; klia | apply Z.div_le_upper_bound; klia]).
    apply wp_bind. eapply wp_f_read; [exact Hok | by apply (proj1 Hap) | lia | done |].
    intros bp s1 O1 K1 V1 R1 KH1 F1. apply wp_bind. eapply wp_f_data; [exact O1 | exact K1 | set_solver + |].
    rewrite V1, HV. pose proof (balloc_scan_spec (Z.to_nat BPB) (V s0 (BBLOCK b (f_sb s0))) (sb_size (f_sb s0)) b 0) as Hsc.
    assert (same_rest s0 s1) as F01 by (eapply same_rest_trans; [| exact F1]; by split).
    assert (forall j, b <= j < b + BPB -> j / BPB = b / BPB /\ j mod BPB = j - b) as Hin.
    { intros j Hj. pose proof (Z.div_mod b BPB ltac:(klia)) as Edm. rewrite Hmod in Edm.
      replace j with (j - b + b / BPB * BPB) by klia.
      rewrite Z.div_add, Z.mod_add, Z.div_small, Z.mod_small by klia. lia. }
    destruct (balloc_scan _ _ _ _ _) as [bi|]; (specialize (Hsc Hb ltac:(lia) ltac:(klia))).
    + destruct Hsc as (S1 & S2 & S3 & S4). apply wp_balloc_take; try done; [| | congruence |].
      * intros j Hj. destruct (decide (j < b)); [apply Hleast; lia |].
        destruct (Hin j) as [E1 E2]; [klia |]. unfold free, BBLOCK. rewrite E1, E2. apply S4. lia.
      * intros m. by rewrite V1.
      * intros m c Hm Hc. apply KH1; [done |]. by apply HK.
    + apply wp_bind. eapply (wp_f_done s1 s0); [exact O1 | by apply (proj1 Hap) | set_solver + | done | |].
      { intros m c Hm Hc. apply KH1; [done |]. by apply HK. }
      intros s2 O2 V2 R2 K2 F2. apply IH; try done; [klia | | klia | klia | | | congruence |].
      * rewrite Z.add_mod, Hmod, Z.mod_same by klia. done.
      * intros j Hj Hjs. destruct (decide (j < b)); [apply Hleast; lia |].
        destruct (Hin j) as [E1 E2]; [lia |]. unfold free, BBLOCK. rewrite E1, E2. apply Hsc; klia.
      * intros m. by rewrite V2, V1.
      * by eapply same_rest_trans.
  - destruct Hex as (j & Hj & Hf). rewrite Hleast in Hf by lia. done.
Qed.

Lemma wp_balloc s H :
  bmap_geom (f_sb s) -> free_data s -> apart s H -> (size H < 3)%nat -> 2 <= froom s -> fok s H ∅ ->
  (exists j, 0 <= j < sb_size (f_sb s) /\ free s j = true) ->
  wp (balloc dev) (balloc_post s H) s.
Proof.
  intros Hg Hfd Hap Hsz Hroom Hok Hex. unfold balloc. apply wp_bind, wp_gets. pose proof (bg_size _ Hg).
  apply wp_balloc_loop; try done.
  - pose proof (Z.div_mod (sb_size (f_sb s)) BPB ltac:(klia)). pose proof (Z.mod_pos_bound (sb_size (f_sb s)) BPB ltac:(klia)).
    assert (0 <= sb_size (f_sb s) / BPB) by (apply Z.div_pos; klia). rewrite Z2Nat.id by lia. klia.
  - klia.
  - intros; lia.
Qed.

(** A full disk. *)
Lemma balloc_loop_full s0 s H fuel b :
  bmap_geom (f_sb s0) -> apart s0 H -> (size H < 3)%nat ->
  0 <= b -> b mod BPB = 0 -> sb_size (f_sb s0) < b + BPB * Z.of_nat fuel -> b <= sb_size (f_sb s0) + BPB ->
  (forall j, 0 <= j < sb_size (f_sb s0) -> free s0 j = false) ->
  fok s H ∅ -> (forall m, V s m = V s0 m) -> same_rest s0 s ->
  balloc_loop fuel dev b s = Panic "balloc: out of blocks".
Proof.
  intros Hg Hap Hsz. revert s b.
  induction fuel as [|fuel IH]; intros s b Hb Hmod Hfuel Hbs Hfull Hok HV HF; cbn [balloc_loop];
    apply bind_panic, wp_gets; destruct HF as (Esb & HF'); rewrite Esb; pose proof (bg_size _ Hg) as Hs;
    rewrite u32_small by klia; destruct (Z.ltb_spec b (sb_size (f_sb s0))) as [Hlt|Hge]; [klia | done | | done].
  destruct (BBLOCK_eq (f_sb s0) b Hg ltac:(lia)) as [Ebb Hbm]. pose proof (bg_start _ Hg).
  assert (0 <= b / BPB <= b) by (split; [apply Z.div_pos; klia | apply Z.div_le_upper_bound; klia]).
  apply bind_panic. eapply wp_f_read; [exact Hok | by apply (proj1 Hap) | lia | done |].
  intros bp s1 O1 K1 V1 R1 KH1 F1. apply bind_panic. eapply wp_f_data; [exact O1 | exact K1 | set_solver + |].
  rewrite V1, HV. pose proof (balloc_scan_spec (Z.to_nat BPB) (V s0 (BBLOCK b (f_sb s0))) (sb_size (f_sb s0)) b 0) as Hsc.
  destruct (balloc_scan _ _ _ _ _) as [bi|]; (specialize (Hsc Hb ltac:(lia) ltac:(klia))).
  - exfalso. destruct Hsc as (S1 & S2 & S3 & _). specialize (Hfull (b + bi) ltac:(lia)).
    pose proof (Z.div_mod b BPB ltac:(klia)) as Edm. rewrite Hmod in Edm. unfold free, BBLOCK in Hfull.
    replace (b + bi) with (bi + b / BPB * BPB) in Hfull by klia.
    rewrite Z.div_add, Z.mod_add, Z.div_small, Z.mod_small in Hfull by klia. rewrite Z.add_0_l in Hfull.
    change (u32 (b / BPB + sb_bmapstart (f_sb s0))) with (BBLOCK b (f_sb s0)) in Hfull. by rewrite Hfull in S3.
  - apply bind_panic. eapply (wp_f_done s1 s1); [exact O1 | by apply (proj1 Hap) | set_solver + | done | done |].
    intros s2 O2 V2 R2 K2 F2. apply IH; try done; [klia | | klia | klia | |].
    + rewrite Z.add_mod, Hmod, Z.mod_same by klia. done.
    + intros m. by rewrite V2, V1.
    + eapply same_rest_trans; [| exact F2]. eapply same_rest_trans; [| exact F1]. by split.
Qed.

Lemma free_after_set s s' b j :
  bmap_geom (f_sb s) -> f_sb s' = f_sb s -> 0 <= b < sb_size (f_sb s) -> 0 <= j < sb_size (f_sb s) ->
  (forall n, length (V s n) = 1024%nat) ->
  (forall m, is_bmap (f_sb s) m -> V s' m = if decide (m = BBLOCK b (f_sb s)) then bit_set (V s m) (b mod BPB) else V s m) ->
  free s' j = if b =? j then false else free s j.
Proof.
  intros Hg Esb Hb Hj Hl HV. destruct (BBLOCK_eq _ b Hg Hb) as [Eb _]. destruct (BBLOCK_eq _ j Hg Hj) as [Ej Hbj].
  unfold free. rewrite Esb, HV by done.
  pose proof (Z.mod_pos_bound b BPB ltac:(klia)). pose proof (Z.mod_pos_bound j BPB ltac:(klia)).
  pose proof (Z.div_mod b BPB ltac:(klia)). pose proof (Z.div_mod j BPB ltac:(klia)).
  case_decide as E.
  - rewrite bit_clear_set; [| lia | lia |].
    + rewrite E. destruct (Z.eqb_spec b j) as [->|Hne]; [by rewrite Z.eqb_refl |].
      rewrite (proj2 (Z.eqb_neq _ _)); [done |]. intros Em. rewrite Ej, Eb in E. apply Hne. lia.
    + rewrite Hl. apply Z.div_lt_upper_bound; klia.
  - destruct (Z.eqb_spec b j) as [->|]; [done | done].
Qed.

(** [bfree] of a used block. *)
Lemma wp_bfree s H b :
  bmap_geom (f_sb s) -> 0 <= b < sb_size (f_sb s) -> free s b = false ->
  (forall n, is_bmap (f_sb s) n -> n ∉ H) -> (size H < 3)%nat -> 1 <= froom s -> fok s H ∅ ->
  wp (bfree dev b) (fun _ s' => fok s' H ∅ /\ froom s - 1 <= froom s' /\ same_rest s s' /\
    (forall m, V s' m = if decide (m = BBLOCK b (f_sb s)) then bit_reset (V s m) (b mod BPB) else V s m) /\
    (forall m c, m ∈ H -> fhd s m c -> fhd s' m c)) s.
Proof.
  intros Hg Hb Hu Hap Hsz Hroom Hok. destruct (BBLOCK_eq _ b Hg Hb) as [Eb Hbm]. pose proof (bg_start _ Hg). pose proof (bg_size _ Hg).
  assert (0 <= b / BPB <= b) by (split; [apply Z.div_pos; klia | apply Z.div_le_upper_bound; klia]).
  unfold bfree. apply wp_bind, wp_gets, wp_bind. eapply wp_f_read; [exact Hok | by apply Hap | lia | done |].
  intros bp s1 O1 K1 V1 R1 KH1 F1. apply wp_bind. eapply wp_f_data; [exact O1 | exact K1 | set_solver + |].
  rewrite V1. unfold free in Hu. rewrite Hu.
  eapply (wp_f_update_last s1 s H ∅); try done; [by apply Hap | by apply (bg_log _ Hg) | lia | |].
  - unfold bit_reset. rewrite length_insert. exact (V_len _ _ _ _ Hok).
  - intros s2 O2 V2 R2 K2 F2. split_and!; [done | lia | by eapply same_rest_trans | | done].
    intros m. rewrite V2. unfold upd. case_decide; [by subst | by rewrite V1].
Qed.

Lemma bfree_panics s H b :
  bmap_geom (f_sb s) -> 0 <= b < sb_size (f_sb s) -> free s b = true ->
  (forall n, is_bmap (f_sb s) n -> n ∉ H) -> (size H < 3)%nat -> fok s H ∅ ->
  bfree dev b s = Panic "freeing free block".
Proof.
  intros Hg Hb Hu Hap Hsz Hok. destruct (BBLOCK_eq _ b Hg Hb) as [Eb Hbm]. pose proof (bg_start _ Hg). pose proof (bg_size _ Hg).
  assert (0 <= b / BPB <= b) by (split; [apply Z.div_pos; klia | apply Z.div_le_upper_bound; klia]).
  unfold bfree. apply bind_panic, wp_gets, bind_panic. eapply wp_f_read; [exact Hok | by apply Hap | lia | done |].
  intros bp s1 O1 K1 V1 R1 KH1 F1. apply bind_panic. eapply wp_f_data; [exact O1 | exact K1 | set_solver + |].
  rewrite V1. unfold free in Hu. by rewrite Hu.
Qed.

Lemma free_after_reset s s' b j :
  bmap_geom (f_sb s) -> f_sb s' = f_sb s -> 0 <= b < sb_size (f_sb s) -> 0 <= j < sb_size (f_sb s) ->
  (forall n, length (V s n) = 1024%nat) ->
  (forall m, V s' m = if decide (m = BBLOCK b (f_sb s)) then bit_reset (V s m) (b mod BPB) else V s m) ->
  free s' j = if b =? j then true else free s j.
Proof.
  intros Hg Esb Hb Hj Hl HV. destruct (BBLOCK_eq _ b Hg Hb) as [Eb _]. destruct (BBLOCK_eq _ j Hg Hj) as [Ej Hbj].
  unfold free. rewrite Esb, HV.
  pose proof (Z.mod_pos_bound b BPB ltac:(klia)). pose proof (Z.mod_pos_bound j BPB ltac:(klia)).
  pose proof (Z.div_mod b BPB ltac:(klia)). pose proof (Z.div_mod j BPB ltac:(klia)).
  case_decide as E.
  - rewrite bit_clear_reset; [| lia | lia |].
    + rewrite E. destruct (Z.eqb_spec b j) as [->|Hne]; [by rewrite Z.eqb_refl |].
      rewrite (proj2 (Z.eqb_neq _ _)); [done |]. intros Em. rewrite Ej, Eb in E. apply Hne. lia.
    + rewrite Hl. apply Z.div_lt_upper_bound; klia.
  - by destruct (Z.eqb_spec b j) as [->|].
Qed.

End balloc.

(** C35: on any implementation of the block interface, [balloc] returns the
    lowest free block, marks it used and no other, zeroes it and changes no
    other block but its bitmap block; with no free block it panics. *)
Theorem balloc_correct {S U} {HB : Blocks S} `{BL : !BlockLaws S dev loggable ok vw hnd room}
    (s : fst (S := S) (U := U)) (H : gset Z) :
  bmap_geom (loggable := loggable) (f_sb s) -> free_data (loggable := loggable) (vw := vw) s ->
  apart (vw := vw) s H -> (size H < 3)%nat -> 2 <= room (f_blk s) -> ok (f_blk s) H ∅ ->
  (exists b s', balloc dev s = Ok b s' /\ 0 <= b < sb_size (f_sb s) /\ free (vw := vw) s b = true /\
     (forall j, 0 <= j < b -> free (vw := vw) s j = false) /\
     (forall j, 0 <= j < sb_size (f_sb s) -> free (vw := vw) s' j = if b =? j then false else free (vw := vw) s j) /\
     vw (f_blk s') b = zero_block /\
     (forall m, m <> b -> m <> BBLOCK b (f_sb s) -> vw (f_blk s') m = vw (f_blk s) m) /\ ok (f_blk s') H ∅)
  \/ ((forall j, 0 <= j < sb_size (f_sb s) -> free (vw := vw) s j = false) /\
      balloc dev s = Panic "balloc: out of blocks").
Proof.
  intros Hg Hfd Hap Hsz Hroom Hok. pose proof (bg_size _ Hg).
  destruct (existsb (free (vw := vw) s) (seqZ 0 (sb_size (f_sb s)))) eqn:Ex.
  - left. apply List.existsb_exists in Ex as (j & Hj%list_elem_of_In%elem_of_seqZ & Hf).
    assert (wp (balloc dev) (balloc_post (ok := ok) (vw := vw) (hnd := hnd) (room := room) s H) s) as Hw
      by (apply wp_balloc; try done; exists j; split; [lia | done]).
    apply wp_ok in Hw as (b & s' & E & [[Hb Hf'] Hl Hok' HV Hr Hk (Esb & _ & _)]).
    exists b, s'. destruct (Hfd b Hb Hf') as [_ Hnb]. split_and!; try done; [lia | lia | | unfold V in HV..].
    + intros k Hk'. eapply free_after_set; try done; [intros n; by eapply V_len |].
      intros m Hm. rewrite HV. rewrite decide_False; [done |]. by intros ->.
    + by rewrite HV, decide_True.
    + intros m H1 H2. by rewrite HV, !decide_False.
  - right. assert (forall j, 0 <= j < sb_size (f_sb s) -> free (vw := vw) s j = false) as Hall.
    { intros j Hj. destruct (free s j) eqn:E; [| done]. apply not_true_iff_false in Ex. destruct Ex.
      apply List.existsb_exists. exists j. split; [| done]. apply list_elem_of_In, elem_of_seqZ. lia. }
    split; [done |]. unfold balloc. apply bind_panic, wp_gets. eapply balloc_loop_full; try done.
    + pose proof (Z.div_mod (sb_size (f_sb s)) BPB ltac:(klia)). pose proof (Z.mod_pos_bound (sb_size (f_sb s)) BPB ltac:(klia)).
      assert (0 <= sb_size (f_sb s) / BPB) by (apply Z.div_pos; klia). rewrite Z2Nat.id by lia. klia.
    + klia.
Qed.

(** [bfree] of a used block clears its bit and changes nothing else, and
    after [balloc] gives the bitmap back; of a free block it panics. *)
Theorem bfree_correct {S U} {HB : Blocks S} `{BL : !BlockLaws S dev loggable ok vw hnd room}
    (s : fst (S := S) (U := U)) (H : gset Z) (b : Z) :
  bmap_geom (loggable := loggable) (f_sb s) -> 0 <= b < sb_size (f_sb s) ->
  (forall n, is_bmap (f_sb s) n -> n ∉ H) -> (size H < 3)%nat -> 1 <= room (f_blk s) -> ok (f_blk s) H ∅ ->
  if free (vw := vw) s b then bfree dev b s = Panic "freeing free block"
  else exists s', bfree dev b s = Ok tt s' /\ ok (f_blk s') H ∅ /\
    (forall j, 0 <= j < sb_size (f_sb s) -> free (vw := vw) s' j = if b =? j then true else free (vw := vw) s j) /\
    (forall m, m <> BBLOCK b (f_sb s) -> vw (f_blk s') m = vw (f_blk s) m).
Proof.
  intros Hg Hb Hap Hsz Hroom Hok. destruct (free s b) eqn:Hf; [by eapply bfree_panics |].
  pose proof (wp_bfree (vw := vw) (hnd := hnd) (room := room) s H b Hg Hb Hf Hap Hsz Hroom Hok) as Hw.
  apply wp_ok in Hw as ([] & s' & E & Hok' & _ & (Esb & _) & HV & _). exists s'. split_and!; try done.
  - intros j Hj. eapply free_after_reset; try done. intros n. by eapply V_len.
  - intros m Hm. unfold V in HV. by rewrite HV, decide_False.
Qed.

(** ** A small disk: 40 blocks, the bitmap in block 33 marks 0 to 33 *)

Definition demo_sb : superblock := Superblock FSMAGIC 40 6 16 30 2 32 33.
Definition demo_bitmap : list Z := [255; 255; 255; 255; 3] ++ replicate 1019 0.
Definition demo_fsdisk : gmap Z (list Z) := {[ 33 := demo_bitmap ]}.
Definition demo_loggable (n : Z) : Prop := 0 <= n < 2 ^ 31 /\ ~ in_log 2 30 n.

Lemma demo_fsdisk_len n : length (home demo_fsdisk n) = 1024%nat.
Proof.
  unfold home, demo_fsdisk. destruct (decide (n = 33)) as [->|Hne].
  - rewrite lookup_singleton_eq. reflexivity.
  - rewrite lookup_singleton_ne by done. reflexivity.
Qed.

Lemma demo_fs : exists b : lst, txn 1 3 2 30 b ∅ ∅ /\ tx_n b = 0 /\ view 1 (l_b b) 33 = demo_bitmap.
Proof.
  assert (hdr_n 2 demo_fsdisk = 0) as E0 by (vm_compute; reflexivity).
  destruct (txn_boot demo_fsdisk E0 demo_fsdisk_len) as (b & Ht & En & Hv). exists b. split_and!; try done.
  rewrite Hv by lia. reflexivity.
Qed.

Lemma demo_is_bmap n : is_bmap demo_sb n -> n = 33.
Proof. unfold is_bmap. change ((sb_size demo_sb - 1) / BPB) with 0. cbn. lia. Qed.

Lemma demo_geom : bmap_geom (loggable := demo_loggable) demo_sb.
Proof.
  split; [cbn; lia | cbn; lia |]. intros n Hn. apply demo_is_bmap in Hn as ->.
  unfold demo_loggable, in_log. lia.
Qed.

Lemma demo_free {U} (s : fst (S := lst) (U := U)) j :
  f_sb s = demo_sb -> view 1 (l_b (f_blk s)) 33 = demo_bitmap -> 0 <= j < 40 ->
  free (vw := fun s => view 1 (l_b s)) s j = (33 <? j).
Proof.
  intros Es Hv Hj. unfold free, V. rewrite Es. unfold BBLOCK.
  rewrite Z.div_small, Z.mod_small by klia. cbn [sb_bmapstart demo_sb]. change (u32 (0 + 33)) with 33. rewrite Hv.
  assert (forallb (fun j => eqb (bit_clear demo_bitmap j) (33 <? j)) (seqZ 0 40) = true) as Hf by (vm_compute; reflexivity).
  rewrite List.forallb_forall in Hf. apply eqb_prop, Hf, list_elem_of_In, elem_of_seqZ. lia.
Qed.

Lemma balloc_witness : exists (s s' : fst (S := lst) (U := unit)), balloc (H := log_blocks 3) 1 s = Ok 34 s'.
Proof.
  destruct demo_fs as (b & Ht & En & Hv). set (s := Fst b demo_sb [] tt).
  destruct (balloc_correct (BL := log_block_laws 1 3 2 30 ltac:(lia)) s ∅) as [(r & s' & E & Hr & Hf & Hl & _)|[Hfull _]].
  - exact demo_geom.
  - intros j Hj. cbn in Hj. rewrite (demo_free s j eq_refl Hv) by lia. intros Hlt%Z.ltb_lt. split; [unfold in_log; lia |].
    intros E%demo_is_bmap. lia.
  - split; [set_solver + | set_solver +].
  - rewrite size_empty. lia.
  - cbn. unfold log_room. rewrite En. lia.
  - exact Ht.
  - exists s, s'. assert (r = 34) as ->; [| exact E]. rewrite (demo_free s r eq_refl Hv Hr) in Hf. apply Z.ltb_lt in Hf.
    destruct (decide (r = 34)) as [|Hne]; [done |]. specialize (Hl 34 ltac:(cbn in Hr; lia)).
    rewrite (demo_free s 34 eq_refl Hv) in Hl by lia. discriminate Hl.
  - exfalso. specialize (Hfull 34 ltac:(cbn; lia)). rewrite (demo_free s 34 eq_refl Hv) in Hfull by lia. discriminate Hfull.
Defined.

Lemma bfree_witness : exists (s s' : fst (S := lst) (U := unit)), bfree (H := log_blocks 3) 1 33 s = Ok tt s'.
Proof.
  destruct demo_fs as (b & Ht & En & Hv). set (s := Fst b demo_sb [] tt).
  pose proof (bfree_correct (BL := log_block_laws 1 3 2 30 ltac:(lia)) s ∅ 33 demo_geom) as Hw.
  rewrite (demo_free s 33 eq_refl Hv) in Hw by lia. destruct Hw as (s' & E & _); [cbn; lia | set_solver + | | | exact Ht |].
  - rewrite size_empty. lia.
  - cbn. unfold log_room. rewrite En. lia.
  - exists s, s'. exact E.
Defined.
