(* ===== verification/Inode.v ===== *)
(** * Inodes on disk and in memory

    The layout of [struct dinode] in an inode block, [iupdate] and [ilock]:
    what [iupdate] writes, [ilock] reads back, and no other inode of the
    block is disturbed.  The inode cache keeps at most one entry per inode. *)

From S2P Require Import Prelude Riscv Sleeplock Layout Usermem Bio Bcache Log Txn Crash Fs Fsblk Balloc.

(** ** Layout *)

Lemma s16_u16 v : - 2 ^ 15 <= v < 2 ^ 15 -> s16 (v mod 2 ^ 16) = v.
Proof.
  intros Hv. unfold s16, signed. change (16 - 1) with 15. rewrite Z.add_mod_idemp_l by lia.
  rewrite Z.mod_small; lia.
Qed.

Lemma length_put_words d off ws :
  0 <= off -> off + 4 * Z.of_nat (length ws) <= Z.of_nat (length d) -> length (put_words d off ws) = length d.
Proof.
  revert d off. induction ws as [|w ws IH]; intros d off H0 Hl; cbn [put_words length] in *; [done |].
  unfold put32. rewrite IH; [| lia |]; rewrite length_put_le; lia.
Qed.

(** A write changes no byte outside its field. *)
Lemma get_put_words_ne k d off ws o :
  0 <= off -> 0 <= o -> off + 4 * Z.of_nat (length ws) <= Z.of_nat (length d) ->
  o + Z.of_nat k <= off \/ off + 4 * Z.of_nat (length ws) <= o ->
  get_le k (put_words d off ws) o = get_le k d o.
Proof.
  revert d off. induction ws as [|w ws IH]; intros d off H0 Ho Hl Hd; cbn [put_words length] in *; [done |].
  unfold put32. rewrite IH by (rewrite ?length_put_le; lia). apply get_put_ne; lia.
Qed.

Lemma get_put_words d off ws i w :
  0 <= off -> off + 4 * Z.of_nat (length ws) <= Z.of_nat (length d) -> ws !! i = Some w ->
  get32 (put_words d off ws) (off + 4 * Z.of_nat i) = u32 w.
Proof.
  revert d off i. induction ws as [|w' ws IH]; intros d off i H0 Hl Hi; cbn [put_words length] in *; [done |].
  destruct i as [|i]; cbn in Hi.
  - injection Hi as ->. unfold get32. rewrite get_put_words_ne by (unfold put32; rewrite ?length_put_le; lia).
    rewrite Z.add_0_r. unfold put32. by rewrite get_put_eq by lia.
  - replace (off + 4 * Z.of_nat (Datatypes.S i)) with (off + 4 + 4 * Z.of_nat i) by lia.
    apply IH; [lia | | done]. unfold put32. rewrite length_put_le; lia.
Qed.

(** The values a [struct dinode] can hold. *)
Record dinode_ok (n : dinode) : Prop := DinodeOk {
  dk_type : - 2 ^ 15 <= d_type n < 2 ^ 15;
  dk_major : - 2 ^ 15 <= d_major n < 2 ^ 15;
  dk_minor : - 2 ^ 15 <= d_minor n < 2 ^ 15;
  dk_nlink : - 2 ^ 15 <= d_nlink n < 2 ^ 15;
  dk_size : 0 <= d_size n < 2 ^ 32;
  dk_addrs : length (d_addrs n) = 13%nat /\ Forall (fun a => 0 <= a < 2 ^ 32) (d_addrs n);
}.

(** Lengths of nested field writes. *)
Ltac solve_len := first [lia | rewrite length_put_le; [solve_len | solve_len | solve_len]].
(** Reads through field writes elsewhere, then the write at the same place. *)
Ltac skip_puts := repeat (rewrite get_put_ne; [| solve_len | solve_len | solve_len | solve_len]).

Lemma get_put_dinode_ne k d off n o :
  0 <= off -> off + 64 <= Z.of_nat (length d) -> length (d_addrs n) = 13%nat -> 0 <= o ->
  o + Z.of_nat k <= off \/ off + 64 <= o ->
  get_le k (put_dinode d off n) o = get_le k d o.
Proof.
  intros H0 Hl Ha Ho Hd. unfold put_dinode, put16, put32. rewrite get_put_words_ne; [| solve_len..].
  by skip_puts.
Qed.

Lemma length_put_dinode d off n :
  0 <= off -> off + 64 <= Z.of_nat (length d) -> length (d_addrs n) = 13%nat -> length (put_dinode d off n) = length d.
Proof.
  intros H0 Hl Ha. unfold put_dinode, put16, put32. rewrite length_put_words; [| solve_len | solve_len].
  repeat (rewrite length_put_le; [| solve_len | solve_len]). done.
Qed.

Lemma get_put_dinode d off n :
  dinode_ok n -> 0 <= off -> off + 64 <= Z.of_nat (length d) -> get_dinode (put_dinode d off n) off = n.
Proof.
  intros [Ht Hm Hn Hl Hs [Ha Hav]] H0 Hd. unfold get_dinode. destruct n as [t mj mn nl sz addrs]. cbn in *.
  unfold put_dinode, put16, put32, get16, get32. cbn [d_type d_major d_minor d_nlink d_size d_addrs].
  f_equal.
  1-4: rewrite get_put_words_ne; [| solve_len..]; skip_puts; rewrite get_put_eq; [| solve_len | solve_len]; by apply s16_u16.
  - rewrite get_put_words_ne; [| solve_len..]. rewrite get_put_eq; [| solve_len | solve_len].
    change (256 ^ Z.of_nat 4) with (2 ^ 32). by rewrite Z.mod_small.
  - apply list_eq. intros i. rewrite list_lookup_fmap. destruct (decide (i < 13)%nat) as [Hi|Hi].
    + rewrite lookup_seqZ_lt by klia. cbn [fmap option_fmap option_map].
      destruct (lookup_lt_is_Some_2 addrs i ltac:(lia)) as [w Hw]. rewrite Hw. f_equal. rewrite Z.add_0_l.
      pose proof (get_put_words (put_le 4 (put_le 2 (put_le 2 (put_le 2 (put_le 2 d off t) (off + 2) mj) (off + 4) mn) (off + 6) nl)
        (off + 8) sz) (off + 12) addrs i w ltac:(lia)) as E. unfold get32 in E. rewrite E; [| solve_len | done].
      apply u32_small. by eapply (Forall_lookup_1 _ _ _ _ Hav).
    + rewrite lookup_seqZ_ge by klia. cbn. symmetry. apply lookup_ge_None. lia.
Qed.

(** Another inode of the same block. *)
Lemma get_dinode_other d off off' n :
  0 <= off -> off + 64 <= Z.of_nat (length d) -> length (d_addrs n) = 13%nat -> 0 <= off' ->
  off' + 64 <= off \/ off + 64 <= off' -> get_dinode (put_dinode d off n) off' = get_dinode d off'.
Proof.
  intros H0 Hl Ha Ho Hd. unfold get_dinode, get16, get32.
  rewrite !get_put_dinode_ne by (done || lia). f_equal. apply map_ext_in.
  intros i Hi%list_elem_of_In%elem_of_seqZ. rewrite get_put_dinode_ne; [done | done | done | done | lia |]. klia.
Qed.

(** ** [iupdate] and [ilock] *)

Section inode.
Context {S U : Type} {HB : Blocks S} `{BL : !BlockLaws S dev loggable ok vw hnd room} {HU : UserMem U}.
Implicit Types (s : fst (S := S) (U := U)) (H : gset Z).

Abbreviation fok := (fok (ok := ok)).
Abbreviation V := (V (vw := vw)).
Abbreviation froom := (froom (room := room)).
Abbreviation fhd := (fhd (hnd := hnd)).

(** The inode blocks are in range and outside the log. *)
Record inode_geom (sb : superblock) : Prop := InodeGeom {
  ig_n : 0 < sb_ninodes sb < 2 ^ 30;
  ig_start : 0 <= sb_inodestart sb < 2 ^ 30;
  ig_log : forall i, 0 <= i < sb_ninodes sb -> loggable (IBLOCK i sb);
}.

(** The inode [inum] as it is on disk. *)
Definition dino s (inum : Z) : dinode := get_dinode (V s (IBLOCK inum (f_sb s))) (inode_off inum).

Lemma IBLOCK_range sb i : inode_geom sb -> 0 <= i < sb_ninodes sb ->
  IBLOCK i sb = i / IPB + sb_inodestart sb /\ 0 <= IBLOCK i sb < 2 ^ 31.
Proof.
  intros [Hn Hs _] Hi. assert (0 <= i / IPB <= i).
  { change IPB with 16. split; [apply Z.div_pos; lia | apply Z.div_le_upper_bound; lia]. }
  unfold IBLOCK. rewrite u32_small by lia. lia.
Qed.

Lemma inode_off_range i : 0 <= inode_off i /\ inode_off i + 64 <= 1024.
Proof. unfold inode_off. change IPB with 16. change SIZEOF_DINODE with 64. pose proof (Z.mod_pos_bound i 16 ltac:(lia)). lia. Qed.

Lemma inode_off_apart sb i j :
  inode_geom sb -> 0 <= i < sb_ninodes sb -> 0 <= j < sb_ninodes sb -> i <> j -> IBLOCK i sb = IBLOCK j sb ->
  inode_off j + 64 <= inode_off i \/ inode_off i + 64 <= inode_off j.
Proof.
  intros Hg Hi Hj Hne. destruct (IBLOCK_range sb i Hg Hi) as [-> _]. destruct (IBLOCK_range sb j Hg Hj) as [-> _].
  unfold inode_off. change IPB with 16. change SIZEOF_DINODE with 64. intros E.
  pose proof (Z.div_mod i 16 ltac:(lia)). pose proof (Z.div_mod j 16 ltac:(lia)). lia.
Qed.

Lemma wp_iupdate s H ip :
  inode_geom (f_sb s) -> i_dev (geti s ip) = dev -> 0 <= i_inum (geti s ip) < sb_ninodes (f_sb s) ->
  dinode_ok (to_disk (geti s ip)) -> (IBLOCK (i_inum (geti s ip)) (f_sb s) ∉ H) -> (size H < 3)%nat -> 1 <= froom s ->
  fok s H ∅ ->
  wp (iupdate ip) (fun _ s' => fok s' H ∅ /\ froom s - 1 <= froom s' /\ same_rest s s' /\
    (forall m, V s' m = upd (V s) (IBLOCK (i_inum (geti s ip)) (f_sb s))
       (put_dinode (V s (IBLOCK (i_inum (geti s ip)) (f_sb s))) (inode_off (i_inum (geti s ip))) (to_disk (geti s ip))) m) /\
    (forall m c, m ∈ H -> fhd s m c -> fhd s' m c)) s.
Proof.
  intros Hg Hdv Hi Hd Hn Hsz Hr Hok. unfold iupdate. apply wp_bind, wp_gets. apply wp_bind, wp_gets. rewrite Hdv.
  destruct (IBLOCK_range _ _ Hg Hi) as [_ Hrng]. pose proof (inode_off_range (i_inum (geti s ip))) as Hoff.
  apply wp_bind. eapply wp_f_read; [exact Hok | done | done | done |].
  intros bp s1 O1 K1 V1 R1 KH1 F1. apply wp_bind. eapply wp_f_data; [exact O1 | exact K1 | set_solver + |].
  rewrite V1. pose proof (V_len _ _ _ (IBLOCK (i_inum (geti s ip)) (f_sb s)) Hok) as Hlen.
  eapply (wp_f_update_last s1 s H ∅); try done; [by apply (ig_log _ Hg) | lia | |].
  - rewrite length_put_dinode; [done | lia | rewrite Hlen; lia | apply Hd].
  - intros s2 O2 V2 R2 K2 F2. split_and!; [done | lia | by eapply same_rest_trans | | done].
    intros m. rewrite V2. unfold upd. by rewrite V1.
Qed.

(** The inodes on disk after [iupdate]. *)
Lemma dino_updated s s' inum n : inode_geom (f_sb s) -> 0 <= inum < sb_ninodes (f_sb s) -> dinode_ok n -> f_sb s' = f_sb s ->
  length (V s (IBLOCK inum (f_sb s))) = 1024%nat ->
  (forall m, V s' m = upd (V s) (IBLOCK inum (f_sb s)) (put_dinode (V s (IBLOCK inum (f_sb s))) (inode_off inum) n) m) ->
  dino s' inum = n /\ forall j, 0 <= j < sb_ninodes (f_sb s) -> j <> inum -> dino s' j = dino s j.
Proof.
  intros Hg Hi Hd E Hlen HV. pose proof (inode_off_range inum) as Hoff. unfold dino. rewrite E. split.
  - rewrite HV, upd_eq. apply get_put_dinode; [done | lia | lia].
  - intros j Hj Hne. rewrite HV. unfold upd. case_decide as Eb; [| done]. rewrite Eb.
    apply get_dinode_other; [lia | lia | apply Hd | apply inode_off_range |].
    eapply inode_off_apart; [exact Hg | done | done | congruence | done].
Qed.

Lemma geti_seti s ip f jp :
  (ip < length (f_inodes s))%nat ->
  geti (Fst (f_blk s) (f_sb s) (alter f ip (f_inodes s)) (f_user s)) jp = if decide (jp = ip) then f (geti s jp) else geti s jp.
Proof.
  intros Hl. unfold geti. cbn. case_decide as E.
  - subst. rewrite list_lookup_alter_eq. by destruct (lookup_lt_is_Some_2 _ _ Hl) as [x ->].
  - by rewrite list_lookup_alter_ne.
Qed.

(** [ilock] of a referenced, unlocked entry that is not valid. *)
Lemma wp_ilock_load s H pid ip :
  inode_geom (f_sb s) -> (ip < length (f_inodes s))%nat -> 1 <= i_ref (geti s ip) ->
  sl_locked (i_lock (geti s ip)) = 0 -> i_valid (geti s ip) = false -> i_dev (geti s ip) = dev ->
  0 <= i_inum (geti s ip) < sb_ninodes (f_sb s) -> d_type (dino s (i_inum (geti s ip))) <> 0 ->
  (IBLOCK (i_inum (geti s ip)) (f_sb s) ∉ H) -> (size H < 3)%nat -> fok s H ∅ ->
  wp (ilock pid ip) (fun _ s' => fok s' H ∅ /\ (forall m, V s' m = V s m) /\ froom s' = froom s /\
    to_disk (geti s' ip) = dino s (i_inum (geti s ip)) /\ i_valid (geti s' ip) = true /\
    i_lock (geti s' ip) = SleepLock 1 pid /\ i_ref (geti s' ip) = i_ref (geti s ip) /\
    (forall jp, jp <> ip -> geti s' jp = geti s jp)) s.
Proof.
  intros Hg Hl Href Hlk Hv Hdv Hi Hty Hn Hsz Hok. destruct (IBLOCK_range _ _ Hg Hi) as [_ Hrng].
  unfold ilock. apply wp_bind, wp_gets. rewrite (proj2 (Z.ltb_ge _ _)) by lia.
  apply wp_bind. set (s0 := Fst (f_blk s) (f_sb s) (alter (with_ilock (SleepLock 1 pid)) ip (f_inodes s)) (f_user s)).
  apply wp_ok. exists tt, s0. split; [unfold in_ilock, zoom, acquiresleep; by rewrite Hlk |].
  assert (length (f_inodes s0) = length (f_inodes s)) as L0 by apply length_alter.
  assert (forall jp, geti s0 jp = if decide (jp = ip) then with_ilock (SleepLock 1 pid) (geti s jp) else geti s jp) as G0
    by (intros jp; by apply geti_seti).
  assert (fok s0 H ∅ /\ (forall m, V s0 m = V s m) /\ f_sb s0 = f_sb s /\ froom s0 = froom s) as (O0 & V0 & E0 & R0) by done.
  clearbody s0. apply wp_bind, wp_gets. rewrite G0, decide_True by done. cbn [i_valid with_ilock]. rewrite Hv. cbn [negb].
  apply wp_bind, wp_gets. cbn [i_dev i_inum with_ilock]. rewrite Hdv, E0.
  apply wp_bind. eapply wp_f_read; [exact O0 | done | done | done |].
  intros bp s1 O1 K1 V1 R1 KH1 (F1a & F1b & F1c). apply wp_bind. eapply wp_f_data; [exact O1 | exact K1 | set_solver + |].
  rewrite V1, V0. fold (dino s (i_inum (geti s ip))). set (dn := dino s (i_inum (geti s ip))) in *.
  apply wp_bind, wp_modify. set (s2 := Fst _ _ _ _).
  assert (forall jp, geti s2 jp = if decide (jp = ip) then with_disk dn (geti s0 jp) else geti s0 jp) as G2.
  { intros jp. unfold s2. rewrite geti_seti by (rewrite F1b; lia). unfold geti. by rewrite F1b. }
  assert (fok s2 ({[IBLOCK (i_inum (geti s ip)) (f_sb s)]} ∪ H) ∅ /\ (forall m, V s2 m = V s1 m) /\ froom s2 = froom s1 /\
    (forall m c, fhd s2 m c <-> fhd s1 m c) /\ length (f_inodes s2) = length (f_inodes s)) as (O2 & V2 & R2 & K2 & L2).
  { split_and!; try done. unfold s2. cbn. rewrite length_alter. congruence. }
  clearbody s2. apply wp_bind. eapply (wp_f_done s2 s2); [exact O2 | done | set_solver + | by apply K2 | done |].
  intros s3 O3 V3 R3 _ (F3a & F3b & F3c).
  assert (forall jp, geti s3 jp = geti s2 jp) as G3 by (intros jp; unfold geti; by rewrite F3b).
  apply wp_bind, wp_modify. set (s4 := Fst _ _ _ _).
  assert (forall jp, geti s4 jp = if decide (jp = ip) then with_ivalid true (geti s2 jp) else geti s2 jp) as G4.
  { intros jp. unfold s4. rewrite geti_seti by (rewrite F3b; lia). by rewrite G3. }
  assert (fok s4 H ∅ /\ (forall m, V s4 m = V s3 m) /\ froom s4 = froom s3) as (O4 & V4 & R4) by done.
  clearbody s4. apply wp_bind, wp_gets.
  assert (geti s4 ip = with_ivalid true (with_disk dn (with_ilock (SleepLock 1 pid) (geti s ip)))) as Eip
    by (by rewrite G4, decide_True, G2, decide_True, G0, decide_True).
  rewrite Eip. cbn [i_type with_ivalid with_disk]. rewrite (proj2 (Z.eqb_neq _ _)) by done. apply wp_ret.
  rewrite Eip. split_and!; try done.
  - intros m. by rewrite V4, V3, V2, V1, V0.
  - congruence.
  - intros jp Hj. by rewrite G4, decide_False, G2, decide_False, G0, decide_False.
Qed.

End inode.

Definition with_inodes {S U} (l : list inode) (s : fst (S := S) (U := U)) : fst := Fst (f_blk s) (f_sb s) l (f_user s).

(** C36: what [iupdate] writes, [ilock] reads: whatever entry the inode gets in
    the cache later, locking it there restores every field; and [iupdate]
    changes no other inode and no other block. *)
Theorem iupdate_ilock {S U} {HB : Blocks S} `{BL : !BlockLaws S dev loggable ok vw hnd room}
    (s : fst (S := S) (U := U)) (ip : nat) :
  inode_geom (loggable := loggable) (f_sb s) -> i_dev (geti s ip) = dev ->
  0 <= i_inum (geti s ip) < sb_ninodes (f_sb s) -> dinode_ok (to_disk (geti s ip)) -> i_type (geti s ip) <> 0 ->
  1 <= room (f_blk s) -> ok (f_blk s) ∅ ∅ ->
  exists s1, iupdate ip s = Ok tt s1 /\ f_inodes s1 = f_inodes s /\
    (forall j, 0 <= j < sb_ninodes (f_sb s) -> j <> i_inum (geti s ip) -> dino (vw := vw) s1 j = dino (vw := vw) s j) /\
    (forall m, m <> IBLOCK (i_inum (geti s ip)) (f_sb s) -> vw (f_blk s1) m = vw (f_blk s) m) /\
    forall pid l jp, (jp < length l)%nat -> let s2 := with_inodes l s1 in
      1 <= i_ref (geti s2 jp) -> sl_locked (i_lock (geti s2 jp)) = 0 -> i_valid (geti s2 jp) = false ->
      i_dev (geti s2 jp) = dev -> i_inum (geti s2 jp) = i_inum (geti s ip) ->
      exists s3, ilock pid jp s2 = Ok tt s3 /\ to_disk (geti s3 jp) = to_disk (geti s ip).
Proof.
  intros Hg Hdv Hi Hd Hty Hr Hok. set (inum := i_inum (geti s ip)) in *.
  assert (size (∅ : gset Z) < 3)%nat as Hsz by (rewrite size_empty; lia).
  pose proof (wp_iupdate (BL := BL) s ∅ ip Hg Hdv Hi Hd ltac:(set_solver +) Hsz Hr Hok) as Hw.
  apply wp_ok in Hw as ([] & s1 & E & O1 & _ & (F1 & F2 & F3) & HV & _). fold inum in HV. unfold V in HV.
  destruct (dino_updated (loggable := loggable) (vw := vw) s s1 inum (to_disk (geti s ip))) as [Hdi Hoth]; try done; [exact (V_len _ _ _ _ Hok) |].
  exists s1. split_and!; try done.
  - intros m Hm. by rewrite HV, upd_ne.
  - intros pid l jp Hjp s2 H1 H2 H3 H4 H5.
    assert (f_sb s2 = f_sb s) as Es by exact F1.
    pose proof (wp_ilock_load (BL := BL) s2 ∅ pid jp) as Hw2. rewrite Es, H5 in Hw2.
    specialize (Hw2 Hg Hjp H1 H2 H3 H4 Hi).
    assert (d_type (dino (vw := vw) s2 inum) <> 0) as Ht2 by (change (dino s2 inum) with (dino (vw := vw) s1 inum); by rewrite Hdi).
    specialize (Hw2 Ht2 ltac:(set_solver +) Hsz O1).
    apply wp_ok in Hw2 as ([] & s3 & E3 & _ & _ & _ & Ed & _). exists s3. split; [done |].
    rewrite Ed. exact Hdi.
Qed.

(** ** The inode cache *)

(** At most one entry in use per inode. *)
Definition icache_inv (l : list inode) : Prop :=
  (forall i, i ∈ l -> 0 <= i_ref i) /\
  forall a b i j, l !! a = Some i -> l !! b = Some j -> 0 < i_ref i -> 0 < i_ref j ->
    i_dev i = i_dev j -> i_inum i = i_inum j -> a = b.

Definition entry_for (dev inum : Z) (i : inode) : bool := (0 <? i_ref i) && (i_dev i =? dev) && (i_inum i =? inum).

Lemma iget_scan_spec dev inum l k empty :
  match iget_scan l dev inum k empty with
  | (Some p, _) => exists q i, p = (k + q)%nat /\ l !! q = Some i /\ entry_for dev inum i = true
  | (None, e) => (forall q i, l !! q = Some i -> entry_for dev inum i = false) /\
      match empty with
      | Some x => e = Some x
      | None => match e with
                | Some p => exists q i, p = (k + q)%nat /\ l !! q = Some i /\ i_ref i = 0
                | None => forall q i, l !! q = Some i -> i_ref i <> 0
                end
      end
  end.
Proof.
  revert k empty. induction l as [|i l IH]; intros k empty; cbn [iget_scan].
  - split; [intros q i; by rewrite lookup_nil |]. destruct empty; [done |]. intros q i. by rewrite lookup_nil.
  - fold (entry_for dev inum i). destruct (entry_for dev inum i) eqn:Ei.
    { exists 0%nat, i. split_and!; [lia | done | done]. }
    set (e0 := match empty with None => _ | _ => _ end). specialize (IH (Datatypes.S k) e0).
    destruct (iget_scan l dev inum (Datatypes.S k) e0) as [[p|] e].
    + destruct IH as (q & j & -> & Hq & Hj). exists (Datatypes.S q), j. split_and!; [lia | done | done].
    + destruct IH as [Hno He]. split.
      * intros [|q] j Hq; [by injection Hq as <- | by apply (Hno q)].
      * destruct empty as [x|]; [done |]. unfold e0 in He. destruct (Z.eqb_spec (i_ref i) 0) as [Hz|Hz].
        -- subst e. exists 0%nat, i. split_and!; [lia | done | done].
        -- destruct e as [p|].
           ++ destruct He as (q & j & -> & Hq & Hj). exists (Datatypes.S q), j. split_and!; [lia | done | done].
           ++ intros [|q] j Hq; [by injection Hq as <- | by apply (He q)].
Qed.

Lemma icache_alter l p f i :
  icache_inv l -> l !! p = Some i -> 0 < i_ref (f i) ->
  (forall q j, q <> p -> l !! q = Some j -> 0 < i_ref j -> i_dev j = i_dev (f i) -> i_inum j = i_inum (f i) -> False) ->
  icache_inv (alter f p l).
Proof.
  intros [Hpos Hu] Hp Hf Hno. split.
  - intros j [q Hq]%list_elem_of_lookup. destruct (decide (p = q)) as [<-|Hne].
    + rewrite list_lookup_alter_eq, Hp in Hq. injection Hq as <-. lia.
    + rewrite list_lookup_alter_ne in Hq by done. apply Hpos. by eapply list_elem_of_lookup_2.
  - intros a b x y Ha Hb. destruct (decide (p = a)) as [<-|Hpa], (decide (p = b)) as [<-|Hpb]; [done | ..].
    + rewrite list_lookup_alter_eq, Hp in Ha. rewrite list_lookup_alter_ne in Hb by done. injection Ha as <-.
      intros _ Hy E1 E2. exfalso. by eapply (Hno b y).
    + rewrite list_lookup_alter_eq, Hp in Hb. rewrite list_lookup_alter_ne in Ha by done. injection Hb as <-.
      intros Hx _ E1 E2. exfalso. by eapply (Hno a x).
    + rewrite list_lookup_alter_ne in Ha, Hb by done. by apply Hu.
Qed.

(** [iget] returns the one entry of the inode: an existing one with its
    reference count raised, or an unused one taken over and marked invalid;
    the cache keeps at most one entry per inode, and with no unused entry the
    kernel panics. *)
Theorem iget_correct {S U} (s : fst (S := S) (U := U)) (dev inum : Z) :
  icache_inv (f_inodes s) ->
  match iget (U := U) dev inum s with
  | Ok ip s' => (ip < length (f_inodes s))%nat /\ icache_inv (f_inodes s') /\
      i_dev (geti s' ip) = dev /\ i_inum (geti s' ip) = inum /\ f_blk s' = f_blk s /\
      (forall jp, jp <> ip -> geti s' jp = geti s jp) /\
      (if entry_for dev inum (geti s ip) then geti s' ip = with_iref (i_ref (geti s ip) + 1) (geti s ip)
       else i_ref (geti s ip) = 0 /\ i_ref (geti s' ip) = 1 /\ i_valid (geti s' ip) = false)
  | Panic msg => msg = "iget: no inodes" /\ forall i, i ∈ f_inodes s -> i_ref i <> 0 /\ entry_for dev inum i = false
  | _ => False
  end.
Proof.
  intros Hinv. pose proof Hinv as [Hpos Hu]. unfold iget, bind at 1, gets.
  pose proof (iget_scan_spec dev inum (f_inodes s) 0 None) as Hs.
  destruct (iget_scan _ _ _ _ _) as [[p|] e].
  - destruct Hs as (q & i & -> & Hq & Hi). cbn [Nat.add]. unfold bind, seti, modify, ret.
    assert (geti s q = i) as Eg by (unfold geti; by rewrite Hq).
    pose proof (lookup_lt_Some _ _ _ Hq) as Hlt. rewrite !geti_seti, decide_True, Eg, Hi by done. cbn [f_inodes f_blk].
    apply andb_true_iff in Hi as [[Hr%Z.ltb_lt Ed%Z.eqb_eq]%andb_true_iff En%Z.eqb_eq].
    split_and!; try done.
    + eapply icache_alter; [done | done | cbn; lia |]. intros b j Hne Hb Hj E1 E2. apply Hne. cbn in E1, E2. by eapply Hu.
    + intros jp Hj. by rewrite geti_seti, decide_False.
  - destruct Hs as [Hno He]. destruct e as [p|].
    + destruct He as (q & i & -> & Hq & Hz). cbn [Nat.add]. unfold bind, seti, modify, ret.
      assert (geti s q = i) as Eg by (unfold geti; by rewrite Hq).
      pose proof (lookup_lt_Some _ _ _ Hq) as Hlt. rewrite !geti_seti, decide_True, Eg by done. cbn [f_inodes f_blk].
      rewrite (Hno q i Hq). split_and!; try done.
      * eapply icache_alter; [done | done | done |]. intros b j Hne Hb Hj E1 E2. cbn in E1, E2.
        pose proof (Hno b j Hb) as Hf. unfold entry_for in Hf. rewrite E1, E2, !Z.eqb_refl, (proj2 (Z.ltb_lt _ _)) in Hf by done. done.
      * intros jp Hj. by rewrite geti_seti, decide_False.
    + cbn. split; [done |]. intros i [q Hq]%list_elem_of_lookup. split; [by eapply He | by eapply Hno].
Qed.

(** ** Instances *)

(** Inode 1 of the small disk, a directory, in entry 0 of the cache. *)
Definition demo_inode : inode := Inode 1 1 1 initsleeplock true 1 0 0 1 32 (replicate 13 0).

Lemma demo_inode_geom : inode_geom (loggable := demo_loggable) demo_sb.
Proof.
  split; [cbn; lia | cbn; lia |]. intros i Hi. cbn in Hi. unfold IBLOCK. change IPB with 16. cbn [sb_inodestart demo_sb].
  rewrite Z.div_small by lia. change (u32 (0 + 32)) with 32. unfold demo_loggable, in_log. lia.
Qed.

Lemma iupdate_ilock_witness : exists (s s1 : fst (S := lst) (U := unit)), iupdate (H := log_blocks 3) 0 s = Ok tt s1.
Proof.
  destruct demo_fs as (b & Ht & En & Hv). set (s := Fst b demo_sb [demo_inode] tt).
  destruct (iupdate_ilock (BL := log_block_laws 1 3 2 30 ltac:(lia)) s 0) as (s1 & E & _).
  - exact demo_inode_geom.
  - reflexivity.
  - cbn. lia.
  - split; cbn; try lia. split; [done |]. repeat constructor; lia.
  - cbn. lia.
  - cbn. unfold log_room. rewrite En. lia.
  - exact Ht.
  - exists s, s1. exact E.
Defined.

Lemma iget_witness : exists s' : fst (S := unit) (U := unit),
  iget 1 5 (Fst tt demo_sb [demo_inode; inode0] tt) = Ok 1%nat s' /\ icache_inv (f_inodes s').
Proof.
  assert (icache_inv (f_inodes (Fst tt demo_sb [demo_inode; inode0] tt))) as Hi.
  { split.
    - intros i [->|[->|[]%elem_of_nil]%elem_of_cons]%elem_of_cons; cbn; lia.
    - intros [|[|a]] [|[|b]] i j; cbn; try done; intros [= <-] [= <-]; cbn; lia. }
  pose proof (iget_correct _ 1 5 Hi) as H. eexists. split; [reflexivity |]. apply H.
Defined.
