(* ===== verification/Contents.v ===== *)
(** * The contents of files: bmap, readi and writei of fs.c

    The bytes of a file are found through the block addresses of its inode and
    its indirect block.  [readi] delivers exactly these bytes, and [writei]
    replaces the bytes written, whatever blocks have to be allocated on the
    way, and touches no block of anything else. *)

From S2P Require Import Prelude Riscv Layout Usermem Bio Bcache Log Txn Crash Fs Fsblk Balloc Inode.

(** ** Blocks of a file *)

(** The address of block [k] of a file; [-1] is its indirect block. *)
Definition slot (v : Z -> list Z) (i : inode) (k : Z) : Z :=
  if k =? -1 then iaddr i NDIRECT
  else if k <? NDIRECT then iaddr i k
  else if iaddr i NDIRECT =? 0 then 0
  else get32 (v (iaddr i NDIRECT)) (4 * (k - NDIRECT)).

Definition is_slot (k : Z) : Prop := -1 <= k < MAXFILE.

Ltac slia := unfold is_slot in *; change MAXFILE with 268 in *; change NDIRECT with 12 in *; change BSIZE with 1024 in *; lia.

Lemma is_slot_ind : is_slot (-1).
Proof. by split. Qed.

(** The byte at offset [x]; blocks that are not there read as zeros. *)
Definition fbyte (v : Z -> list Z) (f : Z -> Z) (x : Z) : Z :=
  if f (x / BSIZE) =? 0 then 0 else default 0 (v (f (x / BSIZE)) !! Z.to_nat (x mod BSIZE)).

(** The [n] bytes at [off]. *)
Definition fbytes (v : Z -> list Z) (f : Z -> Z) (off n : Z) : list Z := map (fbyte v f) (seqZ off n).

Definition is_iblk (sb : superblock) (m : Z) : Prop := exists i, 0 <= i < sb_ninodes sb /\ m = IBLOCK i sb.

Section contents.
Context {S U : Type} {HB : Blocks S} `{BL : !BlockLaws S dev loggable ok vw hnd room} {HU : UserMem U}.
Implicit Types (s : fst (S := S) (U := U)) (H : gset Z) (i : inode).

Abbreviation fok := (fok (ok := ok)).
Abbreviation V := (V (vw := vw)).
Abbreviation froom := (froom (room := room)).
Abbreviation fhd := (fhd (hnd := hnd)).
Abbreviation free := (free (vw := vw)).
Abbreviation bmap_geom := (bmap_geom (loggable := loggable)).
Abbreviation inode_geom := (inode_geom (loggable := loggable)).

(** The disk is laid out as [mkfs] does it, and free blocks are data blocks. *)
Record fs_ok s : Prop := FsOk {
  fs_bmap : bmap_geom (f_sb s);
  fs_inode : inode_geom (f_sb s);
  fs_apart : forall m, is_iblk (f_sb s) m -> ~ is_bmap (f_sb s) m;
  fs_free : forall b, 0 <= b < sb_size (f_sb s) -> free s b = true ->
    0 < b /\ loggable b /\ ~ is_bmap (f_sb s) b /\ ~ is_iblk (f_sb s) b;
}.

(** A data block in use. *)
Record used s (a : Z) : Prop := Used {
  us_range : 0 < a < sb_size (f_sb s);
  us_free : free s a = false;
  us_log : loggable a;
  us_data : ~ is_bmap (f_sb s) a /\ ~ is_iblk (f_sb s) a;
}.

(** Every block of the file is a data block in use, and used once. *)
Record slots_ok s (f : Z -> Z) : Prop := SlotsOk {
  so_used : forall k, is_slot k -> f k <> 0 -> used s (f k);
  so_inj : forall k k', is_slot k -> is_slot k' -> f k <> 0 -> f k = f k' -> k = k';
  so_bytes : forall k, is_slot k -> k <> -1 -> f k <> 0 -> Forall is_byte (V s (f k));
}.

Record inode_ok s i : Prop := InodeOk {
  io_disk : dinode_ok (to_disk i);
  io_dev : i_dev i = dev;
  io_inum : 0 <= i_inum i < sb_ninodes (f_sb s);
  io_slots : slots_ok s (slot (V s) i);
  io_size : 0 <= i_size i <= MAXFILE * BSIZE;
  io_mapped : forall k, 0 <= k -> k * BSIZE < i_size i -> slot (V s) i k <> 0;
}.

(** There are [n] free blocks. *)
Definition spare s (n : nat) : Prop :=
  exists l : list Z, NoDup l /\ length l = n /\ forall b, b ∈ l -> 0 <= b < sb_size (f_sb s) /\ free s b = true.

Lemma spare_le s n m : (m <= n)%nat -> spare s n -> spare s m.
Proof.
  intros Hm (l & Hn & Hl & Hf). exists (take m l). split_and!.
  - eapply sublist_NoDup; [exact Hn | apply sublist_take].
  - rewrite length_take. lia.
  - intros b (j & Hj & _)%elem_of_take. apply Hf. by eapply list_elem_of_lookup_2.
Qed.

(** The same blocks are free, and no other superblock. *)
Definition same_free s s' : Prop := f_sb s' = f_sb s /\ forall b, 0 <= b < sb_size (f_sb s) -> free s' b = free s b.

Lemma used_same s s' a : same_free s s' -> used s a -> used s' a.
Proof. intros [E F] [U1 U2 U3 U4]. split; rewrite ?E; [done | rewrite F; [done | lia] | done | done]. Qed.

Lemma fs_ok_same s s' : same_free s s' -> fs_ok s -> fs_ok s'.
Proof. intros [E F] [F1 F2 F3 F4]. split; rewrite ?E; try done. intros b Hb Hf. rewrite F in Hf by done. by apply F4. Qed.

Lemma spare_same s s' n : same_free s s' -> spare s n -> spare s' n.
Proof.
  intros [E F] (l & H1 & H2 & H3). exists l. split_and!; [done | done |]. intros b Hb. destruct (H3 b Hb) as [Hr Hf].
  rewrite E, F by done. auto.
Qed.

(** Free or not depends on the bitmap only. *)
Lemma same_free_view s s' : bmap_geom (f_sb s) -> f_sb s' = f_sb s ->
  (forall m, is_bmap (f_sb s) m -> V s' m = V s m) -> same_free s s'.
Proof.
  intros Hg E HV. split; [done |]. intros b Hb. unfold Balloc.free. rewrite E, HV; [done |].
  by apply (BBLOCK_eq _ b Hg).
Qed.

(** ** Allocating a block *)

Record allocated s H (b : Z) s' : Prop := Allocated {
  al_new : 0 < b < sb_size (f_sb s) /\ free s b = true;
  al_used : used s' b;
  al_zero : V s' b = zero_block;
  al_free : forall j, 0 <= j < sb_size (f_sb s) -> j <> b -> free s' j = free s j;
  al_view : forall m, m <> b -> ~ is_bmap (f_sb s) m -> V s' m = V s m;
  al_ok : fok s' H ∅;
  al_room : froom s - 2 <= froom s';
  al_hd : forall m c, m ∈ H -> fhd s m c -> fhd s' m c;
  al_rest : same_rest s s';
  al_fs : fs_ok s';
  al_spare : forall n, spare s (Datatypes.S n) -> spare s' n;
}.

Lemma spare_alloc s s' b n : f_sb s' = f_sb s -> (forall j, 0 <= j < sb_size (f_sb s) -> j <> b -> free s' j = free s j) ->
  spare s (Datatypes.S n) -> spare s' n.
Proof.
  intros E F (l & Hn & Hl & Hf).
  assert (exists l', NoDup l' /\ length l' = n /\ forall j, j ∈ l' -> j ∈ l /\ j <> b) as (l' & Hn' & Hl' & Hs).
  { destruct (decide (b ∈ l)) as [Hb|Hb].
    - apply elem_of_Permutation in Hb as [l' Hp]. exists l'. rewrite Hp in Hn, Hl. apply NoDup_cons in Hn as [Hb Hn].
      split_and!; [done | by injection Hl |]. intros j Hj. rewrite Hp. split; [by right | by intros ->].
    - destruct l as [|x l']; [done |]. exists l'. apply NoDup_cons in Hn as [Hx Hn]. split_and!; [done | by injection Hl |].
      intros j Hj. split; [by right | intros ->]. apply Hb. by right. }
  exists l'. split_and!; [done | done |]. intros j (Hj & Hne)%Hs. destruct (Hf j Hj) as [Hr Hfj]. rewrite E, F by done. auto.
Qed.

Lemma wp_alloc s H :
  fs_ok s -> (forall n, n ∈ H -> used s n) -> (size H < 3)%nat -> 2 <= froom s -> fok s H ∅ -> spare s 1 ->
  wp (balloc dev) (allocated s H) s.
Proof.
  intros Hfs Hh Hsz Hr Hok Hsp. destruct Hfs as [Hg Hig Hap Hfd]. eapply wp_mono.
  { apply (wp_balloc (BL := BL) s H); try done.
    - intros b Hb Hf. by destruct (Hfd b Hb Hf) as (_ & ? & ? & _).
    - split; [intros n Hn Hx | intros b Hb Hf Hx]; destruct (Hh _ Hx) as [? U2 _ [U4 _]]; [done | congruence].
    - destruct Hsp as ([|b [|]] & _ & Hl & Hf); try done. exists b. apply Hf. by left. }
  intros b s' [[Hb Hf] Hl Hok' HV Hroom Hk Hrest]. destruct (Hfd b Hb Hf) as (Hpos & Hlog & Hnb & Hni).
  pose proof Hrest as (Esb & _).
  assert (forall j, 0 <= j < sb_size (f_sb s) -> free s' j = if b =? j then false else free s j) as Hfree.
  { intros j Hj. eapply free_after_set; try done; [intros n; by eapply V_len |].
    intros m Hm. rewrite HV. rewrite decide_False; [done |]. by intros ->. }
  assert (forall j, 0 <= j < sb_size (f_sb s) -> j <> b -> free s' j = free s j) as Hfr.
  { intros j Hj Hne. rewrite Hfree by done. by rewrite (proj2 (Z.eqb_neq _ _)) by done. }
  split; try done; [split; [lia | done] | | by rewrite HV, decide_True | | | intros n; by apply (spare_alloc s s' b)].
  - split; rewrite ?Esb; try done; [lia |]. by rewrite Hfree, Z.eqb_refl by lia.
  - intros m Hm Hmb. rewrite HV, !decide_False; [done | | done]. intros ->. apply Hmb. by apply (BBLOCK_eq _ b Hg).
  - split; rewrite ?Esb; try done. intros j Hj. rewrite Hfree by done. destruct (b =? j); [done | by apply Hfd].
Qed.

(** A block in use stays in use and keeps its contents. *)
Lemma allocated_used s H b s' a : allocated s H b s' -> used s a -> used s' a /\ a <> b /\ V s' a = V s a.
Proof.
  intros A [U1 U2 U3 U4]. destruct (al_rest _ _ _ _ A) as (Esb & _). assert (a <> b) as Hne.
  { intros ->. destruct (al_new _ _ _ _ A) as [_ Hf]. congruence. }
  split_and!; [| done | by apply (al_view _ _ _ _ A); [| apply U4]].
  split; rewrite ?Esb; try done. rewrite (al_free _ _ _ _ A); [done | lia | done].
Qed.

(** ** The block map of a file *)

(** It depends on the addresses and the indirect block only. *)
Lemma slot_ext v v' i i' : i_addrs i' = i_addrs i -> (iaddr i NDIRECT <> 0 -> v' (iaddr i NDIRECT) = v (iaddr i NDIRECT)) ->
  forall k, slot v' i' k = slot v i k.
Proof.
  intros E Hv k. unfold slot, iaddr in *. rewrite E. destruct (_ =? -1); [done |].
  destruct (_ <? _); [done |]. destruct (Z.eqb_spec (default 0 (i_addrs i !! Z.to_nat NDIRECT)) 0); [done |]. by rewrite Hv.
Qed.

Lemma slots_ok_ext s f g : (forall k, is_slot k -> g k = f k) -> slots_ok s f -> slots_ok s g.
Proof.
  intros E [S1 S2 S3]. split.
  - intros k Hk. rewrite E by done. by apply S1.
  - intros k k' Hk Hk'. rewrite !E by done. by apply S2.
  - intros k Hk. rewrite E by done. by apply S3.
Qed.

(** Adding a zeroed block. *)
Lemma slots_add s f g k0 b : slots_ok s f -> used s b -> V s b = zero_block -> (forall k, is_slot k -> f k <> b) ->
  f k0 = 0 -> (forall k, is_slot k -> g k = if decide (k = k0) then b else f k) -> slots_ok s g.
Proof.
  intros [S1 S2 S3] Hb Hz Hn H0 E. split.
  - intros k Hk. rewrite E by done. case_decide; [done | by apply S1].
  - intros k k' Hk Hk'. rewrite !E by done. repeat case_decide; subst; try done.
    + intros _ X. by destruct (Hn k' Hk').
    + intros _ X. by destruct (Hn k Hk).
    + by apply S2.
  - intros k Hk. rewrite E by done. case_decide; [| by apply S3]. intros _ _. rewrite Hz. apply Forall_replicate. done.
Qed.

Lemma fbyte_add v v' f g k0 b x : 0 <= x < MAXFILE * BSIZE -> f k0 = 0 -> v' b = zero_block ->
  (forall k, is_slot k -> g k = if decide (k = k0) then b else f k) ->
  (forall k, is_slot k -> k <> -1 -> f k <> 0 -> v' (f k) = v (f k)) -> fbyte v' g x = fbyte v f x.
Proof.
  intros Hx H0 Hz E Hv. assert (is_slot (x / BSIZE) /\ x / BSIZE <> -1) as [Hk Hk1].
  { unfold is_slot. pose proof (Z.div_pos x BSIZE ltac:(lia) ltac:(klia)). split; [| lia]. split; [lia |].
    apply Z.div_lt_upper_bound; klia. }
  unfold fbyte. rewrite E by done. case_decide as D.
  - rewrite D, H0, Hz. cbn [Z.eqb]. destruct (b =? 0); [done |]. unfold zero_block.
    destruct (replicate 1024 0 !! _) as [y|] eqn:Ey; [| done]. by apply lookup_replicate in Ey as [-> _].
  - destruct (Z.eqb_spec (f (x / BSIZE)) 0); [done |]. by rewrite Hv.
Qed.

(** ** What an operation on the file [ip] may do *)

Definition with_iaddrs (l : list Z) i : inode :=
  Inode (i_dev i) (i_inum i) (i_ref i) (i_lock i) (i_valid i) (i_type i) (i_major i) (i_minor i) (i_nlink i) (i_size i) l.

Abbreviation fslot s ip := (slot (V s) (geti s ip)).
Abbreviation file_byte s ip := (fbyte (V s) (fslot s ip)).

Record good s (ip : nat) : Prop := Good {
  gd_fs : fs_ok s;
  gd_ino : inode_ok s (geti s ip);
  gd_ok : fok s ∅ ∅;
  gd_ip : (ip < length (f_inodes s))%nat;
}.

(** Blocks may be added to the file, taken from the free ones; nothing outside
    the file's blocks, the bitmap and the free blocks changes. *)
Record ext s (ip : nat) s' : Prop := Ext {
  ex_sb : f_sb s' = f_sb s;
  ex_user : f_user s' = f_user s;
  ex_len : length (f_inodes s') = length (f_inodes s);
  ex_others : forall jp, jp <> ip -> geti s' jp = geti s jp;
  ex_meta : exists l, geti s' ip = with_iaddrs l (geti s ip);
  ex_slots : forall k, is_slot k -> fslot s' ip k = fslot s ip k \/
    fslot s ip k = 0 /\ 0 <= fslot s' ip k < sb_size (f_sb s) /\ free s (fslot s' ip k) = true;
  ex_free : forall j, 0 <= j < sb_size (f_sb s) -> free s' j = true -> free s j = true;
  ex_frame : forall m, ~ is_bmap (f_sb s) m -> ~ (0 <= m < sb_size (f_sb s) /\ free s m = true) ->
    (forall k, is_slot k -> fslot s ip k <> 0 -> fslot s ip k <> m) -> V s' m = V s m;
}.

Lemma with_iaddrs_id i : with_iaddrs (i_addrs i) i = i.
Proof. by destruct i. Qed.

Lemma ext_trans s1 s2 s3 ip : ext s1 ip s2 -> ext s2 ip s3 -> ext s1 ip s3.
Proof.
  intros [A1 A2 A3 A4 [l1 A5] A6 A7 A8] [B1 B2 B3 B4 [l2 B5] B6 B7 B8]. rewrite A1 in *. split.
  - done.
  - congruence.
  - congruence.
  - intros jp Hj. by rewrite B4, A4.
  - exists l2. by rewrite B5, A5.
  - intros k Hk. destruct (B6 k Hk) as [->|(E & R & F)]; [by apply A6 |]. right.
    destruct (A6 k Hk) as [E'|(E' & _ & _)]; (split_and!; [congruence | lia | lia | by apply A7]).
  - intros j Hj Hf. by apply A7, B7.
  - intros m Hb Hf Hs. rewrite B8; [by apply A8 | done | intros [R F]; apply Hf; auto |].
    intros k Hk Hn E. destruct (A6 k Hk) as [E'|(E' & R & F)]; [| apply Hf; by rewrite <- E].
    apply (Hs k Hk); congruence.
Qed.

(** Nothing changed but the buffers. *)
Lemma ext_same s ip s' : same_rest s s' -> (forall m, V s' m = V s m) -> ext s ip s'.
Proof.
  intros (E1 & E2 & E3) HV. assert (forall jp, geti s' jp = geti s jp) as Eg by (intros jp; unfold geti; by rewrite E2).
  split; try done; try congruence.
  - exists (i_addrs (geti s ip)). by rewrite with_iaddrs_id.
  - intros k Hk. left. rewrite Eg. apply slot_ext; [done |]. intros _. apply HV.
  - intros j Hj. unfold Balloc.free. by rewrite E1, HV.
Qed.

Lemma slots_ok_same s s' f : same_free s s' -> (forall k, is_slot k -> k <> -1 -> f k <> 0 -> V s' (f k) = V s (f k)) ->
  slots_ok s f -> slots_ok s' f.
Proof.
  intros Hf HV [S1 S2 S3]. split; [| done |].
  - intros k Hk Hn. apply (used_same s); auto.
  - intros k Hk H1 Hn. rewrite HV by done. by apply S3.
Qed.

Lemma good_same s ip s' : f_sb s' = f_sb s -> f_inodes s' = f_inodes s -> (forall m, V s' m = V s m) -> fok s' ∅ ∅ -> good s ip -> good s' ip.
Proof.
  intros E1 E2 HV Hok [G1 [I1 I2 I3 I4 I5 I6] G3 G4].
  assert (geti s' ip = geti s ip) as Eg by (unfold geti; by rewrite E2).
  assert (same_free s s') as Hf by (apply same_free_view; [apply G1 | done |]; intros m _; apply HV).
  assert (forall k, slot (V s') (geti s' ip) k = slot (V s) (geti s ip) k) as Es.
  { apply slot_ext; [by rewrite Eg |]. intros _. apply HV. }
  split; [by apply (fs_ok_same s) | | done | by rewrite E2].
  split; rewrite ?Eg, ?E1; try done.
  - rewrite <- Eg. eapply slots_ok_ext; [intros k _; apply Es |]. apply (slots_ok_same s); [done | intros; apply HV | done].
  - intros k H0 Hk. rewrite <- Eg, Es. by apply I6.
Qed.

(** ** bmap *)

Lemma iaddr_with j b i k : length (i_addrs i) = 13%nat -> 0 <= j < 13 -> 0 <= k ->
  iaddr (with_iaddr j b i) k = if decide (k = j) then b else iaddr i k.
Proof.
  intros Hl Hj Hk. unfold iaddr, with_iaddr. cbn [i_addrs]. case_decide as E.
  - subst. by rewrite list_lookup_insert_eq by lia.
  - rewrite list_lookup_insert_ne by lia. done.
Qed.

(** The slot whose address is [addrs[j]]. *)
Definition slot_of (j : Z) : Z := if j =? NDIRECT then -1 else j.

Lemma get32_zero off : get32 zero_block off = 0.
Proof.
  unfold get32, get_le, slice. assert (forall n, Forall (.= 0) (take n (drop (Z.to_nat off) zero_block))) as Hz.
  { intros n. apply Forall_take, Forall_drop, Forall_replicate. done. }
  specialize (Hz 4%nat). revert Hz. generalize (take 4 (drop (Z.to_nat off) zero_block)). intros l.
  induction 1 as [|x l -> _ IH]; [done |]. cbn [le_val]. by rewrite IH.
Qed.

Lemma slot_with v i j b k : length (i_addrs i) = 13%nat -> 0 <= j < 13 -> iaddr i j = 0 -> v b = zero_block -> is_slot k ->
  slot v (with_iaddr j b i) k = if decide (k = slot_of j) then b else slot v i k.
Proof.
  intros Hl Hj H0 Hz Hk. unfold is_slot in Hk. unfold slot, slot_of. rewrite !(iaddr_with j b i NDIRECT) by klia.
  destruct (Z.eqb_spec k (-1)) as [->|Hk1].
  { destruct (Z.eqb_spec j NDIRECT) as [->|]; [by rewrite !decide_True |]. by rewrite !decide_False by klia. }
  destruct (Z.ltb_spec k NDIRECT) as [Hd|Hd].
  - rewrite iaddr_with by klia. destruct (Z.eqb_spec j NDIRECT) as [->|]; [| done]. by rewrite !decide_False by klia.
  - destruct (Z.eqb_spec j NDIRECT) as [->|Hj'].
    + rewrite H0. cbn [Z.eqb]. rewrite decide_True by done. rewrite (decide_False (P := k = -1)) by done.
      destruct (b =? 0); [done |]. rewrite Hz. apply get32_zero.
    + rewrite (decide_False (P := NDIRECT = j)) by done. by rewrite decide_False by klia.
Qed.

(** The zeroed block [b] has become block [k0] of the file. *)
Record added s (ip : nat) (k0 b : Z) s' : Prop := Added {
  ad_fs : fs_ok s';
  ad_ok : fok s' ∅ ∅;
  ad_sb : f_sb s' = f_sb s;
  ad_user : f_user s' = f_user s;
  ad_len : length (f_inodes s') = length (f_inodes s);
  ad_others : forall jp, jp <> ip -> geti s' jp = geti s jp;
  ad_meta : exists l, geti s' ip = with_iaddrs l (geti s ip);
  ad_disk : dinode_ok (to_disk (geti s' ip));
  ad_k0 : is_slot k0 /\ fslot s ip k0 = 0;
  ad_new : 0 <= b < sb_size (f_sb s) /\ free s b = true;
  ad_zero : V s' b = zero_block;
  ad_slot : forall k, is_slot k -> fslot s' ip k = if decide (k = k0) then b else fslot s ip k;
  ad_b : used s' b;
  ad_used : forall a, used s a -> used s' a;
  ad_free : forall j, 0 <= j < sb_size (f_sb s) -> j <> b -> free s' j = free s j;
  ad_view : forall m, m <> b -> ~ is_bmap (f_sb s) m -> (iaddr (geti s ip) NDIRECT <> 0 -> m <> iaddr (geti s ip) NDIRECT) -> V s' m = V s m;
}.

(** Data blocks are not the indirect block. *)
Lemma data_not_ind s ip k : good s ip -> is_slot k -> k <> -1 -> fslot s ip k <> 0 -> fslot s ip k <> iaddr (geti s ip) NDIRECT.
Proof.
  intros G Hk H1 Hn E. apply H1. destruct (io_slots _ _ (gd_ino _ _ G)) as [_ S2 _].
  apply S2; [done | apply is_slot_ind | done | exact E].
Qed.

Lemma added_spec s ip k0 b s' : good s ip -> added s ip k0 b s' ->
  good s' ip /\ ext s ip s' /\ forall x, 0 <= x < MAXFILE * BSIZE -> file_byte s' ip x = file_byte s ip x.
Proof.
  intros G [A1 A2 A3 A4 A5 A6 A7 A8 [A9 A9'] A10 A11 A12 A13 A14 A15 A16].
  destruct (gd_ino _ _ G) as [I1 I2 I3 [S1 S2 S3] I5 I6]. destruct A7 as [l Em].
  assert (forall k, is_slot k -> fslot s ip k <> b) as Hnb.
  { intros k Hk E. destruct (S1 k Hk) as [U1 U2 _ _]; rewrite E in *; [| destruct A10; congruence].
    destruct (us_range _ _ A13). lia. }
  assert (forall k, is_slot k -> k <> -1 -> fslot s ip k <> 0 -> V s' (fslot s ip k) = V s (fslot s ip k)) as Hv.
  { intros k Hk H1 Hn. apply A16; [by apply Hnb | by apply (us_data _ _ (S1 k Hk Hn)) |]. intros _. by apply data_not_ind. }
  split_and!.
  - split; [done | | done | rewrite A5; apply G].
    split; rewrite ?A3; try done; try (rewrite Em; cbn; try done).
    + eapply (slots_add s' (fslot s ip) _ k0 b); try done; [| by rewrite <- Em].
      split; [| done |]; [intros k Hk Hn; auto | intros k Hk H1 Hn; rewrite Hv by done; by apply S3].
    + intros k H0 Hk. rewrite <- Em. assert (is_slot k) as Hs by (unfold is_slot; klia).
      rewrite A12 by done. case_decide; [destruct (us_range _ _ A13); lia | by apply I6].
  - split; try done; [by exists l | | |].
    + intros k Hk. rewrite A12 by done. case_decide; [right; subst; auto | by left].
    + intros j Hj Hf. destruct (decide (j = b)) as [->|]; [apply A10 | by rewrite <- A15].
    + intros m Hb Hf Hs. apply A16; [by intros -> | done |]. intros Hi. apply not_eq_sym. apply (Hs (-1)); [apply is_slot_ind | done].
  - intros x Hx. by eapply fbyte_add.
Qed.

(** What [bmap] establishes with [r] blocks of log space and [n] free blocks. *)
Definition grown s (ip : nat) (r : Z) (n : nat) s' : Prop :=
  good s' ip /\ ext s ip s' /\ (forall x, 0 <= x < MAXFILE * BSIZE -> file_byte s' ip x = file_byte s ip x) /\
  froom s - r <= froom s' /\ forall m, spare s (n + m) -> spare s' m.

Lemma grown_trans s1 s2 s3 ip r n r' n' : grown s1 ip r n s2 -> grown s2 ip r' n' s3 -> grown s1 ip (r + r') (n + n') s3.
Proof.
  intros (G1 & E1 & B1 & R1 & P1) (G2 & E2 & B2 & R2 & P2). split_and!; [done | by eapply ext_trans | | lia |].
  - intros x Hx. by rewrite B2, B1.
  - intros m Hm. apply P2, P1. eapply spare_le, Hm. lia.
Qed.

Lemma grown_same s ip s' : good s ip -> same_rest s s' -> (forall m, V s' m = V s m) -> fok s' ∅ ∅ -> froom s' = froom s -> grown s ip 0 0 s'.
Proof.
  intros G F HV Hok Hr. split_and!; [by apply (good_same s); try apply F | by apply ext_same | | lia |].
  - intros x _. pose proof F as (_ & E2 & _). assert (geti s' ip = geti s ip) as -> by (unfold geti; by rewrite E2).
    unfold fbyte. rewrite (slot_ext (V s) (V s') (geti s ip) (geti s ip)) by done. by rewrite HV.
  - intros m. apply spare_same, same_free_view; [apply G | apply F | intros; apply HV].
Qed.

Lemma wp_alloc_ptr s ip j :
  good s ip -> 0 <= j < 13 -> iaddr (geti s ip) j = 0 -> 2 <= froom s -> spare s 1 ->
  wp (let! addr := balloc (i_dev (geti s ip)) in seti ip (with_iaddr j addr) ;;; ret addr)
     (fun a s' => grown s ip 2 1 s' /\ a <> 0 /\ iaddr (geti s' ip) j = a) s.
Proof.
  intros G Hj H0 Hr Hsp. destruct (gd_ino _ _ G) as [I1 I2 I3 [S1 S2 S3] I5 I6]. rewrite I2.
  apply wp_bind. eapply wp_mono; [apply (wp_alloc s ∅); [apply G | set_solver + | rewrite size_empty; lia | done | apply G | done] |].
  intros b s1 A. apply wp_bind, wp_modify, wp_ret. set (s2 := Fst _ _ _ _).
  destruct (al_rest _ _ _ _ A) as (E1 & E2 & E3).
  assert (forall jp, geti s2 jp = if decide (jp = ip) then with_iaddr j b (geti s jp) else geti s jp) as Hg.
  { intros jp. unfold s2. rewrite geti_seti by (rewrite E2; apply G). unfold geti. by rewrite E2. }
  pose proof (Hg ip) as Hgi. rewrite decide_True in Hgi by done.
  destruct (dk_addrs _ I1) as [Hl Ha]. cbn in Hl, Ha. pose proof (al_used _ _ _ _ A) as [Ub _ _ _]. rewrite E1 in Ub.
  pose proof (bg_size _ (fs_bmap _ (gd_fs _ _ G))) as Hsize.
  assert (same_free s1 s2) as Hsf by done.
  assert (added s ip (slot_of j) b s2) as Had.
  { split; try done; try apply A; try (rewrite Hgi).
    - apply (fs_ok_same s1); [done | apply A].
    - cbn. by rewrite length_alter, E2.
    - intros jp Hjp. by rewrite Hg, decide_False.
    - by eexists.
    - destruct I1 as [D1 D2 D3 D4 D5 D6]. split; try done. cbn. rewrite length_insert. split; [done |].
      apply Forall_insert; [done | lia].
    - unfold is_slot, slot_of, slot. destruct (Z.eqb_spec j NDIRECT) as [->|]; [split; [slia | done] |].
      rewrite (proj2 (Z.eqb_neq _ _)), (proj2 (Z.ltb_lt _ _)) by slia. split; [slia | done].
    - destruct (al_new _ _ _ _ A). split; [lia | done].
    - intros k Hk. rewrite slot_with; try done; [| apply A]. case_decide; [done |].
      apply slot_ext; [done |]. intros Hi. apply (allocated_used _ _ _ _ _ A). apply (S1 (-1)); [apply is_slot_ind | done].
    - apply (used_same s1); [done | apply A].
    - intros a Ua. apply (used_same s1); [done |]. by apply (allocated_used _ _ _ _ _ A).
    - intros m Hm Hb _. by apply (al_view _ _ _ _ A). }
  destruct (added_spec _ _ _ _ _ G Had) as (G2 & X2 & B2).
  split_and!; [split_and!; [done | done | done | apply A | intros m Hm; apply (spare_same s1), A, Hm; done] | destruct (al_new _ _ _ _ A); lia |].
  rewrite Hgi, iaddr_with by (done || lia). by rewrite decide_True.
Qed.

Lemma slot_ind s ip k : 12 <= k < MAXFILE -> iaddr (geti s ip) NDIRECT <> 0 ->
  fslot s ip k = get32 (V s (iaddr (geti s ip) NDIRECT)) (4 * (k - NDIRECT)).
Proof.
  intros Hk Hn. unfold slot. rewrite (proj2 (Z.eqb_neq k _)), (proj2 (Z.ltb_ge _ _)) by slia.
  by rewrite (proj2 (Z.eqb_neq _ _)).
Qed.

Lemma ind_used s ip : good s ip -> iaddr (geti s ip) NDIRECT <> 0 -> used s (iaddr (geti s ip) NDIRECT).
Proof. intros G Hn. apply (so_used _ _ (io_slots _ _ (gd_ino _ _ G)) (-1)); [apply is_slot_ind | done]. Qed.

Lemma used_range31 s a : fs_ok s -> used s a -> 0 <= a < 2 ^ 31.
Proof. intros F [U1 _ _ _]. pose proof (bg_size _ (fs_bmap _ F)). lia. Qed.

(** The end of [bmap] for an entry of the indirect block that is 0. *)
Lemma wp_alloc_entry s0 s ip k bp :
  let ind := iaddr (geti s0 ip) NDIRECT in
  good s0 ip -> ind <> 0 -> 12 <= k < MAXFILE -> fslot s0 ip k = 0 -> 3 <= froom s0 -> spare s0 1 ->
  fok s ({[ind]} ∪ ∅) ∅ -> fhd s ind bp -> (forall m, V s m = V s0 m) -> froom s = froom s0 -> same_rest s0 s ->
  wp (let! addr := balloc dev in
      let! d := in_blk (blk_data bp) in
      in_blk (blk_set bp (put32 d (4 * (k - NDIRECT)) addr)) ;;; in_blk (blk_log bp) ;;; in_blk (blk_rel bp) ;;; ret addr)
     (fun a s' => grown s0 ip 3 1 s' /\ a <> 0 /\ fslot s' ip k = a) s.
Proof.
  intros ind G Hn Hk H0 Hr Hsp Hok Hbp HV HR HF. pose proof (gd_fs _ _ G) as Hfs. pose proof (ind_used _ _ G Hn) as Ui. fold ind in Ui.
  assert (same_free s0 s) as Hsf by (apply same_free_view; [apply Hfs | apply HF | intros; apply HV]).
  apply wp_bind. eapply wp_mono.
  { apply (wp_alloc s ({[ind]} ∪ ∅)); [by apply (fs_ok_same s0) | | | lia | done | by apply (spare_same s0)].
    - intros n. rewrite union_empty_r_L, elem_of_singleton. intros ->. by apply (used_same s0).
    - rewrite union_empty_r_L, size_singleton. lia. }
  intros b s1 A. destruct (allocated_used _ _ _ _ ind A) as (Ui1 & Hib & Vi1); [by apply (used_same s0) |].
  pose proof (al_rest _ _ _ _ A) as F1. destruct (al_new _ _ _ _ A) as [Hb Hfb]. destruct Hsf as [Esb Hfree]. rewrite Esb in Hb.
  pose proof (used_range31 _ _ (al_fs _ _ _ _ A) (al_used _ _ _ _ A)) as Hb31.
  assert (length (V s0 ind) = 1024%nat) as Hlen by (eapply V_len; apply G).
  assert (fhd s1 ind bp) as Hbp1 by (apply (al_hd _ _ _ _ A); [set_solver + | done]).
  apply wp_bind. eapply wp_f_data; [apply A | exact Hbp1 | set_solver + |].
  rewrite Vi1, HV. set (off := 4 * (k - NDIRECT)). assert (0 <= off /\ off + 4 <= 1024) as Hoff by (unfold off; slia).
  eapply (wp_f_update s1 s1 ∅ ∅ ind bp); [apply A | set_solver + | set_solver + | done | apply Ui | | | set_solver + |].
  { pose proof (al_room _ _ _ _ A). lia. }
  { unfold put32. rewrite length_put_le; lia. }
  intros s2 O2 V2 R2 _ F2. apply wp_ret.
  assert (same_rest s0 s2) as F02 by (eapply same_rest_trans; [exact HF |]; by eapply same_rest_trans).
  destruct F02 as (E1 & E2 & E3).
  assert (forall jp, geti s2 jp = geti s0 jp) as Hg by (intros jp; unfold geti; by rewrite E2).
  assert (same_free s1 s2) as Hsf12.
  { apply same_free_view; [apply (al_fs _ _ _ _ A) | apply F2 |]. intros m Hm. rewrite V2, upd_ne; [done |].
    intros ->. by apply (us_data _ _ Ui1) in Hm. }
  assert (forall m, m <> ind -> V s2 m = V s1 m) as V2' by (intros m Hm; by rewrite V2, upd_ne).
  assert (added s0 ip k b s2) as Had.
  { split; try done; rewrite ?Hg.
    - apply (fs_ok_same s1); [done | apply A].
    - by rewrite E2.
    - eexists. by rewrite with_iaddrs_id.
    - apply G.
    - split; [slia | done].
    - split; [lia |]. rewrite <- Hfree by lia. done.
    - rewrite V2'; [apply A | done].
    - intros j Hj. destruct (decide (12 <= j)) as [Hj12|Hj12].
      + rewrite <- (Hg ip), slot_ind by (rewrite ?Hg; slia || done). rewrite Hg. fold ind. rewrite V2, upd_eq.
        rewrite (slot_ind s0 ip j) by (slia || done). fold ind. unfold get32, put32. case_decide as D.
        * subst j. rewrite get_put_eq by lia. change (256 ^ Z.of_nat 4) with (2 ^ 32). rewrite Z.mod_small; lia.
        * rewrite get_put_ne; [done | lia | lia | slia | slia].
      + rewrite decide_False by lia. unfold slot. destruct (j =? -1); [done |]. rewrite (proj2 (Z.ltb_lt _ _)) by slia. done.
    - apply (used_same s1); [done | apply A].
    - intros a Ua. apply (used_same s1); [done |]. apply (allocated_used _ _ _ _ _ A). by apply (used_same s0).
    - intros j Hj Hne. destruct Hsf12 as [Esb12 ->]; [| by destruct F1 as (-> & _); rewrite Esb].
      rewrite (al_free _ _ _ _ A); [by apply Hfree | by rewrite Esb | done].
    - intros m Hm Hbm Hni. rewrite V2' by (by apply Hni). rewrite (al_view _ _ _ _ A); [apply HV | done | by rewrite Esb]. }
  destruct (added_spec _ _ _ _ _ G Had) as (G2 & X2 & B2). split_and!; [split_and!; try done | lia |].
  - pose proof (al_room _ _ _ _ A). lia.
  - intros m Hm. apply (spare_same s1); [done |]. apply A. by apply (spare_same s0).
  - rewrite (ad_slot _ _ _ _ _ Had) by slia. by rewrite decide_True.
Qed.

Lemma grown_mono s ip r n r' n' s' : r <= r' -> (n <= n')%nat -> grown s ip r n s' -> grown s ip r' n' s'.
Proof.
  intros Hr Hn (G & E & B & R & P). split_and!; [done | done | done | lia |]. intros m Hm. apply P. eapply spare_le, Hm. lia.
Qed.

Lemma slot_direct s ip k : 0 <= k < 12 -> fslot s ip k = iaddr (geti s ip) k.
Proof. intros Hk. unfold slot. by rewrite (proj2 (Z.eqb_neq _ _)), (proj2 (Z.ltb_lt _ _)) by slia. Qed.

Lemma wp_bmap_mapped s ip bn : good s ip -> 0 <= bn < MAXFILE -> fslot s ip bn <> 0 ->
  wp (bmap ip bn) (fun a s' => a = fslot s ip bn /\ fok s' ∅ ∅ /\ same_rest s s' /\ (forall m, V s' m = V s m) /\ froom s' = froom s) s.
Proof.
  intros G Hbn Hn. unfold bmap. apply wp_bind, wp_gets. rewrite (io_dev _ _ (gd_ino _ _ G)).
  destruct (Z.ltb_spec bn NDIRECT) as [Hd|Hd].
  - rewrite slot_direct in * by slia. rewrite (proj2 (Z.eqb_neq _ _)) by done. apply wp_ret. split_and!; try done. apply G.
  - rewrite (proj2 (Z.ltb_lt (bn - NDIRECT) NINDIRECT)) by (change NINDIRECT with 256; slia).
    assert (iaddr (geti s ip) NDIRECT <> 0) as Hi.
    { intros E. apply Hn. unfold slot. by rewrite (proj2 (Z.eqb_neq bn _)), (proj2 (Z.ltb_ge _ _)), E by slia. }
    rewrite slot_ind in * by (done || slia). rewrite (proj2 (Z.eqb_neq (iaddr _ _) _)) by done. apply wp_bind, wp_ret.
    set (ind := iaddr (geti s ip) NDIRECT) in *.
    apply wp_bind. eapply wp_f_read; [apply G | set_solver + | apply (used_range31 s); [apply G | by apply ind_used] | rewrite size_empty; lia |].
    intros bp s1 O1 K1 V1 R1 _ F1. apply wp_bind. eapply wp_f_data; [exact O1 | exact K1 | set_solver + |].
    rewrite V1, (proj2 (Z.eqb_neq _ _)) by done. apply wp_bind.
    eapply (wp_f_done s1 s1 ∅ ∅); [exact O1 | set_solver + | set_solver + | done | done |].
    intros s2 O2 V2 R2 _ F2. apply wp_ret. split_and!; [done | done | by eapply same_rest_trans | intros m; by rewrite V2, V1 | lia].
Qed.

Lemma wp_bmap s ip bn : good s ip -> 0 <= bn < MAXFILE -> 5 <= froom s -> spare s 2 ->
  wp (bmap ip bn) (fun a s' => grown s ip 5 2 s' /\ a <> 0 /\ fslot s' ip bn = a) s.
Proof.
  intros G Hbn Hr Hsp. destruct (decide (fslot s ip bn = 0)) as [Hz|Hz].
  2: { eapply wp_mono; [by apply wp_bmap_mapped |]. intros a s' (-> & O & F & HV & R). split_and!; [| done |].
       - by apply (grown_mono s ip 0 0); [lia | lia |]; apply grown_same.
       - pose proof F as (_ & E2 & _). assert (geti s' ip = geti s ip) as -> by (unfold geti; by rewrite E2). by apply slot_ext. }
  unfold bmap. apply wp_bind, wp_gets. destruct (Z.ltb_spec bn NDIRECT) as [Hd|Hd].
  - rewrite slot_direct in Hz by slia. rewrite Hz. cbn [Z.eqb]. eapply wp_mono.
    { apply (wp_alloc_ptr s ip bn); [done | slia | done | lia | eapply spare_le, Hsp; lia]. }
    intros a s' (Hg & Ha & E). split_and!; [by eapply grown_mono, Hg; lia | done |]. rewrite slot_direct by slia. done.
  - rewrite (proj2 (Z.ltb_lt (bn - NDIRECT) NINDIRECT)) by (change NINDIRECT with 256; slia).
    apply wp_bind. apply (wp_mono _ (fun a s' => grown s ip 2 1 s' /\ a <> 0 /\ iaddr (geti s' ip) NDIRECT = a)).
    { destruct (Z.eqb_spec (iaddr (geti s ip) NDIRECT) 0) as [Hi|Hi].
      - apply wp_alloc_ptr; [done | slia | done | lia | eapply spare_le, Hsp; lia].
      - apply wp_ret. split_and!; [| done | done]. apply (grown_mono s ip 0 0); [lia | lia |]. apply grown_same; try done. apply G. }
    intros a s1 (Hg & Ha & Ei). pose proof Hg as (G1 & X1 & B1 & R1 & P1).
    assert (i_dev (geti s ip) = dev) as -> by apply (gd_ino _ _ G).
    apply wp_bind. eapply wp_f_read; [apply G1 | set_solver + | | rewrite size_empty; lia |].
    { rewrite <- Ei. apply (used_range31 s1); [apply G1 | apply ind_used; [done | congruence]]. }
    intros bp s2 O2 K2 V2 R2 _ F2. apply wp_bind. eapply wp_f_data; [exact O2 | exact K2 | set_solver + |]. rewrite V2, <- Ei.
    rewrite <- Ei in Ha, O2, K2. destruct (Z.eqb_spec (get32 (V s1 (iaddr (geti s1 ip) NDIRECT)) (4 * (bn - NDIRECT))) 0) as [Hz1|Hz1].
    + eapply wp_mono; [apply (wp_alloc_entry s1 s2 ip bn bp); try done; [slia | by rewrite slot_ind by (done || slia) | lia | by apply P1] |].
      intros a' s3 (Hg3 & Ha3 & E3). split_and!; [| done | done]. apply (grown_mono s ip (2 + 3) (1 + 1)); [lia | lia |]. by eapply grown_trans.
    + apply wp_bind. eapply (wp_f_done s2 s2 ∅ ∅); [exact O2 | set_solver + | set_solver + | done | done |].
      intros s3 O3 V3 R3 _ F3. apply wp_ret. rewrite <- slot_ind in * by (done || slia).
      assert (same_rest s1 s3) as F13 by (by eapply same_rest_trans). assert (forall m, V s3 m = V s1 m) as V13 by (intros m; by rewrite V3, V2).
      split_and!; [| done |].
      * apply (grown_mono s ip (2 + 0) (1 + 0)); [lia | lia |]. eapply grown_trans; [exact Hg |]. apply grown_same; try done. lia.
      * destruct F13 as (_ & E2 & _). assert (geti s3 ip = geti s1 ip) as -> by (unfold geti; by rewrite E2). by apply slot_ext.
Qed.

End contents.
