(* ===== verification/Filedata.v ===== *)
(** * Reading and writing files: readi and writei of fs.c

    [readi] and [writei] against the contents of the file as a function from
    offsets to bytes (Contents.v), for kernel and for user buffers. *)

From S2P Require Import Prelude Riscv Kalloc Uvm Sleeplock Layout Usermem Bio Bcache Log Txn Crash Fs Fsblk Balloc Inode Contents.

(** ** Bytes of a file *)

Lemma length_fbytes v f off n : 0 <= n -> Z.of_nat (length (fbytes v f off n)) = n.
Proof. intros Hn. unfold fbytes. rewrite length_map, length_seqZ. lia. Qed.

Lemma fbytes_app v f off a b : 0 <= a -> 0 <= b -> fbytes v f off (a + b) = fbytes v f off a ++ fbytes v f (off + a) b.
Proof. intros Ha Hb. unfold fbytes. by rewrite seqZ_app, map_app. Qed.

Lemma lookup_fbytes v f off n j : 0 <= j < n -> fbytes v f off n !! Z.to_nat j = Some (fbyte v f (off + j)).
Proof.
  intros Hj. unfold fbytes. rewrite list_lookup_fmap, lookup_seqZ_lt by lia. cbn. by rewrite Z2Nat.id by lia.
Qed.

(** The bytes of one block. *)
Lemma fbytes_block v f off m : length (v (f (off / BSIZE))) = 1024%nat -> f (off / BSIZE) <> 0 ->
  0 <= off -> 0 <= m -> off mod BSIZE + m <= BSIZE ->
  slice (v (f (off / BSIZE))) (Z.to_nat (off mod BSIZE)) (Z.to_nat m) = fbytes v f off m.
Proof.
  intros Hl Hn Ho Hm Hb. pose proof (Z.mod_pos_bound off BSIZE ltac:(klia)). apply list_eq. intros i.
  rewrite lookup_slice. case_decide as Hi.
  - replace i with (Z.to_nat (Z.of_nat i)) at 2 by lia. rewrite lookup_fbytes by lia. unfold fbyte.
    assert ((off + Z.of_nat i) / BSIZE = off / BSIZE /\ (off + Z.of_nat i) mod BSIZE = off mod BSIZE + Z.of_nat i) as [-> ->].
    { pose proof (Z.div_mod off BSIZE ltac:(klia)). replace (off + Z.of_nat i) with (off mod BSIZE + Z.of_nat i + off / BSIZE * BSIZE) by lia.
      rewrite Z.div_add, Z.mod_add by klia. rewrite Z.div_small, Z.mod_small by lia. lia. }
    rewrite (proj2 (Z.eqb_neq _ _)) by done. replace (Z.to_nat (off mod BSIZE) + i)%nat with (Z.to_nat (off mod BSIZE + Z.of_nat i)) by lia.
    destruct (lookup_lt_is_Some_2 (v (f (off / BSIZE))) (Z.to_nat (off mod BSIZE + Z.of_nat i))) as [x ->]; [rewrite Hl; klia | done].
  - symmetry. apply lookup_ge_None. pose proof (length_fbytes v f off m Hm). lia.
Qed.

Section filedata.
Context {S U : Type} {HB : Blocks S} `{BL : !BlockLaws S dev loggable ok vw hnd room}.
Context {HU : UserMem U} {uok : U -> Prop} {space : Z -> Prop} {UL : UserMemLaws U uok space}.
Implicit Types (s : fst (S := S) (U := U)) (u : U).

Abbreviation fok := (fok (ok := ok)).
Abbreviation V := (V (vw := vw)).
Abbreviation froom := (froom (room := room)).
Abbreviation good := (good (dev := dev) (loggable := loggable) (ok := ok) (vw := vw)).
Abbreviation fslot s ip := (slot (V s) (geti s ip)).
Abbreviation file_byte s ip := (fbyte (V s) (fslot s ip)).

(** ** readi *)

Definition dst_ok (dst : dest) s (n : Z) : Prop :=
  match dst with
  | KernDst => True
  | UserDst pt va => uok (f_user s) /\ space pt /\ 0 <= va /\ va + n < 2 ^ 64
  end.

(** [k] bytes [g 0], [g 1], ... have arrived at [dst]. *)
Definition took (dst : dest) (g : Z -> Z) (k : Z) u u' : Prop :=
  match dst with
  | KernDst => u' = u
  | UserDst pt va => uok u' /\
      (forall x, 0 <= x -> um_read u' pt x = if decide (va <= x < va + k) then Some (g (x - va)) else um_read u pt x) /\
      (forall pt' x, space pt' -> pt' <> pt -> 0 <= x -> um_read u' pt' x = um_read u pt' x) /\
      (forall x, um_read u' pt x = None <-> um_read u pt x = None)
  end.

(** The byte at [k] cannot be written. *)
Definition blocked (dst : dest) u (k : Z) : Prop :=
  match dst with KernDst => False | UserDst pt va => um_read u pt (va + k) = None end.

(** Only buffers and user memory differ. *)
Definition same_files s s' : Prop :=
  fok s' ∅ ∅ /\ (forall m, V s' m = V s m) /\ froom s' = froom s /\ f_sb s' = f_sb s /\ f_inodes s' = f_inodes s.

Definition read_post s (ip : nat) (dst : dest) (off n : Z) (x : Z * list Z) s' : Prop :=
  same_files s s' /\ exists k, took dst (fun j => file_byte s ip (off + j)) k (f_user s) (f_user s') /\
    (x = (n, fbytes (V s) (fslot s ip) off n) /\ k = n \/
     exists r, x = (r, fbytes (V s) (fslot s ip) off r) /\ 0 <= r <= k /\ k < n /\ blocked dst (f_user s) k).

(** One call of [either_copyout] for the next [m] bytes. *)
Lemma wp_either_copyout s (dst : dest) (g : Z -> Z) u tot n bs :
  match dst with KernDst => True | UserDst pt va => space pt /\ 0 <= va /\ va + n < 2 ^ 64 end ->
  took dst g tot u (f_user s) ->
  0 <= tot -> tot + Z.of_nat (length bs) <= n -> Forall is_byte bs ->
  (forall j, 0 <= j < Z.of_nat (length bs) -> bs !! Z.to_nat j = Some (g (tot + j))) ->
  wp (either_copyout dst tot bs) (fun r s' => f_blk s' = f_blk s /\ f_sb s' = f_sb s /\ f_inodes s' = f_inodes s /\
    exists k, took dst g (tot + k) u (f_user s') /\
      (r = 0 /\ k = Z.of_nat (length bs) \/ r = -1 /\ 0 <= k < Z.of_nat (length bs) /\ blocked dst u (tot + k))) s.
Proof.
  intros Hd Ht H0 Hn Hb Hg. destruct dst as [pt va|]; cbn [either_copyout took blocked] in *.
  - destruct Hd as (Hsp & Hva & Hlt). destruct Ht as (Hu & T1 & T2 & T3). rewrite u64_small by lia.
    destruct (um_copyout_ok (f_user s) pt (va + tot) bs (Z.of_nat (length bs))) as (r & u' & k & E & Hok & C1 & C2 & C3 & Hr);
      [done | done | lia | lia | done |].
    apply wp_zoom, wp_ok. exists r, u'. split; [done |]. cbn. split_and!; try done. exists k. split.
    + split_and!; [done | | intros; rewrite C2 by done; by apply T2 | intros x; by rewrite C3].
      intros x Hx. rewrite C1, T1 by done. assert (k <= Z.of_nat (length bs)) as Hk by lia. repeat case_decide; try lia; try done.
      rewrite Hg by lia. do 2 f_equal. lia.
    + destruct Hr as [[-> ->]|(-> & Hk & Hnone)]; [by left | right]. split_and!; try done; try lia. rewrite <- T3. by rewrite Z.add_assoc.
  - apply wp_ret. split_and!; try done. exists (Z.of_nat (length bs)). auto.
Qed.

Lemma took_0 dst g s n : dst_ok dst s n -> took dst g 0 (f_user s) (f_user s).
Proof.
  destruct dst as [pt va|]; [| done]. intros (Hu & _). split_and!; try done. intros x Hx. by rewrite decide_False by lia.
Qed.

Lemma slot_at off : 0 <= off < MAXFILE * BSIZE -> 0 <= off / BSIZE < MAXFILE /\ is_slot (off / BSIZE) /\ off / BSIZE <> -1.
Proof.
  intros Ho. pose proof (Z.div_pos off BSIZE ltac:(lia) ltac:(slia)). assert (off / BSIZE < MAXFILE) by (apply Z.div_lt_upper_bound; slia).
  slia.
Qed.

(** The file below its size: every block is there. *)
Lemma slot_mapped s ip off : good s ip -> 0 <= off < i_size (geti s ip) -> fslot s ip (off / BSIZE) <> 0.
Proof.
  intros G Ho. apply (io_mapped _ _ (gd_ino _ _ G)); [apply Z.div_pos; slia |].
  pose proof (Z.mul_div_le off BSIZE ltac:(slia)). lia.
Qed.

Lemma file_bytes_are_bytes s ip off n : good s ip -> 0 <= off -> 0 <= n -> off + n <= i_size (geti s ip) ->
  Forall is_byte (fbytes (V s) (fslot s ip) off n).
Proof.
  intros G Ho Hn Hs. apply Forall_map, Forall_forall. intros x Hx%elem_of_seqZ. unfold is_byte, fbyte.
  case_match eqn:E; [lia |]. apply Z.eqb_neq in E. destruct (io_size _ _ (gd_ino _ _ G)) as [_ Hmax].
  destruct (slot_at x ltac:(lia)) as (_ & Hk & Hk1).
  pose proof (so_bytes _ _ (io_slots _ _ (gd_ino _ _ G)) _ Hk Hk1 E) as Hb.
  destruct (V s _ !! _) as [y|] eqn:Ey; cbn; [| lia]. by eapply Forall_lookup_1 in Hb.
Qed.

(** One turn of the loop's arithmetic: the part of the block at [off]. *)
Lemma rw_chunk off n tot (fuel : nat) : 0 <= tot < n -> 0 <= off -> off + (n - tot) < 2 ^ 32 -> n < 2 ^ 32 ->
  n <= tot + BSIZE * Z.of_nat (Datatypes.S fuel) - off mod BSIZE ->
  let m := Z.min (u32 (n - tot)) (BSIZE - off mod BSIZE) in
  0 < m <= n - tot /\ off mod BSIZE + m <= BSIZE /\ u32 (off + m) = off + m /\ u32 (tot + m) = tot + m /\
  (tot + m = n \/ off + m = (off / BSIZE + 1) * BSIZE /\ n <= tot + m + BSIZE * Z.of_nat fuel - (off + m) mod BSIZE).
Proof.
  intros Ht Ho Hr Hn Hf m. pose proof (Z.mod_pos_bound off BSIZE ltac:(slia)) as Hm. assert (m = Z.min (n - tot) (BSIZE - off mod BSIZE)) as Em
    by (unfold m; by rewrite u32_small by lia). rewrite !u32_small by lia. split_and!; try lia.
  destruct (Z.le_gt_cases (n - tot) (BSIZE - off mod BSIZE)); [left; lia | right].
  pose proof (Z.div_mod off BSIZE ltac:(slia)). assert (off + m = (off / BSIZE + 1) * BSIZE) as E by slia.
  split; [done |]. rewrite E, Z.mod_mul by slia. slia.
Qed.

Lemma wp_readi_loop fuel s0 s ip dst off n tot :
  good s0 ip -> same_files s0 s -> dst_ok dst s0 n -> 0 <= off -> off + n <= i_size (geti s0 ip) -> 0 <= tot <= n ->
  tot = n \/ n <= tot + BSIZE * Z.of_nat fuel - (off + tot) mod BSIZE ->
  took dst (fun j => file_byte s0 ip (off + j)) tot (f_user s0) (f_user s) ->
  wp (readi_loop fuel ip dst (off + tot) n tot (fbytes (V s0) (fslot s0 ip) off tot)) (read_post s0 ip dst off n) s.
Proof.
  intros G. revert s tot. destruct (io_size _ _ (gd_ino _ _ G)) as [_ Hmax].
  induction fuel as [|fuel IH]; intros s tot HF Hd Ho Hs Ht Hfuel Htook; cbn [readi_loop].
  { assert (tot = n) as -> by (pose proof (Z.mod_pos_bound (off + tot) BSIZE ltac:(slia)); lia). rewrite Z.ltb_irrefl. apply wp_ret.
    split; [done |]. exists n. auto. }
  destruct (Z.ltb_spec tot n) as [Hlt|Hge].
  2: { assert (tot = n) as -> by lia. apply wp_ret. split; [done |]. exists n. auto. }
  destruct (rw_chunk (off + tot) n tot fuel) as (Hm & Hb & Eo & Et & Hf'); [lia | lia | slia | slia | lia |].
  set (m := Z.min _ _) in *. destruct HF as (O & HV & HR & E1 & E2).
  assert (good s ip) as Gs by (by apply (good_same s0)).
  assert (geti s ip = geti s0 ip) as Eg by (unfold geti; by rewrite E2).
  assert (forall k, fslot s ip k = fslot s0 ip k) as Es by (intros k; rewrite Eg; by apply slot_ext).
  pose proof (slot_mapped s0 ip (off + tot) G ltac:(lia)) as Hn0. destruct (slot_at (off + tot) ltac:(lia)) as (Hk & Hks & Hk1).
  apply wp_bind, wp_gets, wp_bind. eapply wp_mono; [apply (wp_bmap_mapped (BL := BL)); [done | done | by rewrite Es] |].
  intros a s1 (-> & O1 & F1 & V1 & R1). rewrite Es, (io_dev _ _ (gd_ino _ _ Gs)). apply wp_bind.
  pose proof (so_used _ _ (io_slots _ _ (gd_ino _ _ G)) _ Hks Hn0) as Ua.
  eapply wp_f_read; [exact O1 | set_solver + | eapply used_range31; [apply G | exact Ua] | rewrite size_empty; lia |].
  intros bp s2 O2 K2 V2 R2 _ F2. apply wp_bind. eapply wp_f_data; [exact O2 | exact K2 | set_solver + |].
  rewrite V2, V1, HV, fbytes_block; [| eapply V_len; apply G | done | lia | lia | done].
  pose proof (length_fbytes (V s0) (fslot s0 ip) (off + tot) m ltac:(lia)) as Hlen.
  pose proof F1 as (F1a & F1b & F1c). pose proof F2 as (F2a & F2b & F2c).
  apply wp_bind. eapply wp_mono.
  { apply (wp_either_copyout s2 dst (fun j => file_byte s0 ip (off + j)) (f_user s0) tot n).
    - destruct dst; [apply Hd | done].
    - by rewrite F2c, F1c.
    - lia.
    - lia.
    - apply file_bytes_are_bytes; [done | lia | lia | lia].
    - intros j Hj. rewrite lookup_fbytes by lia. do 2 f_equal. lia. }
  intros r s3 (B3 & F3a & F3b & k & Hk3 & Hr3). apply wp_bind.
  assert (fok s3 ({[fslot s0 ip ((off + tot) / BSIZE)]} ∪ ∅) ∅) as O3 by (unfold Fsblk.fok; by rewrite B3).
  assert (fhd (hnd := hnd) s3 (fslot s0 ip ((off + tot) / BSIZE)) bp) as K3 by (unfold fhd; by rewrite B3).
  eapply (wp_f_done s3 s3 ∅ ∅); [exact O3 | set_solver + | set_solver + | exact K3 | done |].
  intros s4 O4 V4 R4 _ (F4a & F4b & F4c).
  assert (same_files s0 s4) as SF.
  { split_and!; [done | | | congruence | congruence].
    - intros x. rewrite V4. unfold Fsblk.V. rewrite B3. fold (V s2 x). by rewrite V2, V1, HV.
    - unfold Fsblk.froom in *. congruence. }
  rewrite <- F4c in Hk3. destruct Hr3 as [[-> ->]|(-> & Hkr & Hbl)]; cbn [Z.eqb Z.opp Pos.eqb].
  - rewrite Hlen in *. rewrite Eo, Et, <- Z.add_assoc. rewrite <- fbytes_app by lia. apply IH; try done; try lia.
    destruct Hf' as [?|[_ ?]]; rewrite ?Z.add_assoc; auto.
  - apply wp_ret. split; [done |]. exists (tot + k). split; [done |]. right. exists tot. split_and!; try done; lia.
Qed.

Lemma wp_readi s ip dst off n : good s ip -> dst_ok dst s n -> 0 <= off <= i_size (geti s ip) -> 0 <= n -> off + n < 2 ^ 32 ->
  wp (readi ip dst off n) (read_post s ip dst off (Z.min n (i_size (geti s ip) - off))) s.
Proof.
  intros G Hd Ho Hn Hr. destruct (io_size _ _ (gd_ino _ _ G)) as [_ Hmax]. set (n' := Z.min n (i_size (geti s ip) - off)).
  unfold readi. apply wp_bind, wp_gets. rewrite (u32_small (off + n)) by lia.
  rewrite (proj2 (Z.ltb_ge (i_size _) off)), (proj2 (Z.ltb_ge (off + n) off)) by lia. cbn [orb].
  assert ((if i_size (geti s ip) <? off + n then u32 (i_size (geti s ip) - off) else n) = n') as ->.
  { unfold n'. destruct (Z.ltb_spec (i_size (geti s ip)) (off + n)); [rewrite u32_small by slia |]; lia. }
  pose proof (wp_readi_loop (rw_fuel n') s s ip dst off n' 0) as Hl. rewrite Z.add_0_r in Hl. apply Hl; try done.
  - split_and!; try done. apply G.
  - destruct dst; [| done]. cbn in *. split_and!; try apply Hd. lia.
  - lia.
  - unfold n'. lia.
  - unfold n'. lia.
  - right. unfold rw_fuel. pose proof (Z.div_mod n' BSIZE ltac:(slia)). pose proof (Z.mod_pos_bound n' BSIZE ltac:(slia)).
    pose proof (Z.mod_pos_bound off BSIZE ltac:(slia)). assert (0 <= n' / BSIZE) by (apply Z.div_pos; [unfold n' |]; slia). slia.
  - by eapply took_0.
Qed.

(** ** writei *)

(** The source holds the bytes [bs]. *)
Definition supplies (src : source) s (bs : list Z) : Prop :=
  Forall is_byte bs /\
  match src with
  | KernSrc l => l = bs
  | UserSrc pt va => uok (f_user s) /\ space pt /\ 0 <= va /\ va + Z.of_nat (length bs) < 2 ^ 64 /\
      forall j, 0 <= j < Z.of_nat (length bs) -> um_read (f_user s) pt (va + j) = bs !! Z.to_nat j
  end.

Lemma wp_either_copyin s src bs tot m : supplies src s bs -> 0 <= tot -> 0 <= m -> tot + m <= Z.of_nat (length bs) ->
  wp (either_copyin src tot m) (fun x s' => x = (0, slice bs (Z.to_nat tot) (Z.to_nat m)) /\ s' = s) s.
Proof.
  intros [_ Hs] Ht Hm Hl. destruct src as [pt va|l]; cbn [either_copyin].
  - destruct Hs as (Hu & Hsp & Hva & Hlt & Hr). rewrite u64_small by lia.
    destruct (um_copyin_ok (f_user s) pt (va + tot) m) as (r & bs' & E & Hb & Hx); [done | done | lia | lia |].
    apply wp_zoom, wp_ok. exists (r, bs'), (f_user s). split; [done |]. split; [| by destruct s].
    destruct Hx as [[-> El]|(-> & El & Hnone)].
    + f_equal. apply list_eq. intros i. rewrite lookup_slice. case_decide as Hi.
      * destruct (lookup_lt_is_Some_2 bs' i) as [y Ey]; [lia |]. rewrite Ey. apply Hb in Ey. rewrite <- Ey, <- Z.add_assoc, Hr by lia.
        f_equal. lia.
      * apply lookup_ge_None. lia.
    + exfalso. rewrite <- Z.add_assoc, Hr in Hnone by lia. apply lookup_ge_None in Hnone. lia.
  - subst l. by apply wp_ret.
Qed.

(** Block [k] of the file gets the contents [d]. *)
Record rewritten s (ip : nat) (k : Z) (d : list Z) s' : Prop := Rewritten {
  rw_good : good s' ip;
  rw_ext : ext (vw := vw) s ip s';
  rw_byte : forall x, 0 <= x < MAXFILE * BSIZE ->
    file_byte s' ip x = if decide (x / BSIZE = k) then default 0 (d !! Z.to_nat (x mod BSIZE)) else file_byte s ip x;
  rw_slot : forall j, is_slot j -> fslot s' ip j = fslot s ip j;
  rw_free : same_free (vw := vw) s s';
}.

Lemma rewrite_block s ip k d s' : good s ip -> 0 <= k < MAXFILE -> fslot s ip k <> 0 -> Forall is_byte d ->
  (forall m, V s' m = upd (V s) (fslot s ip k) d m) -> same_rest s s' -> fok s' ∅ ∅ -> rewritten s ip k d s'.
Proof.
  intros G Hk Hn Hd HV (E1 & E2 & E3) Hok. assert (is_slot k /\ k <> -1) as [Hks Hk1] by slia.
  assert (forall jp, geti s' jp = geti s jp) as Eg by (intros jp; unfold geti; by rewrite E2).
  destruct (gd_ino _ _ G) as [I1 I2 I3 [S1 S2 S3] I5 I6]. pose proof (S1 k Hks Hn) as Uk.
  assert (same_free (vw := vw) s s') as Hsf.
  { eapply same_free_view; [apply (fs_bmap _ (gd_fs _ _ G)) | done |]. intros m Hm. rewrite HV, upd_ne; [done |].
    intros ->. by apply (us_data _ _ Uk) in Hm. }
  assert (forall j, is_slot j -> fslot s' ip j = fslot s ip j) as Hs.
  { intros j _. apply slot_ext; [by rewrite Eg |]. intros _. rewrite HV, upd_ne; [done |]. apply not_eq_sym. by eapply data_not_ind. }
  assert (forall j, is_slot j -> fslot s ip j <> 0 -> j <> k -> V s' (fslot s ip j) = V s (fslot s ip j)) as Ho.
  { intros j Hj Hjn Hne. rewrite HV, upd_ne; [done |]. intros E. apply Hne. by apply S2. }
  split; [| | | done | done].
  - split; [by eapply fs_ok_same, G | | done | by rewrite E2; apply G]. split; rewrite ?Eg, ?E1; try done.
    + rewrite <- Eg. eapply slots_ok_ext; [exact Hs |]. split; [| done |].
      * intros j Hj Hjn. eapply used_same; [exact Hsf |]. by apply S1.
      * intros j Hj Hj1 Hjn. destruct (decide (j = k)) as [->|]; [by rewrite HV, upd_eq | rewrite Ho by done; by apply S3].
    + intros j H0 Hj. rewrite <- Eg, Hs by slia. by apply I6.
  - split; try done; [by rewrite E2 | rewrite Eg; eexists; by rewrite with_iaddrs_id | intros j Hj; left; by apply Hs | |].
    + intros j Hj Hf. by rewrite <- (proj2 Hsf).
    + intros m _ _ Hm. rewrite HV, upd_ne; [done |]. apply not_eq_sym. by apply Hm.
  - intros x Hx. destruct (slot_at x Hx) as (_ & Hxs & Hx1). unfold fbyte. rewrite Hs by done. case_decide as D.
    + rewrite D, (proj2 (Z.eqb_neq _ _)) by done. by rewrite HV, upd_eq.
    + destruct (Z.eqb_spec (fslot s ip (x / BSIZE)) 0); [done |]. by rewrite Ho.
Qed.

(** How many blocks the bytes from [a] up to [b] touch. *)
Definition blocks (a b : Z) : Z := (b - 1) / BSIZE - a / BSIZE + 1.

(** After [tot] bytes. *)
Record wstate s0 (ip : nat) (off : Z) (bs : list Z) (tot : Z) s : Prop := Wstate {
  ws_good : good s ip;
  ws_ext : ext (vw := vw) s0 ip s;
  ws_byte : forall x, 0 <= x < MAXFILE * BSIZE -> file_byte s ip x =
    if decide (off <= x < off + tot) then default 0 (bs !! Z.to_nat (x - off)) else file_byte s0 ip x;
  ws_mapped : forall x, off <= x < off + tot -> fslot s ip (x / BSIZE) <> 0;
}.

(** The block written last. *)
Lemma wstate_step s0 ip off bs tot m s s1 s3 :
  let o := (off + tot) mod BSIZE in
  let k := (off + tot) / BSIZE in
  let d := splice (V s1 (fslot s1 ip k)) (Z.to_nat o) (slice bs (Z.to_nat tot) (Z.to_nat m)) in
  wstate s0 ip off bs tot s -> grown (dev := dev) (loggable := loggable) (ok := ok) (vw := vw) (room := room) s ip 5 2 s1 ->
  fslot s1 ip k <> 0 -> rewritten s1 ip k d s3 ->
  0 <= off -> 0 <= tot -> 0 < m -> o + m <= BSIZE -> tot + m <= Z.of_nat (length bs) -> off + tot + m <= MAXFILE * BSIZE ->
  wstate s0 ip off bs (tot + m) s3.
Proof.
  intros o k d W (G1 & X1 & B1 & _) Hn [R1 R2 R3 R4 R5] Ho Ht Hm Hb Hl Hmax.
  pose proof (Z.div_mod (off + tot) BSIZE ltac:(slia)) as Edm. fold o k in Edm.
  pose proof (Z.mod_pos_bound (off + tot) BSIZE ltac:(slia)) as Ho'. fold o in Ho'.
  assert (length (V s1 (fslot s1 ip k)) = 1024%nat) as Hlen by (eapply V_len; apply G1).
  assert (forall x, x / BSIZE = k -> x = BSIZE * k + x mod BSIZE) as Hx by (intros x <-; apply Z.div_mod; slia).
  assert (length (slice bs (Z.to_nat tot) (Z.to_nat m)) = Z.to_nat m) as Hsl by (apply length_slice; lia).
  split; [done | eapply ext_trans; [apply W | by eapply ext_trans] | |].
  - intros x Hxr. rewrite R3 by done. pose proof (Z.mod_pos_bound x BSIZE ltac:(slia)) as Hxm. case_decide as D.
    + pose proof (Hx x D) as Ex. unfold d. rewrite lookup_splice by (rewrite Hsl, Hlen; slia). rewrite Hsl.
      destruct (decide (Z.to_nat o <= Z.to_nat (x mod BSIZE) < Z.to_nat o + Z.to_nat m)%nat) as [Hin|Hout].
      * rewrite lookup_slice, decide_True by lia. rewrite decide_True by lia. do 2 f_equal. lia.
      * assert (default 0 (V s1 (fslot s1 ip k) !! Z.to_nat (x mod BSIZE)) = file_byte s1 ip x) as ->.
        { unfold fbyte. rewrite D. by rewrite (proj2 (Z.eqb_neq _ _)). }
        rewrite B1, (ws_byte _ _ _ _ _ _ W) by done. repeat case_decide; try done; lia.
    + rewrite B1, (ws_byte _ _ _ _ _ _ W) by done. repeat case_decide; try done; [lia |]. exfalso. apply D. symmetry.
      apply (Z.div_unique_pos x BSIZE k (x - BSIZE * k)); lia.
  - intros x Hxr. destruct (slot_at x) as (_ & Hxs & _); [lia |]. rewrite R4 by done.
    destruct (decide (x < off + tot)) as [Hlt|Hge].
    + destruct (ex_slots _ _ _ X1 (x / BSIZE) Hxs) as [->|(E & _)]; [apply (ws_mapped _ _ _ _ _ _ W); lia |].
      exfalso. revert E. apply (ws_mapped _ _ _ _ _ _ W). lia.
    + assert (x / BSIZE = k) as ->; [| done]. symmetry. apply (Z.div_unique_pos x BSIZE k (x - BSIZE * k)); lia.
Qed.

(** Log space and free blocks for the rest of the loop and [iupdate]. *)
Definition budget s (a b : Z) : Prop :=
  6 * blocks a b + 1 <= froom s /\ spare (vw := vw) s (Z.to_nat (2 * blocks a b)).

Lemma blocks_pos a b : a < b -> 1 <= blocks a b.
Proof. intros Hab. unfold blocks. assert (a / BSIZE <= (b - 1) / BSIZE) by (apply Z.div_le_mono; slia). lia. Qed.

Lemma wp_writei_loop fuel s0 s ip src off n tot bs :
  wstate s0 ip off bs tot s -> supplies src s0 bs -> Z.of_nat (length bs) = n -> 0 <= off -> off + n <= MAXFILE * BSIZE -> 0 <= tot <= n ->
  tot = n \/ n <= tot + BSIZE * Z.of_nat fuel - (off + tot) mod BSIZE ->
  1 <= froom s -> (tot < n -> budget s (off + tot) (off + n)) ->
  wp (writei_loop fuel ip src (off + tot) n tot) (fun r s' => r = off + n /\ wstate s0 ip off bs n s' /\ 1 <= froom s') s.
Proof.
  revert s tot. induction fuel as [|fuel IH]; intros s tot W Hsrc Hl Ho Hs Ht Hfuel Hr1 Hbud; cbn [writei_loop].
  { assert (tot = n) as -> by (pose proof (Z.mod_pos_bound (off + tot) BSIZE ltac:(slia)); lia). rewrite Z.ltb_irrefl. by apply wp_ret. }
  destruct (Z.ltb_spec tot n) as [Hlt|Hge].
  2: { assert (tot = n) as -> by lia. by apply wp_ret. }
  destruct (rw_chunk (off + tot) n tot fuel) as (Hm & Hb & Eo & Et & Hf'); [lia | lia | slia | slia | lia |].
  set (m := Z.min _ _) in *. destruct (Hbud Hlt) as [Hroom Hsp]. pose proof (blocks_pos (off + tot) (off + n) ltac:(lia)) as Hbp.
  pose proof (ws_good _ _ _ _ _ _ W) as G. destruct (slot_at (off + tot) ltac:(lia)) as (Hk & Hks & Hk1).
  set (k := (off + tot) / BSIZE) in *. set (o := (off + tot) mod BSIZE) in *.
  apply wp_bind, wp_gets, wp_bind. eapply wp_mono; [apply (wp_bmap (BL := BL)); [done | done | lia | eapply spare_le, Hsp; lia] |].
  intros a s1 (Hg & Ha & <-). pose proof Hg as (G1 & X1 & B1 & R1 & P1). set (a := fslot s1 ip k) in *.
  rewrite (io_dev _ _ (gd_ino _ _ G)). pose proof (so_used _ _ (io_slots _ _ (gd_ino _ _ G1)) _ Hks Ha) as Ua. fold a in Ua.
  apply wp_bind. eapply wp_f_read; [apply G1 | set_solver + | eapply used_range31; [apply G1 | exact Ua] | rewrite size_empty; lia |].
  intros bp s2 O2 K2 V2 R2 _ F2. apply wp_bind. eapply wp_f_data; [exact O2 | exact K2 | set_solver + |]. rewrite V2.
  assert (f_user s2 = f_user s0) as Eu by (destruct F2 as (_ & _ & ->); rewrite (ex_user _ _ _ X1); apply W).
  assert (supplies src s2 bs) as Hsrc2 by (unfold supplies; by rewrite Eu).
  apply wp_bind. eapply wp_mono; [apply (wp_either_copyin s2 src bs tot m); [done | lia | lia | lia] |].
  intros x s2' [-> ->]. cbn [Z.eqb Z.opp Pos.eqb]. set (d := splice _ _ _).
  assert (length (V s1 a) = 1024%nat) as Hlen by (eapply V_len; apply G1).
  assert (length (slice bs (Z.to_nat tot) (Z.to_nat m)) = Z.to_nat m) as Hsl by (apply length_slice; lia).
  pose proof (Z.mod_pos_bound (off + tot) BSIZE ltac:(slia)) as Ho'. fold o in Ho'.
  eapply (wp_f_update s2 s2 ∅ ∅ a bp); [exact O2 | set_solver + | set_solver + | done | apply Ua | lia | | done |].
  { unfold d. rewrite length_splice; [done | rewrite Hsl, Hlen; slia]. }
  intros s3 O3 V3 R3 _ F3. assert (rewritten s1 ip k d s3) as Hrw.
  { apply rewrite_block; try done; [| | by eapply same_rest_trans].
    - unfold d, splice. apply Forall_app. split; [| apply Forall_app; split].
      + apply Forall_take. by apply (so_bytes _ _ (io_slots _ _ (gd_ino _ _ G1))).
      + unfold slice. apply Forall_take, Forall_drop, Hsrc.
      + apply Forall_drop. by apply (so_bytes _ _ (io_slots _ _ (gd_ino _ _ G1))).
    - intros y. rewrite V3. unfold upd. by rewrite V2. }
  assert (wstate s0 ip off bs (tot + m) s3) as W3 by (eapply wstate_step; try done; lia).
  rewrite Eo, Et, <- Z.add_assoc. apply IH; try done; [lia | | lia |].
  - destruct Hf' as [?|[_ ?]]; rewrite ?Z.add_assoc; auto.
  - intros Hlt'. destruct Hf' as [?|[Enext _]]; [lia |].
    assert (blocks (off + (tot + m)) (off + n) = blocks (off + tot) (off + n) - 1) as Eb.
    { unfold blocks. rewrite Z.add_assoc, Enext, Z.div_mul by slia. fold k. lia. }
    split; rewrite Eb; [lia |]. eapply spare_same; [apply Hrw |]. apply P1. eapply spare_le, Hsp. lia.
Qed.

(** The size may grow over blocks that are there. *)
Lemma good_size s ip z s' : good s ip -> i_size (geti s ip) <= z <= MAXFILE * BSIZE ->
  (forall k, 0 <= k -> k * BSIZE < z -> fslot s ip k <> 0) ->
  s' = Fst (f_blk s) (f_sb s) (alter (with_isize z) ip (f_inodes s)) (f_user s) ->
  good s' ip /\ (forall k, fslot s' ip k = fslot s ip k) /\ geti s' ip = with_isize z (geti s ip) /\
  forall jp, jp <> ip -> geti s' jp = geti s jp.
Proof.
  intros G Hz Hm ->. set (s' := Fst _ _ _ _). pose proof (gd_ip _ _ G) as Hip.
  assert (forall jp, geti s' jp = if decide (jp = ip) then with_isize z (geti s jp) else geti s jp) as Hg by (intros jp; by apply geti_seti).
  pose proof (Hg ip) as Eg. rewrite decide_True in Eg by done.
  assert (forall k, fslot s' ip k = fslot s ip k) as Es by (apply slot_ext; [by rewrite Eg | done]).
  assert (same_free (vw := vw) s s') as Hsf by done. destruct (gd_ino _ _ G) as [I1 I2 I3 I4 I5 I6].
  split_and!; [| done | done | intros jp Hj; by rewrite Hg, decide_False].
  split; [by eapply fs_ok_same, G | | apply G | cbn; by rewrite length_alter]. split; rewrite ?Eg; try done.
  - destruct I1 as [D1 D2 D3 D4 D5 D6]. split; try done. cbn. slia.
  - rewrite <- Eg. eapply slots_ok_ext; [intros k _; apply Es |]. by eapply slots_ok_same.
  - cbn. lia.
Qed.

(** An inode block is none of the file's blocks. *)
Lemma good_iblk s ip m d s' : good s ip -> is_iblk (f_sb s) m -> (forall x, V s' x = upd (V s) m d x) -> same_rest s s' ->
  fok s' ∅ ∅ -> good s' ip /\ (forall k, fslot s' ip k = fslot s ip k) /\
  forall x, 0 <= x < MAXFILE * BSIZE -> file_byte s' ip x = file_byte s ip x.
Proof.
  intros G Hm HV (E1 & E2 & E3) Hok. destruct (gd_ino _ _ G) as [I1 I2 I3 I4 I5 I6]. destruct I4 as [S1 S2 S3].
  assert (geti s' ip = geti s ip) as Eg by (unfold geti; by rewrite E2).
  assert (same_free (vw := vw) s s') as Hsf.
  { eapply same_free_view; [apply (fs_bmap _ (gd_fs _ _ G)) | done |]. intros x Hx. rewrite HV, upd_ne; [done |].
    intros ->. by apply (fs_apart _ (gd_fs _ _ G)) in Hm. }
  assert (forall k, is_slot k -> fslot s ip k <> 0 -> V s' (fslot s ip k) = V s (fslot s ip k)) as Hv.
  { intros k Hk Hn. rewrite HV, upd_ne; [done |]. intros E. destruct (S1 k Hk Hn) as [_ _ _ [_ Ui]]. by rewrite E in Ui. }
  assert (forall k, fslot s' ip k = fslot s ip k) as Es by (apply slot_ext; [by rewrite Eg | apply (Hv (-1)), is_slot_ind]).
  split_and!; [| done |].
  - split; [by eapply fs_ok_same, G | | done | rewrite E2; apply G]. split; rewrite ?Eg, ?E1; try done.
    + rewrite <- Eg. eapply slots_ok_ext; [intros k _; apply Es |]. eapply slots_ok_same; [exact Hsf | auto | by split].
    + intros k H0 Hk. rewrite <- Eg, Es. by apply I6.
  - intros x Hx. destruct (slot_at x Hx) as (_ & Hxs & _). unfold fbyte. rewrite Es. destruct (Z.eqb_spec (fslot s ip (x / BSIZE)) 0); [done |].
    by rewrite Hv.
Qed.

(** What [writei] does to the disk and the inode. *)
Record write_post s (ip : nat) (off : Z) (bs : list Z) s' : Prop := WritePost {
  wq_good : good s' ip;
  wq_byte : forall x, 0 <= x < MAXFILE * BSIZE -> file_byte s' ip x =
    if decide (off <= x < off + Z.of_nat (length bs)) then default 0 (bs !! Z.to_nat (x - off)) else file_byte s ip x;
  wq_size : i_size (geti s' ip) = Z.max (i_size (geti s ip)) (off + Z.of_nat (length bs));
  wq_ino : exists l, geti s' ip = with_isize (i_size (geti s' ip)) (with_iaddrs l (geti s ip));
  wq_disk : dino (vw := vw) s' (i_inum (geti s ip)) = to_disk (geti s' ip);
  wq_dinos : forall j, 0 <= j < sb_ninodes (f_sb s) -> j <> i_inum (geti s ip) -> dino (vw := vw) s' j = dino (vw := vw) s j;
  wq_others : forall jp, jp <> ip -> geti s' jp = geti s jp;
  wq_frame : forall m, used (loggable := loggable) (vw := vw) s m ->
    (forall k, is_slot k -> fslot s ip k <> m) -> V s' m = V s m;
}.

(** [if (off > ip->size) ip->size = off] *)
Lemma wp_set_size s1 ip z :
  wp (if i_size (geti s1 ip) <? z then seti ip (with_isize z) else ret tt) (fun _ s2 =>
    s2 = Fst (f_blk s1) (f_sb s1) (alter (with_isize (Z.max (i_size (geti s1 ip)) z)) ip (f_inodes s1)) (f_user s1)) s1.
Proof.
  destruct (Z.ltb_spec (i_size (geti s1 ip)) z); [apply wp_modify; by rewrite Z.max_r by lia | apply wp_ret].
  rewrite Z.max_l by done. assert (with_isize (i_size (geti s1 ip)) (geti s1 ip) = geti s1 ip) as Ew by (by destruct (geti s1 ip)).
  unfold geti in *. destruct s1 as [b1 sb1 l1 u1]. cbn in *. f_equal. apply list_eq. intros j. destruct (decide (j = ip)) as [->|].
  - rewrite list_lookup_alter_eq. destruct (l1 !! ip); [cbn in *; by rewrite Ew | done].
  - by rewrite list_lookup_alter_ne.
Qed.

(** [s1] after the loop, [s2] with the new size, [s3] after [iupdate]. *)
Lemma write_done s s1 s2 s3 ip off bs :
  let n := Z.of_nat (length bs) in
  let inum := i_inum (geti s ip) in
  let z := Z.max (i_size (geti s ip)) (off + n) in
  good s ip -> wstate s ip off bs n s1 -> good s2 ip -> (forall m, V s2 m = V s1 m) -> f_sb s2 = f_sb s1 ->
  (forall k, fslot s2 ip k = fslot s1 ip k) -> geti s2 ip = with_isize z (geti s1 ip) -> (forall jp, jp <> ip -> geti s2 jp = geti s1 jp) ->
  same_rest s2 s3 -> fok s3 ∅ ∅ ->
  (forall m, V s3 m = upd (V s2) (IBLOCK inum (f_sb s)) (put_dinode (V s2 (IBLOCK inum (f_sb s))) (inode_off inum) (to_disk (geti s2 ip))) m) ->
  write_post s ip off bs s3.
Proof.
  intros n inum z G [G1 X1 B1 M1] G2 V2 Esb2 S2 Eg2 Go2 F3 O3 V3. destruct (ex_meta _ _ _ X1) as [l El].
  assert (f_sb s2 = f_sb s) as Esb by (rewrite Esb2; apply X1). set (ib := IBLOCK inum (f_sb s)) in *.
  pose proof (io_inum _ _ (gd_ino _ _ G)) as Hinum. fold inum in Hinum.
  assert (is_iblk (f_sb s2) ib) as Hib by (rewrite Esb; by exists inum).
  destruct (good_iblk s2 ip ib _ s3 G2 Hib V3 F3 O3) as (G3 & S3 & B3).
  assert (forall jp, geti s3 jp = geti s2 jp) as Eg3 by (intros jp; unfold geti; by destruct F3 as (_ & -> & _)).
  destruct (dino_updated (loggable := loggable) (vw := vw) s2 s3 inum (to_disk (geti s2 ip))) as [Hdi Hdo];
    [apply (fs_inode _ (gd_fs _ _ G2)) | by rewrite Esb | apply G2 | apply F3 | eapply V_len; apply G2 | by rewrite Esb |].
  assert (forall m, ~ is_bmap (f_sb s) m -> ~ (0 <= m < sb_size (f_sb s) /\ free (vw := vw) s m = true) ->
    (forall k, is_slot k -> fslot s ip k <> 0 -> fslot s ip k <> m) -> V s2 m = V s m) as Hfr.
  { intros m H1 H2 H3. rewrite V2. by apply (ex_frame _ _ _ X1). }
  pose proof (gd_fs _ _ G) as Hfs. destruct (io_slots _ _ (gd_ino _ _ G)) as [Q1 Q2 Q3]. split; try done.
  - intros x Hx. rewrite B3 by done. unfold fbyte. rewrite S2, V2. by apply B1.
  - by rewrite Eg3, Eg2.
  - exists l. by rewrite Eg3, Eg2, El.
  - by rewrite Eg3.
  - intros j Hj Hne. rewrite Hdo by (rewrite ?Esb; done). unfold dino. rewrite Esb, Hfr; [done | | |].
    + intros Hb. apply (fs_apart _ Hfs) in Hb; [done |]. by exists j.
    + intros [Hr Hf]. destruct (fs_free _ Hfs _ Hr Hf) as (_ & _ & _ & Hni). apply Hni. by exists j.
    + intros k Hk Hk0 E. destruct (Q1 k Hk Hk0) as [_ _ _ [_ Hni]]. apply Hni. rewrite E. by exists j.
  - intros jp Hj. rewrite Eg3, Go2 by done. by apply X1.
  - intros m [U1 U2 U3 [U4 U5]] Hk. rewrite V3, upd_ne.
    + apply Hfr; [done | intros [_ ?]; congruence | auto].
    + intros ->. apply U5. by exists inum.
Qed.

Lemma wp_writei s ip src off bs :
  let n := Z.of_nat (length bs) in
  good s ip -> supplies src s bs -> 0 < n -> 0 <= off <= i_size (geti s ip) -> off + n <= MAXFILE * BSIZE -> budget s off (off + n) ->
  wp (writei ip src off n) (fun r s' => r = n /\ write_post s ip off bs s') s.
Proof.
  intros n G Hsrc Hn Ho Hmax Hbud. pose proof (blocks_pos off (off + n) ltac:(lia)) as Hbp.
  unfold writei. apply wp_bind, wp_gets. rewrite (u32_small (off + n)) by slia.
  rewrite (proj2 (Z.ltb_ge (i_size _) off)), (proj2 (Z.ltb_ge (off + n) off)), (proj2 (Z.ltb_ge _ (off + n))) by lia. cbn [orb].
  apply wp_bind. eapply wp_mono.
  { pose proof (wp_writei_loop (rw_fuel n) s s ip src off n 0 bs) as Hl. rewrite Z.add_0_r in Hl. apply Hl; try done; try lia.
    - split; [done | | intros x _; by rewrite decide_False by lia | intros; lia]. by apply ext_same.
    - right. unfold rw_fuel. pose proof (Z.div_mod n BSIZE ltac:(slia)). pose proof (Z.mod_pos_bound n BSIZE ltac:(slia)).
      pose proof (Z.mod_pos_bound off BSIZE ltac:(slia)). assert (0 <= n / BSIZE) by (apply Z.div_pos; slia). slia.
    - destruct Hbud. lia. }
  intros r s1 (-> & W & R1). pose proof W as [G1 X1 B1 M1]. rewrite (proj2 (Z.ltb_lt 0 n)) by lia. apply wp_bind, wp_bind, wp_gets, wp_bind.
  destruct (ex_meta _ _ _ X1) as [l El]. assert (i_size (geti s1 ip) = i_size (geti s ip)) as Esz by (by rewrite El).
  eapply wp_mono; [apply wp_set_size |]. rewrite Esz. set (z := Z.max _ _).
  assert (forall k, 0 <= k -> k * BSIZE < z -> fslot s1 ip k <> 0) as Hmap.
  { intros k Hk Hz. destruct (decide (k * BSIZE < i_size (geti s1 ip))) as [Hlt|Hge]; [by apply (io_mapped _ _ (gd_ino _ _ G1)) |].
    replace k with (k * BSIZE / BSIZE) by (apply Z.div_mul; slia). apply M1. lia. }
  intros [] s2 Es2. destruct (io_size _ _ (gd_ino _ _ G)) as [_ Hsm].
  destruct (good_size s1 ip z s2 G1) as (G2 & S2 & Eg2 & Go2); [rewrite Esz; unfold z; lia | done | done |].
  assert (forall m, V s2 m = V s1 m) as V2 by (by subst s2). assert (froom s2 = froom s1 /\ f_sb s2 = f_sb s1) as [R2 Esb2] by (by subst s2).
  pose proof (gd_ino _ _ G2) as [J1 J2 J3 J4 J5 J6].
  eapply wp_mono; [apply (wp_iupdate (BL := BL) s2 ∅ ip); [apply G2 | done | done | done | set_solver + | rewrite size_empty; lia | lia | apply G2] |].
  assert (i_inum (geti s2 ip) = i_inum (geti s ip)) as -> by (by rewrite Eg2, El).
  assert (f_sb s2 = f_sb s) as -> by (rewrite Esb2; apply X1).
  intros [] s3 (O3 & R3 & F3 & V3 & _). apply wp_ret. split; [rewrite s32_small by slia; done |]. by eapply write_done.
Qed.

End filedata.

(** C22: [readi] returns the bytes of the file from [off] on, at most [n] and up
    to the end of the file, in the kernel buffer or at the user address, and
    changes neither the disk nor the inode; it stops early only in front of a
    user address that cannot be written, and returns 0 when [off] is past the
    end or [off + n] overflows. *)
Theorem readi_correct {S U} {HB : Blocks S} `{BL : !BlockLaws S dev loggable ok vw hnd room}
    {HU : UserMem U} {uok : U -> Prop} {space : Z -> Prop} {UL : UserMemLaws U uok space}
    (s : fst (S := S) (U := U)) (ip : nat) (dst : dest) (off n : Z) :
  good (dev := dev) (loggable := loggable) (ok := ok) (vw := vw) s ip -> dst_ok (uok := uok) (space := space) dst s n -> 0 <= off < 2 ^ 32 -> 0 <= n < 2 ^ 32 ->
  if (i_size (geti s ip) <? off) || (2 ^ 32 <=? off + n) then readi ip dst off n s = Ok (0, []) s
  else exists x s', readi ip dst off n s = Ok x s' /\
    read_post (UL := UL) (ok := ok) (vw := vw) (room := room) s ip dst off (Z.min n (i_size (geti s ip) - off)) x s'.
Proof.
  intros G Hd Ho Hn. destruct (Z.ltb_spec (i_size (geti s ip)) off) as [Hs|Hs]; cbn [orb].
  { unfold readi, bind, gets. by rewrite (proj2 (Z.ltb_lt _ _)) by done. }
  destruct (Z.leb_spec (2 ^ 32) (off + n)) as [Hw|Hw].
  - unfold readi, bind, gets. rewrite (proj2 (Z.ltb_ge (i_size _) off)) by lia.
    assert (u32 (off + n) = off + n - 2 ^ 32) as -> by (unfold u32; symmetry; apply (Z.mod_unique_pos _ _ 1); lia).
    by rewrite (proj2 (Z.ltb_lt _ off)) by lia.
  - apply wp_ok. apply wp_readi; try done; lia.
Qed.


(** ** An empty file on the small disk of Balloc.v *)

Definition demo_file : inode := Inode 1 2 1 initsleeplock true 2 0 0 1 0 (replicate 13 0).
#[local] Instance demo_blk : Blocks lst := log_blocks 3.
Definition demo_view (b : lst) : Z -> list Z := view 1 (l_b b).
#[local] Instance demo_blk_laws : BlockLaws lst 1 demo_loggable (txn 1 3 2 30) demo_view (fun s => handle 1 (l_b s)) (log_room 30) :=
  log_block_laws 1 3 2 30 ltac:(lia).

Lemma demo_iblk m : is_iblk demo_sb m -> m = 32.
Proof.
  intros (i & Hi & ->). cbn in Hi. unfold IBLOCK. change IPB with 16. rewrite Z.div_small by lia. reflexivity.
Qed.

Lemma demo_iaddr k : iaddr demo_file k = 0.
Proof.
  unfold iaddr. cbn [i_addrs demo_file]. destruct (replicate 13 0 !! _) as [y|] eqn:E; [| done]. by apply lookup_replicate in E as [-> _].
Qed.

Lemma demo_slot v k : slot v demo_file k = 0.
Proof. unfold slot. rewrite !demo_iaddr. by destruct (k =? -1), (k <? NDIRECT). Qed.

Lemma demo_empty : exists s : fst (S := lst) (U := kmem),
  good (dev := 1) (loggable := demo_loggable) (ok := txn 1 3 2 30) (vw := demo_view) s 0 /\
  geti s 0 = demo_file /\ f_user s = demo2 /\ budget (vw := demo_view) (room := log_room 30) s 0 3.
Proof.
  destruct demo_fs as (b & Ht & En & Hv). set (s := Fst b demo_sb [demo_file] demo2).
  assert (forall j, 0 <= j < 40 -> free (vw := demo_view) s j = (33 <? j)) as Hf by (intros j Hj; by apply demo_free).
  exists s. split_and!; [| reflexivity | reflexivity |].
  - split; [| | exact Ht | cbn; lia].
    + split; [exact demo_geom | exact demo_inode_geom | |].
      * intros m ->%demo_iblk E%demo_is_bmap. lia.
      * intros j Hj Hfj. cbn in Hj. rewrite Hf in Hfj by lia. apply Z.ltb_lt in Hfj. split_and!; [lia | | |].
        -- unfold demo_loggable, in_log. lia.
        -- intros E%demo_is_bmap. lia.
        -- intros E%demo_iblk. lia.
    + split; cbn; try lia.
      * split; cbn; try lia. split; [done |]. repeat constructor; lia.
      * split; intros k; rewrite ?demo_slot; done.
      * slia.
      * intros k H0 Hk. slia.
  - split; [change (7 <= log_room 30 b); unfold log_room; rewrite En; lia |]. exists [34; 35]. split_and!.
    + repeat constructor; set_solver.
    + reflexivity.
    + intros j Hj. cbn. assert (j = 34 \/ j = 35) as Hj' by set_solver. rewrite Hf by lia. split; [lia |]. apply Z.ltb_lt. lia.
Qed.


Lemma readi_witness : exists (s s' : fst (S := lst) (U := kmem)) (x : Z * list Z),
  readi 0 KernDst 1 10 s = Ok x s' /\ x = (2, [8; 9]).
Proof.
  destruct demo_empty as (s0 & G0 & Eg & Eu & Hb).
  assert (wp (writei 0 (KernSrc [7; 8; 9]) 0 3) (fun r s' => r = 3 /\
    write_post (dev := 1) (loggable := demo_loggable) (ok := txn 1 3 2 30) (vw := demo_view) s0 0 0 [7; 8; 9] s') s0) as Hw.
  { apply (wp_writei (BL := demo_blk_laws) (UL := demo_laws) s0 0 (KernSrc [7; 8; 9]) 0 [7; 8; 9]);
      [exact G0 | split; [repeat constructor; lia | reflexivity] | cbn; lia | rewrite Eg; cbn; lia | cbn; slia | exact Hb]. }
  apply wp_ok in Hw as (r & s & _ & _ & [G Hbyte Hsz _ _ _ _ _]). rewrite Eg in Hsz. change (Z.max _ _) with 3 in Hsz.
  pose proof (readi_correct (UL := demo_laws) s 0 KernDst 1 10 G) as Hr. rewrite Hsz in Hr.
  destruct Hr as (x & s' & E & _ & k & _ & Hx); [exact I | lia | lia |]. exists s, s', x. split; [exact E |].
  destruct Hx as [[-> _]|(r' & _ & _ & _ & [])]. change (Z.min 10 (3 - 1)) with 2. unfold fbytes. change (seqZ 1 2) with [1; 2].
  cbn [map]. unfold V in *. rewrite !Hbyte by slia. reflexivity.
Defined.
