(* ===== verification/Dir.v ===== *)
(** * Directories: dirlookup and dirlink of fs.c

    The contents of a directory is a list of entries; [dirlookup] finds the
    first entry in use with the name, and what [dirlink] enters [dirlookup]
    finds, while all other names keep their meaning. *)

From S2P Require Import Prelude Riscv Kalloc KString Layout Usermem Sleeplock Bio Bcache Log Txn Crash Fs Fsblk Balloc Inode Contents Filedata.

(** ** Names *)

(** The name a directory entry can hold: at most [DIRSIZ] characters. *)
Definition name_key (name : list Z) : list Z := take 14 (cstr name).

Lemma cstr_n_char_at n l i : cstr_n n (char_at l) (Z.of_nat i) = take n (cstr (drop i l)).
Proof.
  revert i. induction n as [|n IH]; intros i; cbn [cstr_n take]; [done |]. unfold char_at at 1 2. rewrite Nat2Z.id.
  destruct (l !! i) as [c|] eqn:E; cbn [default from_option id].
  - rewrite (drop_S _ _ _ E). cbn [cstr]. destruct (c =? 0); [done |]. cbn [take]. f_equal.
    replace (Z.of_nat i + 1) with (Z.of_nat (S i)) by lia. apply IH.
  - cbn [id Z.eqb]. by rewrite drop_ge by (by apply lookup_ge_None).
Qed.

Lemma namecmp_key a b : namecmp a b = 0 <-> name_key a = name_key b.
Proof.
  unfold namecmp, KString.strncmp, name_key. change (Z.to_nat DIRSIZ) with 14%nat. rewrite KString.strncmp_loop_0.
  change 0 with (Z.of_nat 0). by rewrite !cstr_n_char_at.
Qed.

Lemma cstr_nonzero l : Forall (.≠ 0) (cstr l).
Proof. induction l as [|c l IH]; cbn [cstr]; [done |]. destruct (Z.eqb_spec c 0); [done | by constructor]. Qed.

Lemma cstr_take_zeros n m l : Forall (.≠ 0) l -> cstr (take n (l ++ replicate m 0)) = take n l.
Proof.
  intros Hl. revert n. induction Hl as [|c l Hc _ IH]; intros [|n]; cbn [app take cstr]; try done.
  - by destruct m.
  - rewrite (proj2 (Z.eqb_neq c 0)) by done. by rewrite IH.
Qed.

Lemma pad_name_key name : name_key (pad_name name) = name_key name.
Proof. unfold name_key, pad_name. rewrite cstr_take_zeros by apply cstr_nonzero. by rewrite take_take. Qed.

Lemma length_pad_name name : length (pad_name name) = 14%nat.
Proof. unfold pad_name. rewrite length_take, length_app, length_replicate. lia. Qed.

Lemma cstr_bytes l : Forall is_byte l -> Forall is_byte (cstr l).
Proof. induction 1 as [|b l Hb _ IH]; cbn; [done |]. case_match; [done | by constructor]. Qed.

Lemma pad_name_bytes name : Forall is_byte name -> Forall is_byte (pad_name name).
Proof. intros H. unfold pad_name. apply Forall_take, Forall_app. split; [by apply cstr_bytes | by apply Forall_replicate]. Qed.

Lemma get_put_dirent e : 0 <= de_inum e < 2 ^ 16 -> length (de_name e) = 14%nat -> get_dirent (put_dirent e) = e.
Proof.
  intros Hi Hn. destruct e as [i n]. unfold get_dirent, put_dirent, get16, get_le. cbn [de_inum de_name] in *.
  f_equal.
  - unfold slice. change (Z.to_nat 0) with 0%nat. rewrite drop_0, take_app_length' by (by rewrite length_le_bytes). rewrite le_val_bytes. by apply Z.mod_small.
  - unfold slice. rewrite drop_app_length' by (by rewrite length_le_bytes). by rewrite take_ge by lia.
Qed.

Lemma put_dirent_bytes e : Forall is_byte (de_name e) -> Forall is_byte (put_dirent e).
Proof. intros H. unfold put_dirent. apply Forall_app. split; [| done]. cbn. repeat constructor; apply Z.mod_pos_bound; lia. Qed.

(** ** Entries *)

(** The first entry in use with the name: its index and inode number. *)
Fixpoint find_from (name : list Z) (j : nat) (l : list dirent) : option (nat * Z) :=
  match l with
  | [] => None
  | e :: l' =>
      if negb (de_inum e =? 0) && (namecmp name (de_name e) =? 0) then Some (j, de_inum e)
      else find_from name (S j) l'
  end.
Definition dir_find (name : list Z) (l : list dirent) : option (nat * Z) := find_from name 0 l.

(** The first entry not in use, or the end. *)
Fixpoint free_from (j : nat) (l : list dirent) : nat :=
  match l with
  | [] => j
  | e :: l' => if de_inum e =? 0 then j else free_from (S j) l'
  end.
Definition dir_free (l : list dirent) : nat := free_from 0 l.

(** Entry [j] set, at the end if there is none. *)
Definition dir_set (l : list dirent) (j : nat) (e : dirent) : list dirent := take j l ++ e :: drop (S j) l.

Lemma free_from_spec j l : exists k, free_from j l = (j + k)%nat /\ (k <= length l)%nat /\ (forall e, l !! k = Some e -> de_inum e = 0) /\
  forall i e, (i < k)%nat -> l !! i = Some e -> de_inum e <> 0.
Proof.
  revert j. induction l as [|e l IH]; intros j; cbn [free_from].
  - exists 0%nat. split_and!; [lia | done | done | intros; lia].
  - destruct (Z.eqb_spec (de_inum e) 0) as [E|E].
    + exists 0%nat. split_and!; [lia | lia | by intros ? [= <-] | intros; lia].
    + destruct (IH (S j)) as (k & -> & H1 & H2 & H3). exists (S k). split_and!; [lia | cbn; lia | done |].
      intros [|i] e' Hi; cbn; [by intros [= <-] | apply H3; lia].
Qed.

Lemma find_from_app name j l1 l2 : find_from name j (l1 ++ l2) =
  match find_from name j l1 with Some r => Some r | None => find_from name (j + length l1) l2 end.
Proof.
  revert j. induction l1 as [|e l1 IH]; intros j; cbn [app find_from length]; [by rewrite Nat.add_0_r |].
  destruct (_ && _); [done |]. rewrite IH. by replace (S j + length l1)%nat with (j + S (length l1))%nat by lia.
Qed.

(** Entering a name that is not there in an entry that is free. *)
Lemma dir_find_set name inum name' l k : (k <= length l)%nat -> (forall e, l !! k = Some e -> de_inum e = 0) ->
  dir_find name l = None -> inum <> 0 ->
  let l' := dir_set l k (Dirent inum (pad_name name)) in
  dir_find name l' = Some (k, inum) /\ (name_key name' <> name_key name -> dir_find name' l' = dir_find name' l).
Proof.
  intros Hk Hfree Hnone Hi. unfold dir_find, dir_set in *. rewrite !find_from_app. cbn [find_from de_inum de_name].
  rewrite (proj2 (Z.eqb_neq inum 0)) by done. cbn [negb andb]. rewrite length_take, Nat.min_l, Nat.add_0_l by done.
  rewrite (proj2 (Z.eqb_eq (namecmp name _) 0)) by (apply namecmp_key; by rewrite pad_name_key).
  assert (forall n, find_from n 0 l = match find_from n 0 (take k l) with Some r => Some r | None => find_from n (S k) (drop (S k) l) end) as El.
  { intros n. rewrite <- (take_drop k l) at 1. rewrite find_from_app, length_take, Nat.min_l, Nat.add_0_l by done.
    destruct (find_from n 0 (take k l)); [done |]. destruct (l !! k) as [e|] eqn:E.
    - rewrite (drop_S _ _ _ E). cbn [find_from]. by rewrite (Hfree e eq_refl).
    - rewrite !drop_ge; [done | apply lookup_ge_None in E; lia..]. }
  split.
  - rewrite El in Hnone. by destruct (find_from name 0 (take k l)).
  - intros Hne. rewrite El. destruct (find_from name' 0 (take k l)); [done |].
    rewrite (proj2 (Z.eqb_neq (namecmp name' _) 0)); [done |]. rewrite namecmp_key, pad_name_key. done.
Qed.

(** ** The code *)

Section dir.
Context {S U : Type} {HB : Blocks S} `{BL : !BlockLaws S dev loggable ok vw hnd room}.
Context {HU : UserMem U} {uok : U -> Prop} {space : Z -> Prop} {UL : UserMemLaws U uok space}.
Implicit Types (s : fst (S := S) (U := U)).

Abbreviation fok := (fok (ok := ok)).
Abbreviation V := (V (vw := vw)).
Abbreviation froom := (froom (room := room)).
Abbreviation good := (good (dev := dev) (loggable := loggable) (ok := ok) (vw := vw)).
Abbreviation same_files := (same_files (ok := ok) (vw := vw) (room := room)).
Abbreviation fslot s ip := (slot (V s) (geti s ip)).
Abbreviation budget := (budget (vw := vw) (room := room)).

Definition dent s (dp : nat) (j : nat) : dirent := get_dirent (fbytes (V s) (fslot s dp) (16 * Z.of_nat j) 16).
Definition ndents s (dp : nat) : nat := Z.to_nat (i_size (geti s dp) / 16).
Definition dents s (dp : nat) : list dirent := map (dent s dp) (seq 0 (ndents s dp)).

(** A locked directory: whole entries. *)
Record dir_ok s (dp : nat) : Prop := DirOk {
  do_good : good s dp;
  do_type : i_type (geti s dp) = T_DIR;
  do_size : i_size (geti s dp) = 16 * Z.of_nat (ndents s dp);
}.

(** Buffers may have been read; nothing else has changed. *)
Definition same s s' : Prop := same_files s s' /\ f_user s' = f_user s.

Lemma same_trans s1 s2 s3 : same s1 s2 -> same s2 s3 -> same s1 s3.
Proof.
  intros [(A1 & A2 & A3 & A4 & A5) A6] [(B1 & B2 & B3 & B4 & B5) B6]. split; [split_and!; try congruence | congruence].
Qed.

Lemma same_good s s' ip : same s s' -> good s ip -> good s' ip.
Proof. intros [(A1 & A2 & A3 & A4 & A5) A6]. by apply good_same. Qed.

Lemma same_geti s s' ip : same s s' -> geti s' ip = geti s ip.
Proof. intros [(A1 & A2 & A3 & A4 & A5) A6]. unfold geti. by rewrite A5. Qed.

Lemma same_refl s dp : good s dp -> same s s.
Proof. intros G. split; [split_and!; try done; apply G | done]. Qed.

Lemma dents_lookup s dp j : (j < ndents s dp)%nat -> dents s dp !! j = Some (dent s dp j).
Proof. intros Hj. unfold dents. by rewrite list_lookup_fmap, lookup_seq_lt. Qed.

Lemma length_dents s dp : length (dents s dp) = ndents s dp.
Proof. unfold dents. by rewrite length_map, length_seq. Qed.

(** One entry is read. *)
Lemma read_dent s s1 dp j : dir_ok s dp -> same s s1 -> (j < ndents s dp)%nat ->
  exists s2 bs, readi dp KernDst (16 * Z.of_nat j) SIZEOF_DIRENT s1 = Ok (16, bs) s2 /\ same s s2 /\ get_dirent bs = dent s dp j.
Proof.
  intros [G T Hz] Hs Hj. pose proof (same_good _ _ dp Hs G) as G1. pose proof (same_geti _ _ dp Hs) as Eg. destruct (io_size _ _ (gd_ino _ _ G)) as [_ Hmax].
  assert (wp (readi dp KernDst (16 * Z.of_nat j) SIZEOF_DIRENT)
    (read_post (UL := UL) (ok := ok) (vw := vw) (room := room) s1 dp KernDst (16 * Z.of_nat j) (Z.min SIZEOF_DIRENT (i_size (geti s1 dp) - 16 * Z.of_nat j))) s1) as W.
  { apply (wp_readi (UL := UL)); [done | exact I | rewrite Eg; lia | done | change SIZEOF_DIRENT with 16; slia]. }
  rewrite Eg in W. change SIZEOF_DIRENT with 16 in *. rewrite Z.min_l in W by lia.
  apply wp_ok in W as (x & s2 & E & Hsf & k & Htk & [[-> _]|(r & _ & _ & _ & [])]). exists s2. eexists. split; [exact E |]. split.
  - eapply same_trans; [exact Hs |]. split; [done | exact Htk].
  - unfold dent. f_equal. rewrite Eg. destruct Hs as [(_ & HV & _) _]. unfold fbytes. apply map_ext. intros y.
    unfold fbyte. rewrite (slot_ext (V s) (V s1) (geti s dp) (geti s dp)) by (done || auto). by rewrite HV.
Qed.

(** What [dirlookup] does once it has found the entry. *)
Definition found (r : option (nat * Z)) : M (fst (S := S) (U := U)) (option (nat * Z)) :=
  match r with
  | None => ret None
  | Some (k, inum) => let! ip := iget dev inum in ret (Some (ip, 16 * Z.of_nat k))
  end.

Lemma dirlookup_loop_run s dp name : dir_ok s dp -> forall fuel j s1, same s s1 -> (j <= ndents s dp)%nat -> (ndents s dp - j <= fuel)%nat ->
  exists s2, same s s2 /\ dirlookup_loop fuel dp name (16 * Z.of_nat j) s1 = found (find_from name j (drop j (dents s dp))) s2.
Proof.
  intros D. pose proof D as [G T Hz]. destruct (io_size _ _ (gd_ino _ _ G)) as [_ Hmax].
  induction fuel as [|fuel IH]; intros j s1 Hs Hj Hf; cbn [dirlookup_loop]; rewrite bind_gets, (same_geti _ _ dp Hs).
  - replace j with (ndents s dp) by lia. rewrite (proj2 (Z.ltb_ge _ _)) by lia. exists s1. split; [done |]. by rewrite drop_ge by (rewrite length_dents; lia).
  - destruct (Z.ltb_spec (16 * Z.of_nat j) (i_size (geti s dp))) as [Hlt|Hge].
    + destruct (read_dent s s1 dp j D Hs ltac:(lia)) as (s2 & bs & E & Hs2 & Ed). rewrite (bind_run _ _ _ _ _ E). cbn [negb Z.eqb]. change (negb (16 =? SIZEOF_DIRENT)) with false. cbv iota. rewrite Ed.
      rewrite (drop_S _ _ _ (dents_lookup s dp j ltac:(lia))). cbn [find_from].
      assert (u32 (16 * Z.of_nat j + SIZEOF_DIRENT) = 16 * Z.of_nat (Datatypes.S j)) as -> by (change SIZEOF_DIRENT with 16; rewrite u32_small by slia; lia).
      destruct (IH (Datatypes.S j) s2 Hs2 ltac:(lia) ltac:(lia)) as (s3 & Hs3 & E3).
      destruct (de_inum (dent s dp j) =? 0); cbn [negb andb]; [eauto |]. destruct (namecmp _ _ =? 0); [| eauto].
      exists s2. split; [done |]. cbn [found]. by rewrite (io_dev _ _ (gd_ino _ _ G)).
    + exists s1. split; [done |]. by rewrite drop_ge by (rewrite length_dents; lia).
Qed.

Lemma dirlookup_run s dp name : dir_ok s dp -> exists s', same s s' /\ dirlookup dp name s = found (dir_find name (dents s dp)) s'.
Proof.
  intros D. pose proof D as [G T Hz]. unfold dirlookup. rewrite bind_gets, T. change (negb (T_DIR =? T_DIR)) with false. cbv iota.
  destruct (dirlookup_loop_run s dp name D (dir_fuel (i_size (geti s dp))) 0 s) as (s' & Hs & E); [by eapply same_refl | lia | |].
  - unfold dir_fuel, ndents. change SIZEOF_DIRENT with 16. lia.
  - exists s'. split; [done |]. by rewrite drop_0 in E.
Qed.

Lemma dirlink_loop_run s dp : dir_ok s dp -> forall fuel j s1, same s s1 -> (j <= ndents s dp)%nat -> (ndents s dp - j <= fuel)%nat ->
  exists s2, same s s2 /\ dirlink_loop fuel dp (16 * Z.of_nat j) s1 = Ok (16 * Z.of_nat (free_from j (drop j (dents s dp)))) s2.
Proof.
  intros D. pose proof D as [G T Hz].
  induction fuel as [|fuel IH]; intros j s1 Hs Hj Hf; cbn [dirlink_loop]; rewrite bind_gets, (same_geti _ _ dp Hs).
  - replace j with (ndents s dp) by lia. rewrite (proj2 (Z.ltb_ge _ _)) by lia. exists s1. split; [done |]. by rewrite drop_ge by (rewrite length_dents; lia).
  - destruct (Z.ltb_spec (16 * Z.of_nat j) (i_size (geti s dp))) as [Hlt|Hge].
    + destruct (read_dent s s1 dp j D Hs ltac:(lia)) as (s2 & bs & E & Hs2 & Ed). rewrite (bind_run _ _ _ _ _ E). change (negb (16 =? SIZEOF_DIRENT)) with false. cbv iota. rewrite Ed.
      rewrite (drop_S _ _ _ (dents_lookup s dp j ltac:(lia))). cbn [free_from].
      replace (16 * Z.of_nat j + SIZEOF_DIRENT) with (16 * Z.of_nat (Datatypes.S j)) by (change SIZEOF_DIRENT with 16; lia).
      destruct (de_inum (dent s dp j) =? 0); [by exists s2 |]. apply IH; [done | lia | lia].
    + exists s1. split; [done |]. by rewrite drop_ge by (rewrite length_dents; lia).
Qed.

Lemma same_budget s s' a b : bmap_geom (loggable := loggable) (f_sb s) -> same s s' -> budget s a b -> budget s' a b.
Proof.
  intros Hg [(A1 & A2 & A3 & A4 & A5) A6] [B1 B2]. split; [by rewrite A3 |]. eapply spare_same; [| exact B2].
  apply (same_free_view (loggable := loggable)); [done | done |]. intros m _. apply A2.
Qed.

Lemma same_dir s s' dp : same s s' -> dir_ok s dp -> dir_ok s' dp /\ dents s' dp = dents s dp.
Proof.
  intros Hs [G T Hz]. pose proof (same_geti _ _ dp Hs) as Eg. pose proof (same_good _ _ dp Hs G) as G'.
  assert (ndents s' dp = ndents s dp) as En by (unfold ndents; by rewrite Eg). split; [split; [done | by rewrite Eg | by rewrite Eg, En] |].
  unfold dents. rewrite En. apply map_ext. intros j. unfold dent. f_equal. rewrite Eg. destruct Hs as [(_ & HV & _) _]. unfold fbytes. apply map_ext. intros y.
  unfold fbyte. rewrite (slot_ext (V s) (V s') (geti s dp) (geti s dp)) by (done || auto). by rewrite HV.
Qed.

Lemma lookup_dir_set l k e i : (k <= length l)%nat -> dir_set l k e !! i = if decide (i = k) then Some e else l !! i.
Proof.
  intros Hk. unfold dir_set. case_decide as E.
  - subst. rewrite lookup_app_r by (rewrite length_take; lia). by rewrite length_take, Nat.min_l, Nat.sub_diag by done.
  - destruct (decide (i < k)%nat).
    + rewrite lookup_app_l by (rewrite length_take; lia). by rewrite lookup_take_lt.
    + rewrite lookup_app_r by (rewrite length_take; lia). rewrite length_take, Nat.min_l by done. destruct (i - k)%nat as [|m] eqn:Em; [lia |].
      change ((e :: drop (Datatypes.S k) l) !! Datatypes.S m) with (drop (Datatypes.S k) l !! m). rewrite lookup_drop. f_equal. lia.
Qed.

(** Writing an entry changes exactly this entry. *)
Lemma dents_write s dp k e s' : dir_ok s dp -> (k <= ndents s dp)%nat -> 16 * Z.of_nat k + 16 <= MAXFILE * BSIZE -> 0 <= de_inum e < 2 ^ 16 -> length (de_name e) = 14%nat ->
  write_post (dev := dev) (loggable := loggable) (ok := ok) (vw := vw) s dp (16 * Z.of_nat k) (put_dirent e) s' ->
  dir_ok s' dp /\ dents s' dp = dir_set (dents s dp) k e.
Proof.
  intros [G T Hz] Hk Hmax Hi Hn [G' Hb Hsz (l & Eg) _ _ _ _]. destruct (io_size _ _ (gd_ino _ _ G)) as [_ Hm].
  assert (length (put_dirent e) = 16%nat) as Hl by (unfold put_dirent; rewrite length_app, length_le_bytes; lia). rewrite Hl in *.
  assert (ndents s' dp = Nat.max (ndents s dp) (Datatypes.S k)) as En.
  { unfold ndents at 1. rewrite Hsz, Hz. replace (Z.max _ _) with (Z.of_nat (Nat.max (ndents s dp) (Datatypes.S k)) * 16) by lia. rewrite Z.div_mul by lia. lia. }
  split; [split; [done | by rewrite Eg | rewrite Hsz, En; lia] |].
  apply list_eq. intros i. rewrite lookup_dir_set by (by rewrite length_dents). destruct (decide (i < ndents s' dp)%nat) as [Hlt|Hge].
  - rewrite dents_lookup by done. case_decide as E.
    + subst i. f_equal. unfold dent. rewrite <- (get_put_dirent e Hi Hn). f_equal. apply list_eq. intros i. unfold fbytes. rewrite list_lookup_fmap.
      destruct (decide (i < 16)%nat) as [H16|H16].
      * rewrite lookup_seqZ_lt by lia. cbn [fmap option_fmap option_map]. rewrite Hb by slia. rewrite decide_True by lia.
        replace (Z.to_nat (16 * Z.of_nat k + Z.of_nat i - 16 * Z.of_nat k)) with i by lia. by destruct (lookup_lt_is_Some_2 (put_dirent e) i ltac:(lia)) as [b ->].
      * rewrite lookup_seqZ_ge by lia. symmetry. apply lookup_ge_None. lia.
    + rewrite dents_lookup by lia. f_equal. unfold dent, fbytes. f_equal. apply map_ext_in. intros x Hx%list_elem_of_In%elem_of_seqZ.
      rewrite Hb by slia. by rewrite decide_False by lia.
  - rewrite lookup_ge_None_2 by (rewrite length_dents; lia). rewrite decide_False by lia. symmetry. apply lookup_ge_None. rewrite length_dents. lia.
Qed.

Lemma dirlink_run s dp name inum pid : dir_ok s dp -> dir_find name (dents s dp) = None -> Forall is_byte name -> 0 < inum < 2 ^ 16 ->
  let k := dir_free (dents s dp) in let off := 16 * Z.of_nat k in
  off + 16 <= MAXFILE * BSIZE -> budget s off (off + 16) ->
  exists s', dirlink pid dp name inum s = Ok 0 s' /\ dir_ok s' dp /\ dents s' dp = dir_set (dents s dp) k (Dirent inum (pad_name name)).
Proof.
  intros D Hnone Hb Hi k off Hmax Hbud. pose proof D as [G T Hz]. unfold dirlink.
  destruct (dirlookup_run s dp name D) as (s1 & Hs1 & E1). rewrite Hnone in E1. cbn [found ret] in E1. rewrite (bind_run _ _ _ _ _ E1), bind_gets, (same_geti _ _ dp Hs1).
  destruct (dirlink_loop_run s dp D (dir_fuel (i_size (geti s dp))) 0 s1 Hs1 ltac:(lia)) as (s2 & Hs2 & E2).
  { unfold dir_fuel, ndents. change SIZEOF_DIRENT with 16. lia. }
  rewrite drop_0 in E2. fold (dir_free (dents s dp)) in E2. fold k in E2. rewrite (bind_run _ _ _ _ _ E2). fold off.
  destruct (free_from_spec 0 (dents s dp)) as (k' & Ek & Hk & _). change (free_from 0 (dents s dp)) with k in Ek. cbn in Ek. subst k'. rewrite length_dents in Hk.
  assert (u16 inum = inum) as -> by (unfold u16; apply Z.mod_small; lia). set (e := Dirent inum (pad_name name)).
  assert (length (put_dirent e) = 16%nat) as Hl by (unfold put_dirent, e; cbn [de_inum de_name]; by rewrite length_app, length_le_bytes, length_pad_name).
  destruct (same_dir _ _ dp Hs2 D) as [D2 Ed2]. rewrite <- Ed2 in *.
  assert (wp (writei dp (KernSrc (put_dirent e)) off (Z.of_nat (length (put_dirent e)))) (fun r s' => r = Z.of_nat (length (put_dirent e)) /\
    write_post (dev := dev) (loggable := loggable) (ok := ok) (vw := vw) s2 dp off (put_dirent e) s') s2) as W.
  { apply (wp_writei (UL := UL)); [apply D2 | | lia | rewrite (same_geti _ _ dp Hs2); lia | lia |].
    - split; [| done]. by apply put_dirent_bytes, pad_name_bytes.
    - rewrite Hl. eapply same_budget; [apply G | exact Hs2 | exact Hbud]. }
  apply wp_ok in W as (r & s' & E & -> & W). rewrite Hl in E. change (Z.of_nat 16) with SIZEOF_DIRENT in E. rewrite (bind_run _ _ _ _ _ E).
  exists s'. split; [done |]. apply dents_write; [done | | done | cbn; lia | by apply length_pad_name | done].
  rewrite <- length_dents, Ed2, length_dents. done.
Qed.
End dir.

(** C24: What [dirlink] enters, [dirlookup] finds.  In a directory without the
    name and with room for an entry, [dirlink] succeeds and leaves a
    well-formed directory; [dirlookup] of the name then ends in [iget] of the
    inode number that was entered, and [dirlookup] of every other name (names
    are compared on their first [DIRSIZ] characters) in what it would have
    ended in before. *)
Theorem dirlink_dirlookup {S U} {HB : Blocks S} `{BL : !BlockLaws S dev loggable ok vw hnd room}
    {HU : UserMem U} {uok : U -> Prop} {space : Z -> Prop} {UL : UserMemLaws U uok space}
    (s : fst (S := S) (U := U)) (dp : nat) (name : list Z) (inum pid : Z) :
  let dir_ok := dir_ok (dev := dev) (loggable := loggable) (ok := ok) (vw := vw) in
  let same := same (ok := ok) (vw := vw) (room := room) in
  let l := dents (vw := vw) s dp in let off := 16 * Z.of_nat (dir_free l) in
  dir_ok s dp -> dir_find name l = None -> Forall is_byte name -> 0 < inum < 2 ^ 16 ->
  off + 16 <= MAXFILE * BSIZE -> budget (vw := vw) (room := room) s off (off + 16) ->
  exists s', dirlink pid dp name inum s = Ok 0 s' /\ dir_ok s' dp /\
    (exists s1, same s' s1 /\ dirlookup dp name s' = (let! ip := iget dev inum in ret (Some (ip, off))) s1) /\
    forall name', namecmp name' name <> 0 -> exists s1, same s' s1 /\ dirlookup dp name' s' = found (dev := dev) (dir_find name' l) s1.
Proof.
  intros dir_ok same l off D Hnone Hb Hi Hmax Hbud.
  destruct (dirlink_run (UL := UL) s dp name inum pid D Hnone Hb Hi Hmax Hbud) as (s' & E & D' & El). exists s'. split_and!; [done | done | |].
  - destruct (free_from_spec 0 l) as (k & Ek & Hk & Hf & _). change (free_from 0 l) with (dir_free l) in Ek. cbn in Ek. subst k.
    destruct (dir_find_set name inum name l (dir_free l) Hk Hf Hnone ltac:(lia)) as [Hfind _].
    destruct (dirlookup_run (UL := UL) s' dp name D') as (s1 & Hs1 & E1). exists s1. split; [done |]. rewrite E1, El. fold l. by rewrite Hfind.
  - intros name' Hne. destruct (free_from_spec 0 l) as (k & Ek & Hk & Hf & _). change (free_from 0 l) with (dir_free l) in Ek. cbn in Ek. subst k.
    destruct (dir_find_set name inum name' l (dir_free l) Hk Hf Hnone ltac:(lia)) as [_ Hfind].
    destruct (dirlookup_run (UL := UL) s' dp name' D') as (s1 & Hs1 & E1). exists s1. split; [done |]. rewrite E1, El. fold l. rewrite Hfind; [done |].
    by rewrite namecmp_key in Hne.
Qed.

(** An empty directory on the small disk of Balloc.v. *)
Definition demo_dir : inode := with_itype T_DIR demo_file.

Lemma demo_dir_ok : exists s : fst (S := lst) (U := kmem),
  dir_ok (dev := 1) (loggable := demo_loggable) (ok := txn 1 3 2 30) (vw := demo_view) s 0 /\
  dents (vw := demo_view) s 0 = [] /\ budget (vw := demo_view) (room := log_room 30) s 0 16.
Proof.
  destruct demo_empty as (s & [[F1 F2 F3 F4] [I1 I2 I3 I4 I5 I6] G3 G4] & Eg & Eu & [B1 B2]). rewrite Eg in *.
  set (s1 := Fst (f_blk s) (f_sb s) [demo_dir] (f_user s)).
  assert (forall v k, slot v demo_dir k = 0) as Hs.
  { intros v k. unfold slot. change (iaddr demo_dir) with (iaddr demo_file). exact (demo_slot v k). }
  exists s1. split_and!; [| reflexivity | split; [exact B1 | exact B2]]. split; [| reflexivity | reflexivity].
  split; [split; [exact F1 | exact F2 | exact F3 | exact F4] | | exact G3 | cbn; lia]. split; [| exact I2 | exact I3 | | exact I5 | intros k H0 Hk; cbn in Hk; slia].
  - split; cbn; try klia. split; [reflexivity |]. repeat constructor; lia.
  - clear -Hs. split; intros k; change (geti s1 0) with demo_dir; rewrite ?Hs; done.
Qed.

Lemma dirlink_witness : exists s s' : fst (S := lst) (U := kmem), dirlink (H := demo_blk) 1 0 [97] 5 s = Ok 0 s'.
Proof.
  destruct demo_dir_ok as (s & D & E & B).
  destruct (dirlink_dirlookup (HB := demo_blk) (BL := demo_blk_laws) (UL := demo_laws) s 0 [97] 5 1) as (s' & E' & _).
  - exact D.
  - rewrite E. reflexivity.
  - repeat constructor; lia.
  - lia.
  - rewrite E. cbn. slia.
  - rewrite E. exact B.
  - by exists s, s'.
Defined.
