(* ===== verification/Mkfs.v ===== *)
(** * mkfs/mkfs.c: the initial file system image

    mkfs builds the disk the kernel boots from: superblock, an empty log, the
    inodes, the bitmap, and the root directory with the files given to it.
    The image it writes satisfies what the theorems on fs.c assume of a disk,
    and the kernel finds in it exactly the given files.

    The image is a map from sectors to blocks.  Host file operations succeed,
    except that reading a sector past the end of the image fails; [exit(1)]
    and a failed [assert] are panics. *)

From S2P Require Import Prelude Riscv KString Layout Usermem Bio Bcache Log Txn Crash Fs Fsblk Balloc Inode Contents.

(** ** The program *)

Definition NINODES : Z := 200.

Definition nbitmap : Z := FSSIZE / (BSIZE * 8) + 1.
Definition ninodeblocks : Z := NINODES / IPB + 1.
Definition nlog : Z := LOGSIZE.

Record mk := Mk { mk_img : gmap Z (list Z); mk_sb : superblock; mk_freeinode : Z; mk_freeblock : Z }.

(** The host is little-endian. *)
Definition xshort (x : Z) : Z := le_val (le_bytes 2 x).
Definition xint (x : Z) : Z := le_val (le_bytes 4 x).

Definition wsect (sec : Z) (buf : list Z) : M mk unit :=
  modify (fun s => Mk (<[sec := buf]> (mk_img s)) (mk_sb s) (mk_freeinode s) (mk_freeblock s)).

Definition rsect (sec : Z) : M mk (list Z) :=
  let! img := gets mk_img in
  match img !! sec with Some b => ret b | None => panic "read" end.

Definition winode (inum : Z) (ip : dinode) : M mk unit :=
  let! sb := gets mk_sb in
  let bn := IBLOCK inum sb in
  let! buf := rsect bn in
  wsect bn (put_dinode buf (inode_off inum) ip).

Definition rinode (inum : Z) : M mk dinode :=
  let! sb := gets mk_sb in
  let bn := IBLOCK inum sb in
  let! buf := rsect bn in
  ret (get_dinode buf (inode_off inum)).

Definition ialloc (type : Z) : M mk Z :=
  let! inum := gets mk_freeinode in
  modify (fun s => Mk (mk_img s) (mk_sb s) (u32 (inum + 1)) (mk_freeblock s)) ;;;
  winode inum (Dinode (s16 (xshort type)) 0 0 (s16 (xshort 1)) (xint 0) (replicate 13 0)) ;;;
  ret inum.

Fixpoint balloc_bits (n : nat) (i : Z) (buf : list Z) : list Z :=
  match n with
  | O => buf
  | S n' => balloc_bits n' (i + 1) (bit_set buf i)
  end.

Definition balloc (used : Z) : M mk unit :=
  if negb (used <? BSIZE * 8) then panic "assert"
  else
    let! sb := gets mk_sb in
    wsect (sb_bmapstart sb) (balloc_bits (Z.to_nat used) 0 zero_block).

(** [freeblock++] *)
Definition next_block : M mk Z :=
  let! b := gets mk_freeblock in
  modify (fun s => Mk (mk_img s) (mk_sb s) (mk_freeinode s) (u32 (b + 1))) ;;;
  ret b.

Definition addr_at (l : list Z) (k : Z) : Z := default 0 (l !! Z.to_nat k).
Definition set_addr (l : list Z) (k a : Z) : list Z := <[Z.to_nat k := a]> l.

(** The block of the file to write to, allocated if needed, and the inode's
    addresses then. *)
Definition iappend_block (addrs : list Z) (fbn : Z) : M mk (list Z * Z) :=
  if fbn <? NDIRECT then
    let! addrs :=
      (if xint (addr_at addrs fbn) =? 0 then let! b := next_block in ret (set_addr addrs fbn (xint b)) else ret addrs) in
    ret (addrs, xint (addr_at addrs fbn))
  else
    let! addrs :=
      (if xint (addr_at addrs NDIRECT) =? 0 then let! b := next_block in ret (set_addr addrs NDIRECT (xint b)) else ret addrs) in
    let! indirect := rsect (xint (addr_at addrs NDIRECT)) in
    let! indirect :=
      (if get32 indirect (4 * (fbn - NDIRECT)) =? 0 then
         let! b := next_block in
         let indirect := put32 indirect (4 * (fbn - NDIRECT)) (xint b) in
         wsect (xint (addr_at addrs NDIRECT)) indirect ;;;
         ret indirect
       else ret indirect) in
    ret (addrs, xint (get32 indirect (4 * (fbn - NDIRECT)))).

(** The loop of [iappend]; [p] holds the [n] bytes still to append. *)
Fixpoint iappend_loop (fuel : nat) (addrs : list Z) (off : Z) (p : list Z) : M mk (list Z * Z) :=
  match fuel with
  | O => out_of_fuel
  | S fuel' =>
      let n := Z.of_nat (length p) in
      if 0 <? n then
        let fbn := off / BSIZE in
        if negb (fbn <? MAXFILE) then panic "assert"
        else
          let! ' (addrs, x) := iappend_block addrs fbn in
          let n1 := Z.min n (u32 ((fbn + 1) * BSIZE - off)) in
          let! buf := rsect x in
          wsect x (splice buf (Z.to_nat (off - fbn * BSIZE)) (take (Z.to_nat n1) p)) ;;;
          iappend_loop fuel' addrs (u32 (off + n1)) (drop (Z.to_nat n1) p)
      else ret (addrs, off)
  end.

Definition iappend (inum : Z) (p : list Z) : M mk unit :=
  let! din := rinode inum in
  let! ' (addrs, off) := iappend_loop (S (length p)) (d_addrs din) (xint (d_size din)) p in
  winode inum (Dinode (d_type din) (d_major din) (d_minor din) (d_nlink din) (xint off) addrs).

Definition nmeta : Z := 2 + nlog + ninodeblocks + nbitmap.
Definition nblocks : Z := FSSIZE - nmeta.

Definition mksb : superblock :=
  Superblock FSMAGIC (xint FSSIZE) (xint nblocks) (xint NINODES) (xint nlog) (xint 2) (xint (2 + nlog)) (xint (2 + nlog + ninodeblocks)).

(** [memmove(buf, &sb, sizeof(sb))] into a zeroed block *)
Definition put_superblock (sb : superblock) : list Z :=
  put_words zero_block 0 [sb_magic sb; sb_size sb; sb_nblocks sb; sb_ninodes sb; sb_nlog sb; sb_logstart sb; sb_inodestart sb; sb_bmapstart sb].

(** A file given to mkfs: its name, and its contents as [read] returns them,
    piece by piece, each of at most [BSIZE] bytes. *)
Record hfile := Hfile { h_name : list Z; h_reads : list (list Z) }.

Definition USER_ : list Z := [117; 115; 101; 114; 47].  (* user/ *)
Definition UNDERSCORE : Z := 95.

(** The name without the directory, then without a leading underscore. *)
Definition basename (argv : list Z) : list Z :=
  if KString.strncmp (char_at argv) (char_at USER_) 5 =? 0 then drop 5 argv else argv.
Definition unprefix (shortname : list Z) : list Z :=
  match shortname with c :: r => if c =? UNDERSCORE then r else shortname | [] => [] end.

Fixpoint append_reads (inum : Z) (reads : list (list Z)) : M mk unit :=
  match reads with
  | [] => ret tt
  | buf :: reads' => if (length buf =? 0)%nat then ret tt else iappend inum buf ;;; append_reads inum reads'
  end.

Definition add_file (rootino : Z) (f : hfile) : M mk unit :=
  let shortname := basename (h_name f) in
  if bool_decide (SLASH ∈ shortname) then panic "assert"
  else
    let shortname := unprefix shortname in
    let! inum := ialloc T_FILE in
    iappend rootino (put_dirent (Dirent (xshort inum) (pad_name shortname))) ;;;
    append_reads inum (h_reads f).

Fixpoint add_files (rootino : Z) (fs : list hfile) : M mk unit :=
  match fs with
  | [] => ret tt
  | f :: fs' => add_file rootino f ;;; add_files rootino fs'
  end.

Definition DOT : Z := 46.

Definition main (files : list hfile) : M mk unit :=
  modify (fun s => Mk (mk_img s) mksb (mk_freeinode s) nmeta) ;;;
  for_range (R := unit) (Z.to_nat FSSIZE) 0 (fun i => wsect i zero_block ;;; ret None) ;;;
  let! sb := gets mk_sb in
  wsect 1 (put_superblock sb) ;;;
  let! rootino := ialloc T_DIR in
  if negb (rootino =? ROOTINO) then panic "assert"
  else
    iappend rootino (put_dirent (Dirent (xshort rootino) (pad_name [DOT]))) ;;;
    iappend rootino (put_dirent (Dirent (xshort rootino) (pad_name [DOT; DOT]))) ;;;
    add_files rootino files ;;;
    let! din := rinode rootino in
    let off := xint (d_size din) in
    let off := u32 ((off / BSIZE + 1) * BSIZE) in
    winode rootino (Dinode (d_type din) (d_major din) (d_minor din) (d_nlink din) (xint off) (d_addrs din)) ;;;
    let! fb := gets mk_freeblock in
    balloc fb.

(** The program's initial state: the image file has just been created. *)
Definition mk0 : mk := Mk ∅ (Superblock 0 0 0 0 0 0 0 0) 1 0.
