(* ===== verification/Image.v ===== *)
(** * The image mkfs writes

    The image as a table of blocks per file, the steps of [iappend] on it, and
    the theorem that the finished image is the file system the kernel's
    theorems on fs.c start from. *)

From S2P Require Import Prelude Riscv KString Layout Usermem Sleeplock Bio Bcache Log Txn Crash Fs Fsblk Balloc Inode Contents Filedata Dir Mkfs.

#[export] Hint Unfold NINODES FSSIZE nbitmap ninodeblocks nlog nmeta nblocks : consts.

Lemma xint_small x : 0 <= x < 2 ^ 32 -> xint x = x.
Proof. intros. unfold xint. rewrite le_val_bytes. by apply Z.mod_small. Qed.

Lemma xshort_small x : 0 <= x < 2 ^ 16 -> xshort x = x.
Proof. intros. unfold xshort. rewrite le_val_bytes. by apply Z.mod_small. Qed.

(** ** Blocks of the files

    File [i] (inode [i + 1]) has block [sl i k] in slot [k], and the contents
    [C i]; [v] are the blocks of the image, allocated below [fb]. *)

Record core (v : Z -> list Z) (fb : Z) (sl : nat -> Z -> Z) (C : nat -> list Z) : Prop := Core {
  co_fb : nmeta <= fb <= FSSIZE;
  co_len : forall n, 0 <= n < FSSIZE -> length (v n) = 1024%nat;
  co_range : forall i k, is_slot k -> sl i k <> 0 -> nmeta <= sl i k < fb;
  co_inj : forall i k j k', is_slot k -> is_slot k' -> sl i k <> 0 -> sl i k = sl j k' -> i = j /\ k = k';
  co_zero : forall n, fb <= n < FSSIZE -> v n = zero_block;
  co_data : forall i x, 0 <= x < MAXFILE * BSIZE -> fbyte v (sl i) x = default 0 (C i !! Z.to_nat x);
  co_byte : forall i k, is_slot k -> k <> -1 -> sl i k <> 0 -> Forall is_byte (v (sl i k));
}.

Definition tupd (sl : nat -> Z -> Z) (i0 : nat) (k0 b : Z) : nat -> Z -> Z :=
  fun i k => if decide (i = i0 /\ k = k0) then b else sl i k.

(** The next free block becomes block [k0] of file [i0]. *)
Lemma core_alloc v v' fb sl C i0 k0 : core v fb sl C -> fb < FSSIZE -> is_slot k0 -> sl i0 k0 = 0 ->
  (forall n, 0 <= n < FSSIZE -> length (v' n) = 1024%nat) ->
  (forall n, fb <= n < FSSIZE -> v' n = v n) ->
  (forall i k, is_slot k -> k <> -1 -> sl i k <> 0 -> v' (sl i k) = v (sl i k)) ->
  core v' (fb + 1) (tupd sl i0 k0 fb) C.
Proof.
  intros [Hfb Hl Hr Hi Hz Hd Hb] Hlt Hk0 H0 Hl' Hz' Hv'. assert (0 < fb) as Hpos by (change nmeta with 46 in *; lia).
  assert (v' fb = zero_block) as Ez by (rewrite Hz' by lia; apply Hz; lia). split; unfold tupd.
  - lia.
  - done.
  - intros i k Hk. case_decide; [lia |]. intros Hn. specialize (Hr i k Hk Hn). lia.
  - intros i k j k' Hk Hk' Hn E. repeat case_decide; destruct_and?; subst; try done.
    + specialize (Hr j k' Hk' ltac:(lia)). lia.
    + specialize (Hr i k Hk Hn). lia.
    + by apply Hi.
  - intros n Hn. rewrite Hz', Hz by lia. done.
  - intros i x Hx. rewrite <- Hd by done. destruct (decide (i = i0)) as [->|Hne].
    + apply (fbyte_add v v' (sl i0) _ k0 fb); auto. intros k Hk. repeat case_decide; naive_solver.
    + destruct (slot_at x Hx) as (_ & Hs & Hs1). unfold fbyte. rewrite !decide_False by naive_solver.
      destruct (Z.eqb_spec (sl i (x / BSIZE)) 0); [done |]. by rewrite Hv'.
  - intros i k Hk Hk1. case_decide; [intros _; rewrite Ez; by apply Forall_replicate |]. intros Hn. rewrite Hv' by done. by apply Hb.
Qed.

Lemma default_app (l k : list Z) n :
  default 0 ((l ++ k) !! n) = if decide (length l <= n < length l + length k)%nat then default 0 (k !! (n - length l)%nat) else default 0 (l !! n).
Proof.
  case_decide; [by rewrite lookup_app_r by lia |]. destruct (decide (n < length l)%nat); [by rewrite lookup_app_l by lia |].
  rewrite !lookup_ge_None_2; [done | lia | rewrite length_app; lia].
Qed.

(** [bs] is written at the end of file [i0], inside its block [k0]. *)
Lemma core_write v v' fb sl C i0 k0 bs : core v fb sl C -> 0 <= k0 < MAXFILE -> sl i0 k0 <> 0 -> Forall is_byte bs ->
  let len := Z.of_nat (length (C i0)) in
  k0 * BSIZE <= len -> len + Z.of_nat (length bs) <= (k0 + 1) * BSIZE ->
  v' (sl i0 k0) = splice (v (sl i0 k0)) (Z.to_nat (len - k0 * BSIZE)) bs ->
  (forall n, n <> sl i0 k0 -> v' n = v n) ->
  core v' fb sl (upd C i0 (C i0 ++ bs)).
Proof.
  intros [Hfb Hl Hr Hi Hz Hd Hb] Hk0 Hx Hbs len Hlo Hhi Ev Hv'. assert (is_slot k0) as Hs0 by slia.
  pose proof (Hr i0 k0 Hs0 Hx) as Hrx. pose proof (Hl (sl i0 k0) ltac:(change nmeta with 46 in *; change FSSIZE with 1000 in *; lia)) as Hlx.
  set (o := Z.to_nat (len - k0 * BSIZE)) in *. assert (o + length bs <= 1024)%nat as Ho by (unfold o; slia). split.
  - done.
  - intros n Hn. destruct (decide (n = sl i0 k0)) as [->|]; [| rewrite Hv' by done; by apply Hl].
    rewrite Ev, length_splice by lia. done.
  - done.
  - done.
  - intros n Hn. rewrite Hv' by lia. by apply Hz.
  - intros i x Hxr. destruct (slot_at x Hxr) as (Hxk & Hxs & Hxs1). specialize (Hd i x Hxr). revert Hd. unfold fbyte.
    destruct (decide (i = i0)) as [->|Hne].
    + rewrite upd_eq, default_app. destruct (decide (x / BSIZE = k0)) as [Ek|Hk].
      * rewrite Ek, !(proj2 (Z.eqb_neq _ _)) by done. rewrite Ev, lookup_splice by lia.
        pose proof (Z.div_mod x BSIZE ltac:(slia)). pose proof (Z.mod_pos_bound x BSIZE ltac:(slia)).
        replace (length (C i0)) with (Z.to_nat len) by lia.
        destruct (decide (o <= Z.to_nat (x mod BSIZE) < o + length bs)%nat).
        -- rewrite decide_True by (unfold o in *; slia). intros _. do 2 f_equal. unfold o in *. slia.
        -- by rewrite decide_False by (unfold o in *; slia).
      * pose proof (Z.mul_div_le x BSIZE ltac:(slia)). pose proof (Z.mul_succ_div_gt x BSIZE ltac:(slia)).
        rewrite decide_False by (unfold len in *; change BSIZE with 1024 in *; lia). destruct (Z.eqb_spec (sl i0 (x / BSIZE)) 0); [done |].
        rewrite Hv'; [done |]. intros E. by destruct (Hi i0 (x / BSIZE) i0 k0 Hxs Hs0 ltac:(done) E).
    + rewrite upd_ne by done. destruct (Z.eqb_spec (sl i (x / BSIZE)) 0); [done |].
      rewrite Hv'; [done |]. intros E. by destruct (Hi i (x / BSIZE) i0 k0 Hxs Hs0 ltac:(done) E).
  - intros i k Hk Hk1 Hn. destruct (decide (sl i k = sl i0 k0)) as [E|E].
    + rewrite E, Ev. unfold splice. specialize (Hb i0 k0 Hs0 ltac:(slia) Hx).
      apply Forall_app; split; [by apply Forall_take |]. apply Forall_app; split; [done | by apply Forall_drop].
    + rewrite Hv' by done. by apply Hb.
Qed.

(** ** The program's state *)

Definition sect (img : gmap Z (list Z)) (n : Z) : list Z := default [] (img !! n).
Definition aslot (v : Z -> list Z) (a : list Z) : Z -> Z := slot v (with_iaddrs a inode0).

(** File [i] has the addresses [A i] in its inode. *)
Record rep (st : mk) (A : nat -> list Z) (sl : nat -> Z -> Z) (C : nat -> list Z) : Prop := Rep {
  rp_sb : mk_sb st = mksb;
  rp_dom : forall n, 0 <= n < FSSIZE -> mk_img st !! n = Some (sect (mk_img st) n);
  rp_core : core (sect (mk_img st)) (mk_freeblock st) sl C;
  rp_addrs : forall i, length (A i) = 13%nat;
  rp_slots : forall i k, is_slot k -> aslot (sect (mk_img st)) (A i) k = sl i k;
}.

Ltac dlia := unfold is_slot in *; change MAXFILE with 268 in *; change NDIRECT with 12 in *; change BSIZE with 1024 in *; Z.to_euclidean_division_equations; lia.
Ltac mlia := change nmeta with 46 in *; change FSSIZE with 1000 in *; slia.

Lemma rep_ext st A A' sl C C' : (forall i, A' i = A i) -> (forall i, C' i = C i) -> rep st A sl C -> rep st A' sl C'.
Proof.
  intros EA EC [R1 R2 [] R4 R5]. split; [done | done | split; try done; intros; rewrite ?EC; auto | intros; by rewrite EA | intros; rewrite EA; auto].
Qed.

Lemma sect_insert img x b n : sect (<[x := b]> img) n = if decide (n = x) then b else sect img n.
Proof. unfold sect. case_decide as E; [by rewrite E, lookup_insert_eq | by rewrite lookup_insert_ne]. Qed.

Lemma wp_rsect st A sl C sec Q : rep st A sl C -> 0 <= sec < FSSIZE -> Q (sect (mk_img st) sec) st -> wp (rsect sec) Q st.
Proof. intros R Hs HQ. unfold rsect. apply wp_bind, wp_gets. rewrite (rp_dom _ _ _ _ R) by done. by apply wp_ret. Qed.

Definition with_fb (b : Z) (st : mk) : mk := Mk (mk_img st) (mk_sb st) (mk_freeinode st) b.
Definition with_sect (x : Z) (b : list Z) (st : mk) : mk := Mk (<[x := b]> (mk_img st)) (mk_sb st) (mk_freeinode st) (mk_freeblock st).

Lemma wp_next_block st A sl C Q : rep st A sl C -> Q (mk_freeblock st) (with_fb (mk_freeblock st + 1) st) -> wp next_block Q st.
Proof.
  intros R HQ. unfold next_block. apply wp_bind, wp_gets, wp_bind, wp_modify, wp_ret.
  rewrite u32_small; [done |]. pose proof (co_fb _ _ _ _ (rp_core _ _ _ _ R)). mlia.
Qed.

(** A slot of the inode itself. *)
Lemma addr_slot st A sl C i j : rep st A sl C -> 0 <= j < 13 -> addr_at (A i) j = sl i (slot_of j) /\ is_slot (slot_of j).
Proof.
  intros R Hj. assert (is_slot (slot_of j)) as Hs by (unfold slot_of; case_match; slia). split; [| done].
  rewrite <- (rp_slots _ _ _ _ R) by done. unfold slot_of. destruct (Z.eqb_spec j NDIRECT) as [->|Hne]; [done |].
  unfold aslot, slot. rewrite (proj2 (Z.eqb_neq _ _)), (proj2 (Z.ltb_lt _ _)) by slia. done.
Qed.

Lemma slot_range st A sl C i k : rep st A sl C -> is_slot k -> sl i k = 0 \/ nmeta <= sl i k < FSSIZE.
Proof.
  intros R Hk. destruct (decide (sl i k = 0)); [by left | right]. pose proof (rp_core _ _ _ _ R) as Hc.
  pose proof (co_range _ _ _ _ Hc i k Hk ltac:(done)). pose proof (co_fb _ _ _ _ Hc). lia.
Qed.

(** An address in the inode is allocated. *)
Lemma rep_alloc_addr st A sl C i0 j : rep st A sl C -> 0 <= j < 13 -> addr_at (A i0) j = 0 -> mk_freeblock st < FSSIZE ->
  let b := mk_freeblock st in
  rep (with_fb (b + 1) st) (upd A i0 (set_addr (A i0) j b)) (tupd sl i0 (slot_of j) b) C.
Proof.
  intros R Hj H0 Hfb b. destruct (addr_slot _ _ _ _ i0 j R Hj) as [Ha Hs]. rewrite H0 in Ha. destruct R as [R1 R2 R3 R4 R5]. split.
  - done.
  - done.
  - cbn [with_fb mk_img mk_freeblock]. apply (core_alloc (sect (mk_img st))); auto. intros n Hn. by apply (co_len _ _ _ _ R3).
  - intros i. destruct (decide (i = i0)) as [->|]; [rewrite upd_eq; unfold set_addr; by rewrite length_insert | by rewrite upd_ne].
  - intros i k Hk. cbn [with_fb mk_img]. unfold tupd. destruct (decide (i = i0)) as [->|]; [rewrite upd_eq | rewrite upd_ne, decide_False by (done || by intros [? _]); auto].
    pose proof (slot_with (sect (mk_img st)) (with_iaddrs (A i0) inode0) j b k (R4 i0) Hj H0) as E.
    unfold aslot. etransitivity; [apply E; [apply (co_zero _ _ _ _ R3); lia | done] |].
    repeat case_decide; try naive_solver.
Qed.

(** An entry of the indirect block is allocated. *)
Lemma rep_alloc_entry st A sl C i0 k : rep st A sl C -> NDIRECT <= k < MAXFILE -> sl i0 (-1) <> 0 -> sl i0 k = 0 -> mk_freeblock st < FSSIZE ->
  let b := mk_freeblock st in let x := sl i0 (-1) in
  rep (with_sect x (put32 (sect (mk_img st) x) (4 * (k - NDIRECT)) b) (with_fb (b + 1) st)) A (tupd sl i0 k b) C.
Proof.
  intros R Hk Hx H0 Hfb b x. pose proof R as [R1 R2 R3 R4 R5]. pose proof (co_fb _ _ _ _ R3) as Hb.
  pose proof (co_range _ _ _ _ R3 i0 (-1) is_slot_ind Hx) as Hxr. fold x in Hxr.
  pose proof (co_len _ _ _ _ R3 x ltac:(mlia)) as Hl. split.
  - done.
  - intros n Hn. cbn [with_sect with_fb mk_img]. rewrite sect_insert. case_decide as E; [by rewrite E, lookup_insert_eq |].
    rewrite lookup_insert_ne by done. auto.
  - cbn [with_sect with_fb mk_img mk_freeblock]. apply (core_alloc (sect (mk_img st))); try done.
    + slia.
    + intros n Hn. rewrite sect_insert. case_decide; [| by apply (co_len _ _ _ _ R3)].
      unfold put32. rewrite length_put_le; [done | slia | rewrite Hl; slia].
    + intros n Hn. rewrite sect_insert. by rewrite decide_False by lia.
    + intros i k' Hk' Hk1 Hn. rewrite sect_insert, decide_False; [done |]. intros E.
      by destruct (co_inj _ _ _ _ R3 i k' i0 (-1) Hk' is_slot_ind Hn E).
  - done.
  - intros i k' Hk'. cbn [with_sect with_fb mk_img]. unfold tupd. rewrite <- R5 by done. unfold aslot, slot.
    pose proof (addr_slot _ _ _ _ i NDIRECT R ltac:(slia)) as [Ea _]. change (slot_of NDIRECT) with (-1) in Ea.
    change (iaddr (with_iaddrs (A i) inode0) NDIRECT) with (addr_at (A i) NDIRECT). rewrite Ea.
    destruct (Z.eqb_spec k' (-1)) as [->|Hk1]; [by rewrite decide_False by slia |].
    destruct (Z.ltb_spec k' NDIRECT); [by rewrite decide_False by slia |].
    destruct (Z.eqb_spec (sl i (-1)) 0) as [E0|E0]; [rewrite decide_False; [done |]; naive_solver |].
    rewrite sect_insert. destruct (decide (sl i (-1) = x)) as [E|E].
    + destruct (co_inj _ _ _ _ R3 i (-1) i0 (-1) is_slot_ind is_slot_ind E0 E) as [-> _]. fold x.
      unfold get32, put32. case_decide as Ek.
      * destruct Ek as [_ ->]. rewrite get_put_eq by slia. change (256 ^ Z.of_nat 4) with (2 ^ 32). apply Z.mod_small. mlia.
      * rewrite get_put_ne; [done | slia | slia | slia |]. assert (k' <> k) by naive_solver. slia.
    + rewrite decide_False; [done |]. intros [-> _]. done.
Qed.

(** ** [iappend] *)

(** The blocks that writing to block [k] of file [i] allocates. *)
Definition need (sl : nat -> Z -> Z) (i : nat) (k : Z) : Z :=
  (if sl i k =? 0 then 1 else 0) + (if (NDIRECT <=? k) && (sl i (-1) =? 0) then 1 else 0).

(** Only data blocks have changed. *)
Definition same_meta (st st' : mk) : Prop :=
  mk_freeinode st' = mk_freeinode st /\ forall n, n < nmeta -> mk_img st' !! n = mk_img st !! n.

Lemma same_meta_trans st1 st2 st3 : same_meta st1 st2 -> same_meta st2 st3 -> same_meta st1 st3.
Proof. intros [E1 H1] [E2 H2]. split; [congruence |]. intros n Hn. by rewrite H2, H1. Qed.

Lemma same_meta_sect x b st : nmeta <= x -> same_meta st (with_sect x b st).
Proof. intros Hx. split; [done |]. intros n Hn. apply lookup_insert_ne. lia. Qed.

Record grew (st : mk) (A : nat -> list Z) (sl : nat -> Z -> Z) (C : nat -> list Z) (i0 : nat) (k : Z) (a' : list Z) (x : Z) (st' : mk) (sl' : nat -> Z -> Z) : Prop := Grew {
  gr_rep : rep st' (upd A i0 a') sl' C;
  gr_slot : x = sl' i0 k /\ sl' i0 k <> 0;
  gr_ind : NDIRECT <= k -> sl' i0 (-1) <> 0;
  gr_kept : forall i k', is_slot k' -> sl i k' <> 0 -> sl' i k' = sl i k';
  gr_other : forall i k', i <> i0 \/ (k' <> k /\ (k' <> -1 \/ k < NDIRECT)) -> sl' i k' = sl i k';
  gr_fb : mk_freeblock st' = mk_freeblock st + need sl i0 k;
  gr_meta : same_meta st st';
}.

Lemma pair_ne {i i0 : nat} {k k' : Z} : ~ (i = i0 /\ k' = k) -> i <> i0 \/ k' <> k.
Proof. intros H. destruct (decide (i = i0)), (decide (k' = k)); auto. Qed.

(** An address of the inode, allocated if it is not there. *)
Lemma wp_alloc_addr st A sl C i0 j : rep st A sl C -> 0 <= j < 13 -> mk_freeblock st + (if sl i0 (slot_of j) =? 0 then 1 else 0) <= FSSIZE ->
  wp (if xint (addr_at (A i0) j) =? 0 then let! b := next_block in ret (set_addr (A i0) j (xint b)) else ret (A i0))
     (fun a' st' => exists sl', rep st' (upd A i0 a') sl' C /\ xint (addr_at a' j) = sl' i0 (slot_of j) /\ sl' i0 (slot_of j) <> 0 /\
        (forall i k', i <> i0 \/ k' <> slot_of j -> sl' i k' = sl i k') /\ (sl i0 (slot_of j) <> 0 -> sl' i0 (slot_of j) = sl i0 (slot_of j)) /\
        mk_freeblock st' = mk_freeblock st + (if sl i0 (slot_of j) =? 0 then 1 else 0) /\ same_meta st st') st.
Proof.
  intros R Hj Hfb. destruct (addr_slot _ _ _ _ i0 j R Hj) as [Ea Hs]. pose proof (slot_range _ _ _ _ i0 _ R Hs) as Hr.
  pose proof (co_fb _ _ _ _ (rp_core _ _ _ _ R)) as Hb. rewrite xint_small by (rewrite Ea; mlia).
  destruct (Z.eqb_spec (addr_at (A i0) j) 0) as [E0|E0].
  - rewrite <- Ea, E0 in Hfb. cbn [Z.eqb] in Hfb. apply wp_bind. eapply wp_next_block; [exact R |]. apply wp_ret.
    rewrite xint_small by mlia. pose proof (rep_alloc_addr _ _ _ _ i0 j R Hj E0 ltac:(lia)) as R'. cbn zeta in R'.
    pose proof (addr_slot _ _ _ _ i0 j R' Hj) as [Ea' _]. rewrite upd_eq in Ea'. rewrite Ea'.
    assert (tupd sl i0 (slot_of j) (mk_freeblock st) i0 (slot_of j) = mk_freeblock st) as Et by (unfold tupd; by rewrite decide_True).
    eexists. split; [exact R' |]. rewrite !Et. split_and!.
    + apply xint_small. mlia.
    + mlia.
    + intros i k' H. unfold tupd. rewrite decide_False; [done |]. intros [-> ->]. by destruct H.
    + rewrite <- Ea, E0. done.
    + by rewrite <- Ea, E0.
    + done.
  - apply wp_ret. exists sl. rewrite Ea in *. split_and!; try done.
    + eapply rep_ext; [| | exact R]; [| done]. intros i. destruct (decide (i = i0)) as [->|]; [by rewrite upd_eq | by rewrite upd_ne].
    + apply xint_small. mlia.
    + rewrite (proj2 (Z.eqb_neq _ _)) by done. lia.
Qed.

Lemma entry_slot st A sl C i k : rep st A sl C -> NDIRECT <= k < MAXFILE -> sl i (-1) <> 0 ->
  get32 (sect (mk_img st) (sl i (-1))) (4 * (k - NDIRECT)) = sl i k.
Proof.
  intros R Hk Hn. rewrite <- (rp_slots _ _ _ _ R i k) by slia. rewrite <- (rp_slots _ _ _ _ R i (-1)) in * by apply is_slot_ind.
  change (aslot _ _ (-1)) with (iaddr (with_iaddrs (A i) inode0) NDIRECT) in *. unfold aslot, slot.
  rewrite (proj2 (Z.eqb_neq k _)), (proj2 (Z.ltb_ge _ _)) by slia. by rewrite (proj2 (Z.eqb_neq _ _)).
Qed.

Lemma wp_iappend_block st A sl C i0 k : rep st A sl C -> 0 <= k < MAXFILE -> mk_freeblock st + need sl i0 k <= FSSIZE ->
  wp (iappend_block (A i0) k) (fun r st' => exists sl', grew st A sl C i0 k r.1 r.2 st' sl') st.
Proof.
  intros R Hk Hfb. unfold iappend_block, need in *. destruct (Z.ltb_spec k NDIRECT) as [Hd|Hd].
  - rewrite (proj2 (Z.leb_gt _ _)), andb_false_l, Z.add_0_r in Hfb by done. assert (slot_of k = k) as Es by (unfold slot_of; by rewrite (proj2 (Z.eqb_neq _ _)) by slia).
    apply wp_bind. eapply wp_mono; [apply (wp_alloc_addr _ _ _ _ i0 k R ltac:(slia)); by rewrite Es |].
    rewrite Es. intros a' st' (sl' & R' & Ex & Hn & Ho & Hkeep & Ef & Hm). apply wp_ret. exists sl'. split; try done.
    + intros ?. slia.
    + intros i k' _ Hnz. destruct (decide (i = i0 /\ k' = k)) as [[-> ->]|]; [auto | by apply Ho, pair_ne].
    + intros i k' H. apply Ho. destruct H as [|[? _]]; auto.
    + rewrite Ef. unfold need. rewrite (proj2 (Z.leb_gt _ _)), andb_false_l by done. lia.
  - rewrite (proj2 (Z.leb_le _ _)), andb_true_l in Hfb by done. apply wp_bind.
    eapply wp_mono; [apply (wp_alloc_addr _ _ _ _ i0 NDIRECT R ltac:(slia)); change (slot_of NDIRECT) with (-1); destruct (sl i0 k =? 0); lia |].
    change (slot_of NDIRECT) with (-1). intros a' st1 (sl1 & R1 & Ex & Hn & Ho & Hkeep & Ef & Hm). rewrite Ex.
    pose proof (slot_range _ _ _ _ i0 (-1) R1 is_slot_ind) as Hr1. pose proof (entry_slot _ _ _ _ i0 k R1 ltac:(slia) Hn) as Ek.
    assert (sl1 i0 k = sl i0 k) as E1 by (apply Ho; slia). pose proof (slot_range _ _ _ _ i0 k R1 ltac:(slia)) as Hrk.
    pose proof (co_fb _ _ _ _ (rp_core _ _ _ _ R1)) as Hb. pose proof (co_len _ _ _ _ (rp_core _ _ _ _ R1) (sl1 i0 (-1)) ltac:(mlia)) as Hl.
    apply wp_bind. eapply wp_rsect; [exact R1 | mlia |]. rewrite Ek, E1. apply wp_bind. destruct (Z.eqb_spec (sl i0 k) 0) as [E0|E0].
    + apply wp_bind. eapply wp_next_block; [exact R1 |]. apply wp_bind, wp_modify, wp_ret, wp_ret.
      pose proof (rep_alloc_entry _ _ _ _ i0 k R1 ltac:(slia) Hn ltac:(lia) ltac:(lia)) as R2. cbn zeta in R2.
      rewrite !(xint_small (mk_freeblock st1)) by mlia. set (x := sl1 i0 (-1)) in *. set (st2 := with_sect x _ _) in R2.
      exists (tupd sl1 i0 k (mk_freeblock st1)). unfold get32, put32. rewrite get_put_eq by slia. change (256 ^ Z.of_nat 4) with (2 ^ 32).
      rewrite Z.mod_small, xint_small by mlia. split; unfold tupd; cbn [Datatypes.fst Datatypes.snd].
      * exact R2.
      * rewrite decide_True by done. mlia.
      * intros _. rewrite decide_False by slia. done.
      * intros i k' Hk' Hnz. case_decide as Ec; [destruct Ec as [-> ->]; lia |]. destruct (decide (i = i0 /\ k' = -1)) as [[-> ->]|]; [auto | by apply Ho, pair_ne].
      * intros i k' H. rewrite decide_False by (intros [-> ->]; destruct H as [|[? _]]; done). apply Ho. destruct H as [|[? [|]]]; [auto | auto | slia].
      * cbn [with_sect with_fb mk_freeblock mk_img mk_sb mk_freeinode]. rewrite Ef. unfold need. rewrite E0, (proj2 (Z.leb_le _ _)) by done. cbn. lia.
      * eapply same_meta_trans; [exact Hm |]. eapply (same_meta_trans _ (with_fb _ st1)); [by split |]. apply same_meta_sect. lia.
    + apply wp_ret, wp_ret. rewrite Ek, E1, xint_small by mlia. exists sl1. split; cbn [Datatypes.fst Datatypes.snd].
      * done.
      * by rewrite E1.
      * done.
      * intros i k' Hk' Hnz. destruct (decide (i = i0 /\ k' = -1)) as [[-> ->]|]; [auto | by apply Ho, pair_ne].
      * intros i k' H. apply Ho. destruct H as [|[? [|]]]; [auto | auto | slia].
      * rewrite Ef. unfold need. rewrite (proj2 (Z.eqb_neq (sl i0 k) _)), (proj2 (Z.leb_le _ _)) by done. cbn. lia.
      * done.
Qed.

(** A file of [len] bytes has exactly the blocks it needs. *)
Definition mapped (f : Z -> Z) (len : Z) : Prop :=
  forall k, is_slot k -> f k <> 0 <-> (if k =? -1 then NDIRECT else k) * BSIZE < len.

Definition blocks_for (len : Z) : Z :=
  (len + BSIZE - 1) / BSIZE + (if NDIRECT * BSIZE <? len then 1 else 0).

Definition clen (C : nat -> list Z) (i : nat) : Z := Z.of_nat (length (C i)).

Lemma mapped_grow st A sl C i0 k a' x st' sl' len n : grew st A sl C i0 k a' x st' sl' -> mapped (sl i0) len ->
  0 <= len -> k = len / BSIZE -> k < MAXFILE -> 0 < n -> len + n <= (k + 1) * BSIZE -> mapped (sl' i0) (len + n).
Proof.
  intros [_ [_ Hs] Hi Hk Ho _ _] Hm Hl Ek Hmax Hn Hle k' Hk'. assert (k * BSIZE <= len < (k + 1) * BSIZE) as Hkl by dlia.
  destruct (decide (k' = k)) as [->|Hne]; [rewrite (proj2 (Z.eqb_neq _ _)) by slia; slia |].
  pose proof (Hm k' Hk') as Hmk. destruct (Z.eqb_spec k' (-1)) as [->|Hne1].
  - destruct (decide (NDIRECT <= k)); [split; [slia | auto] |]. rewrite Ho by (right; slia). rewrite Hmk. slia.
  - rewrite Ho by (right; split; [done | by left]). rewrite Hmk. slia.
Qed.

Lemma need_blocks sl i0 k len n : mapped (sl i0) len -> 0 <= len -> k = len / BSIZE -> k < MAXFILE -> 0 < n -> len + n <= (k + 1) * BSIZE ->
  need sl i0 k = blocks_for (len + n) - blocks_for len.
Proof.
  intros Hm Hl Ek Hmax Hn Hle. assert (k * BSIZE <= len < (k + 1) * BSIZE) as Hkl by dlia. unfold need, blocks_for.
  pose proof (Hm k ltac:(slia)) as H1. rewrite (proj2 (Z.eqb_neq _ _)) in H1 by slia. pose proof (Hm (-1) is_slot_ind) as H2. cbn in H2.
  destruct (Z.eqb_spec (sl i0 k) 0), (Z.leb_spec NDIRECT k), (Z.eqb_spec (sl i0 (-1)) 0), (Z.ltb_spec (NDIRECT * BSIZE) (len + n)),
    (Z.ltb_spec (NDIRECT * BSIZE) len); cbn [andb]; dlia.
Qed.

Record appended (st : mk) (A : nat -> list Z) (C : nat -> list Z) (i0 : nat) (p : list Z) (a' : list Z) (st' : mk) (sl' : nat -> Z -> Z) : Prop := Appended {
  ap_rep : rep st' (upd A i0 a') sl' (upd C i0 (C i0 ++ p));
  ap_mapped : forall i, mapped (sl' i) (clen (upd C i0 (C i0 ++ p)) i);
  ap_fb : mk_freeblock st' = mk_freeblock st + blocks_for (clen C i0 + Z.of_nat (length p)) - blocks_for (clen C i0);
  ap_meta : same_meta st st';
}.

Lemma upd_upd {B} (f : nat -> B) i a b j : upd (upd f i a) i b j = upd f i b j.
Proof. unfold upd. by case_decide. Qed.

(** One turn of the loop. *)
Lemma wp_iappend_turn st A sl C i0 p : rep st A sl C -> (forall i, mapped (sl i) (clen C i)) -> Forall is_byte p ->
  let off := clen C i0 in let k := off / BSIZE in let n1 := Z.min (Z.of_nat (length p)) ((k + 1) * BSIZE - off) in
  p <> [] -> off < MAXFILE * BSIZE -> mk_freeblock st + blocks_for (off + n1) - blocks_for off <= FSSIZE ->
  forall (Q : list Z * Z -> mk -> Prop) K,
  (forall a' st' sl', appended st A C i0 (take (Z.to_nat n1) p) a' st' sl' -> wp (K a') Q st') ->
  wp (let! ' (addrs, x) := iappend_block (A i0) k in
      let! buf := rsect x in
      wsect x (splice buf (Z.to_nat (off - k * BSIZE)) (take (Z.to_nat n1) p)) ;;; K addrs) Q st.
Proof.
  intros R Hm Hp off k n1 Hne Hmax Hfb Q K HK. assert (0 < Z.of_nat (length p)) as Hlp by (destruct p; [done | cbn; lia]).
  assert (0 <= off) as Hoff by (unfold off, clen; lia).
  assert (k * BSIZE <= off < (k + 1) * BSIZE /\ 0 <= k < MAXFILE) as [Hk Hk'] by (unfold k in *; dlia).
  assert (0 < n1 /\ off + n1 <= (k + 1) * BSIZE /\ length (take (Z.to_nat n1) p) = Z.to_nat n1) as (Hn1 & Hn2 & Hlt) by (rewrite length_take; lia).
  pose proof (need_blocks sl i0 k off n1 (Hm i0) Hoff eq_refl ltac:(lia) Hn1 Hn2) as Hneed.
  apply wp_bind. eapply wp_mono; [apply (wp_iappend_block _ _ _ _ i0 k R Hk'); lia |]. intros [a' x] st1 (sl1 & G). cbn [Datatypes.fst Datatypes.snd] in G.
  pose proof G as [R1 [-> Hx] Hi Hkept Ho Ef Hme]. pose proof (co_range _ _ _ _ (rp_core _ _ _ _ R1) i0 k ltac:(slia) Hx) as Hxr.
  pose proof (co_fb _ _ _ _ (rp_core _ _ _ _ R1)) as Hb1. apply wp_bind. eapply wp_rsect; [exact R1 | mlia |]. apply wp_bind, wp_modify.
  apply (HK a' _ sl1). set (blk := splice _ _ _). destruct R1 as [S1 S2 S3 S4 S5]. split.
  - split.
    + done.
    + intros n Hn. cbn [mk_img]. rewrite sect_insert. case_decide as E; [by rewrite E, lookup_insert_eq | rewrite lookup_insert_ne by done; auto].
    + cbn [mk_img mk_freeblock]. eapply (core_write _ _ _ _ _ i0 k _ S3 Hk' Hx); [by apply Forall_take | | | |].
      * unfold clen in *. lia.
      * unfold clen in *. lia.
      * rewrite sect_insert, decide_True by done. done.
      * intros n Hn. by rewrite sect_insert, decide_False.
    + done.
    + intros i k0 Hk0. cbn [mk_img]. rewrite <- (S5 i k0) by done. apply slot_ext; [done |]. intros Hnz. rewrite sect_insert, decide_False; [done |].
      intros E. change (iaddr (with_iaddrs _ inode0) NDIRECT) with (aslot (sect (mk_img st1)) (upd A i0 a' i) (-1)) in E, Hnz.
      rewrite S5 in E, Hnz by apply is_slot_ind. destruct (co_inj _ _ _ _ S3 i (-1) i0 k is_slot_ind ltac:(slia) Hnz E). slia.
  - intros i. unfold clen. destruct (decide (i = i0)) as [->|Hni].
    + rewrite upd_eq, length_app, Hlt, Nat2Z.inj_add, Z2Nat.id by lia. apply (mapped_grow _ _ _ _ _ _ _ _ _ _ _ _ G (Hm i0)); [done | done | lia | done | done].
    + rewrite upd_ne by done. intros k0 Hk0. rewrite Ho by auto. by apply Hm.
  - cbn [mk_freeblock]. rewrite Ef, Hneed, Hlt, Z2Nat.id by lia. fold off. lia.
  - eapply same_meta_trans; [exact Hme |]. apply same_meta_sect. lia.
Qed.

Lemma appended_trans st A C i0 p1 a1 st1 sl1 p2 a2 st2 sl2 : appended st A C i0 p1 a1 st1 sl1 ->
  appended st1 (upd A i0 a1) (upd C i0 (C i0 ++ p1)) i0 p2 a2 st2 sl2 -> appended st A C i0 (p1 ++ p2) a2 st2 sl2.
Proof.
  intros [_ _ F1 M1] [R2 H2 F2 M2]. rewrite upd_eq in *. unfold clen in *. rewrite upd_eq, length_app, Nat2Z.inj_add in F2. split.
  - eapply rep_ext; [intros; symmetry; apply upd_upd | | exact R2]. intros. by rewrite upd_upd, <- app_assoc.
  - intros i. specialize (H2 i). by rewrite upd_upd, <- app_assoc in H2.
  - unfold clen. rewrite F2, F1, length_app, Nat2Z.inj_add.
    replace (Z.of_nat (length (C i0)) + (Z.of_nat (length p1) + Z.of_nat (length p2))) with (Z.of_nat (length (C i0)) + Z.of_nat (length p1) + Z.of_nat (length p2)) by lia. lia.
  - by eapply same_meta_trans.
Qed.

Lemma blocks_for_mono a b : a <= b -> blocks_for a <= blocks_for b.
Proof. intros H. unfold blocks_for. destruct (Z.ltb_spec (NDIRECT * BSIZE) a), (Z.ltb_spec (NDIRECT * BSIZE) b); dlia. Qed.

Lemma wp_iappend_loop fuel st A sl C i0 p : rep st A sl C -> (forall i, mapped (sl i) (clen C i)) -> Forall is_byte p ->
  (length p < fuel)%nat -> let total := clen C i0 + Z.of_nat (length p) in
  total <= MAXFILE * BSIZE -> mk_freeblock st + blocks_for total - blocks_for (clen C i0) <= FSSIZE ->
  wp (iappend_loop fuel (A i0) (clen C i0) p)
     (fun r st' => exists sl', r.2 = clen C i0 + Z.of_nat (length p) /\ appended st A C i0 p r.1 st' sl') st.
Proof.
  revert st A sl C p. induction fuel as [|fuel IH]; intros st A sl C p R Hm Hp Hf total Hmax Hfb; [lia |]. cbn [iappend_loop].
  destruct (Z.ltb_spec 0 (Z.of_nat (length p))) as [Hl|Hl].
  - assert (0 <= clen C i0) as Hc by (unfold clen; lia). set (k := clen C i0 / BSIZE).
    assert (k * BSIZE <= clen C i0 < (k + 1) * BSIZE /\ 0 <= k < MAXFILE) as [Hk Hk'] by (unfold k; dlia).
    rewrite (proj2 (Z.ltb_lt _ _)) by lia. cbn [negb]. rewrite !(u32_small ((k + 1) * BSIZE - _)) by slia.
    set (n1 := Z.min _ _). rewrite (u32_small (clen C i0 + n1)) by slia.
    assert (length (take (Z.to_nat n1) p) = Z.to_nat n1 /\ 0 < n1) as [Hlt Hn1] by (rewrite length_take; slia).
    eapply (wp_iappend_turn st A sl C i0 p R Hm Hp); fold k; fold n1.
    + by destruct p.
    + slia.
    + pose proof (blocks_for_mono (clen C i0 + n1) total ltac:(lia)). lia.
    + intros a' st' sl' Ap. pose proof Ap as [R' Hm' Hfb' _]. rewrite Hlt, Z2Nat.id in Hfb' by lia.
      assert (clen (upd C i0 (C i0 ++ take (Z.to_nat n1) p)) i0 = clen C i0 + n1) as El by (unfold clen; rewrite upd_eq, length_app; lia).
      pose proof (IH _ _ _ _ (drop (Z.to_nat n1) p) R' Hm') as W. rewrite El, length_drop in W. rewrite upd_eq in W.
      replace (clen C i0 + n1 + Z.of_nat (length p - Z.to_nat n1)) with total in W by lia.
      eapply wp_mono; [apply W; [by apply Forall_drop | lia | done | lia] |]. intros [a2 o2] st2 (sl2 & E2 & Ap2). cbn in *.
      exists sl2. split; [done |]. rewrite <- (take_drop (Z.to_nat n1) p). by eapply appended_trans.
  - destruct p; [| cbn in Hl; lia]. apply wp_ret. exists sl. cbn [Datatypes.fst Datatypes.snd length] in *. split; [lia |]. split.
    + eapply rep_ext; [| | exact R]; intros i; (destruct (decide (i = i0)) as [->|]; [by rewrite upd_eq, ?app_nil_r | by rewrite upd_ne]).
    + intros i. unfold clen. destruct (decide (i = i0)) as [->|]; [rewrite upd_eq, app_nil_r | rewrite upd_ne by done]; apply Hm.
    + cbn. rewrite Z.add_0_r. lia.
    + by split.
Qed.

(** ** Inodes *)

Lemma IBLOCK_mk i : 0 <= i < NINODES -> IBLOCK i mksb = i / IPB + 32 /\ 32 <= IBLOCK i mksb < 45.
Proof.
  intros Hi. unfold IBLOCK. change (sb_inodestart mksb) with 32. change IPB with 16. change NINODES with 200 in *.
  assert (0 <= i / 16 < 13) by (split; [apply Z.div_pos | apply Z.div_lt_upper_bound]; lia). rewrite u32_small; lia.
Qed.

Definition dn (st : mk) (inum : Z) : dinode := get_dinode (sect (mk_img st) (IBLOCK inum mksb)) (inode_off inum).

(** A block of the metadata is written. *)
Lemma rep_meta st A sl C x b : rep st A sl C -> 0 <= x < nmeta -> length b = 1024%nat -> rep (with_sect x b st) A sl C.
Proof.
  intros [R1 R2 R3 R4 R5] Hx Hb. pose proof (co_fb _ _ _ _ R3) as Hfb. split; cbn [with_sect mk_img mk_freeblock]; [done | | | done |].
  - intros n Hn. rewrite sect_insert. case_decide as E; [by rewrite E, lookup_insert_eq | rewrite lookup_insert_ne by done; auto].
  - assert (forall n, nmeta <= n -> sect (<[x:=b]> (mk_img st)) n = sect (mk_img st) n) as E.
    { intros n Hn. by rewrite sect_insert, decide_False by lia. }
    destruct R3 as [C1 C2 C3 C4 C5 C6 C7]. split; try done.
    + intros n Hn. rewrite sect_insert. case_decide; [done | auto].
    + intros n Hn. rewrite E by lia. auto.
    + intros i y Hy. rewrite <- C6 by done. destruct (slot_at y Hy) as (_ & Hs & _). unfold fbyte.
      destruct (Z.eqb_spec (sl i (y / BSIZE)) 0) as [|Hn]; [done |]. rewrite E; [done |]. by apply C3.
    + intros i k Hk Hk1 Hn. rewrite E by (by apply C3). auto.
  - intros i k Hk. rewrite <- R5 by done. apply slot_ext; [done |]. intros Hnz. rewrite sect_insert, decide_False; [done |].
    change (iaddr _ NDIRECT) with (aslot (sect (mk_img st)) (A i) (-1)) in *. rewrite R5 in * by apply is_slot_ind.
    pose proof (co_range _ _ _ _ R3 i (-1) is_slot_ind Hnz). lia.
Qed.

Lemma inode_apart i j : 0 <= i < NINODES -> 0 <= j < NINODES -> i <> j -> IBLOCK i mksb = IBLOCK j mksb ->
  inode_off j + 64 <= inode_off i \/ inode_off i + 64 <= inode_off j.
Proof.
  intros Hi Hj Hne. destruct (IBLOCK_mk i Hi) as [-> _]. destruct (IBLOCK_mk j Hj) as [-> _].
  unfold inode_off. change IPB with 16. change SIZEOF_DINODE with 64. intros E.
  pose proof (Z.div_mod i 16 ltac:(lia)). pose proof (Z.div_mod j 16 ltac:(lia)). lia.
Qed.

(** The inode is written; the files and the other inodes stay. *)
Lemma wp_winode st A sl C inum d : rep st A sl C -> 0 <= inum < NINODES -> dinode_ok d ->
  wp (winode inum d) (fun _ st' => rep st' A sl C /\ mk_freeblock st' = mk_freeblock st /\ mk_freeinode st' = mk_freeinode st /\
    dn st' inum = d /\ (forall j, 0 <= j < NINODES -> j <> inum -> dn st' j = dn st j) /\ sect (mk_img st') 1 = sect (mk_img st) 1) st.
Proof.
  intros R Hi Hd. unfold winode. apply wp_bind, wp_gets. rewrite (rp_sb _ _ _ _ R). destruct (IBLOCK_mk inum Hi) as [_ Hb].
  pose proof (co_len _ _ _ _ (rp_core _ _ _ _ R) (IBLOCK inum mksb) ltac:(mlia)) as Hl. pose proof (inode_off_range inum) as Ho.
  destruct (dk_addrs _ Hd) as [Ha _]. apply wp_bind. eapply wp_rsect; [exact R | mlia |]. apply wp_modify.
  change (Mk (<[?x := ?b]> (mk_img st)) (mk_sb st) (mk_freeinode st) (mk_freeblock st)) with (with_sect x b st). split_and!.
  - apply rep_meta; [done | mlia |]. rewrite length_put_dinode by lia. done.
  - done.
  - done.
  - unfold dn. cbn [with_sect mk_img]. rewrite sect_insert, decide_True by done. apply get_put_dinode; [done | lia | lia].
  - intros j Hj Hne. unfold dn. cbn [with_sect mk_img]. rewrite sect_insert. case_decide as E; [| done]. rewrite E.
    pose proof (inode_off_range j). apply get_dinode_other; [lia | lia | done | lia |]. apply inode_apart; auto.
  - cbn [with_sect mk_img]. rewrite sect_insert, decide_False by lia. done.
Qed.

Lemma wp_rinode st A sl C inum Q : rep st A sl C -> 0 <= inum < NINODES -> Q (dn st inum) st -> wp (rinode inum) Q st.
Proof.
  intros R Hi HQ. unfold rinode. apply wp_bind, wp_gets. rewrite (rp_sb _ _ _ _ R). destruct (IBLOCK_mk inum Hi) as [_ Hb].
  apply wp_bind. eapply wp_rsect; [exact R | mlia |]. by apply wp_ret.
Qed.

Lemma addrs_ok st A sl C i : rep st A sl C -> length (A i) = 13%nat /\ Forall (fun a => 0 <= a < 2 ^ 32) (A i).
Proof.
  intros R. pose proof (rp_addrs _ _ _ _ R i) as Hl. split; [done |]. apply Forall_lookup. intros j a Ha.
  pose proof (lookup_lt_Some _ _ _ Ha). destruct (addr_slot _ _ _ _ i (Z.of_nat j) R ltac:(lia)) as [E Hs].
  unfold addr_at in E. rewrite Nat2Z.id, Ha in E. cbn in E. pose proof (slot_range _ _ _ _ i _ R Hs). mlia.
Qed.

(** ** The files so far

    [F] lists the type and the contents of each file, the root directory
    first; file [i] has inode [i + 1]. *)

Abbreviation files := (list (Z * list Z)).

Definition cont (F : files) (i : nat) : list Z := default [] (F !! i ≫= fun f => Some f.2).

Fixpoint total (F : files) : Z :=
  match F with [] => 0 | f :: F' => blocks_for (Z.of_nat (length f.2)) + total F' end.

Definition file_fits (f : Z * list Z) : Prop := 0 <= f.1 < 2 ^ 15 /\ Z.of_nat (length f.2) <= MAXFILE * BSIZE.

Record inv (st : mk) (F : files) (A : nat -> list Z) (sl : nat -> Z -> Z) : Prop := Inv {
  iv_rep : rep st A sl (cont F);
  iv_mapped : forall i, mapped (sl i) (clen (cont F) i);
  iv_ino : forall i t c, F !! i = Some (t, c) -> dn st (Z.of_nat i + 1) = Dinode t 0 0 1 (Z.of_nat (length c)) (A i);
  iv_free : forall i, (length F <= i)%nat -> A i = replicate 13 0 /\ (Z.of_nat i + 1 < NINODES -> d_type (dn st (Z.of_nat i + 1)) = 0);
  iv_fi : mk_freeinode st = Z.of_nat (length F) + 1;
  iv_n : Z.of_nat (length F) < NINODES;
  iv_fb : mk_freeblock st = nmeta + total F;
  iv_sb : sect (mk_img st) 1 = put_superblock mksb;
  iv_fits : Forall file_fits F;
}.

Lemma total_app F G : total (F ++ G) = total F + total G.
Proof. induction F; cbn; lia. Qed.

Lemma total_insert F i t c c' : F !! i = Some (t, c) ->
  total (<[i := (t, c')]> F) = total F + blocks_for (Z.of_nat (length c')) - blocks_for (Z.of_nat (length c)).
Proof.
  revert i. induction F as [|f F IH]; intros [|i] H; try done.
  - injection H as ->. cbn. lia.
  - change (<[Datatypes.S i := (t, c')]> (f :: F)) with (f :: <[i := (t, c')]> F). cbn [total]. rewrite (IH i H). lia.
Qed.

Lemma cont_insert F i t c c' j : F !! i = Some (t, c) -> cont (<[i := (t, c')]> F) j = upd (cont F) i c' j.
Proof.
  intros H. unfold cont. destruct (decide (j = i)) as [->|Hne].
  - rewrite upd_eq, list_lookup_insert_eq; [done |]. by eapply lookup_lt_Some.
  - by rewrite upd_ne, list_lookup_insert_ne.
Qed.

Lemma cont_new F t j : cont (F ++ [(t, [])]) j = cont F j.
Proof.
  unfold cont. destruct (decide (j < length F)%nat); [by rewrite lookup_app_l |]. rewrite lookup_app_r, (lookup_ge_None_2 F) by lia.
  destruct (j - length F)%nat as [|m]; done.
Qed.

Lemma dinode_new t sz a : 0 <= t < 2 ^ 15 -> 0 <= sz <= MAXFILE * BSIZE -> length a = 13%nat /\ Forall (fun x => 0 <= x < 2 ^ 32) a ->
  dinode_ok (Dinode t 0 0 1 sz a).
Proof. intros Ht Hs Ha. split; cbn; try done; slia. Qed.

Lemma wp_ialloc st F A sl t : inv st F A sl -> 0 <= t < 2 ^ 15 -> Z.of_nat (length F) + 1 < NINODES ->
  wp (ialloc t) (fun r st' => r = Z.of_nat (length F) + 1 /\ inv st' (F ++ [(t, [])]) A sl) st.
Proof.
  intros [R Hm Hino Hfree Hfi Hn Hfb Hsb Hfits] Ht Hroom. unfold ialloc. apply wp_bind, wp_gets. rewrite Hfi.
  apply wp_bind, wp_modify. set (st1 := Mk _ _ _ _). destruct (Hfree (length F) ltac:(lia)) as [HA _].
  assert (rep st1 A sl (cont F)) as R1 by (destruct R; by split).
  assert (s16 (xshort t) = t /\ s16 (xshort 1) = 1 /\ xint 0 = 0) as (-> & -> & ->).
  { rewrite xshort_small by lia. split_and!; try done. rewrite <- (Z.mod_small t (2 ^ 16)) at 1 by lia. apply s16_u16. lia. }
  apply wp_bind. eapply wp_mono; [apply (wp_winode st1 _ _ _ _ _ R1); [lia |] |].
  { rewrite <- HA. apply dinode_new; [done | slia | by eapply addrs_ok]. }
  intros [] st2 (R2 & E1 & E2 & D1 & D2 & S2). apply wp_ret. split; [done |]. split.
  - eapply rep_ext; [done | intros; symmetry; apply eq_sym, cont_new | done].
  - intros i. unfold clen. rewrite cont_new. apply Hm.
  - intros i t' c H. destruct (decide (i < length F)%nat).
    + rewrite lookup_app_l in H by done. rewrite D2 by lia. by apply Hino.
    + apply lookup_app_Some in H as [H|[Hi H]]; [by apply lookup_lt_Some in H |]. destruct (i - length F)%nat as [|m] eqn:Ei; [| by destruct m].
      injection H as <- <-. replace i with (length F) by lia. by rewrite D1, HA.
  - intros i Hi. rewrite length_app in Hi. cbn in Hi. destruct (Hfree i ltac:(lia)) as [H1 H2]. split; [done |]. intros Hb.
    rewrite D2 by lia. by apply H2.
  - rewrite E2. cbn. rewrite u32_small, length_app; [cbn; lia |]. change NINODES with 200 in *. lia.
  - rewrite length_app. cbn. lia.
  - rewrite E1. cbn [mk_freeblock st1]. rewrite Hfb, total_app. change (total [(t, [])]) with 0. lia.
  - by rewrite S2.
  - apply Forall_app. split; [done |]. apply Forall_singleton. split; [done | cbn; slia].
Qed.

Lemma same_meta_dn st st' j : same_meta st st' -> 0 <= j < NINODES -> dn st' j = dn st j.
Proof.
  intros [_ Hm] Hj. destruct (IBLOCK_mk j Hj) as [_ Hb]. unfold dn, sect. by rewrite Hm by mlia.
Qed.

Lemma wp_iappend st F A sl i t c p : inv st F A sl -> F !! i = Some (t, c) -> Forall is_byte p ->
  let F' := <[i := (t, c ++ p)]> F in
  Z.of_nat (length (c ++ p)) <= MAXFILE * BSIZE -> nmeta + total F' <= FSSIZE ->
  wp (iappend (Z.of_nat i + 1) p) (fun _ st' => exists A' sl', inv st' F' A' sl') st.
Proof.
  intros [R Hm Hino Hfree Hfi Hn Hfb Hsb Hfits] HF Hp F' Hmax Htot. pose proof (lookup_lt_Some _ _ _ HF) as Hi.
  pose proof (total_insert F i t c (c ++ p) HF) as Et. fold F' in Et. rewrite length_app, Nat2Z.inj_add in *.
  assert (cont F i = c) as Ec by (unfold cont; by rewrite HF). assert (clen (cont F) i = Z.of_nat (length c)) as El by (unfold clen; by rewrite Ec).
  pose proof (Forall_lookup_1 _ _ _ _ Hfits HF) as [Ht _]. cbn in Ht.
  unfold iappend. apply wp_bind. eapply wp_rinode; [exact R | lia |]. rewrite (Hino _ _ _ HF). cbn [d_addrs d_size d_type d_major d_minor d_nlink].
  rewrite xint_small by slia. rewrite <- El. apply wp_bind.
  eapply wp_mono; [apply (wp_iappend_loop _ _ _ _ _ i p R Hm Hp); [lia | rewrite El; lia | rewrite El; lia] |].
  intros [a' off] st1 (sl1 & Eo & [R1 M1 B1 Me]). cbn [Datatypes.fst Datatypes.snd] in *. rewrite El in *. subst off. rewrite xint_small by slia.
  eapply wp_mono; [apply (wp_winode _ _ _ _ _ _ R1); [lia |] |].
  { apply dinode_new; [done | slia |]. pose proof (addrs_ok _ _ _ _ i R1) as Ha. by rewrite upd_eq in Ha. }
  intros [] st2 (R2 & E1 & E2 & D1 & D2 & S2). exists (upd A i a'), sl1.
  assert (length F' = length F) as EL by (unfold F'; by rewrite length_insert).
  assert (forall j, cont F' j = upd (cont F) i (c ++ p) j) as EC by (intros; by eapply cont_insert). rewrite Ec in *. split.
  - by eapply rep_ext; [| | exact R2].
  - intros j. unfold clen in *. rewrite EC. apply M1.
  - intros j t' c' H. unfold F' in H. destruct (decide (j = i)) as [->|Hne].
    + rewrite list_lookup_insert_eq in H by done. injection H as <- <-. by rewrite D1, upd_eq, length_app, Nat2Z.inj_add.
    + rewrite list_lookup_insert_ne in H by done. pose proof (lookup_lt_Some _ _ _ H). rewrite upd_ne, D2 by (done || lia).
      rewrite (same_meta_dn st) by (done || lia). auto.
  - intros j Hj. rewrite EL in Hj. destruct (Hfree j Hj) as [H1 H2]. rewrite upd_ne by lia. split; [done |]. intros Hb.
    rewrite D2, (same_meta_dn st) by (done || lia). auto.
  - rewrite E2, (proj1 Me), EL. done.
  - lia.
  - rewrite E1, B1, Et, Hfb. lia.
  - rewrite S2. unfold sect. rewrite (proj2 Me) by mlia. exact Hsb.
  - apply Forall_insert; [done |]. split; [done |]. cbn. rewrite length_app. lia.
Qed.

Lemma blocks_for_nonneg n : 0 <= n -> 0 <= blocks_for n.
Proof. intros H. unfold blocks_for. destruct (_ <? _); dlia. Qed.

Lemma total_nonneg F : 0 <= total F.
Proof. induction F as [|f F IH]; cbn [total]; [lia |]. pose proof (blocks_for_nonneg (Z.of_nat (length f.2)) ltac:(lia)). lia. Qed.

Definition read_ok (r : list Z) : Prop := r <> [] /\ (length r <= Z.to_nat BSIZE)%nat /\ Forall is_byte r.

Lemma insert_fits F i t c p q : F !! i = Some (t, c) -> nmeta + total (<[i := (t, c ++ p ++ q)]> F) <= FSSIZE -> nmeta + total (<[i := (t, c ++ p)]> F) <= FSSIZE.
Proof.
  intros H. rewrite !(total_insert F i t c _ H), !length_app, !Nat2Z.inj_add, Z.add_assoc.
  set (a := Z.of_nat (length c) + _). pose proof (blocks_for_mono a (a + Z.of_nat (length q)) ltac:(lia)). lia.
Qed.

Lemma wp_append_reads st F A sl i t c reads : inv st F A sl -> F !! i = Some (t, c) -> Forall read_ok reads ->
  let F' := <[i := (t, c ++ concat reads)]> F in
  Z.of_nat (length (c ++ concat reads)) <= MAXFILE * BSIZE -> nmeta + total F' <= FSSIZE ->
  wp (append_reads (Z.of_nat i + 1) reads) (fun _ st' => exists A' sl', inv st' F' A' sl') st.
Proof.
  intros I HF Hr. revert st F A sl c I HF. induction Hr as [|r reads (Hne & _ & Hb) _ IH]; intros st F A sl c I HF F' Hmax Htot; cbn [append_reads concat] in *.
  - apply wp_ret. unfold F'. rewrite app_nil_r, list_insert_id by done. eauto.
  - rewrite (proj2 (Nat.eqb_neq _ _)) by (by destruct r). pose proof (lookup_lt_Some _ _ _ HF) as Hi. apply wp_bind.
    eapply wp_mono; [apply (wp_iappend st F A sl i t c r I HF Hb) |].
    + rewrite !length_app in *. lia.
    + by eapply insert_fits.
    + intros [] st1 (A1 & sl1 & I1). specialize (IH st1 _ A1 sl1 (c ++ r) I1). rewrite list_lookup_insert_eq, list_insert_insert_eq, <- app_assoc in IH by done.
      by apply IH.
Qed.

(** ** What the image is to hold *)

Definition shortname (f : hfile) : list Z := unprefix (basename (h_name f)).
Definition entry (inum : Z) (name : list Z) : list Z := put_dirent (Dirent inum (pad_name name)).

(** The root directory: dot, dot-dot, and the files from inode 2 on. *)
Fixpoint entries (inum : Z) (fs : list hfile) : list Z :=
  match fs with [] => [] | f :: fs' => entry inum (shortname f) ++ entries (inum + 1) fs' end.
Definition rootdir (fs : list hfile) : list Z := (entry 1 [DOT] ++ entry 1 [DOT; DOT]) ++ entries 2 fs.
Definition contents (f : hfile) : list Z := concat (h_reads f).
Definition image_files (fs : list hfile) : files := (T_DIR, rootdir fs) :: map (fun f => (T_FILE, contents f)) fs.

Record fits (fs : list hfile) : Prop := Fits {
  ft_n : Z.of_nat (length fs) + 1 < NINODES;
  ft_total : nmeta + total (image_files fs) <= FSSIZE;
  ft_names : Forall (fun f => (SLASH ∉ basename (h_name f)) /\ Forall is_byte (h_name f)) fs;
  ft_data : Forall (fun f => Forall read_ok (h_reads f) /\ Z.of_nat (length (contents f)) <= MAXFILE * BSIZE) fs;
}.

Lemma length_entry inum name : length (entry inum name) = 16%nat.
Proof. unfold entry, put_dirent. cbn [de_inum de_name]. by rewrite length_app, length_le_bytes, length_pad_name. Qed.

Lemma length_entries inum fs : length (entries inum fs) = (16 * length fs)%nat.
Proof. revert inum. induction fs as [|f fs IH]; intros inum; cbn [entries length]; [done |]. rewrite length_app, length_entry, IH. lia. Qed.

Lemma length_rootdir fs : Z.of_nat (length (rootdir fs)) = 16 * (Z.of_nat (length fs) + 2).
Proof. unfold rootdir. rewrite !length_app, !length_entry, length_entries. lia. Qed.

Lemma entries_app inum fs gs : entries inum (fs ++ gs) = entries inum fs ++ entries (inum + Z.of_nat (length fs)) gs.
Proof.
  revert inum. induction fs as [|f fs IH]; intros inum; cbn [entries app length]; [by rewrite Z.add_0_r |].
  rewrite IH, <- app_assoc. do 3 f_equal. lia.
Qed.

Lemma entry_bytes inum name : Forall is_byte name -> Forall is_byte (entry inum name).
Proof. intros H. by apply put_dirent_bytes, pad_name_bytes. Qed.

Lemma shortname_bytes f : Forall is_byte (h_name f) -> Forall is_byte (shortname f).
Proof.
  intros H. assert (Forall is_byte (basename (h_name f))) as Hn by (unfold basename; case_match; [by apply Forall_drop | done]).
  unfold shortname, unprefix. destruct Hn as [|b n Hb Hn]; [done |]. case_match; [done | by constructor].
Qed.

(** The list of files after each step of [add_file]. *)
Lemma image_files_add fs f :
  let n := length fs in
  image_files (fs ++ [f]) =
    <[Datatypes.S n := (T_FILE, [] ++ contents f)]> (<[0%nat := (T_DIR, rootdir fs ++ entry (Z.of_nat n + 2) (shortname f))]> (image_files fs ++ [(T_FILE, [])])).
Proof.
  intros n. unfold image_files. cbn [app]. change (<[0%nat := ?x]> (?y :: ?l)) with (x :: l).
  change (<[Datatypes.S n := ?x]> (?y :: ?l)) with (y :: <[n := x]> l). f_equal.
  - f_equal. unfold rootdir. rewrite entries_app, <- app_assoc. cbn [entries]. rewrite app_nil_r. by replace (2 + Z.of_nat (length fs)) with (Z.of_nat n + 2) by lia.
  - rewrite map_app. replace n with (length (map (fun f => (T_FILE, contents f)) fs) + 0)%nat by (rewrite length_map; unfold n; lia).
    by rewrite insert_app_r.
Qed.

Lemma wp_add_file st fs f A sl : inv st (image_files fs) A sl ->
  Z.of_nat (length fs) + 2 < NINODES -> nmeta + total (image_files (fs ++ [f])) <= FSSIZE ->
  SLASH ∉ basename (h_name f) -> Forall is_byte (h_name f) -> Forall read_ok (h_reads f) -> Z.of_nat (length (contents f)) <= MAXFILE * BSIZE ->
  wp (add_file 1 f) (fun _ st' => exists A' sl', inv st' (image_files (fs ++ [f])) A' sl') st.
Proof.
  intros I Hn Htot Hs Hb Hr Hmax. rewrite image_files_add in *. cbn zeta in *. set (F1 := image_files fs ++ [(T_FILE, [])]) in *.
  set (F2 := <[0%nat := _]> F1) in *. assert (length (image_files fs) = Datatypes.S (length fs)) as El by (cbn; by rewrite length_map).
  assert (F1 !! 0%nat = Some (T_DIR, rootdir fs)) as H0 by done.
  assert (F2 !! Datatypes.S (length fs) = Some (T_FILE, [])) as HS.
  { unfold F2, F1. rewrite list_lookup_insert_ne, lookup_app_r by lia. by rewrite El, Nat.sub_diag. }
  assert (nmeta + total F2 <= FSSIZE) as Ht2.
  { rewrite (total_insert _ _ _ _ _ HS) in Htot. cbn [app length] in Htot. change (blocks_for (Z.of_nat 0)) with 0 in Htot.
    pose proof (blocks_for_nonneg (Z.of_nat (length (contents f))) ltac:(lia)). lia. }
  unfold add_file. rewrite bool_decide_false by done. fold (shortname f). apply wp_bind.
  eapply wp_mono; [apply (wp_ialloc _ _ _ _ T_FILE I); [done | lia] |]. intros inum st1 [-> I1]. fold F1 in I1.
  rewrite xshort_small by (change NINODES with 200 in *; lia). replace (Z.of_nat (length (image_files fs)) + 1) with (Z.of_nat (length fs) + 2) by lia.
  apply wp_bind. eapply wp_mono; [apply (wp_iappend st1 F1 A sl 0 _ _ (entry _ (shortname f)) I1 H0) |].
  - by apply entry_bytes, shortname_bytes.
  - rewrite length_app, length_entry, Nat2Z.inj_add, length_rootdir. change NINODES with 200 in *. slia.
  - done.
  - intros [] st2 (A2 & sl2 & I2). fold F2 in I2. replace (Z.of_nat (length fs) + 2) with (Z.of_nat (Datatypes.S (length fs)) + 1) by lia.
    by apply (wp_append_reads _ _ _ _ _ _ [] (h_reads f) I2 HS).
Qed.

Lemma image_files_prefix fs gs : total (image_files fs) <= total (image_files (fs ++ gs)).
Proof.
  unfold image_files. cbn [total Datatypes.snd]. rewrite map_app, total_app, !length_rootdir, length_app.
  pose proof (total_nonneg (map (fun f => (T_FILE, contents f)) gs)).
  pose proof (blocks_for_mono (16 * (Z.of_nat (length fs) + 2)) (16 * (Z.of_nat (length fs + length gs) + 2)) ltac:(lia)). lia.
Qed.

Lemma wp_add_files st fs gs A sl : inv st (image_files fs) A sl -> fits (fs ++ gs) ->
  wp (add_files 1 gs) (fun _ st' => exists A' sl', inv st' (image_files (fs ++ gs)) A' sl') st.
Proof.
  revert st fs A sl. induction gs as [|g gs IH]; intros st fs A sl I Hf; cbn [add_files].
  - apply wp_ret. rewrite app_nil_r. eauto.
  - pose proof Hf as [Hn Ht Hname Hd]. apply Forall_app in Hname as [_ [[Hs Hb] _]%Forall_cons]. apply Forall_app in Hd as [_ [[Hr Hm] _]%Forall_cons].
    rewrite length_app in Hn. cbn [length] in Hn. pose proof (image_files_prefix (fs ++ [g]) gs) as Hp. rewrite <- app_assoc in Hp. cbn [app] in Hp.
    apply wp_bind. eapply wp_mono; [apply (wp_add_file _ _ g _ _ I); try done; lia |]. intros [] st1 (A1 & sl1 & I1).
    pose proof (IH st1 (fs ++ [g]) A1 sl1 I1) as W. rewrite <- app_assoc in W. by apply W.
Qed.

(** ** The finished image *)

Lemma get_zero k off : get_le k zero_block off = 0.
Proof.
  unfold get_le, slice. assert (Forall (.= 0) (take k (drop (Z.to_nat off) zero_block))) as Hz.
  { apply Forall_take, Forall_drop, Forall_replicate. done. }
  induction Hz as [|x l -> _ IH]; [done |]. cbn [le_val]. by rewrite IH.
Qed.

Lemma length_balloc_bits n i buf : length (balloc_bits n i buf) = length buf.
Proof. revert i buf. induction n as [|n IH]; intros i buf; cbn [balloc_bits]; [done |]. rewrite IH. unfold bit_set. by rewrite length_insert. Qed.

Lemma balloc_bits_spec n i buf b : 0 <= i -> i + Z.of_nat n <= 8192 -> length buf = 1024%nat -> 0 <= b ->
  bit_clear (balloc_bits n i buf) b = if decide (i <= b < i + Z.of_nat n) then false else bit_clear buf b.
Proof.
  revert i buf. induction n as [|n IH]; intros i buf Hi Hn Hl Hb; cbn [balloc_bits]; [by rewrite decide_False by lia |].
  rewrite IH; [| lia | lia | unfold bit_set; by rewrite length_insert | done]. rewrite bit_clear_set; [| done | done | rewrite Hl; apply Z.div_lt_upper_bound; lia].
  destruct (Z.eqb_spec i b); repeat case_decide; try lia; done.
Qed.

Lemma zero_bit b : bit_clear zero_block b = true.
Proof.
  unfold bit_clear, bit_byte, zero_block. destruct (replicate 1024 0 !! _) as [y|] eqn:E; cbn [default from_option].
  - apply lookup_replicate in E as [-> _]. by rewrite Z.land_0_l.
  - by rewrite Z.land_0_l.
Qed.

(** The size of the root directory is rounded up to the next block. *)
Definition root_size (n : Z) : Z := (n / BSIZE + 1) * BSIZE.

Record image (fs : list hfile) (st : mk) (A : nat -> list Z) (sl : nat -> Z -> Z) : Prop := Image {
  im_rep : rep st A sl (cont (image_files fs));
  im_mapped : forall i, mapped (sl i) (clen (cont (image_files fs)) i);
  im_root : dn st 1 = Dinode T_DIR 0 0 1 (root_size (Z.of_nat (length (rootdir fs)))) (A 0%nat);
  im_ino : forall i f, fs !! i = Some f -> dn st (Z.of_nat i + 2) = Dinode T_FILE 0 0 1 (Z.of_nat (length (contents f))) (A (Datatypes.S i));
  im_free : forall n, Z.of_nat (length fs) + 2 <= n < NINODES -> d_type (dn st n) = 0;
  im_fb : mk_freeblock st = nmeta + total (image_files fs);
  im_sb : sect (mk_img st) 1 = put_superblock mksb;
  im_bits : forall b, 0 <= b < 8192 -> bit_clear (sect (mk_img st) 45) b = (mk_freeblock st <=? b);
}.

(** The empty file system. *)
Lemma inv_empty st : mk_sb st = mksb -> mk_freeblock st = nmeta -> mk_freeinode st = 1 ->
  (forall n, 0 <= n < FSSIZE -> mk_img st !! n = Some (if decide (n = 1) then put_superblock mksb else zero_block)) ->
  inv st [] (fun _ => replicate 13 0) (fun _ _ => 0).
Proof.
  intros Hsb Hfb Hfi Himg. assert (length (put_superblock mksb) = 1024%nat) as Hls by reflexivity.
  assert (forall n, 0 <= n < FSSIZE -> sect (mk_img st) n = if decide (n = 1) then put_superblock mksb else zero_block) as Hs.
  { intros n Hn. unfold sect. by rewrite Himg. }
  split; try done.
  - split; try done.
    + intros n Hn. rewrite Hs, Himg by done. done.
    + rewrite Hfb. split; try done.
      * intros n Hn. rewrite Hs by done. by case_decide.
      * intros n Hn. rewrite Hs, decide_False by mlia. done.
    + intros i k Hk. unfold aslot, slot, iaddr. cbn [with_iaddrs i_addrs].
      assert (forall j, default 0 (replicate 13 0 !! j) = 0) as E by (intros j; destruct (replicate 13 0 !! j) eqn:Ej; [by apply lookup_replicate in Ej as [-> _] | done]).
      rewrite !E. repeat case_match; done.
  - intros i k Hk. split; [done |]. change (clen (cont []) i) with (Z.of_nat (length (cont [] i))). unfold cont. rewrite lookup_nil. cbn [mbind option_bind default from_option length]. destruct (Z.eqb_spec k (-1)); slia.
  - intros i Hi. split; [done |]. intros Hb. destruct (IBLOCK_mk (Z.of_nat i + 1) ltac:(lia)) as [_ Hr]. unfold dn.
    rewrite Hs, decide_False by mlia. cbn [get_dinode d_type]. unfold get16. by rewrite get_zero.
  - rewrite Hs by done. done.
Qed.

(** The image zeroed and the superblock written. *)
Lemma wp_format (K : M mk unit) Q :
  (forall st, inv st [] (fun _ => replicate 13 0) (fun _ _ => 0) -> wp K Q st) ->
  wp (modify (fun s => Mk (mk_img s) mksb (mk_freeinode s) nmeta) ;;;
      for_range (R := unit) (Z.to_nat FSSIZE) 0 (fun i => wsect i zero_block ;;; ret None) ;;;
      let! sb := gets mk_sb in wsect 1 (put_superblock sb) ;;; K) Q mk0.
Proof.
  intros HK. apply wp_bind, wp_modify, wp_bind.
  apply (wp_for_range _ (fun i s => mk_sb s = mksb /\ mk_freeblock s = nmeta /\ mk_freeinode s = 1 /\ forall n, 0 <= n < i -> mk_img s !! n = Some zero_block)).
  - cbn. split_and!; try done. intros n Hn. lia.
  - intros i s Hi (H1 & H2 & H3 & H4). apply wp_bind, wp_modify, wp_ret. cbn. split_and!; try done. intros n Hn.
    destruct (decide (n = i)) as [->|]; [by rewrite lookup_insert_eq | rewrite lookup_insert_ne by done; apply H4; lia].
  - intros s (H1 & H2 & H3 & H4). apply wp_bind, wp_gets, wp_bind, wp_modify. apply HK. apply inv_empty; cbn [mk_sb mk_freeblock mk_freeinode mk_img]; try done.
    intros n Hn. rewrite H1. case_decide as E; [by rewrite E, lookup_insert_eq | rewrite lookup_insert_ne by done]. apply H4. mlia.
Qed.

(** The root directory with its first two entries. *)
Lemma wp_root (K : Z -> M mk unit) Q st : inv st [] (fun _ => replicate 13 0) (fun _ _ => 0) ->
  (forall st' A sl, inv st' (image_files []) A sl -> wp (K 1) Q st') ->
  wp (let! rootino := ialloc T_DIR in
      if negb (rootino =? ROOTINO) then panic "assert"
      else iappend rootino (put_dirent (Dirent (xshort rootino) (pad_name [DOT]))) ;;;
           iappend rootino (put_dirent (Dirent (xshort rootino) (pad_name [DOT; DOT]))) ;;; K rootino) Q st.
Proof.
  intros I HK. apply wp_bind. eapply wp_mono; [apply (wp_ialloc _ _ _ _ T_DIR I); done |]. intros r st1 [-> I1]. cbn [length app Z.of_nat Z.add Z.eqb negb] in *.
  change (1 =? ROOTINO) with true. cbn [negb]. change (xshort 1) with 1.
  assert (Forall is_byte [DOT; DOT]) as Hd by (repeat constructor; done).
  apply wp_bind. eapply wp_mono; [apply (wp_iappend _ _ _ _ 0 _ _ (entry 1 [DOT]) I1 eq_refl) |].
  - apply entry_bytes. by inversion Hd.
  - rewrite length_app, length_entry. cbn [length]. slia.
  - rewrite (total_insert _ _ T_DIR []) by done. rewrite length_app, length_entry. done.
  - intros [] st2 (A2 & sl2 & I2). change (<[0%nat := ?x]> [?y]) with [x] in I2.
    apply wp_bind. eapply wp_mono; [apply (wp_iappend _ _ _ _ 0 _ _ (entry 1 [DOT; DOT]) I2 eq_refl) |].
    + by apply entry_bytes.
    + rewrite !length_app, !length_entry. cbn [length]. slia.
    + rewrite (total_insert _ _ T_DIR ([] ++ entry 1 [DOT])) by done. cbn [total]. rewrite !length_app, !length_entry. done.
    + intros [] st3 (A3 & sl3 & I3). change (<[0%nat := ?x]> [?y]) with [x] in I3. apply (HK _ A3 sl3).
      unfold image_files, rootdir. cbn [entries map]. by rewrite app_nil_r.
Qed.

Lemma image_lookup fs i : image_files fs !! Datatypes.S i = (fun f => (T_FILE, contents f)) <$> fs !! i.
Proof. apply (list_lookup_fmap (fun f => (T_FILE, contents f)) fs i). Qed.

(** The root directory's size and the bitmap. *)
Lemma wp_finish fs st A sl : inv st (image_files fs) A sl -> fits fs ->
  wp (let! din := rinode 1 in
      let off := xint (d_size din) in
      let off := u32 ((off / BSIZE + 1) * BSIZE) in
      winode 1 (Dinode (d_type din) (d_major din) (d_minor din) (d_nlink din) (xint off) (d_addrs din)) ;;;
      let! fb := gets mk_freeblock in
      balloc fb) (fun _ st' => image fs st' A sl) st.
Proof.
  intros [R Hm Hino Hfree Hfi Hn Hfb Hsb Hfits] Hf. pose proof (length_rootdir fs) as Hlr. pose proof (ft_n _ Hf) as Hnf. pose proof (ft_total _ Hf) as Ht.
  change NINODES with 200 in *. set (len := Z.of_nat (length (rootdir fs))) in *. assert (0 <= len / BSIZE <= 4) as Hq by dlia.
  apply wp_bind. eapply wp_rinode; [exact R | done |]. pose proof (Hino 0%nat _ _ eq_refl) as E0. change (Z.of_nat 0 + 1) with 1 in E0. rewrite E0.
  cbn [d_addrs d_size d_type d_major d_minor d_nlink]. fold len. rewrite (xint_small len) by slia.
  rewrite u32_small by slia. rewrite xint_small by slia. fold (root_size len). apply wp_bind.
  eapply wp_mono; [apply (wp_winode _ _ _ _ _ _ R); [done |] |].
  { apply dinode_new; [done | unfold root_size; slia | by eapply addrs_ok]. }
  intros [] st1 (R1 & F1 & F2 & D1 & D2 & S1). apply wp_bind, wp_gets. pose proof (co_fb _ _ _ _ (rp_core _ _ _ _ R1)) as Hb.
  unfold balloc. change (BSIZE * 8) with 8192. rewrite (proj2 (Z.ltb_lt _ _)) by mlia. cbn [negb]. apply wp_bind, wp_gets. rewrite (rp_sb _ _ _ _ R1).
  change (sb_bmapstart mksb) with 45. apply wp_modify. set (bits := balloc_bits _ _ _). fold (with_sect 45 bits st1).
  assert (length bits = 1024%nat) as Hlb by (unfold bits; by rewrite length_balloc_bits).
  assert (forall j, 0 <= j < NINODES -> dn (with_sect 45 bits st1) j = dn st1 j) as D3.
  { intros j Hj. destruct (IBLOCK_mk j Hj). unfold dn. cbn [with_sect mk_img]. by rewrite sect_insert, decide_False by lia. }
  split.
  - apply rep_meta; [done | mlia | done].
  - done.
  - by rewrite D3, D1.
  - intros i f Hi. pose proof (lookup_lt_Some _ _ _ Hi). rewrite D3, D2 by (change NINODES with 200; lia).
    replace (Z.of_nat i + 2) with (Z.of_nat (Datatypes.S i) + 1) by lia. apply Hino. by rewrite image_lookup, Hi.
  - intros n Hnr. change NINODES with 200 in Hnr. rewrite D3, D2 by (change NINODES with 200; lia).
    destruct (Hfree (Z.to_nat (n - 1))) as [_ H]; [cbn; rewrite length_map; lia |]. rewrite Z2Nat.id in H by lia.
    replace (n - 1 + 1) with n in H by lia. apply H. lia.
  - cbn. by rewrite F1.
  - cbn [with_sect mk_img]. rewrite sect_insert, decide_False by lia. by rewrite S1.
  - intros b Hbr. cbn [with_sect mk_img mk_freeblock]. rewrite sect_insert, decide_True by done. unfold bits.
    rewrite balloc_bits_spec by (done || mlia). rewrite zero_bit. destruct (Z.leb_spec (mk_freeblock st1) b); case_decide; mlia || done.
Qed.

Lemma main_image fs : fits fs -> wp (main fs) (fun _ st => exists A sl, image fs st A sl) mk0.
Proof.
  intros Hf. unfold main. apply wp_format. intros st I. apply wp_root; [done |]. intros st1 A1 sl1 I1.
  apply wp_bind. eapply wp_mono; [apply (wp_add_files st1 [] fs A1 sl1 I1 Hf) |]. intros [] st2 (A2 & sl2 & I2). cbn [app] in I2.
  eapply wp_mono; [by eapply wp_finish |]. intros [] st3 I3. by exists A2, sl2.
Qed.

(** ** The image, mounted by the kernel *)

(** The root directory on disk ends with empty entries. *)
Definition root_pad (fs : list hfile) : nat := Z.to_nat (root_size (Z.of_nat (length (rootdir fs)))) - length (rootdir fs).
Definition disk_files (fs : list hfile) : files :=
  (T_DIR, rootdir fs ++ replicate (root_pad fs) 0) :: map (fun f => (T_FILE, contents f)) fs.

Section mounted.
Context {S U : Type} {vw : S -> Z -> list Z} {loggable : Z -> Prop} {dev : Z}.
Implicit Types s : fst (S := S) (U := U).

Abbreviation V := (V (vw := vw)).
Abbreviation free := (free (vw := vw)).
Abbreviation fs_ok := (fs_ok (vw := vw) (loggable := loggable)).
Abbreviation inode_ok := (inode_ok (vw := vw) (loggable := loggable) (dev := dev)).

(** The kernel sees the image's blocks, and has read its superblock. *)
Definition mounted (st : mk) s : Prop :=
  (forall n, 0 <= n < FSSIZE -> V s n = sect (mk_img st) n) /\ f_sb s = get_superblock (V s 1).

(** Inode [inum] as [ilock] loads it. *)
Definition loaded s (inum : Z) : inode := with_disk (dino (vw := vw) s inum) (Inode dev inum 1 initsleeplock true 0 0 0 0 0 []).

Record mounted_ok (fs : list hfile) s : Prop := MountedOk {
  mo_sb : sb_magic (f_sb s) = FSMAGIC /\ sb_size (f_sb s) = FSSIZE /\ sb_ninodes (f_sb s) = NINODES /\
    sb_logstart (f_sb s) = 2 /\ sb_nlog (f_sb s) = LOGSIZE;
  mo_fs : fs_ok s;
  mo_free : forall b, 0 <= b < FSSIZE -> free s b = (nmeta + total (image_files fs) <=? b);
  mo_file : forall i t c, disk_files fs !! i = Some (t, c) ->
    let ip := loaded s (Z.of_nat i + 1) in
    inode_ok s ip /\ i_type ip = t /\ i_nlink ip = 1 /\ i_size ip = Z.of_nat (length c) /\
    fbytes (V s) (slot (V s) ip) 0 (Z.of_nat (length c)) = c;
  mo_apart : forall i j k k', (i <= length fs)%nat -> (j <= length fs)%nat -> is_slot k -> is_slot k' ->
    let f i := slot (V s) (loaded s (Z.of_nat i + 1)) in f i k <> 0 -> f i k = f j k' -> i = j /\ k = k';
  mo_unused : forall n, Z.of_nat (length fs) + 2 <= n < NINODES -> i_type (loaded s n) = 0;
}.

Lemma fbyte_ext v v' f f' x : 0 <= x < MAXFILE * BSIZE -> (forall k, is_slot k -> f' k = f k) ->
  (forall k, is_slot k -> f k <> 0 -> v' (f k) = v (f k)) -> fbyte v' f' x = fbyte v f x.
Proof.
  intros Hx Hf Hv. destruct (slot_at x Hx) as (_ & Hs & _). unfold fbyte. rewrite Hf by done.
  destruct (Z.eqb_spec (f (x / BSIZE)) 0); [done |]. by rewrite Hv.
Qed.

Lemma fbytes_eq v f c : (forall x, 0 <= x < Z.of_nat (length c) -> fbyte v f x = default 0 (c !! Z.to_nat x)) ->
  fbytes v f 0 (Z.of_nat (length c)) = c.
Proof.
  intros H. apply list_eq. intros i. unfold fbytes. rewrite list_lookup_fmap. destruct (decide (i < length c)%nat) as [Hi|Hi].
  - rewrite lookup_seqZ_lt by lia. cbn [fmap option_fmap option_map]. rewrite H by lia. rewrite Z.add_0_l, Nat2Z.id.
    by destruct (lookup_lt_is_Some_2 c i Hi) as [b ->].
  - rewrite lookup_seqZ_ge, lookup_ge_None_2 by lia. done.
Qed.

Context (fs : list hfile) (st : mk) (A : nat -> list Z) (sl : nat -> Z -> Z) (Im : image fs st A sl).
Context (s : fst (S := S) (U := U)) (Hmt : mounted st s).

Lemma mounted_sb : f_sb s = mksb.
Proof. destruct Hmt as [HV ->]. rewrite HV by done. rewrite (im_sb _ _ _ _ Im). reflexivity. Qed.

Lemma mounted_dino inum : 0 <= inum < NINODES -> dino (vw := vw) s inum = dn st inum.
Proof.
  intros Hi. unfold dino, dn. rewrite mounted_sb. destruct (IBLOCK_mk inum Hi) as [_ Hb]. by rewrite (proj1 Hmt) by mlia.
Qed.

Lemma mounted_free b : 0 <= b < FSSIZE -> free s b = (nmeta + total (image_files fs) <=? b).
Proof.
  intros Hb. unfold Balloc.free. rewrite mounted_sb. change (BBLOCK b mksb) with (u32 (b / 8192 + 45)). change BPB with 8192. change FSSIZE with 1000 in *.
  rewrite Z.div_small, Z.mod_small by lia. change (u32 (0 + 45)) with 45. rewrite (proj1 Hmt) by mlia.
  rewrite (im_bits _ _ _ _ Im) by lia. by rewrite (im_fb _ _ _ _ Im).
Qed.

Lemma mounted_slot i k : (exists t sz, 0 <= Z.of_nat i + 1 < NINODES /\ dn st (Z.of_nat i + 1) = Dinode t 0 0 1 sz (A i)) -> is_slot k ->
  slot (V s) (loaded s (Z.of_nat i + 1)) k = sl i k.
Proof.
  intros (t & sz & Hi & E) Hk. pose proof (im_rep _ _ _ _ Im) as R. rewrite <- (rp_slots _ _ _ _ R i k Hk). apply slot_ext.
  - unfold loaded. rewrite mounted_dino, E by done. done.
  - change (iaddr (with_iaddrs (A i) inode0) NDIRECT) with (aslot (sect (mk_img st)) (A i) (-1)). rewrite (rp_slots _ _ _ _ R) by apply is_slot_ind.
    intros Hn. pose proof (slot_range _ _ _ _ i (-1) R is_slot_ind). apply (proj1 Hmt). mlia.
Qed.

Context (Hlog : forall n, 0 <= n < FSSIZE -> ~ in_log 2 LOGSIZE n -> loggable n) (Hf : fits fs).

Lemma mk_is_bmap n : is_bmap mksb n <-> n = 45.
Proof. unfold is_bmap. change (sb_bmapstart mksb) with 45. change ((sb_size mksb - 1) / BPB) with 0. lia. Qed.

Lemma mk_is_iblk n : is_iblk mksb n -> 32 <= n < 45.
Proof. intros (i & Hi & ->). by apply IBLOCK_mk. Qed.

(** Blocks past the log can be logged. *)
Lemma mk_loggable n : 32 <= n < FSSIZE -> loggable n.
Proof. intros Hn. apply Hlog; [lia |]. unfold in_log. change LOGSIZE with 30. lia. Qed.

Lemma mounted_fs_ok : fs_ok s.
Proof.
  split; rewrite ?mounted_sb.
  - split; [done | done |]. intros n ->%mk_is_bmap. by apply mk_loggable.
  - split; [done | done |]. intros i Hi. destruct (IBLOCK_mk i Hi) as [_ Hr]. apply mk_loggable. mlia.
  - intros m Hm%mk_is_iblk ->%mk_is_bmap. lia.
  - intros b Hb. change (sb_size mksb) with FSSIZE in Hb. rewrite mounted_free by done. intros Hfb%Z.leb_le.
    pose proof (total_nonneg (image_files fs)). change nmeta with 46 in *. split_and!; [lia | apply mk_loggable; lia | |].
    + intros ->%mk_is_bmap. lia.
    + intros Hb'%mk_is_iblk. lia.
Qed.

(** A file of the image: its contents, possibly followed by zeros in its
    last block. *)
Lemma mounted_file i t m c : (i <= length fs)%nat -> c = cont (image_files fs) i ++ replicate m 0 ->
  dn st (Z.of_nat i + 1) = Dinode t 0 0 1 (Z.of_nat (length c)) (A i) -> 0 <= t < 2 ^ 15 -> Z.of_nat (length c) <= MAXFILE * BSIZE ->
  (forall k, 0 <= k -> k * BSIZE < Z.of_nat (length c) -> k * BSIZE < clen (cont (image_files fs)) i) ->
  let ip := loaded s (Z.of_nat i + 1) in
  inode_ok s ip /\ i_type ip = t /\ i_nlink ip = 1 /\ i_size ip = Z.of_nat (length c) /\ fbytes (V s) (slot (V s) ip) 0 (Z.of_nat (length c)) = c.
Proof.
  intros Hi Ec Ed Ht Hmax Hpad ip. pose proof (ft_n _ Hf) as Hn. assert (0 <= Z.of_nat i + 1 < NINODES) as Hr by lia.
  pose proof (im_rep _ _ _ _ Im) as R. pose proof (rp_core _ _ _ _ R) as Hc. pose proof (co_fb _ _ _ _ Hc) as Hfb. rewrite (im_fb _ _ _ _ Im) in Hfb.
  assert (to_disk ip = Dinode t 0 0 1 (Z.of_nat (length c)) (A i)) as Ei by (unfold ip, loaded; rewrite mounted_dino, Ed by done; done).
  assert (forall k, is_slot k -> slot (V s) ip k = sl i k) as Es by (intros k Hk; apply mounted_slot; eauto).
  assert (forall k, is_slot k -> sl i k <> 0 -> nmeta <= sl i k < nmeta + total (image_files fs) /\ V s (sl i k) = sect (mk_img st) (sl i k)) as Er.
  { intros k Hk Hz. pose proof (co_range _ _ _ _ Hc i k Hk Hz) as Hx. rewrite (im_fb _ _ _ _ Im) in Hx. split; [done |]. apply (proj1 Hmt). mlia. }
  pose proof (f_equal d_size Ei) as E5. pose proof (f_equal d_type Ei) as E1. pose proof (f_equal d_nlink Ei) as E4. cbn [to_disk d_size d_type d_nlink] in E5, E1, E4.
  split_and!; try done.
  - split.
    + rewrite Ei. apply dinode_new; [done | lia | by eapply addrs_ok].
    + done.
    + rewrite mounted_sb. done.
    + split.
      * intros k Hk. rewrite Es by done. intros Hz. destruct (Er k Hk Hz) as [Hx _]. split; rewrite ?mounted_sb.
        -- change (sb_size mksb) with FSSIZE. mlia.
        -- rewrite mounted_free by mlia. apply Z.leb_gt. lia.
        -- apply mk_loggable. mlia.
        -- split; [intros H%mk_is_bmap | intros H%mk_is_iblk]; mlia.
      * intros k k' Hk Hk'. rewrite !Es by done. intros Hz E. by destruct (co_inj _ _ _ _ Hc i k i k' Hk Hk' Hz E).
      * intros k Hk Hk1. rewrite Es by done. intros Hz. rewrite (proj2 (Er k Hk Hz)). by apply (co_byte _ _ _ _ Hc).
    + rewrite E5. lia.
    + rewrite E5. intros k Hk Hlt. assert (is_slot k) as Hs by slia. rewrite Es by done. apply (im_mapped _ _ _ _ Im); [done |].
      rewrite (proj2 (Z.eqb_neq _ _)) by lia. auto.
  - apply fbytes_eq. intros x Hx. rewrite (fbyte_ext (sect (mk_img st)) _ (sl i)); [| lia | done | intros k Hk Hz; by apply Er].
    rewrite (co_data _ _ _ _ Hc) by lia. rewrite Ec, default_app. case_decide; [| done]. rewrite lookup_ge_None_2 by lia.
    by rewrite lookup_replicate_2 by (rewrite length_replicate in *; lia).
Qed.
End mounted.


(** Two files: user/_cat in two reads, and README. *)
Definition demo_files : list hfile :=
  [Hfile [117; 115; 101; 114; 47; 95; 99; 97; 116] [[1; 2; 3]; [4]]; Hfile [82; 69; 65; 68; 77; 69] [[72; 105]]].

Lemma demo_fits : fits demo_files.
Proof.
  split; [done | vm_compute; discriminate | |].
  - repeat constructor; try (apply (bool_decide_unpack _); vm_compute; exact I); unfold is_byte; lia.
  - repeat constructor; try done; unfold is_byte; lia.
Qed.


(** With a root directory of whole blocks (62 files, 126 files, ...) the
    rounding adds a block to its size that is not there. *)
Lemma mkfs_root_hole fs : fits fs -> (Z.of_nat (length fs) + 2) mod 64 = 0 ->
  wp (main fs) (fun _ st => exists k, 0 <= k /\ k * BSIZE < d_size (dn st 1) /\ aslot (sect (mk_img st)) (d_addrs (dn st 1)) k = 0) mk0.
Proof.
  intros Hf H64. eapply wp_mono; [by apply main_image |]. intros [] st (A & sl & Im). rewrite (im_root _ _ _ _ Im). cbn [d_size d_addrs].
  pose proof (length_rootdir fs) as Hl. pose proof (ft_n _ Hf) as Hn. change NINODES with 200 in *. set (len := Z.of_nat (length (rootdir fs))) in *.
  exists (len / BSIZE). assert (is_slot (len / BSIZE)) as Hs by dlia. rewrite (rp_slots _ _ _ _ (im_rep _ _ _ _ Im)) by done.
  split_and!; [dlia | unfold root_size; dlia |]. destruct (decide (sl 0%nat (len / BSIZE) = 0)) as [|Hne]; [done |].
  apply (im_mapped _ _ _ _ Im 0%nat _ Hs) in Hne. change (clen (cont (image_files fs)) 0) with len in Hne.
  rewrite (proj2 (Z.eqb_neq _ _)) in Hne by dlia. dlia.
Qed.
