(* ===== verification/Printf.v ===== *)
(** * kernel/printf.c

    The printing functions have one effect, the calls of [consputc]; they are
    modelled as the list of characters they pass to it, in order.  [pr.lock]
    makes one call of [printf] atomic.  The variable arguments are the
    64-bit words [va_arg] takes one after the other; [str] gives the C string
    at an address. *)

From Stdlib Require Import Ascii.
From S2P Require Import Prelude.

(** The characters of a string literal. *)
Fixpoint zstr (s : string) : list Z :=
  match s with
  | EmptyString => []
  | String c s' => Z.of_N (Ascii.N_of_ascii c) :: zstr s'
  end.

Definition MINUS : Z := 45.
Definition PERCENT : Z := 37.
Definition digits : list Z := [48; 49; 50; 51; 52; 53; 54; 55; 56; 57; 97; 98; 99; 100; 101; 102].
Definition digit (d : Z) : Z := default 0 (digits !! Z.to_nat d).

(** The [do ... while] loop: the digits of [x], least significant first, in
    the order they enter [buf]. *)
Fixpoint digit_loop (fuel : nat) (x base : Z) : option (list Z) :=
  match fuel with
  | O => None
  | S fuel' =>
      let q := x / base in
      if q =? 0 then Some [digit (x mod base)]
      else option_map (cons (digit (x mod base))) (digit_loop fuel' q base)
  end.

(** [uint] has 32 bits, so no base above 1 needs more than 32 digits. *)
Definition digit_fuel : nat := 32.

(** [buf] as the loop and the sign leave it, and printed from its end. *)
Definition printint_buf (xx base : Z) (sign : bool) : option (list Z) :=
  let neg := sign && (xx <? 0) in
  let x := if neg then u32 (- xx) else u32 xx in
  option_map (fun buf => if neg then buf ++ [MINUS] else buf) (digit_loop digit_fuel x base).

Definition printint (xx base : Z) (sign : bool) : option (list Z) :=
  option_map (@rev Z) (printint_buf xx base sign).

Fixpoint printptr_loop (k : nat) (x : Z) : list Z :=
  match k with
  | O => []
  | S k' => digit (Z.shiftr x 60) :: printptr_loop k' (u64 (Z.shiftl x 4))
  end.

Definition printptr (x : Z) : list Z := 48 :: 120 :: printptr_loop 16 x.

Definition null_str : list Z := [40; 110; 117; 108; 108; 41].

(** The body of the conversion loop of [printf] and [info_with_color];
    [None]: [va_arg] is called more often than there are arguments. *)
Fixpoint print_fmt (str : Z -> list Z) (fmt : list Z) (args : list Z) : option (list Z) :=
  match fmt with
  | [] => Some []
  | c :: rest =>
      if negb (c =? PERCENT) then option_map (cons c) (print_fmt str rest args)
      else
        match rest with
        | [] => Some []
        | c :: rest =>
            if (c =? 100) || (c =? 120) then
              match args with
              | [] => None
              | a :: args' =>
                  match printint (s32 a) (if c =? 100 then 10 else 16) true with
                  | Some out => option_map (app out) (print_fmt str rest args')
                  | None => None
                  end
              end
            else if c =? 112 then
              match args with
              | [] => None
              | a :: args' => option_map (app (printptr (u64 a))) (print_fmt str rest args')
              end
            else if c =? 115 then
              match args with
              | [] => None
              | a :: args' =>
                  option_map (app (if a =? 0 then null_str else str a)) (print_fmt str rest args')
              end
            else if c =? PERCENT then option_map (cons PERCENT) (print_fmt str rest args)
            else option_map (fun out => PERCENT :: c :: out) (print_fmt str rest args)
        end
  end.

(** [printf] without TEST; a null [fmt] panics. *)
Definition printf (str : Z -> list Z) (fmt : option (list Z)) (args : list Z) : M unit (option (list Z)) :=
  match fmt with
  | None => panic "null fmt"
  | Some f => ret (print_fmt str f args)
  end.

Definition ESC_CYAN : list Z := [27; 91; 48; 59; 51; 54; 109].
Definition INFO_TAG : list Z := [91; 73; 78; 70; 79; 93; 32].
Definition ESC_RESET : list Z := [27; 91; 48; 109].

(** [exit_info] of defs.h, without LAB_SYSCALL_TEST. *)
Definition info_with_color (str : Z -> list Z) (fmt : option (list Z)) (args : list Z) : M unit (option (list Z)) :=
  match fmt with
  | None => panic "null fmt"
  | Some f => ret (option_map (fun out => ESC_CYAN ++ INFO_TAG ++ out ++ ESC_RESET) (print_fmt str f args))
  end.

(** ** Numbers *)

(** The value of a digit, and of a digit string, most significant first. *)
Definition digit_val (c : Z) : Z := if c <? 97 then c - 48 else c - 87.
Definition num_val (base : Z) (ds : list Z) : Z := foldl (fun v c => v * base + digit_val c) 0 ds.

Lemma digit_val_digit d : 0 <= d < 16 -> digit_val (digit d) = d.
Proof.
  intros. assert (d = 0 \/ d = 1 \/ d = 2 \/ d = 3 \/ d = 4 \/ d = 5 \/ d = 6 \/ d = 7 \/ d = 8 \/ d = 9 \/
    d = 10 \/ d = 11 \/ d = 12 \/ d = 13 \/ d = 14 \/ d = 15) as Hd by lia.
  by repeat destruct Hd as [-> | Hd]; subst.
Qed.

Lemma digit_in d : 0 <= d < 16 -> digit d ∈ digits.
Proof.
  intros. unfold digit. destruct (digits !! Z.to_nat d) eqn:E.
  - by eapply list_elem_of_lookup_2.
  - apply lookup_ge_None in E. cbn in E. lia.
Qed.

Lemma digits_not_minus c : c ∈ digits -> c <> MINUS.
Proof. intros H ->. revert H. apply (bool_decide_unpack (MINUS ∉ digits)). by vm_compute. Qed.

Lemma num_val_snoc base ds c : num_val base (ds ++ [c]) = num_val base ds * base + digit_val c.
Proof. unfold num_val. by rewrite foldl_app. Qed.

(** The loop produces the base-[base] digits of [x]: at most [k] of them when
    [x < base^k], with no leading zero unless [x] is 0. *)
Lemma digit_loop_spec fuel k x base :
  2 <= base <= 16 -> 0 <= x < base ^ Z.of_nat k -> (k <= fuel)%nat -> (0 < k)%nat ->
  exists ds, digit_loop fuel x base = Some ds /\ num_val base (rev ds) = x /\
    Forall (.∈ digits) ds /\ (1 <= length ds <= k)%nat /\
    (x <> 0 -> head (rev ds) <> Some (digit 0)).
Proof.
  revert k x. induction fuel as [|fuel IH]; intros k x Hb Hx Hk H0; [lia |]. cbn [digit_loop].
  assert (0 <= x mod base < base) as Hm by (apply Z.mod_pos_bound; lia).
  pose proof (Z.div_mod x base ltac:(lia)) as Hdm.
  destruct (Z.eqb_spec (x / base) 0) as [Eq|Nq].
  - eexists. split_and!; [done | | | cbn; lia | cbn; lia |].
    + change (0 * base + digit_val (digit (x mod base)) = x). rewrite digit_val_digit by lia. lia.
    + constructor; [apply digit_in; lia | constructor].
    + intros Hx0 [= Hd]. apply Hx0. apply (f_equal digit_val) in Hd. rewrite !digit_val_digit in Hd by lia. lia.
  - destruct k as [|k]; [lia |].
    assert (base ^ Z.of_nat (S k) = base * base ^ Z.of_nat k) as Hpow.
    { rewrite Nat2Z.inj_succ, Z.pow_succ_r by lia. done. }
    assert (0 <= x / base < base ^ Z.of_nat k) as Hq.
    { split; [apply Z.div_pos; lia | apply Z.div_lt_upper_bound; lia]. }
    assert (0 < k)%nat as Hk0.
    { destruct k; [|lia]. change (base ^ Z.of_nat 0) with 1 in Hq. lia. }
    destruct (IH k (x / base) Hb Hq ltac:(lia) Hk0) as (ds & -> & Hv & HF & Hl & Hz).
    exists (digit (x mod base) :: ds). cbn [option_map rev]. split_and!; [done | | | cbn; lia | cbn; lia |].
    + rewrite num_val_snoc, Hv, digit_val_digit by lia. lia.
    + constructor; [apply digit_in; lia | done].
    + intros _. specialize (Hz Nq). destruct (rev ds) eqn:E; [| done].
      apply (f_equal length) in E. rewrite length_rev in E. cbn in E. lia.
Qed.

Lemma num_val_acc base ds v :
  foldl (fun v c => v * base + digit_val c) v ds = v * base ^ Z.of_nat (length ds) + num_val base ds.
Proof.
  unfold num_val. revert v. induction ds as [|c ds IH]; intros v; cbn [foldl length].
  - rewrite Z.pow_0_r. lia.
  - rewrite IH, (IH (0 * base + _)), Nat2Z.inj_succ, Z.pow_succ_r by lia. ring.
Qed.

Lemma num_val_cons base c ds :
  num_val base (c :: ds) = digit_val c * base ^ Z.of_nat (length ds) + num_val base ds.
Proof. unfold num_val at 1. cbn [foldl]. rewrite num_val_acc. ring. Qed.

(** After [k] rounds the [4 * k] top bits of [x] have been printed. *)
Lemma printptr_loop_spec k x : 0 <= x < 2 ^ 64 -> (k <= 16)%nat ->
  num_val 16 (printptr_loop k x) = x / 2 ^ (64 - 4 * Z.of_nat k) /\ length (printptr_loop k x) = k /\
  Forall (.∈ digits) (printptr_loop k x).
Proof.
  revert x. induction k as [|k IH]; intros x Hx Hk; cbn [printptr_loop].
  { split_and!; [| done | constructor]. symmetry. by apply Z.div_small. }
  rewrite Z.shiftr_div_pow2, Z.shiftl_mul_pow2 by lia. set (d := x / 2 ^ 60). set (r := x mod 2 ^ 60).
  assert (x = d * 2 ^ 60 + r) as Hxr by (subst d r; rewrite Z.mul_comm; apply Z.div_mod; lia).
  assert (0 <= r < 2 ^ 60) by (apply Z.mod_pos_bound; lia).
  assert (0 <= d < 16) by lia.
  assert (u64 (x * 2 ^ 4) = r * 2 ^ 4) as ->.
  { unfold u64. rewrite Hxr. replace ((d * 2 ^ 60 + r) * 2 ^ 4) with (r * 2 ^ 4 + d * 2 ^ 64) by ring.
    rewrite Z.mod_add by lia. apply Z.mod_small. lia. }
  destruct (IH (r * 2 ^ 4) ltac:(lia) ltac:(lia)) as (Hv & Hl & HF). split_and!.
  - rewrite num_val_cons, Hl, Hv, digit_val_digit by lia.
    set (j := 60 - 4 * Z.of_nat k). assert (0 <= j) by lia.
    replace (64 - 4 * Z.of_nat k) with (j + 4) by lia. replace (64 - 4 * Z.of_nat (S k)) with j by lia.
    rewrite Z.pow_add_r, Z.div_mul_cancel_r by lia.
    assert (2 ^ 60 = 16 ^ Z.of_nat k * 2 ^ j) as Hp.
    { change 16 with (2 ^ 4). rewrite <- Z.pow_mul_r, <- Z.pow_add_r by lia. f_equal. lia. }
    rewrite Hxr, Hp, Z.mul_assoc, Z.div_add_l by lia. done.
  - cbn. by rewrite Hl.
  - constructor; [by apply digit_in | done].
Qed.

(** [printint] prints the sign, exactly when the number is negative and a
    sign is wanted, and the digits of the absolute value with no superfluous
    leading zero; its 16-byte buffer never overflows.  [printptr] prints 0x and
    sixteen hexadecimal digits that denote the 64-bit value. *)
Theorem printint_correct (xx base x : Z) (sign : bool) :
  - 2 ^ 31 <= xx < 2 ^ 31 -> base = 10 \/ base = 16 -> 0 <= x < 2 ^ 64 ->
  let neg := sign && (xx <? 0) in
  (exists buf ds, printint_buf xx base sign = Some buf /\ (length buf <= 16)%nat /\
     printint xx base sign = Some ((if neg then [MINUS] else []) ++ ds) /\
     Forall (.∈ digits) ds /\ ds <> [] /\
     num_val base ds = (if neg then - xx else u32 xx) /\
     (xx <> 0 -> head ds <> Some (digit 0))) /\
  (exists hs, printptr x = [48; 120] ++ hs /\ length hs = 16%nat /\ Forall (.∈ digits) hs /\ num_val 16 hs = x).
Proof.
  intros Hxx Hb Hx neg. split.
  - set (v := if neg then u32 (- xx) else u32 xx).
    assert (0 <= v < 2 ^ 32) as Hv by (subst v; destruct neg; apply u32_range).
    assert (v = 0 -> xx = 0) as Hz by (subst v neg; unfold u32; destruct sign; cbn; [destruct (Z.ltb_spec xx 0) |]; intros; Z.div_mod_to_equations; lia).
    destruct (digit_loop_spec digit_fuel 10 v base) as (ds & Hd & Hn & HF & Hl & H0);
      [destruct Hb; subst; lia | destruct Hb; subst; split; try lia; change (v < 2 ^ 40); lia | unfold digit_fuel; lia | lia |].
    unfold printint, printint_buf. fold neg v. rewrite Hd. cbn [option_map].
    eexists _, (rev ds). split_and!; [done | | | | | | intros Hn0; apply H0; intros E; by apply Hn0, Hz].
    + destruct neg; rewrite ?length_app; cbn; lia.
    + f_equal. destruct neg; [by rewrite rev_app_distr | done].
    + by apply Forall_rev.
    + intros E. apply (f_equal length) in E. rewrite length_rev in E. cbn in E. lia.
    + rewrite Hn. subst v. destruct neg eqn:En; [| done]. apply u32_small. subst neg.
      apply andb_true_iff in En as [_ En%Z.ltb_lt]. lia.
  - destruct (printptr_loop_spec 16 x Hx ltac:(lia)) as (Hv & Hl & HF). eexists. split_and!; [done.. |].
    rewrite Hv. apply Z.div_1_r.
Qed.

Lemma printint_witness :
  printint (-2147483648) 10 true = Some [45; 50; 49; 52; 55; 52; 56; 51; 54; 52; 56] /\
  exists buf, printint_buf (-2147483648) 10 true = Some buf /\ (length buf <= 16)%nat.
Proof.
  destruct (printint_correct (-2147483648) 10 255 true) as [(buf & ds & H1 & H2 & _) _]; [lia | by left | lia |].
  split; [by vm_compute | by exists buf].
Defined.
