(* ===== verification/Virtio.v ===== *)
(** * kernel/virtio_disk.c: the disk driver

    The rings the driver shares with the device, its book-keeping, and the
    device itself as the virtio specification describes it: it fetches the
    heads of descriptor chains from the available ring, performs the requests
    they describe in any order, and puts the heads on the used ring.
    [vdisk_lock] makes the code between [acquire] or [sleep] and the next
    [sleep] or [release] one step of the model, except that the device may
    look at the rings before a new request is published.  Addresses the device
    is given are pointers to the objects the driver means. *)

From S2P Require Import Prelude Riscv Bio.

(** ** kernel/virtio.h *)

Definition VIRTIO_MMIO_MAGIC_VALUE : Z := 0x000.
Definition VIRTIO_MMIO_VERSION : Z := 0x004.
Definition VIRTIO_MMIO_DEVICE_ID : Z := 0x008.
Definition VIRTIO_MMIO_VENDOR_ID : Z := 0x00c.
Definition VIRTIO_MMIO_DEVICE_FEATURES : Z := 0x010.
Definition VIRTIO_MMIO_DRIVER_FEATURES : Z := 0x020.
Definition VIRTIO_MMIO_GUEST_PAGE_SIZE : Z := 0x028.
Definition VIRTIO_MMIO_QUEUE_SEL : Z := 0x030.
Definition VIRTIO_MMIO_QUEUE_NUM_MAX : Z := 0x034.
Definition VIRTIO_MMIO_QUEUE_NUM : Z := 0x038.
Definition VIRTIO_MMIO_QUEUE_PFN : Z := 0x040.
Definition VIRTIO_MMIO_QUEUE_NOTIFY : Z := 0x050.
Definition VIRTIO_MMIO_INTERRUPT_STATUS : Z := 0x060.
Definition VIRTIO_MMIO_INTERRUPT_ACK : Z := 0x064.
Definition VIRTIO_MMIO_STATUS : Z := 0x070.
Definition VIRTIO_CONFIG_S_ACKNOWLEDGE : Z := 1.
Definition VIRTIO_CONFIG_S_DRIVER : Z := 2.
Definition VIRTIO_CONFIG_S_DRIVER_OK : Z := 4.
Definition VIRTIO_CONFIG_S_FEATURES_OK : Z := 8.
Definition VIRTIO_BLK_F_RO : Z := 5.
Definition VIRTIO_BLK_F_SCSI : Z := 7.
Definition VIRTIO_BLK_F_CONFIG_WCE : Z := 11.
Definition VIRTIO_BLK_F_MQ : Z := 12.
Definition VIRTIO_F_ANY_LAYOUT : Z := 27.
Definition VIRTIO_RING_F_INDIRECT_DESC : Z := 28.
Definition VIRTIO_RING_F_EVENT_IDX : Z := 29.
Definition NUM : Z := 8.
Definition VRING_DESC_F_NEXT : Z := 1.
Definition VRING_DESC_F_WRITE : Z := 2.
Definition VIRTIO_BLK_T_IN : Z := 0.
Definition VIRTIO_BLK_T_OUT : Z := 1.
#[export] Hint Unfold NUM : consts.

(** The objects whose addresses go into descriptors: the request header on the
    kernel stack of process [p], the data of buffer [b], and
    [disk.info[i].status]. *)
Inductive vptr := VNull | VHdr (p : nat) | VData (b : nat) | VStatus (i : Z).

Record VRingDesc := VDesc { vd_addr : vptr; vd_len : Z; vd_flags : Z; vd_next : Z }.
Record virtio_blk_outhdr := OutHdr { oh_type : Z; oh_reserved : Z; oh_sector : Z }.

Definition vdesc0 : VRingDesc := VDesc VNull 0 0 0.

(** [struct disk], the request headers, [b->disk] of the buffers, the writes to
    the device's registers and the calls of [wakeup]. *)
Record vdisk := Vdisk {
  v_desc : Z -> VRingDesc;
  v_avail : Z -> Z;             (* avail[2 + i] *)
  v_avidx : Z;                  (* avail[1] *)
  v_elems : Z -> Z;             (* used->elems[i].id *)
  v_usedid : Z;                 (* used->id *)
  v_free : Z -> bool;
  v_uidx : Z;                   (* used_idx *)
  v_infob : Z -> option nat;
  v_status : Z -> Z;
  v_hdr : nat -> virtio_blk_outhdr;
  v_bdisk : nat -> bool;
  v_mmio : list (Z * Z);
  v_woken : list chan;
}.

Definition set_desc (i : Z) (d : VRingDesc) : M vdisk unit := modify (fun s =>
  Vdisk (upd (v_desc s) i d) (v_avail s) (v_avidx s) (v_elems s) (v_usedid s) (v_free s) (v_uidx s) (v_infob s) (v_status s) (v_hdr s) (v_bdisk s) (v_mmio s) (v_woken s)).
Definition set_avail (i v : Z) : M vdisk unit := modify (fun s =>
  Vdisk (v_desc s) (upd (v_avail s) i v) (v_avidx s) (v_elems s) (v_usedid s) (v_free s) (v_uidx s) (v_infob s) (v_status s) (v_hdr s) (v_bdisk s) (v_mmio s) (v_woken s)).
Definition set_avidx (v : Z) : M vdisk unit := modify (fun s =>
  Vdisk (v_desc s) (v_avail s) v (v_elems s) (v_usedid s) (v_free s) (v_uidx s) (v_infob s) (v_status s) (v_hdr s) (v_bdisk s) (v_mmio s) (v_woken s)).
Definition set_free (i : Z) (b : bool) : M vdisk unit := modify (fun s =>
  Vdisk (v_desc s) (v_avail s) (v_avidx s) (v_elems s) (v_usedid s) (upd (v_free s) i b) (v_uidx s) (v_infob s) (v_status s) (v_hdr s) (v_bdisk s) (v_mmio s) (v_woken s)).
Definition set_uidx (v : Z) : M vdisk unit := modify (fun s =>
  Vdisk (v_desc s) (v_avail s) (v_avidx s) (v_elems s) (v_usedid s) (v_free s) v (v_infob s) (v_status s) (v_hdr s) (v_bdisk s) (v_mmio s) (v_woken s)).
Definition set_infob (i : Z) (b : option nat) : M vdisk unit := modify (fun s =>
  Vdisk (v_desc s) (v_avail s) (v_avidx s) (v_elems s) (v_usedid s) (v_free s) (v_uidx s) (upd (v_infob s) i b) (v_status s) (v_hdr s) (v_bdisk s) (v_mmio s) (v_woken s)).
Definition set_vstatus (i v : Z) : M vdisk unit := modify (fun s =>
  Vdisk (v_desc s) (v_avail s) (v_avidx s) (v_elems s) (v_usedid s) (v_free s) (v_uidx s) (v_infob s) (upd (v_status s) i v) (v_hdr s) (v_bdisk s) (v_mmio s) (v_woken s)).
Definition set_hdr (p : nat) (h : virtio_blk_outhdr) : M vdisk unit := modify (fun s =>
  Vdisk (v_desc s) (v_avail s) (v_avidx s) (v_elems s) (v_usedid s) (v_free s) (v_uidx s) (v_infob s) (v_status s) (upd (v_hdr s) p h) (v_bdisk s) (v_mmio s) (v_woken s)).
Definition set_bdisk (b : nat) (v : bool) : M vdisk unit := modify (fun s =>
  Vdisk (v_desc s) (v_avail s) (v_avidx s) (v_elems s) (v_usedid s) (v_free s) (v_uidx s) (v_infob s) (v_status s) (v_hdr s) (upd (v_bdisk s) b v) (v_mmio s) (v_woken s)).
Definition vwakeup (c : chan) : M vdisk unit := modify (fun s =>
  Vdisk (v_desc s) (v_avail s) (v_avidx s) (v_elems s) (v_usedid s) (v_free s) (v_uidx s) (v_infob s) (v_status s) (v_hdr s) (v_bdisk s) (v_mmio s) (c :: v_woken s)).
(** [*R(r) = v] *)
Definition write_R (r v : Z) : M vdisk unit := modify (fun s =>
  Vdisk (v_desc s) (v_avail s) (v_avidx s) (v_elems s) (v_usedid s) (v_free s) (v_uidx s) (v_infob s) (v_status s) (v_hdr s) (v_bdisk s) (v_mmio s ++ [(r, u32 v)]) (v_woken s)).

(** [memset(disk.pages, 0, sizeof(disk.pages))]: descriptors and both rings. *)
Definition zero_pages : M vdisk unit := modify (fun s =>
  Vdisk (fun _ => vdesc0) (fun _ => 0) 0 (fun _ => 0) 0 (v_free s) (v_uidx s) (v_infob s) (v_status s) (v_hdr s) (v_bdisk s) (v_mmio s) (v_woken s)).

(** ** virtio_disk_init

    [rd r] is what reading register [r] gives; [pages] is the address of
    [disk.pages]. *)
Definition drop_feature (f features : Z) : Z := Z.land features (Z.lnot (Z.shiftl 1 f)).

Definition virtio_disk_init (rd : Z -> Z) (pages : Z) : M vdisk unit :=
  if negb (rd VIRTIO_MMIO_MAGIC_VALUE =? 0x74726976) || negb (rd VIRTIO_MMIO_VERSION =? 1) ||
     negb (rd VIRTIO_MMIO_DEVICE_ID =? 2) || negb (rd VIRTIO_MMIO_VENDOR_ID =? 0x554d4551)
  then panic "could not find virtio disk"
  else
    let status := Z.lor 0 VIRTIO_CONFIG_S_ACKNOWLEDGE in
    write_R VIRTIO_MMIO_STATUS status ;;;
    let status := Z.lor status VIRTIO_CONFIG_S_DRIVER in
    write_R VIRTIO_MMIO_STATUS status ;;;
    let features := rd VIRTIO_MMIO_DEVICE_FEATURES in
    let features := drop_feature VIRTIO_BLK_F_RO features in
    let features := drop_feature VIRTIO_BLK_F_SCSI features in
    let features := drop_feature VIRTIO_BLK_F_CONFIG_WCE features in
    let features := drop_feature VIRTIO_BLK_F_MQ features in
    let features := drop_feature VIRTIO_F_ANY_LAYOUT features in
    let features := drop_feature VIRTIO_RING_F_EVENT_IDX features in
    let features := drop_feature VIRTIO_RING_F_INDIRECT_DESC features in
    write_R VIRTIO_MMIO_DRIVER_FEATURES features ;;;
    let status := Z.lor status VIRTIO_CONFIG_S_FEATURES_OK in
    write_R VIRTIO_MMIO_STATUS status ;;;
    let status := Z.lor status VIRTIO_CONFIG_S_DRIVER_OK in
    write_R VIRTIO_MMIO_STATUS status ;;;
    write_R VIRTIO_MMIO_GUEST_PAGE_SIZE PGSIZE ;;;
    write_R VIRTIO_MMIO_QUEUE_SEL 0 ;;;
    let max := rd VIRTIO_MMIO_QUEUE_NUM_MAX in
    if max =? 0 then panic "virtio disk has no queue 0"
    else if max <? NUM then panic "virtio disk max queue too short"
    else
      write_R VIRTIO_MMIO_QUEUE_NUM NUM ;;;
      zero_pages ;;;
      write_R VIRTIO_MMIO_QUEUE_PFN (Z.shiftr pages 12) ;;;
      let! r := for_range (R := Empty_set) (Z.to_nat NUM) 0 (fun i => set_free i true ;;; ret None) in
      ret tt.

(** ** Descriptors *)

Definition alloc_desc : M vdisk Z :=
  let! r := for_range (Z.to_nat NUM) 0 (fun i =>
    let! f := gets (fun s => v_free s i) in
    if f then set_free i false ;;; ret (Some i) else ret None) in
  ret (match r with Some i => i | None => -1 end).

Definition free_desc (i : Z) : M vdisk unit :=
  if NUM <=? i then panic "virtio_disk_intr 1"
  else
    let! f := gets (fun s => v_free s i) in
    if f then panic "virtio_disk_intr 2"
    else
      let! d := gets (fun s => v_desc s i) in
      set_desc i (VDesc VNull (vd_len d) (vd_flags d) (vd_next d)) ;;;
      set_free i true ;;;
      vwakeup ChDiskFree.

(** A chain has at most [NUM] descriptors: freeing one twice panics. *)
Fixpoint free_chain (fuel : nat) (i : Z) : M vdisk unit :=
  match fuel with
  | O => out_of_fuel
  | S fuel' =>
      free_desc i ;;;
      let! d := gets (fun s => v_desc s i) in
      if negb (Z.land (vd_flags d) VRING_DESC_F_NEXT =? 0) then free_chain fuel' (vd_next d)
      else ret tt
  end.

(** The three rounds of the loop; on failure those allocated are given back. *)
Definition alloc3_desc : M vdisk (option (Z * Z * Z)) :=
  let! i0 := alloc_desc in
  if i0 <? 0 then ret None
  else
    let! i1 := alloc_desc in
    if i1 <? 0 then free_desc i0 ;;; ret None
    else
      let! i2 := alloc_desc in
      if i2 <? 0 then free_desc i0 ;;; free_desc i1 ;;; ret None
      else ret (Some (i0, i1, i2)).

(** ** virtio_disk_rw, for process [me], buffer [b] with block number
    [blockno] *)

Definition rw_format (me b : nat) (blockno : Z) (write : bool) (i0 i1 i2 : Z) : M vdisk unit :=
  set_hdr me (OutHdr (if write then VIRTIO_BLK_T_OUT else VIRTIO_BLK_T_IN) 0 (u32 (blockno * (BSIZE / 512)))) ;;;
  set_desc i0 (VDesc (VHdr me) 16 VRING_DESC_F_NEXT i1) ;;;
  set_desc i1 (VDesc (VData b) BSIZE (Z.lor (if write then 0 else VRING_DESC_F_WRITE) VRING_DESC_F_NEXT) i2) ;;;
  set_vstatus i0 0 ;;;
  set_desc i2 (VDesc (VStatus i0) 1 VRING_DESC_F_WRITE 0) ;;;
  set_bdisk b true ;;;
  set_infob i0 (Some b).

(** From the call to the write of the ring entry; sleeps for descriptors. *)
Definition rw_begin (me b : nat) (blockno : Z) (write : bool) : M vdisk (Z * Z * Z) :=
  let! r := alloc3_desc in
  match r with
  | None => sleep_on ChDiskFree
  | Some (i0, i1, i2) =>
      rw_format me b blockno write i0 i1 i2 ;;;
      let! n := gets v_avidx in
      set_avail (n mod NUM) i0 ;;;
      ret (i0, i1, i2)
  end.

(** [avail[1]++] after the barrier, and the notification. *)
Definition rw_publish : M vdisk unit :=
  let! n := gets v_avidx in
  set_avidx (u16 (n + 1)) ;;;
  write_R VIRTIO_MMIO_QUEUE_NOTIFY 0.

(** After [while (b->disk == 1) sleep(b, &disk.vdisk_lock)]. *)
Definition rw_end (i0 : Z) : M vdisk unit :=
  set_infob i0 None ;;;
  free_chain (S (Z.to_nat NUM)) i0.

(** ** virtio_disk_intr *)

(** One test of the loop condition, and the body when it holds. *)
Definition intr_iter : M vdisk bool :=
  let! s := get in
  if negb (v_uidx s mod NUM =? v_usedid s mod NUM) then
    let id := v_elems s (v_uidx s) in
    if negb (v_status s id =? 0) then panic "virtio_disk_intr status"
    else
      match v_infob s id with
      | None => panic "kerneltrap"   (* a null pointer *)
      | Some b =>
          set_bdisk b false ;;;
          vwakeup (ChBuf b) ;;;
          set_uidx ((v_uidx s + 1) mod NUM) ;;;
          ret true
      end
  else ret false.

Fixpoint intr_loop (fuel : nat) : M vdisk unit :=
  match fuel with
  | O => out_of_fuel
  | S fuel' =>
      let! more := intr_iter in
      if more : bool then intr_loop fuel' else ret tt
  end.

Definition intr_ack (rd : Z -> Z) : M vdisk unit :=
  write_R VIRTIO_MMIO_INTERRUPT_ACK (Z.land (rd VIRTIO_MMIO_INTERRUPT_STATUS) 0x3).

Definition virtio_disk_intr (rd : Z -> Z) : M vdisk unit :=
  intr_loop (Z.to_nat NUM) ;;; intr_ack rd.

(** ** The device

    What the virtio specification says of a block device: [dv_seen] counts
    the entries of the available ring it has taken, [dv_busy] are the heads of
    the chains it is working on, and the medium is an array of bytes in
    sectors of 512.  [None]: a chain that is not a block request. *)
Record vdev := Vdev { dv_seen : Z; dv_busy : list Z; dv_media : Z -> Z }.

Definition media_read (m : Z -> Z) (sector len : Z) : list Z :=
  map (fun o => m (sector * 512 + o)) (seqZ 0 len).
Definition media_write (m : Z -> Z) (sector len : Z) (d : list Z) : Z -> Z := fun a =>
  if bool_decide (sector * 512 <= a < sector * 512 + len)
  then nth (Z.to_nat (a - sector * 512)) d 0 else m a.

Definition has (d : VRingDesc) (f : Z) : bool := negb (Z.land (vd_flags d) f =? 0).

(** The request the chain at [id] describes: sector, buffer, length, whether
    the medium is written, and where the status goes. *)
Definition dev_request (s : vdisk) (id : Z) : option (Z * nat * Z * bool * Z) :=
  let d0 := v_desc s id in
  let d1 := v_desc s (vd_next d0) in
  let d2 := v_desc s (vd_next d1) in
  match vd_addr d0, vd_addr d1, vd_addr d2 with
  | VHdr p, VData b, VStatus i =>
      let h := v_hdr s p in
      let out := oh_type h =? VIRTIO_BLK_T_OUT in
      if (vd_len d0 =? 16) && has d0 VRING_DESC_F_NEXT && negb (has d0 VRING_DESC_F_WRITE) &&
         (out || (oh_type h =? VIRTIO_BLK_T_IN)) &&
         has d1 VRING_DESC_F_NEXT && Bool.eqb (has d1 VRING_DESC_F_WRITE) (negb out) &&
         (vd_len d2 =? 1) && has d2 VRING_DESC_F_WRITE && negb (has d2 VRING_DESC_F_NEXT)
      then Some (oh_sector h, b, vd_len d1, out, i) else None
  | _, _, _ => None
  end.

(** ** The driver, the device and the callers together *)

Record req := Req { rq_b : nat; rq_n : Z; rq_w : bool }.

(** Where a process is in [virtio_disk_rw]: outside, before it has
    descriptors, with its chain in the ring but not published, and published. *)
Inductive vpc :=
  | VIdle
  | VWant (r : req)
  | VQueued (r : req) (i0 i1 i2 : Z)
  | VWait (r : req) (i0 i1 i2 : Z).

Inductive vlock := LFree | LProc (p : nat) | LIntr.

Record vsys := Vsys {
  vk : vdisk; vdv : vdev; vdata : nat -> list Z; vpcs : nat -> vpc; vlk : vlock }.

Definition in_vk {A} (m : M vdisk A) : M vsys A :=
  zoom vk (fun k s => Vsys k (vdv s) (vdata s) (vpcs s) (vlk s)) m.
Definition vgoto (p : nat) (pc : vpc) : M vsys unit :=
  modify (fun s => Vsys (vk s) (vdv s) (vdata s) (upd (vpcs s) p pc) (vlk s)).
Definition vlock_to (l : vlock) : M vsys unit :=
  modify (fun s => Vsys (vk s) (vdv s) (vdata s) (vpcs s) l).
Definition vstore (b : nat) (d : list Z) : M vsys unit :=
  modify (fun s => Vsys (vk s) (vdv s) (upd (vdata s) b d) (vpcs s) (vlk s)).

(** [sleep] gives up the lock; the process tries again when it is woken. *)
Definition parks (o : outcome vsys unit) : outcome vsys unit :=
  match o with Sleeps _ s => Ok tt s | o => o end.

Definition step_begin (p : nat) (r : req) : M vsys unit :=
  let! ' (i0, i1, i2) := in_vk (rw_begin p (rq_b r) (rq_n r) (rq_w r)) in
  vgoto p (VQueued r i0 i1 i2) ;;; vlock_to (LProc p).
Definition step_publish (p : nat) (r : req) (i0 i1 i2 : Z) : M vsys unit :=
  in_vk rw_publish ;;; vgoto p (VWait r i0 i1 i2).
Definition step_end (p : nat) (i0 : Z) : M vsys unit :=
  in_vk (rw_end i0) ;;; vgoto p VIdle ;;; vlock_to LFree.
Definition step_intr (rd : Z -> Z) : M vsys unit :=
  let! more := in_vk intr_iter in
  if more : bool then ret tt else in_vk (intr_ack rd) ;;; vlock_to LFree.

(** The device takes the next entry of the available ring. *)
Definition dev_fetch : M vsys unit := modify (fun s =>
  let v := vdv s in
  Vsys (vk s) (Vdev (u16 (dv_seen v + 1)) (v_avail (vk s) (dv_seen v mod NUM) :: dv_busy v) (dv_media v))
       (vdata s) (vpcs s) (vlk s)).

(** It performs the request, writes the status, and uses the next entry of
    the used ring. *)
Definition dev_complete (id : Z) : M vsys unit :=
  let! s := get in
  let k := vk s in
  let v := vdv s in
  match dev_request k id with
  | None => panic "malformed request"
  | Some (sector, b, len, out, i) =>
      put (Vsys
        (Vdisk (v_desc k) (v_avail k) (v_avidx k) (upd (v_elems k) (v_usedid k mod NUM) id) (u16 (v_usedid k + 1))
               (v_free k) (v_uidx k) (v_infob k) (upd (v_status k) i 0) (v_hdr k) (v_bdisk k) (v_mmio k) (v_woken k))
        (Vdev (dv_seen v) (filter (fun j => j <> id) (dv_busy v))
              (if out : bool then media_write (dv_media v) sector len (vdata s b) else dv_media v))
        (if out then vdata s else upd (vdata s) b (media_read (dv_media v) sector len))
        (vpcs s) (vlk s))
  end.

Definition req_of (pc : vpc) : option req :=
  match pc with VIdle => None | VWant r | VQueued r _ _ _ | VWait r _ _ _ => Some r end.

(** No process is in [virtio_disk_rw] with buffer [b]: bio.c calls it with the
    buffer's sleep lock held. *)
Definition unused s (b : nat) : Prop := forall q r, req_of (vpcs s q) = Some r -> rq_b r <> b.

Inductive vevent := Call (p : nat) (r : req) | Return (p : nat) | Store (b : nat) (d : list Z).

Inductive vstep (s : vsys) : option vevent -> outcome vsys unit -> Prop :=
  | vs_call p r : vpcs s p = VIdle -> unused s (rq_b r) -> 0 <= rq_n r < 2 ^ 31 ->
      vstep s (Some (Call p r)) (vgoto p (VWant r) s)
  | vs_store b d : unused s b -> length d = Z.to_nat BSIZE ->
      vstep s (Some (Store b d)) (vstore b d s)
  | vs_begin p r : vpcs s p = VWant r -> vlk s = LFree ->
      vstep s None (parks (step_begin p r s))
  | vs_publish p r i0 i1 i2 : vpcs s p = VQueued r i0 i1 i2 -> vlk s = LProc p ->
      vstep s None (step_publish p r i0 i1 i2 s)
  | vs_sleep p r i0 i1 i2 : vpcs s p = VWait r i0 i1 i2 -> vlk s = LFree \/ vlk s = LProc p ->
      v_bdisk (vk s) (rq_b r) = true -> vstep s None (vlock_to LFree s)
  | vs_end p r i0 i1 i2 : vpcs s p = VWait r i0 i1 i2 -> vlk s = LFree \/ vlk s = LProc p ->
      v_bdisk (vk s) (rq_b r) = false -> vstep s (Some (Return p)) (step_end p i0 s)
  | vs_irq : vlk s = LFree -> vstep s None (vlock_to LIntr s)
  | vs_intr rd : vlk s = LIntr -> vstep s None (step_intr rd s)
  | vs_fetch : dv_seen (vdv s) <> v_avidx (vk s) -> vstep s None (dev_fetch s)
  | vs_complete id : id ∈ dv_busy (vdv s) -> vstep s None (dev_complete id s).

Definition emit (e : option vevent) (tr : list vevent) : list vevent :=
  match e with Some e => tr ++ [e] | None => tr end.

Inductive vreach (s0 : vsys) : list vevent -> outcome vsys unit -> Prop :=
  | vr_start : vreach s0 [] (Ok tt s0)
  | vr_step tr s e o : vreach s0 tr (Ok tt s) -> vstep s e o -> vreach s0 (emit e tr) o.

(** ** The contract: a disk that moves one block at once *)

Inductive astatus := AIdle | ACalled (r : req) | ADone.
Record adisk := Adisk { a_disk : Z -> list Z; a_data : nat -> list Z; a_st : nat -> astatus }.

Definition a_io (r : req) (p : nat) (a : adisk) : adisk :=
  if rq_w r then Adisk (upd (a_disk a) (rq_n r) (a_data a (rq_b r))) (a_data a) (upd (a_st a) p ADone)
  else Adisk (a_disk a) (upd (a_data a) (rq_b r) (a_disk a (rq_n r))) (upd (a_st a) p ADone).

Inductive areach (a0 : adisk) : list vevent -> adisk -> Prop :=
  | ar_start : areach a0 [] a0
  | ar_call tr a p r : areach a0 tr a -> a_st a p = AIdle ->
      areach a0 (tr ++ [Call p r]) (Adisk (a_disk a) (a_data a) (upd (a_st a) p (ACalled r)))
  | ar_io tr a p r : areach a0 tr a -> a_st a p = ACalled r -> areach a0 tr (a_io r p a)
  | ar_return tr a p : areach a0 tr a -> a_st a p = ADone ->
      areach a0 (tr ++ [Return p]) (Adisk (a_disk a) (a_data a) (upd (a_st a) p AIdle))
  | ar_store tr a b d : areach a0 tr a ->
      areach a0 (tr ++ [Store b d]) (Adisk (a_disk a) (upd (a_data a) b d) (a_st a)).

(** Block [n] of the medium. *)
Definition mblock (m : Z -> Z) (n : Z) : list Z := media_read m (n * (BSIZE / 512)) BSIZE.

(** ** The invariant *)

Definition chain (pc : vpc) : list Z :=
  match pc with VQueued _ i0 i1 i2 | VWait _ i0 i1 i2 => [i0; i1; i2] | _ => [] end.

(** The chain of [p]'s request is laid out as the device expects. *)
Definition formatted (k : vdisk) (p : nat) (r : req) (i0 i1 i2 : Z) : Prop :=
  v_desc k i0 = VDesc (VHdr p) 16 VRING_DESC_F_NEXT i1 /\
  v_desc k i1 = VDesc (VData (rq_b r)) BSIZE (Z.lor (if rq_w r then 0 else VRING_DESC_F_WRITE) VRING_DESC_F_NEXT) i2 /\
  v_desc k i2 = VDesc (VStatus i0) 1 VRING_DESC_F_WRITE 0 /\
  v_hdr k p = OutHdr (if rq_w r then VIRTIO_BLK_T_OUT else VIRTIO_BLK_T_IN) 0 (u32 (rq_n r * (BSIZE / 512))) /\
  v_infob k i0 = Some (rq_b r) /\ v_status k i0 = 0.

Definition on_chain (pc : vpc) (P : req -> Z -> Z -> Z -> Prop) : Prop :=
  match pc with VQueued r i0 i1 i2 | VWait r i0 i1 i2 => P r i0 i1 i2 | _ => True end.

(** Descriptors: each is free or in the chain of one process. *)
Record desc_ok (k : vdisk) (pcs : nat -> vpc) : Prop := DescOk {
  do_own : forall p i, i ∈ chain (pcs p) -> 0 <= i < NUM /\ v_free k i = false;
  do_nodup : forall p, NoDup (chain (pcs p));
  do_one : forall p q i, i ∈ chain (pcs p) -> i ∈ chain (pcs q) -> p = q;
  do_leak : forall i, 0 <= i < NUM -> v_free k i = false -> exists p, i ∈ chain (pcs p);
  do_fmt : forall p, on_chain (pcs p) (formatted k p);
}.

(** [L] is in the ring [ring], from position [from] on. *)
Definition window (ring : Z -> Z) (from : Z) (L : list Z) : Prop :=
  forall j x, L !! j = Some x -> ring ((from + Z.of_nat j) mod NUM) = x.

(** The heads published and not fetched ([A]), at the device ([B]), and used
    and not yet seen by the interrupt handler ([U]). *)
Record rings_ok (k : vdisk) (v : vdev) (A U : list Z) : Prop := RingsOk {
  ro_avail : window (v_avail k) (dv_seen v) A;
  ro_avidx : v_avidx k = u16 (dv_seen v + Z.of_nat (length A));
  ro_used : window (v_elems k) (v_uidx k) U;
  ro_uidx : 0 <= v_uidx k < NUM;
  ro_usedid : v_usedid k mod NUM = (v_uidx k + Z.of_nat (length U)) mod NUM;
  ro_seen : 0 <= dv_seen v < 2 ^ 16;
  ro_nodup : NoDup (A ++ dv_busy v ++ U);
}.

(** What a process waits for, by its place in [virtio_disk_rw]; [F] are the
    heads in flight. *)
Definition wait_ok (k : vdisk) (F : list Z) (lk : vlock) (p : nat) (pc : vpc) : Prop :=
  match pc with
  | VQueued r i0 _ _ => lk = LProc p /\ v_avail k (v_avidx k mod NUM) = i0 /\ v_bdisk k (rq_b r) = true /\ i0 ∉ F
  | VWait r i0 _ _ => v_bdisk k (rq_b r) = true <-> i0 ∈ F
  | _ => True
  end.

Definition head_of (pcs : nat -> vpc) (i : Z) : Prop := exists p r i1 i2, pcs p = VWait r i i1 i2.

Definition status_ok (AB : list Z) (pc : vpc) (st : astatus) : Prop :=
  match pc with
  | VIdle => st = AIdle
  | VWant r | VQueued r _ _ _ => st = ACalled r
  | VWait r i0 _ _ => st = if decide (i0 ∈ AB) then ACalled r else ADone
  end.

Record vinv (s : vsys) (a : adisk) (A U : list Z) : Prop := Vinv {
  vi_desc : desc_ok (vk s) (vpcs s);
  vi_rings : rings_ok (vk s) (vdv s) A U;
  vi_heads : forall i, i ∈ A ++ dv_busy (vdv s) ++ U -> head_of (vpcs s) i;
  vi_wait : forall p, wait_ok (vk s) (A ++ dv_busy (vdv s) ++ U) (vlk s) p (vpcs s p);
  vi_lock : forall p, vlk s = LProc p -> exists r i0 i1 i2, vpcs s p = VQueued r i0 i1 i2 \/ vpcs s p = VWait r i0 i1 i2;
  vi_blk : forall p r, req_of (vpcs s p) = Some r -> 0 <= rq_n r < 2 ^ 31;
  vi_buf : forall p q r r', req_of (vpcs s p) = Some r -> req_of (vpcs s q) = Some r' -> rq_b r = rq_b r' -> p = q;
  vi_len : forall b, length (vdata s b) = Z.to_nat BSIZE;
  vi_st : forall p, status_ok (A ++ dv_busy (vdv s)) (vpcs s p) (a_st a p);
  vi_data : forall b, a_data a b = vdata s b;
  vi_media : forall n, a_disk a n = mblock (dv_media (vdv s)) n;
}.

(** *** The medium *)

Lemma media_read_len m n len : length (media_read m n len) = Z.to_nat len.
Proof. unfold media_read. by rewrite length_map, length_seqZ. Qed.

Lemma mblock_write_eq m n d : length d = Z.to_nat BSIZE ->
  mblock (media_write m (n * (BSIZE / 512)) BSIZE d) n = d.
Proof.
  intros Hd. apply (nth_ext _ _ 0 0); unfold mblock; rewrite media_read_len; [done |]. intros j Hj.
  unfold media_read. rewrite (nth_indep _ 0 (media_write m (n * (BSIZE / 512)) BSIZE d (n * (BSIZE / 512) * 512 + 0)))
    by (rewrite length_map, length_seqZ; done).
  rewrite (map_nth (fun o => media_write m (n * (BSIZE / 512)) BSIZE d (n * (BSIZE / 512) * 512 + o)) _ 0).
  rewrite (nth_lookup_Some (seqZ 0 BSIZE) j 0 (Z.of_nat j)) by (rewrite lookup_seqZ_lt; [f_equal|]; klia).
  unfold media_write. rewrite bool_decide_eq_true_2 by klia. f_equal. lia.
Qed.

Lemma mblock_write_ne m n n' d : n <> n' ->
  mblock (media_write m (n * (BSIZE / 512)) BSIZE d) n' = mblock m n'.
Proof.
  intros Hn. unfold mblock, media_read. apply list_fmap_ext. intros j o Ho.
  apply lookup_seqZ in Ho as [-> Ho]. unfold media_write.
  rewrite bool_decide_eq_false_2; [done |]. change (BSIZE / 512) with 2 in *. klia.
Qed.

(** *** Descriptor allocation *)

Definition taken (i : Z) (k : vdisk) : vdisk :=
  Vdisk (v_desc k) (v_avail k) (v_avidx k) (v_elems k) (v_usedid k) (upd (v_free k) i false) (v_uidx k) (v_infob k) (v_status k) (v_hdr k) (v_bdisk k) (v_mmio k) (v_woken k).

Lemma alloc_desc_spec k :
  (exists i, 0 <= i < NUM /\ v_free k i = true /\ alloc_desc k = Ok i (taken i k)) \/
  (forall i, 0 <= i < NUM -> v_free k i = false) /\ alloc_desc k = Ok (-1) k.
Proof.
  unfold alloc_desc. change (Z.to_nat NUM) with 8%nat. unfold bind. cbn [for_range Z.add Pos.add Pos.succ].
  unfold bind, gets, ret, set_free, modify.
  repeat match goal with |- context [v_free k ?i] => let E := fresh "E" in
    destruct (v_free k i) eqn:E; [left; exists i; split; [klia |]; split; [exact E | reflexivity] |] end.
  right. split; [| reflexivity]. intros i Hi.
  assert (i = 0 \/ i = 1 \/ i = 2 \/ i = 3 \/ i = 4 \/ i = 5 \/ i = 6 \/ i = 7) by klia.
  naive_solver.
Qed.

(** Only descriptors that are free differ, in their addresses. *)
Record idle_same (k k' : vdisk) : Prop := IdleSame {
  is_free : forall i, v_free k' i = v_free k i;
  is_desc : forall i, v_free k i = false -> v_desc k' i = v_desc k i;
  is_avail : v_avail k' = v_avail k;
  is_avidx : v_avidx k' = v_avidx k;
  is_elems : v_elems k' = v_elems k;
  is_usedid : v_usedid k' = v_usedid k;
  is_uidx : v_uidx k' = v_uidx k;
  is_infob : v_infob k' = v_infob k;
  is_status : v_status k' = v_status k;
  is_hdr : v_hdr k' = v_hdr k;
  is_bdisk : v_bdisk k' = v_bdisk k;
}.

Definition freed (i : Z) (k : vdisk) : vdisk :=
  let d := v_desc k i in
  Vdisk (upd (v_desc k) i (VDesc VNull (vd_len d) (vd_flags d) (vd_next d))) (v_avail k) (v_avidx k) (v_elems k) (v_usedid k) (upd (v_free k) i true) (v_uidx k) (v_infob k) (v_status k) (v_hdr k) (v_bdisk k) (v_mmio k) (ChDiskFree :: v_woken k).

Lemma free_desc_spec k i : i < NUM -> v_free k i = false -> free_desc i k = Ok tt (freed i k).
Proof.
  intros Hi Hf. unfold free_desc. destruct (NUM <=? i) eqn:E; [klia |].
  unfold bind, gets. rewrite Hf. reflexivity.
Qed.

Ltac case_upd := unfold upd in *; repeat case_decide; subst.

Lemma alloc3_spec k :
  (exists i0 i1 i2, NoDup [i0; i1; i2] /\ (forall i, i ∈ [i0; i1; i2] -> 0 <= i < NUM /\ v_free k i = true) /\
     alloc3_desc k = Ok (Some (i0, i1, i2)) (taken i2 (taken i1 (taken i0 k)))) \/
  exists k', alloc3_desc k = Ok None k' /\ idle_same k k'.
Proof.
  assert (forall i (j : Z), v_free (taken i k) j = true -> j <> i /\ v_free k j = true) as Hne.
  { intros i j. cbn. case_upd; [discriminate |]. by split. }
  unfold alloc3_desc. destruct (alloc_desc_spec k) as [(i0 & H0 & F0 & E0)|[_ E0]]; rewrite (bind_run _ _ _ _ _ E0).
  2: { right. exists k. split; [reflexivity | by split]. }
  destruct (i0 <? 0) eqn:L0; [lia |].
  destruct (alloc_desc_spec (taken i0 k)) as [(i1 & H1 & F1 & E1)|[_ E1]]; rewrite (bind_run _ _ _ _ _ E1).
  2: { right. eexists. cbn [Z.ltb Z.compare]. erewrite bind_run; [| apply free_desc_spec; [apply H0 | apply upd_eq]].
       split; [reflexivity |]. split; try reflexivity; intros i; cbn; case_upd; congruence. }
  destruct (i1 <? 0) eqn:L1; [lia |]. apply Hne in F1 as [N1 F1].
  destruct (alloc_desc_spec (taken i1 (taken i0 k))) as [(i2 & H2 & F2 & E2)|[_ E2]]; rewrite (bind_run _ _ _ _ _ E2).
  - destruct (i2 <? 0) eqn:L2; [lia |]. left. exists i0, i1, i2.
    assert (i2 <> i1 /\ i2 <> i0 /\ v_free k i2 = true) as (N2 & N3 & F2').
    { revert F2. cbn. case_upd; [discriminate.. |]. intros. repeat split; assumption. }
    split; [| split; [| reflexivity]].
    + repeat apply NoDup_cons_2; [.. | apply NoDup_nil_2]; rewrite ?elem_of_cons, ?elem_of_nil; lia.
    + intros i. rewrite !elem_of_cons, elem_of_nil. intros [->|[->|[->|[]]]]; by split.
  - right. eexists. cbn [Z.ltb Z.compare].
    erewrite bind_run; [| apply free_desc_spec; [apply H0 | cbn; rewrite upd_ne by done; apply upd_eq]].
    erewrite bind_run; [| apply free_desc_spec; [apply H1 | cbn; rewrite upd_ne by done; apply upd_eq]].
    split; [reflexivity |]. split; try reflexivity; intros i; cbn; case_upd; congruence.
Qed.

Definition begun (k : vdisk) (p : nat) (r : req) (i0 i1 i2 : Z) : vdisk :=
  Vdisk (upd (upd (upd (v_desc k) i0 (VDesc (VHdr p) 16 VRING_DESC_F_NEXT i1))
                  i1 (VDesc (VData (rq_b r)) BSIZE (Z.lor (if rq_w r then 0 else VRING_DESC_F_WRITE) VRING_DESC_F_NEXT) i2))
             i2 (VDesc (VStatus i0) 1 VRING_DESC_F_WRITE 0))
        (upd (v_avail k) (v_avidx k mod NUM) i0) (v_avidx k) (v_elems k) (v_usedid k)
        (upd (upd (upd (v_free k) i0 false) i1 false) i2 false) (v_uidx k)
        (upd (v_infob k) i0 (Some (rq_b r))) (upd (v_status k) i0 0)
        (upd (v_hdr k) p (OutHdr (if rq_w r then VIRTIO_BLK_T_OUT else VIRTIO_BLK_T_IN) 0 (u32 (rq_n r * (BSIZE / 512)))))
        (upd (v_bdisk k) (rq_b r) true) (v_mmio k) (v_woken k).

Lemma rw_begin_spec k p r :
  (exists i0 i1 i2, NoDup [i0; i1; i2] /\ (forall i, i ∈ [i0; i1; i2] -> 0 <= i < NUM /\ v_free k i = true) /\
     rw_begin p (rq_b r) (rq_n r) (rq_w r) k = Ok (i0, i1, i2) (begun k p r i0 i1 i2)) \/
  exists k', rw_begin p (rq_b r) (rq_n r) (rq_w r) k = Sleeps ChDiskFree k' /\ idle_same k k'.
Proof.
  unfold rw_begin. destruct (alloc3_spec k) as [(i0 & i1 & i2 & Hn & Hf & E)|(k' & E & Hk)]; rewrite (bind_run _ _ _ _ _ E).
  - left. exists i0, i1, i2. done.
  - right. by exists k'.
Qed.

(** *** Preservation, part by part *)

Lemma formatted_ext k k' p r i0 i1 i2 :
  (forall i, i ∈ [i0; i1; i2] -> v_desc k' i = v_desc k i) -> v_hdr k' p = v_hdr k p ->
  v_infob k' i0 = v_infob k i0 -> v_status k' i0 = v_status k i0 ->
  formatted k p r i0 i1 i2 -> formatted k' p r i0 i1 i2.
Proof.
  intros Hd Hh Hi Hs. unfold formatted. rewrite Hh, Hi, Hs, !Hd by (rewrite !elem_of_cons; tauto). done.
Qed.

Lemma on_chain_mono pc (P Q : req -> Z -> Z -> Z -> Prop) :
  (forall r i0 i1 i2, chain pc = [i0; i1; i2] -> P r i0 i1 i2 -> Q r i0 i1 i2) -> on_chain pc P -> on_chain pc Q.
Proof. destruct pc; cbn; auto. Qed.

Lemma desc_ok_ext k k' pcs :
  (forall i, v_free k' i = v_free k i) ->
  (forall i, v_free k i = false -> v_desc k' i = v_desc k i /\ v_status k' i = v_status k i) ->
  v_hdr k' = v_hdr k -> v_infob k' = v_infob k -> desc_ok k pcs -> desc_ok k' pcs.
Proof.
  intros Hf Hd Hh Hi [O N D L F]. split; [| done | done | |].
  - intros p i. rewrite Hf. apply O.
  - intros i. rewrite Hf. apply L.
  - intros p. eapply on_chain_mono; [| apply F]. intros r i0 i1 i2 E. cbn.
    apply formatted_ext; [intros i H | by rewrite Hh | by rewrite Hi |].
    + apply Hd, (O p). by rewrite E.
    + apply Hd, (O p). rewrite E. apply list_elem_of_here.
Qed.

Lemma desc_ok_pcs k pcs p pc : chain pc = chain (pcs p) -> (forall P, on_chain (pcs p) P -> on_chain pc P) ->
  desc_ok k pcs -> desc_ok k (upd pcs p pc).
Proof.
  intros Hc Hp [O N D L F].
  assert (forall q, chain (upd pcs p pc q) = chain (pcs q)) as E by (intros q; case_upd; congruence).
  split.
  - intros q i. rewrite E. apply O.
  - intros q. by rewrite E.
  - intros q q' i. rewrite !E. apply D.
  - intros i Hi Hf. destruct (L i Hi Hf) as [q Hq]. exists q. by rewrite E.
  - intros q. unfold upd. case_decide; [subst; apply Hp, F | apply F].
Qed.

Lemma elem3 (i i0 i1 i2 : Z) : i ∈ [i0; i1; i2] <-> i = i0 \/ i = i1 \/ i = i2.
Proof. rewrite !elem_of_cons, elem_of_nil. tauto. Qed.

Lemma nodup3 (i0 i1 i2 : Z) : NoDup [i0; i1; i2] -> i0 <> i1 /\ i0 <> i2 /\ i1 <> i2.
Proof. rewrite !NoDup_cons, !elem_of_cons. tauto. Qed.

Lemma begun_free k p r i0 i1 i2 i : v_free (begun k p r i0 i1 i2) i = false <-> i ∈ [i0; i1; i2] \/ v_free k i = false.
Proof. rewrite elem3. cbn. case_upd; naive_solver. Qed.

Lemma desc_ok_begin k pcs p r i0 i1 i2 : chain (pcs p) = [] -> NoDup [i0; i1; i2] ->
  (forall i, i ∈ [i0; i1; i2] -> 0 <= i < NUM /\ v_free k i = true) -> desc_ok k pcs ->
  desc_ok (begun k p r i0 i1 i2) (upd pcs p (VQueued r i0 i1 i2)).
Proof.
  intros Hc Hn Hf [O N D L F].
  assert (forall q i, i ∈ chain (pcs q) -> i ∉ [i0; i1; i2]) as Hout.
  { intros q i H1 H2. apply O in H1 as [_ H1]. apply Hf in H2 as [_ H2]. congruence. }
  split.
  - intros q i. rewrite begun_free. unfold upd. case_decide; cbn [chain]; intros Hi.
    + split; [by apply Hf | by left].
    + apply O in Hi. tauto.
  - intros q. unfold upd. by case_decide.
  - intros q q' i. unfold upd. repeat case_decide; cbn [chain]; subst; intros H1 H2; try done.
    + by destruct (Hout q' i).
    + by destruct (Hout q i).
    + by apply (D q q' i).
  - intros i Hi. rewrite begun_free. intros [H|H]; [exists p; by rewrite upd_eq |].
    destruct (L i Hi H) as [q Hq]. exists q. rewrite upd_ne; [done |]. intros ->. rewrite Hc in Hq. by apply elem_of_nil in Hq.
  - intros q. unfold upd at 1. case_decide as E; [subst q |].
    + apply nodup3 in Hn as (? & ? & ?). unfold formatted. cbn.
      rewrite !upd_eq, !(upd_ne _ i2) by done. rewrite (upd_ne _ i1 _ i0), !upd_eq by done. done.
    + eapply on_chain_mono; [| apply F]. intros r' j0 j1 j2 Ej.
      assert (forall j, j ∈ [j0; j1; j2] -> j <> i0 /\ j <> i1 /\ j <> i2) as Hj.
      { intros j H. rewrite <- Ej in H. apply Hout in H. rewrite elem3 in H. tauto. }
      destruct (Hj j0) as (? & ? & ?); [apply list_elem_of_here |].
      apply formatted_ext; cbn; [| by apply upd_ne..].
      intros j (? & ? & ?)%Hj. by rewrite !upd_ne.
Qed.

Definition unlinked (i : Z) (k : vdisk) : vdisk :=
  Vdisk (v_desc k) (v_avail k) (v_avidx k) (v_elems k) (v_usedid k) (v_free k) (v_uidx k) (upd (v_infob k) i None) (v_status k) (v_hdr k) (v_bdisk k) (v_mmio k) (v_woken k).
Definition ended (i0 i1 i2 : Z) (k : vdisk) : vdisk := freed i2 (freed i1 (freed i0 (unlinked i0 k))).

Lemma free_chain_next n i k : i < NUM -> v_free k i = false -> Z.land (vd_flags (v_desc k i)) VRING_DESC_F_NEXT <> 0 ->
  free_chain (S n) i k = free_chain n (vd_next (v_desc k i)) (freed i k).
Proof.
  intros Hi Hf Hn. cbn [free_chain]. rewrite (bind_run _ _ _ _ _ (free_desc_spec _ _ Hi Hf)).
  rewrite bind_gets. cbn [freed v_desc]. rewrite upd_eq. cbn [vd_flags vd_next].
  apply Z.eqb_neq in Hn. by rewrite Hn.
Qed.

Lemma free_chain_last n i k : i < NUM -> v_free k i = false -> Z.land (vd_flags (v_desc k i)) VRING_DESC_F_NEXT = 0 ->
  free_chain (S n) i k = Ok tt (freed i k).
Proof.
  intros Hi Hf Hn. cbn [free_chain]. rewrite (bind_run _ _ _ _ _ (free_desc_spec _ _ Hi Hf)).
  rewrite bind_gets. cbn [freed v_desc]. rewrite upd_eq. cbn [vd_flags vd_next].
  apply Z.eqb_eq in Hn. by rewrite Hn.
Qed.

Lemma rw_end_spec k p r i0 i1 i2 : formatted k p r i0 i1 i2 -> NoDup [i0; i1; i2] ->
  (forall i, i ∈ [i0; i1; i2] -> 0 <= i < NUM /\ v_free k i = false) ->
  rw_end i0 k = Ok tt (ended i0 i1 i2 k).
Proof.
  intros (D0 & D1 & D2 & _) (? & ? & ?)%nodup3 Hf.
  destruct (Hf i0) as [? F0]; [rewrite elem3; tauto |]. destruct (Hf i1) as [? F1]; [rewrite elem3; tauto |].
  destruct (Hf i2) as [? F2]; [rewrite elem3; tauto |].
  unfold rw_end. change (S (Z.to_nat NUM)) with 9%nat. rewrite (bind_run _ _ k tt (unlinked i0 k) eq_refl).
  rewrite free_chain_next; cbn [v_desc v_free unlinked]; [| lia | done | by rewrite D0]. rewrite D0. cbn [vd_next].
  rewrite free_chain_next; cbn [v_desc v_free unlinked freed]; rewrite ?upd_ne by done;
    [| lia | done | rewrite D1; by destruct (rq_w r)]. rewrite D1. cbn [vd_next].
  rewrite free_chain_last; cbn [v_desc v_free unlinked freed]; rewrite ?upd_ne by done; [done | lia | done | by rewrite D2].
Qed.

Lemma ended_free k i0 i1 i2 i : v_free (ended i0 i1 i2 k) i = false <-> (i ∉ [i0; i1; i2]) /\ v_free k i = false.
Proof. rewrite elem3. cbn. case_upd; naive_solver. Qed.

Lemma desc_ok_end k pcs p r i0 i1 i2 : pcs p = VWait r i0 i1 i2 -> desc_ok k pcs ->
  desc_ok (ended i0 i1 i2 k) (upd pcs p VIdle).
Proof.
  intros Hp [O N D L F]. assert (chain (pcs p) = [i0; i1; i2]) as Hc by by rewrite Hp.
  assert (forall q i, q <> p -> i ∈ chain (pcs q) -> i ∉ [i0; i1; i2]) as Hout.
  { intros q i Hq H1 H2. apply Hq, (D _ _ i); [done | by rewrite Hc]. }
  split.
  - intros q i. rewrite ended_free. unfold upd. case_decide; cbn [chain]; intros Hi; [by apply elem_of_nil in Hi |].
    pose proof (O _ _ Hi). apply Hout in Hi; tauto.
  - intros q. unfold upd. case_decide; [apply NoDup_nil_2 | done].
  - intros q q' i. unfold upd. repeat case_decide; cbn [chain]; subst; rewrite ?elem_of_nil; try done. apply D.
  - intros i Hi. rewrite ended_free. intros [H1 H2]. destruct (L i Hi H2) as [q Hq]. exists q.
    rewrite upd_ne; [done |]. intros ->. by rewrite Hc in Hq.
  - intros q. unfold upd. case_decide as E; [done |]. eapply on_chain_mono; [| apply F]. intros r' j0 j1 j2 Ej.
    assert (forall j, j ∈ [j0; j1; j2] -> j <> i0 /\ j <> i1 /\ j <> i2) as Hj.
    { intros j H. rewrite <- Ej in H. apply Hout in H; [| done]. rewrite elem3 in H. tauto. }
    destruct (Hj j0) as (? & ? & ?); [apply list_elem_of_here |].
    apply formatted_ext; cbn; [| done | by apply upd_ne | done]. intros j (? & ? & ?)%Hj. by rewrite !upd_ne.
Qed.

(** The heads in flight leave room in the rings: each has a second descriptor
    that is nobody's head. *)
Lemma nodup_bound (L : list Z) : NoDup L -> (forall i, i ∈ L -> 0 <= i < NUM) -> (length L <= 8)%nat.
Proof.
  intros Hn Hi. change 8%nat with (length (seqZ 0 8)). apply submseteq_length, NoDup_submseteq; [done |].
  intros i H%Hi. apply elem_of_seqZ. klia.
Qed.

Lemma heads_bound k pcs L : desc_ok k pcs -> NoDup L -> (forall i, i ∈ L -> head_of pcs i) -> (length L < 8)%nat.
Proof.
  intros K HL Hh. destruct L as [|i0 L']; [cbn; lia |].
  destruct (Hh i0) as (p & r & i1 & i2 & Hp); [apply list_elem_of_here |].
  assert (NoDup (i1 :: i0 :: L') /\ forall i, i ∈ i1 :: i0 :: L' -> 0 <= i < NUM) as [H1 H2].
  { assert (i1 ∈ chain (pcs p)) as Hi1 by (rewrite Hp; cbn; rewrite elem3; tauto). split.
    - apply NoDup_cons_2; [| done]. intros (q & r' & j1 & j2 & Hq)%Hh.
      assert (p = q) as <- by (apply (do_one _ _ K _ _ i1); [done | rewrite Hq; apply list_elem_of_here]).
      pose proof (do_nodup _ _ K p) as Hn. rewrite Hp in Hn, Hq. injection Hq as ? ? ? ?. apply nodup3 in Hn. tauto.
    - intros i [->|Hi]%elem_of_cons; [by apply (do_own _ _ K p) |].
      apply Hh in Hi as (q & r' & j1 & j2 & Hq). apply (do_own _ _ K q). rewrite Hq. apply list_elem_of_here. }
  apply nodup_bound in H1; [| done]. cbn in *. lia.
Qed.

(** *** Windows of the rings *)

Lemma u16_mod z : u16 z mod NUM = z mod NUM.
Proof. unfold u16, NUM. apply Z.mod_mod_divide. by exists (2 ^ 13). Qed.

Lemma window_mod ring i j L : i mod NUM = j mod NUM -> window ring i L -> window ring j L.
Proof.
  intros E H k x Hx. rewrite <- (H k x Hx). f_equal. rewrite <- Zplus_mod_idemp_l, <- E. apply Zplus_mod_idemp_l.
Qed.

Lemma window_snoc ring i L x : window ring i L -> ring ((i + Z.of_nat (length L)) mod NUM) = x -> window ring i (L ++ [x]).
Proof.
  intros H Hx k y. rewrite lookup_app_Some. intros [Hk|[Hl Hk]]; [by apply H |].
  apply list_lookup_singleton_Some in Hk as [Hk <-]. by replace k with (length L) by lia.
Qed.

Lemma window_upd ring i L x : window ring i L -> (length L < 8)%nat ->
  window (upd ring ((i + Z.of_nat (length L)) mod NUM) x) i L.
Proof.
  intros H Hl k y Hk. pose proof (lookup_lt_Some _ _ _ Hk). rewrite upd_ne; [by apply H |]. unfold NUM. intros E.
  pose proof (Z.div_mod (i + Z.of_nat k) 8). pose proof (Z.div_mod (i + Z.of_nat (length L)) 8). lia.
Qed.

Lemma window_cons ring i x L : window ring i (x :: L) -> ring (i mod NUM) = x /\ window ring (i + 1) L.
Proof.
  intros H. split.
  - rewrite <- (Z.add_0_r i). by apply (H 0%nat).
  - intros k y Hk. replace (i + 1 + Z.of_nat k) with (i + Z.of_nat (S k)) by lia. by apply H.
Qed.

Lemma window_empty i len : (len < 8)%nat -> i mod NUM = (i + Z.of_nat len) mod NUM -> len = 0%nat.
Proof.
  unfold NUM. intros Hl E. pose proof (Z.div_mod i 8). pose proof (Z.div_mod (i + Z.of_nat len) 8). lia.
Qed.

Lemma avail_empty k v A U : rings_ok k v A U -> (length A < 8)%nat -> dv_seen v = v_avidx k -> A = [].
Proof.
  intros [] HA E. apply length_zero_iff_nil, (window_empty (dv_seen v)); [done |]. by rewrite E at 1; rewrite ro_avidx0, u16_mod.
Qed.

(** *** The steps *)

Definition advances (s : vsys) (a : adisk) (e : option vevent) (o : outcome vsys unit) : Prop :=
  exists s' a' A' U', o = Ok tt s' /\ vinv s' a' A' U' /\
    forall a0 tr, areach a0 tr a -> areach a0 (emit e tr) a'.

Ltac at_p := let q := fresh "q" in intros q; unfold upd; case_decide; [subst q |].

Lemma in_flight_bound s a A U : vinv s a A U -> (length A < 8 /\ length U < 8)%nat.
Proof.
  intros V. pose proof (heads_bound _ _ _ (vi_desc _ _ _ _ V) (ro_nodup _ _ _ _ (vi_rings _ _ _ _ V)) (vi_heads _ _ _ _ V)) as H.
  rewrite !length_app in H. lia.
Qed.

(** A head belongs to one process. *)
Lemma head_inj s a A U p q i r r' i1 i2 j1 j2 : vinv s a A U ->
  vpcs s p = VWait r i i1 i2 -> vpcs s q = VWait r' i j1 j2 -> p = q.
Proof.
  intros V Hp Hq. apply (do_one _ _ (vi_desc _ _ _ _ V) _ _ i); rewrite ?Hp, ?Hq; apply list_elem_of_here.
Qed.

Lemma head_kept pcs p pc i : (forall r i0 i1 i2, pcs p <> VWait r i0 i1 i2) -> head_of pcs i -> head_of (upd pcs p pc) i.
Proof.
  intros Hp (q & r & i1 & i2 & Hq). exists q, r, i1, i2. rewrite upd_ne; [done |]. intros ->. by apply Hp in Hq.
Qed.

Lemma step_call s a A U p r : vinv s a A U -> vpcs s p = VIdle -> unused s (rq_b r) -> 0 <= rq_n r < 2 ^ 31 ->
  advances s a (Some (Call p r)) (vgoto p (VWant r) s).
Proof.
  intros V Hp Hu Hn. eexists _, (Adisk (a_disk a) (a_data a) (upd (a_st a) p (ACalled r))), A, U.
  split; [reflexivity |]. split; [destruct V; split; cbn; try done |].
  - apply desc_ok_pcs; rewrite ?Hp; [done | done | done].
  - intros i Hi. apply head_kept; [by rewrite Hp | auto].
  - at_p; [done | auto].
  - intros q Hq. destruct (vi_lock0 q Hq) as (r' & i0 & i1 & i2 & Hr). exists r', i0, i1, i2.
    rewrite upd_ne; [done |]. intros ->. rewrite Hp in Hr. by destruct Hr.
  - at_p; [by intros r' [= <-] | apply vi_blk0].
  - intros q q' r1 r2. unfold upd. repeat case_decide; subst; cbn; try congruence.
    + intros [= <-] H2 E. by destruct (Hu _ _ H2).
    + intros H1 [= <-] E. by destruct (Hu _ _ H1).
    + apply vi_buf0.
  - at_p; [done | auto].
  - intros a0 tr Ha. apply ar_call; [done |]. pose proof (vi_st _ _ _ _ V p) as H. by rewrite Hp in H.
Qed.

Lemma step_store s a A U b d : vinv s a A U -> unused s b -> length d = Z.to_nat BSIZE ->
  advances s a (Some (Store b d)) (vstore b d s).
Proof.
  intros V Hu Hd. eexists _, (Adisk (a_disk a) (upd (a_data a) b d) (a_st a)), A, U.
  split; [reflexivity |]. split; [destruct V; split; cbn; try done |].
  - at_p; auto.
  - intros c. unfold upd. case_decide; auto.
  - intros a0 tr Ha. by apply ar_store.
Qed.

Lemma in_vk_run {A} (m : M vdisk A) s x k : m (vk s) = Ok x k ->
  in_vk m s = Ok x (Vsys k (vdv s) (vdata s) (vpcs s) (vlk s)).
Proof. unfold in_vk, zoom. by intros ->. Qed.

Lemma vinv_idle s a A U k : vinv s a A U -> idle_same (vk s) k -> vinv (Vsys k (vdv s) (vdata s) (vpcs s) (vlk s)) a A U.
Proof.
  intros V K. destruct V; split; cbn; try done.
  - eapply desc_ok_ext; [apply (is_free _ _ K) | | apply (is_hdr _ _ K) | apply (is_infob _ _ K) | done].
    intros i Hi. split; [by apply (is_desc _ _ K) | by rewrite (is_status _ _ K)].
  - destruct vi_rings0. split; rewrite ?(is_avail _ _ K), ?(is_avidx _ _ K), ?(is_elems _ _ K), ?(is_usedid _ _ K), ?(is_uidx _ _ K); done.
  - intros p. specialize (vi_wait0 p). unfold wait_ok in *.
    by rewrite (is_avail _ _ K), (is_avidx _ _ K), (is_bdisk _ _ K).
Qed.

Lemma rings_begin s a A U p r i0 i1 i2 : vinv s a A U -> rings_ok (begun (vk s) p r i0 i1 i2) (vdv s) A U.
Proof.
  intros V. pose proof (in_flight_bound _ _ _ _ V) as [HA _]. destruct (vi_rings _ _ _ _ V). split; cbn; try done.
  rewrite ro_avidx0, u16_mod. by apply window_upd.
Qed.

(** A buffer in use by one process is not in use by another. *)
Lemma bdisk_other s a A U p q r r' : vinv s a A U -> req_of (vpcs s p) = Some r -> req_of (vpcs s q) = Some r' ->
  p <> q -> rq_b r' <> rq_b r.
Proof. intros V Hp Hq Hne E. by apply Hne, (vi_buf _ _ _ _ V p q r r'). Qed.

Lemma nobody_queued s a A U q : vinv s a A U -> (forall p, vlk s <> LProc p) -> forall r i0 i1 i2, vpcs s q <> VQueued r i0 i1 i2.
Proof. intros V Hl r i0 i1 i2 Hq. pose proof (vi_wait _ _ _ _ V q) as H. rewrite Hq in H. by destruct (Hl q), H. Qed.

Lemma wait_begin s a A U p r i0 i1 i2 : vinv s a A U -> vpcs s p = VWant r -> vlk s = LFree ->
  (forall i, i ∈ [i0; i1; i2] -> 0 <= i < NUM /\ v_free (vk s) i = true) ->
  forall q, wait_ok (begun (vk s) p r i0 i1 i2) (A ++ dv_busy (vdv s) ++ U) (LProc p) q (upd (vpcs s) p (VQueued r i0 i1 i2) q).
Proof.
  intros V Hp Hl Hf. at_p.
  - cbn. rewrite !upd_eq. split_and!; [done.. |]. intros (q & r' & j1 & j2 & Hq)%(vi_heads _ _ _ _ V).
    destruct (do_own _ _ (vi_desc _ _ _ _ V) q i0) as [_ F]; [rewrite Hq; apply list_elem_of_here |].
    destruct (Hf i0) as [_ F']; [apply list_elem_of_here | congruence].
  - pose proof (vi_wait _ _ _ _ V q) as Hw. destruct (vpcs s q) as [|r'|r' j0 j1 j2|r' j0 j1 j2] eqn:Eq; [done | done | |].
    + destruct (nobody_queued s a A U q V) with r' j0 j1 j2; [by rewrite Hl | done].
    + cbn in *. rewrite upd_ne; [done |]. eapply (bdisk_other s a A U p q); rewrite ?Hp, ?Eq; done.
Qed.

Lemma step_begin_ok s a A U p r : vinv s a A U -> vpcs s p = VWant r -> vlk s = LFree ->
  advances s a None (parks (step_begin p r s)).
Proof.
  intros V Hp Hl. unfold step_begin. destruct (rw_begin_spec (vk s) p r) as [(i0 & i1 & i2 & Hn & Hf & E)|(k & E & K)].
  - rewrite (bind_run _ _ _ _ _ (in_vk_run _ _ _ _ E)). eexists _, a, A, U. split; [reflexivity |]. split; [| done].
    split; cbn.
    + apply desc_ok_begin; [by rewrite Hp | done | done | apply V].
    + by eapply rings_begin.
    + intros i Hi. apply head_kept; [by rewrite Hp | by apply (vi_heads _ _ _ _ V)].
    + by apply (wait_begin s a).
    + intros q [= <-]. exists r, i0, i1, i2. rewrite upd_eq. by left.
    + at_p; [intros r' [= <-]; apply (vi_blk _ _ _ _ V p); by rewrite Hp | apply (vi_blk _ _ _ _ V)].
    + intros q q' r1 r2 H1 H2. apply (vi_buf _ _ _ _ V).
      * revert H1. unfold upd. case_decide; [subst q; by rewrite Hp | done].
      * revert H2. unfold upd. case_decide; [subst q'; by rewrite Hp | done].
    + apply V.
    + at_p; [pose proof (vi_st _ _ _ _ V p) as H; by rewrite Hp in H | apply V].
    + apply V.
    + apply V.
  - unfold in_vk, bind, zoom. rewrite E. eexists _, a, A, U. split; [reflexivity |]. split; [| done]. by apply vinv_idle.
Qed.

Lemma chain_head pc i : (exists r i1 i2, pc = VWait r i i1 i2) -> i ∈ chain pc.
Proof. intros (r & i1 & i2 & ->). apply list_elem_of_here. Qed.

(** Two processes have different heads. *)
Lemma heads_ne s a A U p q i j : vinv s a A U -> p <> q ->
  i ∈ chain (vpcs s p) -> j ∈ chain (vpcs s q) -> i <> j.
Proof. intros V Hne Hi Hj ->. by apply Hne, (do_one _ _ (vi_desc _ _ _ _ V) _ _ j). Qed.

Definition published (k : vdisk) : vdisk :=
  Vdisk (v_desc k) (v_avail k) (u16 (v_avidx k + 1)) (v_elems k) (v_usedid k) (v_free k) (v_uidx k) (v_infob k) (v_status k) (v_hdr k) (v_bdisk k) (v_mmio k ++ [(VIRTIO_MMIO_QUEUE_NOTIFY, u32 0)]) (v_woken k).

Lemma rings_publish k v A U i : rings_ok k v A U -> v_avail k (v_avidx k mod NUM) = i -> i ∉ A ++ dv_busy v ++ U ->
  rings_ok (published k) v (A ++ [i]) U.
Proof.
  intros [] Hi Hn. split; cbn; try done.
  - apply window_snoc; [done |]. by rewrite <- Hi, ro_avidx0, u16_mod.
  - rewrite ro_avidx0, length_app. unfold u16. rewrite Zplus_mod_idemp_l. f_equal. cbn. lia.
  - rewrite <- app_assoc. cbn. rewrite <- Permutation_middle. by apply NoDup_cons_2.
Qed.

Lemma step_publish_ok s a A U p r i0 i1 i2 : vinv s a A U -> vpcs s p = VQueued r i0 i1 i2 -> vlk s = LProc p ->
  advances s a None (step_publish p r i0 i1 i2 s).
Proof.
  intros V Hp Hl. pose proof (vi_wait _ _ _ _ V p) as Hw. rewrite Hp in Hw. destruct Hw as (_ & Hav & Hbd & Hni).
  assert (i0 ∈ chain (vpcs s p)) as Hc by (rewrite Hp; apply list_elem_of_here).
  assert (forall i L, i ∈ (A ++ [i0]) ++ L <-> i = i0 \/ i ∈ A ++ L) as Hin.
  { intros i L. rewrite !elem_of_app, list_elem_of_singleton. tauto. }
  eexists _, a, (A ++ [i0]), U. split; [reflexivity |]. split; [| done]. split; cbn; try apply V.
  - apply desc_ok_pcs; rewrite ?Hp; [done | done |]. eapply desc_ok_ext; [..| apply V]; done.
  - apply rings_publish; [apply V | done | done].
  - intros i. rewrite Hin. intros [->|Hi]; [exists p, r, i1, i2; apply upd_eq |].
    apply head_kept; [by rewrite Hp | by apply (vi_heads _ _ _ _ V)].
  - at_p; [cbn; rewrite Hin; tauto |]. pose proof (vi_wait _ _ _ _ V q) as Hw.
    destruct (vpcs s q) as [|r'|r' j0 j1 j2|r' j0 j1 j2] eqn:Eq; [done | done | destruct Hw as [Hw _]; congruence |].
    cbn in *. rewrite Hin, Hw. assert (j0 <> i0); [| tauto].
    apply (heads_ne s a A U q p); [done | done | rewrite Eq; apply list_elem_of_here | done].
  - intros q [= <-]%(eq_trans (eq_sym Hl)). exists r, i0, i1, i2. rewrite upd_eq. by right.
  - at_p; [intros r' [= <-]; apply (vi_blk _ _ _ _ V p); by rewrite Hp | apply (vi_blk _ _ _ _ V)].
  - intros q q' r1 r2 H1 H2. apply (vi_buf _ _ _ _ V).
    + revert H1. unfold upd. case_decide; [subst q; by rewrite Hp | done].
    + revert H2. unfold upd. case_decide; [subst q'; by rewrite Hp | done].
  - at_p; pose proof (vi_st _ _ _ _ V) as Hst.
    + specialize (Hst p). rewrite Hp in Hst. cbn in *. rewrite Hst, decide_True; [done |]. rewrite Hin. by left.
    + specialize (Hst q). destruct (vpcs s q) as [|r'|r' j0 j1 j2|r' j0 j1 j2] eqn:Eq; [done.. |]. cbn in *. rewrite Hst.
      assert (j0 <> i0) by (apply (heads_ne s a A U q p); [done | done | rewrite Eq; apply list_elem_of_here | done]).
      apply decide_ext. rewrite Hin. tauto.
Qed.

Lemma vinv_lock s a A U l : vinv s a A U -> (forall q r i0 i1 i2, vpcs s q <> VQueued r i0 i1 i2) -> (forall p, l <> LProc p) ->
  vinv (Vsys (vk s) (vdv s) (vdata s) (vpcs s) l) a A U.
Proof.
  intros V Hq Hl. destruct V; split; cbn; try done.
  - intros p. specialize (vi_wait0 p). specialize (Hq p). by destruct (vpcs s p); [.. | destruct (Hq r i0 i1 i2) |].
  - intros p E. by destruct (Hl p).
Qed.

Lemma waiting_unlocked s a A U p r i0 i1 i2 : vinv s a A U -> vpcs s p = VWait r i0 i1 i2 ->
  vlk s = LFree \/ vlk s = LProc p -> forall q r' j0 j1 j2, vpcs s q <> VQueued r' j0 j1 j2.
Proof.
  intros V Hp Hl q r' j0 j1 j2 Hq. pose proof (vi_wait _ _ _ _ V q) as H. rewrite Hq in H. destruct H as [H _].
  destruct Hl as [Hl|Hl]; rewrite Hl in H; [done |]. injection H as <-. congruence.
Qed.

Lemma step_end_ok s a A U p r i0 i1 i2 : vinv s a A U -> vpcs s p = VWait r i0 i1 i2 ->
  vlk s = LFree \/ vlk s = LProc p -> v_bdisk (vk s) (rq_b r) = false ->
  advances s a (Some (Return p)) (step_end p i0 s).
Proof.
  intros V Hp Hl Hb. pose proof (vi_wait _ _ _ _ V p) as Hw. rewrite Hp in Hw. cbn in Hw.
  assert (i0 ∉ A ++ dv_busy (vdv s) ++ U) as Hni by (rewrite <- Hw; congruence).
  pose proof (waiting_unlocked _ _ _ _ _ _ _ _ _ V Hp Hl) as Hq.
  pose proof (vi_desc _ _ _ _ V) as K. pose proof (do_fmt _ _ K p) as Hfm. pose proof (do_nodup _ _ K p) as Hnd.
  pose proof (do_own _ _ K p) as Ho. rewrite Hp in Hfm, Hnd, Ho.
  unfold step_end. rewrite (bind_run _ _ _ _ _ (in_vk_run _ _ _ _ (rw_end_spec _ _ _ _ _ _ Hfm Hnd Ho))).
  eexists _, (Adisk (a_disk a) (a_data a) (upd (a_st a) p AIdle)), A, U. split; [reflexivity |].
  split; [split; cbn; try apply V |].
  - by eapply desc_ok_end.
  - destruct (vi_rings _ _ _ _ V). by split.
  - intros i Hi. destruct (vi_heads _ _ _ _ V i Hi) as (q & r' & j1 & j2 & E). exists q, r', j1, j2. rewrite upd_ne; [done |].
    intros ->. rewrite Hp in E. by injection E as -> -> -> ->.
  - at_p; [done |]. pose proof (vi_wait _ _ _ _ V q) as Hwq. specialize (Hq q).
    destruct (vpcs s q) as [| |r' j0 j1 j2|]; [done | done | by destruct (Hq r' j0 j1 j2) | done].
  - done.
  - at_p; [done | apply (vi_blk _ _ _ _ V)].
  - intros q q' r1 r2. unfold upd. repeat case_decide; [done.. | apply (vi_buf _ _ _ _ V)].
  - at_p; [done | apply V].
  - intros a0 tr Ha. apply ar_return; [done |]. pose proof (vi_st _ _ _ _ V p) as H. rewrite Hp in H. cbn in H.
    rewrite H, decide_False; [done |]. revert Hni. rewrite !elem_of_app. tauto.
Qed.

Definition handled (b : nat) (k : vdisk) : vdisk :=
  Vdisk (v_desc k) (v_avail k) (v_avidx k) (v_elems k) (v_usedid k) (v_free k) ((v_uidx k + 1) mod NUM) (v_infob k) (v_status k) (v_hdr k) (upd (v_bdisk k) b false) (v_mmio k) (ChBuf b :: v_woken k).

Definition acked (rd : Z -> Z) (k : vdisk) : vdisk :=
  Vdisk (v_desc k) (v_avail k) (v_avidx k) (v_elems k) (v_usedid k) (v_free k) (v_uidx k) (v_infob k) (v_status k) (v_hdr k) (v_bdisk k) (v_mmio k ++ [(VIRTIO_MMIO_INTERRUPT_ACK, u32 (Z.land (rd VIRTIO_MMIO_INTERRUPT_STATUS) 0x3))]) (v_woken k).

(** One test of the interrupt handler's loop: the oldest used entry is handled,
    or there is none. *)
Lemma intr_iter_spec s a A U : vinv s a A U ->
  match U with
  | [] => intr_iter (vk s) = Ok false (vk s)
  | id :: _ => exists p r i1 i2, vpcs s p = VWait r id i1 i2 /\ intr_iter (vk s) = Ok true (handled (rq_b r) (vk s))
  end.
Proof.
  intros V. pose proof (vi_rings _ _ _ _ V) as R. pose proof (in_flight_bound _ _ _ _ V) as [_ HU].
  unfold intr_iter. rewrite (bind_run get _ (vk s) (vk s) (vk s) eq_refl). destruct U as [|id U'].
  - destruct R. rewrite ro_usedid0. cbn. by rewrite Z.add_0_r, Z.eqb_refl.
  - destruct (vi_heads _ _ _ _ V id) as (p & r & i1 & i2 & Hp); [rewrite !elem_of_app, elem_of_cons; tauto |].
    exists p, r, i1, i2. split; [done |]. pose proof (do_fmt _ _ (vi_desc _ _ _ _ V) p) as Hf. rewrite Hp in Hf.
    destruct Hf as (_ & _ & _ & _ & Hb & Hs). destruct (v_uidx (vk s) mod NUM =? _) eqn:E.
    + apply Z.eqb_eq in E. rewrite (ro_usedid _ _ _ _ R) in E. by apply window_empty in E.
    + destruct (window_cons _ _ _ _ (ro_used _ _ _ _ R)) as [Hid _].
      rewrite Z.mod_small in Hid by apply R. cbn [negb]. cbv zeta. rewrite Hid, Hs, Hb. done.
Qed.

Lemma vinv_handled s a A U id p r i1 i2 : vinv s a A (id :: U) -> vlk s = LIntr -> vpcs s p = VWait r id i1 i2 ->
  vinv (Vsys (handled (rq_b r) (vk s)) (vdv s) (vdata s) (vpcs s) (vlk s)) a A U.
Proof.
  intros V Hl Hp. pose proof (vi_rings _ _ _ _ V) as R.
  assert (A ++ dv_busy (vdv s) ++ id :: U ≡ₚ id :: A ++ dv_busy (vdv s) ++ U) as HP by solve_Permutation.
  pose proof (ro_nodup _ _ _ _ R) as Hn. rewrite HP in Hn. apply NoDup_cons in Hn as [Hid Hn].
  split; cbn; try apply V.
  - eapply desc_ok_ext; [.. | apply V]; done.
  - destruct R. apply window_cons in ro_used0 as [_ Hu]. split; cbn; try done.
    + eapply window_mod; [| done]. by rewrite Zmod_mod.
    + apply Z.mod_pos_bound. done.
    + rewrite ro_usedid0, Zplus_mod_idemp_l. f_equal. cbn. lia.
  - intros i Hi. apply (vi_heads _ _ _ _ V). rewrite HP. by right.
  - intros q. pose proof (vi_wait _ _ _ _ V q) as Hw. destruct (decide (q = p)) as [->|Hne].
    + rewrite Hp. cbn. rewrite upd_eq. by split.
    + destruct (vpcs s q) as [|r'|r' j0 j1 j2|r' j0 j1 j2] eqn:Eq; [done | done | destruct Hw as [Hw _]; congruence |]. cbn in *.
      rewrite upd_ne; [| by eapply (bdisk_other s a A (id :: U) p q); rewrite ?Hp, ?Eq].
      rewrite Hw, HP, elem_of_cons. assert (j0 <> id); [| tauto].
      apply (heads_ne s a A (id :: U) q p); rewrite ?Hp, ?Eq; [done | done | apply list_elem_of_here..].
Qed.

Lemma step_intr_ok s a A U rd : vinv s a A U -> vlk s = LIntr -> advances s a None (step_intr rd s).
Proof.
  intros V Hl. pose proof (intr_iter_spec _ _ _ _ V) as H. unfold step_intr. destruct U as [|id U'].
  - rewrite (bind_run _ _ _ _ _ (in_vk_run _ _ _ _ H)). eexists _, a, A, []. split; [reflexivity |]. split; [| done].
    apply (vinv_lock (Vsys (acked rd (vk s)) (vdv s) (vdata s) (vpcs s) (vlk s))); cbn; [by apply vinv_idle | | done].
    intros q r i0 i1 i2 Hq. pose proof (vi_wait _ _ _ _ V q) as Hw. rewrite Hq in Hw. destruct Hw. congruence.
  - destruct H as (p & r & i1 & i2 & Hp & E). rewrite (bind_run _ _ _ _ _ (in_vk_run _ _ _ _ E)).
    eexists _, a, A, U'. split; [reflexivity |]. split; [| done]. by eapply vinv_handled.
Qed.

(** *** The device's steps *)

Lemma step_fetch_ok s a A U : vinv s a A U -> dv_seen (vdv s) <> v_avidx (vk s) -> advances s a None (dev_fetch s).
Proof.
  intros V Hne. pose proof (vi_rings _ _ _ _ V) as R. destruct A as [|x A'].
  { destruct R. cbn in ro_avidx0. rewrite Z.add_0_r in ro_avidx0. unfold u16 in ro_avidx0. rewrite Z.mod_small in ro_avidx0; congruence. }
  destruct (window_cons _ _ _ _ (ro_avail _ _ _ _ R)) as [Hx Hw].
  assert (forall L, A' ++ (x :: dv_busy (vdv s)) ++ L ≡ₚ (x :: A') ++ dv_busy (vdv s) ++ L) as HP by (intros; solve_Permutation).
  eexists _, a, A', U. split; [reflexivity |]. split; [| done]. cbv beta zeta. rewrite Hx. split; cbn [vk vdv vdata vpcs vlk dv_seen dv_busy dv_media]; try apply V.
  - destruct R. split; cbn [dv_seen dv_busy dv_media]; try done.
    + eapply window_mod; [| done]. by rewrite u16_mod.
    + rewrite ro_avidx0. unfold u16. rewrite Zplus_mod_idemp_l. f_equal. cbn. lia.
    + apply u16_range.
    + by rewrite HP.
  - intros i. rewrite HP. apply V.
  - intros p. pose proof (vi_wait _ _ _ _ V p) as H. destruct (vpcs s p); cbn [wait_ok] in *; rewrite ?HP; done.
  - intros p. pose proof (vi_st _ _ _ _ V p) as H. destruct (vpcs s p); [done.. |]. cbn [status_ok] in *. rewrite H.
    apply decide_ext. specialize (HP []). rewrite !app_nil_r in HP. by rewrite HP.
Qed.

Lemma dev_request_ok k p r i0 i1 i2 : formatted k p r i0 i1 i2 ->
  dev_request k i0 = Some (u32 (rq_n r * (BSIZE / 512)), rq_b r, BSIZE, rq_w r, i0).
Proof.
  intros (D0 & D1 & D2 & Hh & _). unfold dev_request. rewrite D0. cbn [vd_next]. rewrite D1. cbn [vd_next].
  rewrite D2. cbn [vd_addr]. rewrite Hh. by destruct (rq_w r).
Qed.

Lemma sector_ok r : 0 <= rq_n r < 2 ^ 31 -> u32 (rq_n r * (BSIZE / 512)) = rq_n r * (BSIZE / 512).
Proof. intros. apply u32_small. change (BSIZE / 512) with 2. lia. Qed.

Definition used_up (id : Z) (k : vdisk) : vdisk :=
  Vdisk (v_desc k) (v_avail k) (v_avidx k) (upd (v_elems k) (v_usedid k mod NUM) id) (u16 (v_usedid k + 1))
        (v_free k) (v_uidx k) (v_infob k) (upd (v_status k) id 0) (v_hdr k) (v_bdisk k) (v_mmio k) (v_woken k).

Lemma filter_out (id : Z) L : NoDup L -> id ∈ L -> L ≡ₚ id :: filter (fun j => j <> id) L.
Proof.
  intros Hn Hi. apply NoDup_Permutation; [done | apply NoDup_cons_2; [rewrite list_elem_of_filter; tauto | by apply NoDup_filter] |].
  intros x. rewrite elem_of_cons, list_elem_of_filter. destruct (decide (x = id)); naive_solver.
Qed.

(** The heads in flight stay the same; [id] moves to the used ring. *)
Lemma complete_perm id (A B U : list Z) : NoDup (A ++ B ++ U) -> id ∈ B ->
  A ++ filter (fun j => j <> id) B ++ U ++ [id] ≡ₚ A ++ B ++ U.
Proof.
  intros Hn Hi. assert (NoDup B) as HB by (apply NoDup_app in Hn as (_ & _ & [? _]%NoDup_app); done).
  rewrite (filter_out id B HB Hi) at 2. solve_Permutation.
Qed.

Lemma rings_complete k v m A U id : rings_ok k v A U -> (length U < 8)%nat -> id ∈ dv_busy v ->
  rings_ok (used_up id k) (Vdev (dv_seen v) (filter (fun j => j <> id) (dv_busy v)) m) A (U ++ [id]).
Proof.
  intros [] HU Hi. split; cbn; try done.
  - rewrite ro_usedid0. apply window_snoc; [by apply window_upd | apply upd_eq].
  - rewrite u16_mod, <- Zplus_mod_idemp_l, ro_usedid0, Zplus_mod_idemp_l, length_app. f_equal. cbn. lia.
  - by rewrite complete_perm.
Qed.

Lemma status_complete s a A U id p r i1 i2 : vinv s a A U -> id ∈ dv_busy (vdv s) -> vpcs s p = VWait r id i1 i2 ->
  forall q, status_ok (A ++ filter (fun j => j <> id) (dv_busy (vdv s))) (vpcs s q) (upd (a_st a) p ADone q).
Proof.
  intros V Hi Hp q. pose proof (ro_nodup _ _ _ _ (vi_rings _ _ _ _ V)) as Hn. apply NoDup_app in Hn as (_ & Hd & _).
  pose proof (vi_st _ _ _ _ V q) as Hst. unfold upd. case_decide as E; [subst q; rewrite Hp |].
  - cbn. rewrite decide_False; [done |]. rewrite elem_of_app, list_elem_of_filter. intros [HA|[? _]]; [| done].
    apply (Hd id HA). rewrite elem_of_app. by left.
  - destruct (vpcs s q) as [| | |r' j0 j1 j2] eqn:Eq; [done.. |]. cbn in *. rewrite Hst.
    assert (j0 <> id) by (apply (heads_ne s a A U q p); rewrite ?Hp, ?Eq; [done | done | apply list_elem_of_here..]).
    apply decide_ext. rewrite !elem_of_app, list_elem_of_filter. tauto.
Qed.

Lemma step_complete_ok s a A U id : vinv s a A U -> id ∈ dv_busy (vdv s) -> advances s a None (dev_complete id s).
Proof.
  intros V Hi. pose proof (vi_rings _ _ _ _ V) as R. pose proof (complete_perm id _ _ _ (ro_nodup _ _ _ _ R) Hi) as HP.
  destruct (vi_heads _ _ _ _ V id) as (p & r & i1 & i2 & Hp); [rewrite !elem_of_app; tauto |].
  pose proof (do_fmt _ _ (vi_desc _ _ _ _ V) p) as Hf. rewrite Hp in Hf.
  assert (0 <= rq_n r < 2 ^ 31) as Hn by (apply (vi_blk _ _ _ _ V p); by rewrite Hp).
  unfold dev_complete. rewrite (bind_run get _ s s s eq_refl). cbv zeta. rewrite (dev_request_ok _ _ _ _ _ _ Hf), (sector_ok _ Hn).
  eexists _, (a_io r p a), A, (U ++ [id]). split; [reflexivity |]. split.
  2: { intros a0 tr Ha. apply ar_io; [done |]. pose proof (vi_st _ _ _ _ V p) as H. rewrite Hp in H. cbn in H.
       by rewrite H, decide_True by (rewrite elem_of_app; by right). }
  split; cbn [vk vdv vdata vpcs vlk dv_seen dv_busy dv_media]; try apply V.
  - eapply desc_ok_ext; [.. | apply V]; try done. intros i _. split; [done |]. cbn. unfold upd. case_decide; [| done].
    subst. by destruct Hf as (_ & _ & _ & _ & _ & ->).
  - apply rings_complete; [done | by eapply in_flight_bound | done].
  - intros i. rewrite HP. apply V.
  - intros q. pose proof (vi_wait _ _ _ _ V q) as H. destruct (vpcs s q); cbn [wait_ok] in *; rewrite ?HP; done.
  - intros b. destruct (rq_w r); [apply V |]. unfold upd. case_decide; [apply media_read_len | apply V].
  - intros q. replace (a_st (a_io r p a)) with (upd (a_st a) p ADone) by (unfold a_io; by destruct (rq_w r)).
    by eapply status_complete.
  - intros b. unfold a_io. destruct (rq_w r); [apply V |]. cbn. unfold upd. case_decide; [apply (vi_media _ _ _ _ V) | apply V].
  - intros n. unfold a_io. destruct (rq_w r); [| apply V]. cbn. unfold upd. case_decide as E; [subst n |].
    + rewrite mblock_write_eq; [apply V | apply (vi_len _ _ _ _ V)].
    + rewrite mblock_write_ne by done. apply V.
Qed.

(** ** Correctness *)

(** [static struct disk] before [virtio_disk_init]. *)
Definition bss : vdisk :=
  Vdisk (fun _ => vdesc0) (fun _ => 0) 0 (fun _ => 0) 0 (fun _ => false) 0 (fun _ => None) (fun _ => 0)
        (fun _ => OutHdr 0 0 0) (fun _ => false) [] [].

(** The driver is initialised, the device has seen nothing, nobody is in
    [virtio_disk_rw]. *)
Record vstart (s : vsys) : Prop := Vstart {
  vst_init : exists rd pages, virtio_disk_init rd pages bss = Ok tt (vk s);
  vst_dev : dv_seen (vdv s) = 0 /\ dv_busy (vdv s) = [];
  vst_pcs : forall p, vpcs s p = VIdle;
  vst_lk : vlk s = LFree;
  vst_len : forall b, length (vdata s b) = Z.to_nat BSIZE;
}.

Definition abs0 (s : vsys) : adisk := Adisk (mblock (dv_media (vdv s))) (vdata s) (fun _ => AIdle).

Definition rings0 (k : vdisk) : Prop := v_avidx k = 0 /\ v_uidx k = 0 /\ v_usedid k = 0.

Lemma free_all_ok k : rings0 k ->
  wp (for_range (R := Empty_set) (Z.to_nat NUM) 0 (fun i => set_free i true ;;; ret None)) (fun _ k' =>
    (forall i, 0 <= i < NUM -> v_free k' i = true) /\ rings0 k') k.
Proof.
  intros Hk. apply (wp_for_range _ (fun j k' => (forall i, 0 <= i < j -> v_free k' i = true) /\ rings0 k')); [| | done].
  - split; [lia | done].
  - intros j k' Hj [Hf H]. apply wp_bind, wp_modify, wp_ret. split; [| done]. intros i Hi. cbn. unfold upd.
    case_decide; [done | apply Hf; lia].
Qed.

Lemma wlp_write {A} r v (m : M vdisk A) Q k : rings0 k -> (forall k', rings0 k' -> wlp m Q k') -> wlp (write_R r v ;;; m) Q k.
Proof. intros Hk H. by apply wlp_bind, wlp_modify, H. Qed.

(** Every descriptor is free, and the rings are empty. *)
Lemma virtio_disk_init_ok rd pages k : virtio_disk_init rd pages bss = Ok tt k ->
  (forall i, 0 <= i < NUM -> v_free k i = true) /\ rings0 k.
Proof.
  apply (wlp_elim _ (fun _ k => (forall i, 0 <= i < NUM -> v_free k i = true) /\ rings0 k)). unfold virtio_disk_init.
  assert (rings0 bss) as H0 by done. revert H0. generalize bss. intros k0 H0.
  destruct (_ || _); [by apply wlp_intro |]. cbv zeta. do 7 (apply wlp_write; [done | clear dependent k0; intros k0 H0]).
  destruct (rd VIRTIO_MMIO_QUEUE_NUM_MAX =? 0); [by apply wlp_intro |].
  destruct (rd VIRTIO_MMIO_QUEUE_NUM_MAX <? NUM); [by apply wlp_intro |].
  apply wlp_write; [done |]. intros k1 H1. apply wlp_bind, wlp_modify. apply wlp_write; [by destruct H1 as (_ & ? & _) |].
  intros k2 H2. apply wlp_bind, wp_wlp. eapply wp_mono; [by apply free_all_ok |]. intros r k3 Hk. by apply wlp_ret.
Qed.

Lemma vinv_start s : vstart s -> vinv s (abs0 s) [] [].
Proof.
  intros [(rd & pages & Hi) [Hs Hb] Hp Hl Hd]. apply virtio_disk_init_ok in Hi as (Hf & Ha & Hu & Hi).
  split; cbn; try done.
  - split; try (intros p; rewrite Hp; cbn); try done.
    + intros i Hi'. by apply elem_of_nil in Hi'.
    + apply NoDup_nil_2.
    + intros q i Hi'. by apply elem_of_nil in Hi'.
    + intros i Hi' F. by rewrite Hf in F.
  - split; rewrite ?Hs, ?Ha, ?Hu, ?Hi, ?Hb; try done. apply NoDup_nil_2.
  - rewrite Hb. intros i Hi'. by apply elem_of_nil in Hi'.
  - intros p. by rewrite Hp.
  - intros p. by rewrite Hl.
  - intros p r. by rewrite Hp.
  - intros p q r r'. by rewrite Hp.
  - intros p. by rewrite Hp.
Qed.

Lemma vinv_step s a A U e o : vinv s a A U -> vstep s e o -> advances s a e o.
Proof.
  intros V []; [by eapply step_call | by eapply step_store | by eapply step_begin_ok | by eapply step_publish_ok | |
    by eapply step_end_ok | | by eapply step_intr_ok | by eapply step_fetch_ok | by eapply step_complete_ok].
  - eexists _, a, A, U. split; [reflexivity |]. split; [| done]. apply vinv_lock; [done | | done].
    by eapply waiting_unlocked.
  - eexists _, a, A, U. split; [reflexivity |]. split; [| done]. apply vinv_lock; [done | | done].
    intros q. eapply nobody_queued; [done |]. congruence.
Qed.

Lemma vinv_reach s0 tr o : vstart s0 -> vreach s0 tr o ->
  exists s a A U, o = Ok tt s /\ areach (abs0 s0) tr a /\ vinv s a A U.
Proof.
  intros H0 R. induction R as [|tr s e o R IH St].
  - exists s0, (abs0 s0), [], []. split_and!; [done | constructor | by apply vinv_start].
  - destruct IH as (s1 & a & A & U & [= <-] & Ha & V).
    destruct (vinv_step _ _ _ _ _ _ V St) as (s' & a' & A' & U' & -> & V' & Ht).
    exists s', a', A', U'. split_and!; [done | by apply Ht | done].
Qed.

(** C3: Whatever the interleaving of callers, device and interrupt handler,
    the driver never panics and the device never meets a malformed chain; every
    history of calls and returns of [virtio_disk_rw] is one of a disk on which
    each call moves its block exactly once, at one instant between call and
    return, with the same blocks on the medium and the same data in the
    buffers; and when nobody is in the driver every descriptor is free. *)
Theorem virtio_refines s0 tr o : vstart s0 -> vreach s0 tr o ->
  exists s a, o = Ok tt s /\ areach (abs0 s0) tr a /\
    (forall b, vdata s b = a_data a b) /\ (forall n, mblock (dv_media (vdv s)) n = a_disk a n) /\
    ((forall p, vpcs s p = VIdle) -> forall i, 0 <= i < NUM -> v_free (vk s) i = true).
Proof.
  intros H0 R. destruct (vinv_reach _ _ _ H0 R) as (s & a & A & U & -> & Ha & V).
  exists s, a. split_and!; [done | done | intros; symmetry; apply V | intros; symmetry; apply V |].
  intros Hp i Hi. destruct (v_free (vk s) i) eqn:E; [done |].
  destruct (do_leak _ _ (vi_desc _ _ _ _ V) i Hi E) as [p H]. rewrite Hp in H. by apply elem_of_nil in H.
Qed.

(** The handler's loop empties the used ring. *)
Lemma intr_loop_ok n s a A U : vinv s a A U -> vlk s = LIntr -> (length U < n)%nat ->
  exists k, intr_loop n (vk s) = Ok tt k /\ vinv (Vsys k (vdv s) (vdata s) (vpcs s) LIntr) a A [].
Proof.
  revert s U. induction n as [|n IH]; intros s U V Hl HU; [lia |]. cbn [intr_loop].
  pose proof (intr_iter_spec _ _ _ _ V) as H. destruct U as [|id U'].
  - rewrite (bind_run _ _ _ _ _ H). exists (vk s). split; [done |]. destruct s. cbn in *. by subst.
  - destruct H as (p & r & i1 & i2 & Hp & E). rewrite (bind_run _ _ _ _ _ E).
    pose proof (vinv_handled _ _ _ _ _ _ _ _ _ V Hl Hp) as V'.
    destruct (IH _ _ V') as (k & Ek & Vk); [done | cbn in HU; lia |]. by exists k.
Qed.


(** ** A run: process 0 reads block 3 into buffer 5 *)

Definition qemu (r : Z) : Z :=
  if r =? VIRTIO_MMIO_MAGIC_VALUE then 0x74726976 else if r =? VIRTIO_MMIO_VERSION then 1
  else if r =? VIRTIO_MMIO_DEVICE_ID then 2 else if r =? VIRTIO_MMIO_VENDOR_ID then 0x554d4551
  else if r =? VIRTIO_MMIO_QUEUE_NUM_MAX then 1024 else 0.

Definition vboot : vsys :=
  Vsys (match virtio_disk_init qemu 0x80020000 bss with Ok _ k => k | _ => bss end)
       (Vdev 0 [] (fun a => a mod 251)) (fun _ => replicate 1024 0) (fun _ => VIdle) LFree.

Lemma vboot_ok : vstart vboot.
Proof.
  split; [exists qemu, 0x80020000 | | done | done | done].
  - vm_compute. reflexivity.
  - done.
Qed.

Definition vok (o : outcome vsys unit) : bool := match o with Ok _ _ => true | _ => false end.
Definition vstate (o : outcome vsys unit) : vsys := match o with Ok _ s => s | _ => vboot end.

Lemma vreach_next s0 tr s e o : vreach s0 tr (Ok tt s) -> vstep s e o -> vok o = true -> vreach s0 (emit e tr) (Ok tt (vstate o)).
Proof. intros R St Ho. destruct o as [[] s'| | |]; try done. by apply (vr_step s0 tr s). Qed.

Tactic Notation "vnext" hyp(R) uconstr(st) :=
  eapply vreach_next in R; [| eapply st; vm_compute; first [reflexivity | right; reflexivity | discriminate] | vm_compute; reflexivity].

Definition vreq : req := Req 5 3 false.

Lemma virtio_run : exists s, vreach vboot [Call 0 vreq] (Ok tt s) /\ vlk s = LFree /\
  vpcs s 0%nat = VWait vreq 0 1 2 /\ dv_seen (vdv s) = v_avidx (vk s) /\ dv_busy (vdv s) = [] /\
  vdata s 5%nat = mblock (fun a => a mod 251) 3.
Proof.
  pose proof (vr_start vboot) as R.
  eapply vreach_next in R; [| apply (vs_call _ 0%nat vreq); [reflexivity | intros q r H; discriminate H | split; [discriminate | reflexivity]] | reflexivity].
  vnext R (vs_begin _ 0%nat vreq). vnext R (vs_publish _ 0%nat vreq 0 1 2). vnext R (vs_sleep _ 0%nat vreq 0 1 2).
  vnext R vs_fetch. eapply vreach_next in R; [| apply (vs_complete _ 0); vm_compute; left | vm_compute; reflexivity].
  eexists. split; [exact R |]. repeat split; vm_compute; reflexivity.
Qed.

Lemma virtio_refines_witness : exists s, vreach vboot [Call 0 vreq] (Ok tt s) /\ vdata s 5%nat = mblock (fun a => a mod 251) 3 /\
  exists s' a, Ok tt s = Ok tt s' /\ areach (abs0 vboot) [Call 0 vreq] a /\ forall b, vdata s' b = a_data a b.
Proof.
  destruct virtio_run as (s & R & _ & _ & _ & _ & Hd). exists s. split; [exact R |]. split; [exact Hd |].
  destruct (virtio_refines vboot _ _ vboot_ok R) as (s' & a & E & Ha & Hb & _). exists s', a. by split_and!.
Defined.

