(* ===== verification/Uart.v ===== *)
(** * kernel/uart.c

    The 16550 UART is hardware: its registers are the interface [UartRegs]
    (a read may change the device, as reading RHR does).  The driver keeps a
    ring buffer of characters to send.  [uart_tx_lock] makes each function one
    step.  [u_sent] records the characters [uartstart] has taken out of the
    ring and handed to the device, [u_woken] the calls of [wakeup]. *)

From S2P Require Import Prelude.

Definition RHR : Z := 0.
Definition THR : Z := 0.
Definition IER : Z := 1.
Definition IER_TX_ENABLE : Z := Z.shiftl 1 0.
Definition IER_RX_ENABLE : Z := Z.shiftl 1 1.
Definition FCR : Z := 2.
Definition FCR_FIFO_ENABLE : Z := Z.shiftl 1 0.
Definition FCR_FIFO_CLEAR : Z := Z.shiftl 3 1.
Definition LCR : Z := 3.
Definition LCR_EIGHT_BITS : Z := Z.shiftl 3 0.
Definition LCR_BAUD_LATCH : Z := Z.shiftl 1 7.
Definition LSR : Z := 5.
Definition LSR_RX_READY : Z := Z.shiftl 1 0.
Definition LSR_TX_IDLE : Z := Z.shiftl 1 5.
Definition UART_TX_BUF_SIZE : Z := 32.
#[export] Hint Unfold UART_TX_BUF_SIZE : consts.

(** The device registers, at [UART0 + reg]. *)
Class UartRegs (D : Type) := {
  rd_reg : Z -> D -> Z * D;
  wr_reg : Z -> Z -> D -> D;
}.

Section uart.
Context {D : Type} `{UartRegs D}.

Record uart := Uart {
  tx_buf : list Z;
  tx_w : Z;
  tx_r : Z;
  u_dev : D;
  panicked : bool;
  u_sent : list Z;
  u_woken : list chan;
}.

Definition with_dev (d : D) (u : uart) : uart :=
  Uart (tx_buf u) (tx_w u) (tx_r u) d (panicked u) (u_sent u) (u_woken u).

Definition ReadReg (reg : Z) : M uart Z := fun u =>
  let '(v, d) := rd_reg reg (u_dev u) in Ok v (with_dev d u).
Definition WriteReg (reg v : Z) : M uart unit :=
  modify (fun u => with_dev (wr_reg reg (u8 v) (u_dev u)) u).

Definition uartinit : M uart unit :=
  WriteReg IER 0x00 ;;;
  WriteReg LCR LCR_BAUD_LATCH ;;;
  WriteReg 0 0x03 ;;;
  WriteReg 1 0x00 ;;;
  WriteReg LCR LCR_EIGHT_BITS ;;;
  WriteReg FCR (Z.lor FCR_FIFO_ENABLE FCR_FIFO_CLEAR) ;;;
  WriteReg IER (Z.lor IER_TX_ENABLE IER_RX_ENABLE).

(** [int c = uart_tx_buf[uart_tx_r]; uart_tx_r = ...; wakeup(&uart_tx_r)] *)
Definition tx_take (u : uart) : uart :=
  Uart (tx_buf u) (tx_w u) ((tx_r u + 1) mod UART_TX_BUF_SIZE) (u_dev u) (panicked u)
       (u_sent u ++ [default 0 (tx_buf u !! Z.to_nat (tx_r u))]) (ChUart :: u_woken u).

Fixpoint uartstart_loop (fuel : nat) : M uart unit :=
  match fuel with
  | O => out_of_fuel
  | S fuel' =>
      let! u := get in
      if tx_w u =? tx_r u then ret tt
      else
        let! lsr := ReadReg LSR in
        if Z.land lsr LSR_TX_IDLE =? 0 then ret tt
        else
          let! c := gets (fun u => default 0 (tx_buf u !! Z.to_nat (tx_r u))) in
          modify tx_take ;;;
          WriteReg THR c ;;;
          uartstart_loop fuel'
  end.

(** Every round but the last takes a character out of the ring. *)
Definition uartstart : M uart unit := uartstart_loop 32.

(** [uart_tx_buf[uart_tx_w] = c; uart_tx_w = (uart_tx_w + 1) % UART_TX_BUF_SIZE] *)
Definition tx_put (c : Z) (u : uart) : uart :=
  Uart (<[Z.to_nat (tx_w u) := u8 c]> (tx_buf u)) ((tx_w u + 1) mod UART_TX_BUF_SIZE) (tx_r u) (u_dev u)
       (panicked u) (u_sent u) (u_woken u).

(** [sleep(&uart_tx_r, &uart_tx_lock)] by a caller that holds [locks] other
    spinlocks: [sched] refuses to switch away unless [noff] is 1. *)
Definition uart_sleep (locks : Z) : M uart unit :=
  if locks =? 0 then sleep_on ChUart else panic "sched locks".

(** One run up to the return or the sleep; a panicked kernel spins. *)
Definition uartputc (locks c : Z) : M uart unit :=
  let! u := get in
  if panicked u then out_of_fuel
  else if (tx_w u + 1) mod UART_TX_BUF_SIZE =? tx_r u then uart_sleep locks
  else modify (tx_put c) ;;; uartstart.

(** Wait for Transmit Holding Empty, at most [spin] reads. *)
Fixpoint wait_idle (spin : nat) : M uart unit :=
  let! lsr := ReadReg LSR in
  if Z.land lsr LSR_TX_IDLE =? 0 then
    match spin with
    | O => out_of_fuel
    | S spin' => wait_idle spin'
    end
  else ret tt.

Definition uartputc_sync (spin : nat) (c : Z) : M uart unit :=
  let! u := get in
  if panicked u then out_of_fuel
  else wait_idle spin ;;; WriteReg THR c.

Definition uartgetc : M uart Z :=
  let! lsr := ReadReg LSR in
  if Z.land lsr 0x01 =? 0 then ret (-1) else ReadReg RHR.

(** ** The ring *)

Definition txn_len (u : uart) : Z := (tx_w u - tx_r u) mod UART_TX_BUF_SIZE.
Definition tx_slot (u : uart) (k : Z) : Z := default 0 (tx_buf u !! Z.to_nat ((tx_r u + k) mod UART_TX_BUF_SIZE)).
(** The characters waiting to be sent, oldest first. *)
Definition pending (u : uart) : list Z := map (tx_slot u) (seqZ 0 (txn_len u)).

Record uart_inv (u : uart) : Prop := UartInv {
  uv_len : length (tx_buf u) = 32%nat;
  uv_w : 0 <= tx_w u < 32;
  uv_r : 0 <= tx_r u < 32;
}.

Ltac ring_solve := unfold txn_len, tx_slot, UART_TX_BUF_SIZE in *; Z.div_mod_to_equations; lia.

Lemma txn_range u : 0 <= txn_len u < 32.
Proof. apply Z.mod_pos_bound. done. Qed.

Lemma length_pending u : Z.of_nat (length (pending u)) = txn_len u.
Proof. unfold pending. rewrite length_map, length_seqZ. pose proof (txn_range u). lia. Qed.

Lemma tx_empty u : uart_inv u -> tx_w u = tx_r u <-> pending u = [].
Proof.
  intros [_ Hw Hr]. rewrite <- length_zero_iff_nil. pose proof (length_pending u).
  assert (tx_w u = tx_r u <-> txn_len u = 0); [split; intros; ring_solve | lia].
Qed.

Lemma tx_full u : uart_inv u -> (tx_w u + 1) mod UART_TX_BUF_SIZE = tx_r u <-> length (pending u) = 31%nat.
Proof.
  intros [_ Hw Hr]. pose proof (length_pending u).
  assert ((tx_w u + 1) mod UART_TX_BUF_SIZE = tx_r u <-> txn_len u = 31); [split; intros; ring_solve | lia].
Qed.

Lemma pending_put c u : uart_inv u -> length (pending u) <> 31%nat ->
  uart_inv (tx_put c u) /\ pending (tx_put c u) = pending u ++ [u8 c].
Proof.
  intros [Hl Hw Hr] Hf. pose proof (length_pending u). pose proof (txn_range u). split.
  { split; cbn; [by rewrite length_insert | ring_solve | done]. }
  unfold pending at 1.
  assert (txn_len (tx_put c u) = txn_len u + 1) as -> by (unfold tx_put; cbn; unfold txn_len; cbn; ring_solve).
  rewrite seqZ_app, map_app by lia. f_equal.
  - apply map_ext_in. intros k Hk%list_elem_of_In%elem_of_seqZ. unfold tx_slot, tx_put; cbn.
    rewrite list_lookup_insert_ne; [done |]. ring_solve.
  - rewrite Z.add_0_l. replace (txn_len u + 1 - txn_len u) with 1 by lia. rewrite seqZ_cons, seqZ_nil by lia.
    cbn [map]. unfold tx_slot, tx_put; cbn [tx_buf tx_r].
    replace ((tx_r u + txn_len u) mod UART_TX_BUF_SIZE) with (tx_w u) by ring_solve.
    by rewrite list_lookup_insert_eq by lia.
Qed.

Lemma pending_take u : uart_inv u -> pending u <> [] ->
  uart_inv (tx_take u) /\
  exists c, pending u = c :: pending (tx_take u) /\ u_sent (tx_take u) = u_sent u ++ [c].
Proof.
  intros [Hl Hw Hr] Hp. pose proof (length_pending u). pose proof (txn_range u).
  assert (0 < txn_len u) by (destruct (pending u); [done | cbn in *; lia]). split.
  { split; cbn; [done | done | ring_solve]. }
  eexists. split; [| done]. unfold pending at 1. rewrite seqZ_cons by lia. cbn [map]. f_equal.
  - unfold tx_slot. do 2 f_equal. ring_solve.
  - unfold pending. replace (Z.pred (txn_len u)) with (txn_len (tx_take u)) by (unfold tx_take; cbn; unfold txn_len; cbn; ring_solve).
    change (Z.succ 0) with (1 + 0). rewrite <- fmap_add_seqZ. 
    etrans; [exact (eq_sym (list_fmap_compose (Z.add 1) (tx_slot u) _)) |]. apply map_ext. intros k. unfold compose. unfold tx_slot, tx_take; cbn [tx_buf tx_r]. do 2 f_equal. ring_solve.
Qed.
Lemma wp_ReadReg reg (Q : Z -> uart -> Prop) u :
  (forall v d, rd_reg reg (u_dev u) = (v, d) -> Q v (with_dev d u)) -> wp (ReadReg reg) Q u.
Proof.
  intros HQ. apply wp_ok. unfold ReadReg. destruct (rd_reg reg (u_dev u)) as [v d] eqn:E. eauto.
Qed.

(** What [uartstart] moves: the oldest characters, in order, with a wakeup for
    a waiting [uartputc] whenever it made space. *)
Record started (u u' : uart) : Prop := Started {
  sd_inv : uart_inv u';
  sd_panicked : panicked u' = panicked u;
  sd_moved : exists moved, pending u = moved ++ pending u' /\ u_sent u' = u_sent u ++ moved /\
    (moved <> [] -> ChUart ∈ u_woken u');
  sd_woken : forall c, c ∈ u_woken u -> c ∈ u_woken u';
}.

Lemma wp_uartstart_loop fuel u : uart_inv u -> (length (pending u) < fuel)%nat ->
  wp (uartstart_loop fuel) (fun _ u' => started u u') u.
Proof.
  revert u. induction fuel as [|fuel IH]; intros u I Hf; [lia |]. cbn [uartstart_loop].
  apply wp_bind, wp_gets. destruct (Z.eqb_spec (tx_w u) (tx_r u)) as [E|E].
  { apply wp_ret. split; [done | done | by exists []; rewrite app_nil_r | done]. }
  apply wp_bind, wp_ReadReg. intros v d _. destruct (_ =? 0).
  { apply wp_ret. split; [destruct I; by split | done | by exists []; rewrite app_nil_r | done]. }
  apply wp_bind, wp_gets, wp_bind, wp_modify, wp_bind, wp_modify.
  destruct (pending_take u I) as (I' & c & Hp & Hs); [by intros E'%tx_empty |].
  set (u1 := with_dev _ _). assert (pending u1 = pending (tx_take u)) as Hp1 by done.
  eapply wp_mono; [apply IH; [destruct I'; by split |] |].
  { rewrite Hp1. rewrite Hp in Hf. cbn in Hf. lia. }
  intros _ u' [Iu' Hk (mv & Hmv & Hs' & Hw) Hww]. split; [done | done | | ].
  - exists (c :: mv). split_and!; [by rewrite Hp, <- Hp1, Hmv | |].
    + rewrite Hs'. change (u_sent u1) with (u_sent (tx_take u)). by rewrite Hs, <- app_assoc.
    + intros _. apply Hww. by left.
  - intros x Hx. apply Hww. by right.
Qed.

Lemma wp_uartstart u : uart_inv u -> wp uartstart (fun _ u' => started u u') u.
Proof. intros I. apply wp_uartstart_loop; [done |]. pose proof (length_pending u). pose proof (txn_range u). lia. Qed.

Lemma wp_uartputc locks c u : uart_inv u -> panicked u = false -> length (pending u) <> 31%nat ->
  wp (uartputc locks c) (fun _ u' => started (tx_put c u) u') u.
Proof.
  intros I Hp Hl. apply wp_bind, wp_gets. rewrite Hp.
  destruct (Z.eqb_spec ((tx_w u + 1) mod UART_TX_BUF_SIZE) (tx_r u)) as [E|E]; [by apply tx_full in E |].
  apply wp_bind, wp_modify, wp_uartstart. by apply pending_put.
Qed.

Lemma uartputc_full locks c u : uart_inv u -> panicked u = false -> length (pending u) = 31%nat ->
  uartputc locks c u = if locks =? 0 then Sleeps ChUart u else Panic "sched locks".
Proof.
  intros I Hp Hl. unfold uartputc, bind, get. rewrite Hp. apply tx_full in Hl; [| done].
  rewrite Hl, Z.eqb_refl. unfold uart_sleep. by destruct (locks =? 0).
Qed.

(** Spinning on LSR changes only the device. *)
Lemma wait_idle_dev spin u v u' : wait_idle spin u = Ok v u' -> exists d, u' = with_dev d u.
Proof.
  revert u. induction spin as [|spin IH]; intros u Hr; cbn [wait_idle] in Hr;
    apply bind_ok in Hr as (lsr & u1 & H1 & Hr); unfold ReadReg in H1; destruct (rd_reg LSR (u_dev u)) as [v1 d1];
    injection H1 as <- <-; destruct (_ =? 0); [done | injection Hr as <- <-; by exists d1 | | injection Hr as <- <-; by exists d1].
  destruct (IH _ Hr) as [d ->]. by exists d.
Qed.

Lemma uartputc_sync_dev spin c u v u' : uartputc_sync spin c u = Ok v u' -> exists d, u' = with_dev d u.
Proof.
  intros (u1 & u2 & H1 & Hr)%bind_ok. injection H1 as <- <-. destruct (panicked u); [done |].
  apply bind_ok in Hr as ([] & u3 & H3 & Hr). apply wait_idle_dev in H3 as [d ->].
  injection Hr as <- <-. by eexists.
Qed.

(** Calls of the driver, in any order; [acc] are the characters accepted by
    [uartputc] so far. *)
Inductive ustep : uart * list Z -> uart * list Z -> Prop :=
  | us_put locks c u u' acc : uartputc locks c u = Ok tt u' -> ustep (u, acc) (u', acc ++ [u8 c])
  | us_start u u' acc : uartstart u = Ok tt u' -> ustep (u, acc) (u', acc)
  | us_sync spin c u u' acc : uartputc_sync spin c u = Ok tt u' -> ustep (u, acc) (u', acc)
  | us_getc u v u' acc : uartgetc u = Ok v u' -> ustep (u, acc) (u', acc).

Definition fifo (y : uart * list Z) : Prop :=
  uart_inv (y.1) /\ u_sent (y.1) ++ pending (y.1) = y.2.

Lemma fifo_dev d u acc : fifo (u, acc) -> fifo (with_dev d u, acc).
Proof. intros [[I1 I2 I3] E]. by split. Qed.

Lemma fifo_started u u' acc : started u u' -> u_sent u ++ pending u = acc -> fifo (u', acc).
Proof.
  intros [I _ (mv & Hp & Hs & _) _] <-. split; [done |]. cbn. by rewrite Hs, Hp, app_assoc.
Qed.

Lemma fifo_step y y' : ustep y y' -> fifo y -> fifo y'.
Proof.
  intros St. destruct St as [locks c u u' acc Hr | u u' acc Hr | spin c u u' acc Hr | u v u' acc Hr]; intros [I E]; cbn [fst snd] in I, E.
  - destruct (panicked u) eqn:Ep; [by unfold uartputc, bind, get in Hr; rewrite ?Ep in Hr |].
    destruct (decide (length (pending u) = 31%nat)) as [Hl|Hl].
    { rewrite uartputc_full in Hr by done. by destruct (locks =? 0). }
    apply (fifo_started (tx_put c u)); [exact (wp_det _ _ _ _ _ Hr (wp_uartputc locks c u I Ep Hl)) |].
    destruct (pending_put c u I Hl) as [_ ->]. cbn. by rewrite app_assoc, E.
  - apply (fifo_started u); [exact (wp_det _ _ _ _ _ Hr (wp_uartstart u I)) | done].
  - apply uartputc_sync_dev in Hr as [d ->]. by apply fifo_dev.
  - apply bind_ok in Hr as (lsr & u1 & H1 & Hr). unfold ReadReg in *. destruct (rd_reg LSR (u_dev u)) as [v1 d1].
    injection H1 as <- <-. destruct (_ =? 0); [injection Hr as <- <-; by apply fifo_dev |].
    destruct (rd_reg RHR _) as [v2 d2]. injection Hr as <- <-. by apply fifo_dev, fifo_dev.
Qed.

End uart.
Arguments uart D : clear implicits.

(** A device whose transmitter never becomes free. *)
#[local] Instance busy_uart : UartRegs unit := {| rd_reg _ d := (0, d); wr_reg _ _ d := d |}.
Definition demo_uart : uart unit := Uart (replicate 32 0) 0 0 tt false [] [].

