(* ===== verification/Console.v ===== *)
(** * kernel/console.c, and [uartintr] of kernel/uart.c

    The console edits a line in a ring of [INPUT_BUF] characters: [r] to [w]
    are complete lines, [w] to [e] is the line being typed.  [cons.lock] makes
    each function one step, up to its return or its sleep.  The abstract
    console is a pair of lists, the characters ready to be read and the line
    being edited; the theorems show that [consoleintr] and [consoleread]
    implement the operations on these lists, whatever the indices, which grow
    without bound modulo 2^32. *)

From S2P Require Import Prelude Riscv Mem Kalloc Uvm Ucopy Usermem Uart.

Definition BACKSPACE : Z := 0x100.
Definition C (x : Z) : Z := x - 64. (* Control-x *)
Definition INPUT_BUF : Z := 128.
#[export] Hint Unfold INPUT_BUF : consts.

Definition CtlD : Z := C 68.
Definition CtlH : Z := C 72.
Definition CtlP : Z := C 80.
Definition CtlU : Z := C 85.
Definition DEL : Z := 127.
Definition NL : Z := 10.
Definition CR : Z := 13.

(** How a run of [consoleread] ends: with a return value, or asleep with the
    values of [dst] and [n]. *)
Inductive crun := CRet (v : Z) | CSleep (dst n : Z).

Section console.
Context {D U : Type} `{UartRegs D} `{UserMem U}.
(** How often [uartputc_sync] may have to look at LSR. *)
Context (spin : nat).

Record cons := Cons { c_buf : list Z; c_r : Z; c_w : Z; c_e : Z }.
Record cst := Cst { c_cons : cons; c_uart : uart D; c_user : U; c_woken : list chan }.

Definition in_uart {A} (m : M (uart D) A) : M cst A :=
  zoom c_uart (fun u s => Cst (c_cons s) u (c_user s) (c_woken s)) m.
Definition in_cuser {A} (m : M U A) : M cst A :=
  zoom c_user (fun u s => Cst (c_cons s) (c_uart s) u (c_woken s)) m.
Definition set_cons (f : cons -> cons) : M cst unit :=
  modify (fun s => Cst (f (c_cons s)) (c_uart s) (c_user s) (c_woken s)).
Definition cons_wakeup : M cst unit :=
  modify (fun s => Cst (c_cons s) (c_uart s) (c_user s) (ChCons :: c_woken s)).

Definition at_idx (c : cons) (i : Z) : Z := default 0 (c_buf c !! Z.to_nat (i mod INPUT_BUF)).

Definition consputc (c : Z) : M cst unit :=
  if c =? BACKSPACE then
    in_uart (uartputc_sync spin 8) ;;;
    in_uart (uartputc_sync spin 32) ;;;
    in_uart (uartputc_sync spin 8)
  else in_uart (uartputc_sync spin c).

(** The characters a printing function passes to [consputc]. *)
Fixpoint consputs (cs : list Z) : M cst unit :=
  match cs with
  | [] => ret tt
  | c :: cs' => consputc c ;;; consputs cs'
  end.

(** The loop of [consolewrite] at index [i] with [k = n - i] rounds left;
    [cons.lock] is held, so that [uartputc] is called with one lock held. *)
Fixpoint consolewrite_loop (k : nat) (pt src i : Z) : M cst Z :=
  match k with
  | O => ret i
  | S k' =>
      let! '(r, bs) := in_cuser (um_copyin pt (u64 (src + i)) 1) in
      if r =? -1 then ret i
      else in_uart (uartputc 1 (default 0 (head bs))) ;;; consolewrite_loop k' pt src (i + 1)
  end.

(** Both functions are only called with [user_src] or [user_dst] 1. *)
Definition consolewrite (pt src n : Z) : M cst Z := consolewrite_loop (Z.to_nat n) pt src 0.

(** [cons.r++] and [cons.r--] *)
Definition with_r (r : Z) (c : cons) : cons := Cons (c_buf c) r (c_w c) (c_e c).
Definition with_e (e : Z) (c : cons) : cons := Cons (c_buf c) (c_r c) (c_w c) e.

(** The loop of [consoleread] with [k = n] rounds left. *)
Fixpoint consoleread_loop (k : nat) (pt : Z) (killed : bool) (target dst n : Z) : M cst crun :=
  match k with
  | O => ret (CRet (target - n))
  | S k' =>
      let! s := gets c_cons in
      if c_r s =? c_w s then
        if killed then ret (CRet (-1)) else ret (CSleep dst n)
      else
        let c := at_idx s (c_r s) in
        set_cons (with_r (u32 (c_r s + 1))) ;;;
        if c =? CtlD then
          (if n <? target then set_cons (with_r (c_r s)) else ret tt) ;;;
          ret (CRet (target - n))
        else
          let! r := in_cuser (um_copyout pt dst [c] 1) in
          if r =? -1 then ret (CRet (target - n))
          else if c =? NL then ret (CRet (target - (n - 1)))
          else consoleread_loop k' pt killed target (u64 (dst + 1)) (n - 1)
  end.

(** One run, started with [n = target] or resumed after a sleep. *)
Definition consoleread (pt : Z) (killed : bool) (target dst n : Z) : M cst crun :=
  consoleread_loop (Z.to_nat n) pt killed target dst n.

(** [while (cons.e != cons.w && cons.buf[(cons.e - 1) % INPUT_BUF] != '\n')] *)
Fixpoint kill_line (fuel : nat) : M cst unit :=
  let! s := gets c_cons in
  if negb (c_e s =? c_w s) && negb (at_idx s (u32 (c_e s - 1)) =? NL) then
    match fuel with
    | O => out_of_fuel
    | S fuel' =>
        set_cons (with_e (u32 (c_e s - 1))) ;;;
        consputc BACKSPACE ;;;
        kill_line fuel'
    end
  else ret tt.

(** [cons.buf[cons.e++ % INPUT_BUF] = c] *)
Definition store (c : Z) (s : cons) : cons :=
  Cons (<[Z.to_nat (c_e s mod INPUT_BUF) := u8 c]> (c_buf s)) (c_r s) (c_w s) (u32 (c_e s + 1)).

(** [cons.w = cons.e] *)
Definition commit_line (s : cons) : cons := Cons (c_buf s) (c_r s) (c_e s) (c_e s).

(** [procdump] only prints; [dump] are the characters it prints. *)
Definition consoleintr (dump : list Z) (c : Z) : M cst unit :=
  let! s := gets c_cons in
  if c =? CtlP then consputs dump
  else if c =? CtlU then kill_line 128
  else if (c =? CtlH) || (c =? DEL) then
    if negb (c_e s =? c_w s) then
      set_cons (with_e (u32 (c_e s - 1))) ;;; consputc BACKSPACE
    else ret tt
  else if negb (c =? 0) && (u32 (c_e s - c_r s) <? INPUT_BUF) then
    let c := if c =? CR then NL else c in
    consputc c ;;;
    set_cons (store c) ;;;
    let! s := gets c_cons in
    if (c =? NL) || (c =? CtlD) || (c_e s =? u32 (c_r s + INPUT_BUF)) then
      set_cons commit_line ;;; cons_wakeup
    else ret tt
  else ret tt.

Definition consoleinit : M cst unit := in_uart uartinit.

(** [uartintr] with at most [fuel] characters waiting in the device. *)
Fixpoint uartintr_loop (fuel : nat) (dump : list Z) : M cst unit :=
  match fuel with
  | O => out_of_fuel
  | S fuel' =>
      let! c := in_uart uartgetc in
      if c =? -1 then ret tt
      else consoleintr dump c ;;; uartintr_loop fuel' dump
  end.

Definition uartintr (fuel : nat) (dump : list Z) : M cst unit :=
  uartintr_loop fuel dump ;;; in_uart uartstart.

(** ** Windows of the ring *)

Ltac idx_solve := unfold u32, INPUT_BUF in *; change (2 ^ 32) with 4294967296 in *; Z.div_mod_to_equations; lia.

Lemma at_idx_u32 c i : at_idx c (u32 i) = at_idx c i.
Proof. unfold at_idx. do 2 f_equal. idx_solve. Qed.

(** [n] characters from index [i] on. *)
Definition win (c : cons) (i n : Z) : list Z := map (fun k => at_idx c (i + k)) (seqZ 0 n).

Lemma length_win c i n : length (win c i n) = Z.to_nat n.
Proof. unfold win. by rewrite length_map, length_seqZ. Qed.

Lemma win_u32 c i n : win c (u32 i) n = win c i n.
Proof.
  apply map_ext. intros k. rewrite <- at_idx_u32, <- (at_idx_u32 c (i + k)). f_equal. idx_solve.
Qed.

Lemma win_nil c i n : n <= 0 -> win c i n = [].
Proof. intros. unfold win. by rewrite seqZ_nil. Qed.

Lemma win_app c i n m : 0 <= n -> 0 <= m -> win c i (n + m) = win c i n ++ win c (i + n) m.
Proof.
  intros. unfold win. rewrite seqZ_app, map_app by lia. f_equal.
  replace (0 + n) with (n + 0) by lia. rewrite <- fmap_add_seqZ.
  etrans; [exact (eq_sym (list_fmap_compose (Z.add n) (fun k => at_idx c (i + k)) _)) |].
  replace (n + m - n) with m by lia. apply map_ext. intros k. unfold compose. f_equal. lia.
Qed.

Lemma win_one c i : win c i 1 = [at_idx c i].
Proof. unfold win. rewrite seqZ_cons, seqZ_nil by lia. cbn. by rewrite Z.add_0_r. Qed.

Lemma win_cons c i n : 0 < n -> win c i n = at_idx c i :: win c (i + 1) (n - 1).
Proof. intros. replace n with (1 + (n - 1)) at 1 by lia. rewrite win_app, win_one by lia. done. Qed.

Lemma win_snoc c i n : 0 <= n -> win c i (n + 1) = win c i n ++ [at_idx c (i + n)].
Proof. intros. by rewrite win_app, win_one by lia. Qed.

(** [store] writes outside every window of less than [INPUT_BUF] characters
    that ends at [e]. *)
Lemma win_store x c i n k : u32 (i + n + k) = c_e c -> 0 <= k -> n + k < INPUT_BUF ->
  win (store x c) i n = win c i n.
Proof.
  intros He Hk Hn. apply map_ext_in. intros j Hj%list_elem_of_In%elem_of_seqZ.
  unfold at_idx, store; cbn. rewrite list_lookup_insert_ne; [done |]. idx_solve.
Qed.

(** ** The abstract console *)

Definition rlen (c : cons) : Z := u32 (c_w c - c_r c).
Definition elen (c : cons) : Z := u32 (c_e c - c_w c).
Definition ready (c : cons) : list Z := win c (c_r c) (rlen c).
Definition edit (c : cons) : list Z := win c (c_w c) (elen c).

Record cons_inv (c : cons) : Prop := ConsInv {
  cv_len : length (c_buf c) = 128%nat;
  cv_byte : Forall is_byte (c_buf c);
  cv_r : 0 <= c_r c < 2 ^ 32;
  cv_w : 0 <= c_w c < 2 ^ 32;
  cv_e : 0 <= c_e c < 2 ^ 32;
  cv_room : rlen c + elen c <= INPUT_BUF;
  cv_edit : NL ∉ edit c;
}.

Ltac len_solve := unfold rlen, elen in *; cbn in *; idx_solve.

Lemma lens_pos c : 0 <= rlen c /\ 0 <= elen c.
Proof. split; apply u32_range. Qed.

Lemma at_idx_byte c i : cons_inv c -> is_byte (at_idx c i).
Proof.
  intros I. unfold at_idx. destruct (c_buf c !! Z.to_nat (i mod INPUT_BUF)) as [b|] eqn:E; cbn.
  - eapply Forall_lookup_1, E. apply I.
  - unfold is_byte. lia.
Qed.

(** A character is taken from the front of the ready ones. *)
Lemma ready_take c : cons_inv c -> c_r c <> c_w c ->
  let c' := with_r (u32 (c_r c + 1)) c in
  cons_inv c' /\ ready c = at_idx c (c_r c) :: ready c' /\ edit c' = edit c.
Proof.
  intros I Hne c'. destruct I as [I1 I2 I3 I4 I5 I6 I7].
  assert (rlen c' = rlen c - 1) as Hr by len_solve. assert (0 < rlen c) by len_solve.
  split_and!; [| | done].
  - split; [done | done | apply u32_range | done | done | | done].
    change (elen c') with (elen c). lia.
  - unfold ready. rewrite win_cons, Hr by done. f_equal. symmetry. exact (win_u32 c _ _).
Qed.

(** Putting back a [^D]. *)
Lemma with_r_back c r : with_r (c_r c) (with_r r c) = c.
Proof. by destruct c. Qed.

Lemma edit_drop c : cons_inv c -> c_e c <> c_w c ->
  let c' := with_e (u32 (c_e c - 1)) c in
  cons_inv c' /\ ready c' = ready c /\ edit c = edit c' ++ [at_idx c (u32 (c_e c - 1))].
Proof.
  intros I Hne c'. destruct I as [I1 I2 I3 I4 I5 I6 I7].
  assert (elen c' = elen c - 1) as He by len_solve. assert (0 < elen c) by len_solve.
  assert (edit c = edit c' ++ [at_idx c (u32 (c_e c - 1))]) as Hed.
  { unfold edit. replace (elen c) with (elen c' + 1) by lia. rewrite win_snoc by lia. f_equal.
    rewrite <- (at_idx_u32 c (_ + _)). do 2 f_equal. len_solve. }
  split_and!; [| done | done].
  split; [done | done | done | done | apply u32_range | change (rlen c') with (rlen c); lia |].
  rewrite Hed in I7. set_solver.
Qed.

Lemma edit_store c x : cons_inv c -> rlen c + elen c < INPUT_BUF ->
  let c' := store x c in
  ready c' = ready c /\ edit c' = edit c ++ [u8 x] /\
  (NL <> u8 x -> cons_inv c') /\ (c_e c' =? u32 (c_r c' + INPUT_BUF)) = (rlen c + elen c + 1 =? INPUT_BUF).
Proof.
  intros I Hl c'. destruct I as [I1 I2 I3 I4 I5 I6 I7]. pose proof (lens_pos c).
  assert (elen c' = elen c + 1) as He by len_solve.
  assert (edit c' = edit c ++ [u8 x]) as Hed.
  { unfold edit. change (c_w c') with (c_w c). rewrite He, win_snoc by lia. f_equal.
    - apply (win_store _ _ _ _ 0); [len_solve | lia | lia].
    - f_equal. unfold at_idx, c', store; cbn. replace ((c_w c + elen c) mod INPUT_BUF) with (c_e c mod INPUT_BUF) by len_solve.
      rewrite list_lookup_insert_eq; [done |]. rewrite I1. idx_solve. }
  split_and!; [| done | | ].
  - unfold ready. change (rlen c') with (rlen c). change (c_r c') with (c_r c).
    apply (win_store _ _ _ _ (elen c)); [len_solve | lia | lia].
  - intros Hx. split; [cbn; by rewrite length_insert | cbn; apply Forall_insert; [done | apply u8_range] | done | done |
      apply u32_range | change (rlen c') with (rlen c); lia | rewrite Hed; set_solver].
  - apply eq_true_iff_eq. rewrite !Z.eqb_eq. split; intros; len_solve.
Qed.

Lemma line_commit c : rlen c + elen c <= INPUT_BUF -> 0 <= c_e c < 2 ^ 32 ->
  length (c_buf c) = 128%nat -> Forall is_byte (c_buf c) -> 0 <= c_r c < 2 ^ 32 ->
  let c' := commit_line c in
  cons_inv c' /\ ready c' = ready c ++ edit c /\ edit c' = [].
Proof.
  intros Hl He Hb Hby Hr c'. pose proof (lens_pos c).
  assert (rlen c' = rlen c + elen c) as Hr' by len_solve. assert (elen c' = 0) as He' by len_solve.
  assert (edit c' = []) as Hed by (unfold edit; rewrite He'; by apply win_nil).
  split_and!; [| | done].
  - split; [done | done | done | done | done | lia | rewrite Hed; set_solver].
  - unfold ready, edit. rewrite Hr', win_app by lia. f_equal. change (c_r c') with (c_r c).
    change (win c' (c_r c + rlen c) (elen c)) with (win c (c_r c + rlen c) (elen c)).
    rewrite <- (win_u32 c (_ + _)), <- (win_u32 c (c_w c)). f_equal. len_solve.
Qed.

(** What the interrupt handler does to the lists. *)
Definition intr_spec (c : Z) (l : list Z * list Z) : list Z * list Z :=
  let '(rd, ed) := l in
  if c =? CtlP then (rd, ed)
  else if c =? CtlU then (rd, [])
  else if (c =? CtlH) || (c =? DEL) then (rd, removelast ed)
  else if negb (c =? 0) && (Z.of_nat (length rd + length ed) <? INPUT_BUF) then
    let c := if c =? CR then NL else c in
    let ed' := ed ++ [c] in
    if (c =? NL) || (c =? CtlD) || (Z.of_nat (length rd + length ed') =? INPUT_BUF) then (rd ++ ed', [])
    else (rd, ed')
  else (rd, ed).

(** What a read of at most [n] characters takes from the ready ones: the
    characters delivered, those left, and whether the read is over.  [dst i]
    says that the [i]-th byte of the destination is mapped; [fresh] that
    nothing has been delivered yet. *)
Fixpoint read_spec (n : nat) (fresh : bool) (dst : nat -> bool) (rd : list Z) : list Z * list Z * bool :=
  match n, rd with
  | O, _ => ([], rd, true)
  | S _, [] => ([], [], false)
  | S n', c :: rd' =>
      if c =? CtlD then ([], (if fresh then rd' else rd), true)
      else if negb (dst O) then ([], rd', true)
      else if c =? NL then ([c], rd', true)
      else let '(out, rest, over) := read_spec n' false (fun i => dst (S i)) rd' in (c :: out, rest, over)
  end.

(** Printing changes only the device. *)
Definition printed s s' : Prop := exists d,
  s' = Cst (c_cons s) (with_dev d (c_uart s)) (c_user s) (c_woken s).

Lemma printed_trans s1 s2 s3 : printed s1 s2 -> printed s2 s3 -> printed s1 s3.
Proof. intros [d1 ->] [d2 ->]. by exists d2. Qed.

Lemma printed_panicked s s' : printed s s' -> panicked (c_uart s') = panicked (c_uart s).
Proof. by intros [d ->]. Qed.

(** The transmitter becomes free while [uartputc_sync] polls LSR. *)
Context (Hspin : forall u : uart D, exists d, wait_idle spin u = Ok tt (with_dev d u)).

Lemma wp_sync c s : panicked (c_uart s) = false -> wp (in_uart (uartputc_sync spin c)) (fun _ s' => printed s s') s.
Proof.
  intros Hp. apply wp_zoom, wp_bind, wp_gets. rewrite Hp. apply wp_bind.
  destruct (Hspin (c_uart s)) as [d Hd]. apply wp_ok. eexists _, _. split; [exact Hd |]. apply wp_modify. by eexists.
Qed.

Lemma wp_consputc c s : panicked (c_uart s) = false -> wp (consputc c) (fun _ s' => printed s s') s.
Proof.
  intros Hp. unfold consputc. destruct (c =? BACKSPACE); [| by apply wp_sync].
  apply wp_bind. eapply wp_mono; [by apply wp_sync |]. intros [] s1 P1. cbn beta in P1.
  apply wp_bind. eapply wp_mono; [apply wp_sync; by rewrite (printed_panicked _ _ P1) |]. intros [] s2 P2. cbn beta in P2.
  eapply wp_mono; [apply wp_sync; by rewrite (printed_panicked _ _ P2), (printed_panicked _ _ P1) |]. intros [] s3 P3. cbn beta in P3.
  eauto using printed_trans.
Qed.

Lemma wp_consputs cs s : panicked (c_uart s) = false -> wp (consputs cs) (fun _ s' => printed s s') s.
Proof.
  revert s. induction cs as [|c cs IH]; intros s Hp; cbn [consputs].
  - apply wp_ret. exists (u_dev (c_uart s)). by destruct s as [? [] ? ?].
  - apply wp_bind. eapply wp_mono; [by apply wp_consputc |]. intros [] s1 P1. cbn beta in P1.
    eapply wp_mono; [apply IH; by rewrite (printed_panicked _ _ P1) |]. intros [] s2 P2. cbn beta in P2. eauto using printed_trans.
Qed.

(** The handler leaves the user's memory alone and wakes the readers when
    characters become ready. *)
Record intr_post s (l : list Z * list Z) s' : Prop := IntrPost {
  ip_inv : cons_inv (c_cons s');
  ip_lists : (ready (c_cons s'), edit (c_cons s')) = l;
  ip_user : c_user s' = c_user s;
  ip_wake : ready (c_cons s') <> ready (c_cons s) -> ChCons ∈ c_woken s';
}.

Lemma wp_kill_line fuel s : cons_inv (c_cons s) -> panicked (c_uart s) = false ->
  (length (edit (c_cons s)) <= fuel)%nat ->
  wp (kill_line fuel) (fun _ s' => cons_inv (c_cons s') /\ ready (c_cons s') = ready (c_cons s) /\
    edit (c_cons s') = [] /\ c_user s' = c_user s) s.
Proof.
  revert s. induction fuel as [|fuel IH]; intros s I Hp Hf; cbn [kill_line]; apply wp_bind, wp_gets;
    (destruct (Z.eqb_spec (c_e (c_cons s)) (c_w (c_cons s))) as [E|E]; cbn [negb andb];
      [apply wp_ret; split_and!; [done | done | | done]; unfold edit; apply win_nil; unfold elen; rewrite E, Z.sub_diag; done |]);
    destruct (edit_drop (c_cons s) I E) as (I' & Hr & He);
    (assert (at_idx (c_cons s) (u32 (c_e (c_cons s) - 1)) <> NL) as Hn
      by (intros Hn; apply (cv_edit _ I); rewrite He, Hn; set_solver));
    destruct (Z.eqb_spec (at_idx (c_cons s) (u32 (c_e (c_cons s) - 1))) NL); try done; cbn [negb].
  - rewrite He, length_app in Hf. cbn in Hf. lia.
  - apply wp_bind, wp_modify, wp_bind. eapply wp_mono; [by apply wp_consputc |]. intros _ s1 [d ->].
    eapply wp_mono; [apply IH; [done | done |] |].
    { cbn. rewrite He, length_app in Hf. cbn in Hf. lia. }
    cbn. intros _ s' (I2 & Hr2 & He2 & Hu2). by rewrite Hr2, Hr.
Qed.

Lemma length_lists c : Z.of_nat (length (ready c) + length (edit c)) = rlen c + elen c.
Proof. unfold ready, edit. rewrite !length_win. pose proof (lens_pos c). lia. Qed.

Lemma room_test c : cons_inv c -> u32 (c_e c - c_r c) = rlen c + elen c.
Proof. intros [_ _ Hr Hw He Hl _]. len_solve. Qed.

(** The default branch, on a character that is stored. *)
Lemma wp_type_char c s : 0 < c < 256 -> c <> CR -> cons_inv (c_cons s) -> panicked (c_uart s) = false ->
  Z.of_nat (length (ready (c_cons s)) + length (edit (c_cons s))) < INPUT_BUF ->
  wp (consputc c ;;;
      set_cons (store c) ;;;
      let! k := gets c_cons in
      if (c =? NL) || (c =? CtlD) || (c_e k =? u32 (c_r k + INPUT_BUF)) then set_cons commit_line ;;; cons_wakeup
      else ret tt)
     (fun _ s' => intr_post s (let ed' := edit (c_cons s) ++ [c] in
        if (c =? NL) || (c =? CtlD) || (Z.of_nat (length (ready (c_cons s)) + length ed') =? INPUT_BUF)
        then (ready (c_cons s) ++ ed', []) else (ready (c_cons s), ed')) s') s.
Proof.
  intros Hc Hcr I Hp Hl. rewrite length_lists in Hl.
  apply wp_bind. eapply wp_mono; [by apply wp_consputc |]. intros _ s1 [d ->].
  apply wp_bind, wp_modify, wp_bind, wp_gets. cbn [c_cons].
  destruct (edit_store (c_cons s) c I Hl) as (Hr & He & I' & Hfull). rewrite u8_small in He, I' by lia.
  pose proof (length_lists (c_cons s)) as Hll.
  assert ((Z.of_nat (length (ready (c_cons s)) + length (edit (c_cons s) ++ [c])) =? INPUT_BUF) =
          (c_e (store c (c_cons s)) =? u32 (c_r (store c (c_cons s)) + INPUT_BUF))) as ->.
  { rewrite Hfull, length_app. cbn [length]. f_equal. lia. }
  cbn zeta. destruct (_ || _ || _) eqn:Eb.
  - apply wp_bind, wp_modify, wp_modify. cbn [c_cons].
    pose proof (length_lists (store c (c_cons s))) as Hl'. rewrite Hr, He, length_app in Hl'. cbn [length] in Hl'.
    destruct (line_commit (store c (c_cons s))) as (Ic & Hrc & Hec); [lia | apply u32_range | | | apply I |].
    { cbn. rewrite length_insert. apply I. }
    { cbn. apply Forall_insert; [apply I | apply u8_range]. }
    split; cbn [c_cons c_user c_woken]; [done | by rewrite Hrc, Hec, Hr, He | done | by left].
  - apply wp_ret. split; cbn [c_cons c_user c_woken]; [| by rewrite Hr, He | done | by rewrite Hr].
    apply I'. intros <-. by rewrite Z.eqb_refl in Eb.
Qed.

(** C28: the interrupt handler edits the line exactly as specified: it appends
    a character if the buffer has room, commits the line at a newline, a ^D
    or when the buffer is full and wakes the readers, erases a character or
    the uncommitted line, and never touches committed characters; this holds
    whatever the ring indices, also when they wrap. *)
Theorem consoleintr_correct (dump : list Z) (c : Z) (s : cst) :
  0 <= c < 256 -> cons_inv (c_cons s) -> panicked (c_uart s) = false ->
  wp (consoleintr dump c)
     (fun _ s' => intr_post s (intr_spec c (ready (c_cons s), edit (c_cons s))) s') s.
Proof.
  intros Hc I Hp. unfold consoleintr, intr_spec. apply wp_bind, wp_gets.
  destruct (c =? CtlP).
  { eapply wp_mono; [by apply wp_consputs |]. by intros _ s1 [d ->]. }
  destruct (c =? CtlU).
  { eapply wp_mono; [apply wp_kill_line; [done | done |] |].
    - pose proof (length_lists (c_cons s)). pose proof (cv_room _ I). unfold INPUT_BUF in *. lia.
    - intros _ s' (I' & Hr & He & Hu). split; [done | by rewrite Hr, He | done | by rewrite Hr]. }
  destruct ((c =? CtlH) || (c =? DEL)).
  { destruct (Z.eqb_spec (c_e (c_cons s)) (c_w (c_cons s))) as [E|E]; cbn [negb].
    - apply wp_ret. split; [done | | done | done]. f_equal.
      assert (edit (c_cons s) = []) as ->; [| done]. apply win_nil. unfold elen. by rewrite E, Z.sub_diag.
    - destruct (edit_drop _ I E) as (I' & Hr & He). apply wp_bind, wp_modify.
      eapply wp_mono; [by apply wp_consputc |]. intros _ s1 [d ->]. cbn [c_cons c_user c_woken].
      split; cbn [c_cons c_user c_woken]; [done | | done | by rewrite Hr]. by rewrite Hr, He, removelast_last. }
  rewrite room_test, <- length_lists by done.
  destruct (Z.eqb_spec c 0) as [->|Hc0]; cbn [negb andb]; [by apply wp_ret |].
  destruct (Z.ltb_spec (Z.of_nat (length (ready (c_cons s)) + length (edit (c_cons s)))) INPUT_BUF) as [Hl|Hl];
    [| by apply wp_ret].
  cbn zeta. destruct (Z.eqb_spec c CR) as [->|Hcr]; apply wp_type_char; done || lia.
Qed.

Lemma read_spec_ext n fresh dst dst' rd : (forall i, dst i = dst' i) ->
  read_spec n fresh dst rd = read_spec n fresh dst' rd.
Proof.
  revert fresh dst dst' rd. induction n as [|n IH]; intros fresh dst dst' [|c rd] Hd; try done.
  cbn [read_spec]. rewrite <- Hd. by rewrite (IH false (fun i => dst (S i)) (fun i => dst' (S i))) by done.
Qed.

Section consoleread.
Context {ok : U -> Prop} {space : Z -> Prop} {UL : UserMemLaws U ok space}.

Definition mapped (u : U) (pt dst : Z) (i : nat) : bool :=
  bool_decide (is_Some (um_read u pt (dst + Z.of_nat i))).

(** [out] lies at [dst]; the rest of the address space is unchanged. *)
Definition landed (u : U) (pt dst : Z) (out : list Z) (u' : U) : Prop := forall x, 0 <= x ->
  um_read u' pt x = if decide (dst <= x < dst + Z.of_nat (length out)) then out !! Z.to_nat (x - dst) else um_read u pt x.

Lemma landed_nil u pt dst : landed u pt dst [] u.
Proof. intros x _. by rewrite decide_False by (cbn; lia). Qed.

Lemma landed_cons u u1 u2 pt dst c out : landed u pt dst [c] u1 -> landed u1 pt (dst + 1) out u2 -> landed u pt dst (c :: out) u2.
Proof.
  intros H1 H2 x Hx. rewrite H2, H1 by done. cbn [length]. destruct (decide (dst + 1 <= x < _)) as [Hin|Hout].
  - rewrite decide_True by lia. by replace (Z.to_nat (x - dst)) with (S (Z.to_nat (x - (dst + 1)))) by lia.
  - destruct (decide (dst <= x < dst + Z.of_nat 1)) as [E|E].
    + rewrite decide_True by lia. by replace (x - dst) with 0 by lia.
    + by rewrite decide_False by lia.
Qed.

Definition read_post s pt (killed : bool) (target dst n : Z) (res : list Z * list Z * bool) (run : crun) s' : Prop :=
  let '(out, rest, over) := res in
  cons_inv (c_cons s') /\ ok (c_user s') /\ ready (c_cons s') = rest /\ edit (c_cons s') = edit (c_cons s) /\
  landed (c_user s) pt dst out (c_user s') /\
  run = (if over then CRet (target - n + Z.of_nat (length out))
         else if killed then CRet (-1)
         else CSleep (dst + Z.of_nat (length out)) (n - Z.of_nat (length out))).

Lemma wp_consoleread_loop k s pt killed target dst : cons_inv (c_cons s) -> ok (c_user s) -> space pt ->
  Z.of_nat k <= target -> 0 <= dst -> dst + Z.of_nat k < 2 ^ 64 ->
  wp (consoleread_loop k pt killed target dst (Z.of_nat k))
     (read_post s pt killed target dst (Z.of_nat k)
        (read_spec k (Z.of_nat k =? target) (mapped (c_user s) pt dst) (ready (c_cons s)))) s.
Proof.
  revert s dst. induction k as [|k IH]; intros s dst I Hok Hpt Hn Hd Hdn.
  { cbn [consoleread_loop read_spec]. apply wp_ret. split_and!; try done; [apply landed_nil | cbn; f_equal; lia]. }
  cbn [consoleread_loop]. apply wp_bind, wp_gets.
  destruct (Z.eqb_spec (c_r (c_cons s)) (c_w (c_cons s))) as [E|E].
  { assert (ready (c_cons s) = []) as Hr by (apply win_nil; unfold rlen; by rewrite E, Z.sub_diag).
    rewrite Hr. cbn [read_spec].
    destruct killed; apply wp_ret; (split_and!; try done; try apply landed_nil); cbn [length]; f_equal; lia. }
  destruct (ready_take (c_cons s) I E) as (I' & Hr & He). rewrite Hr. cbn [read_spec].
  set (c := at_idx (c_cons s) (c_r (c_cons s))) in *. apply wp_bind, wp_modify.
  destruct (c =? CtlD).
  { apply wp_bind. destruct (Z.ltb_spec (Z.of_nat (S k)) target), (Z.eqb_spec (Z.of_nat (S k)) target); try lia.
    - apply wp_modify. cbn [c_cons c_user]. rewrite with_r_back. apply wp_ret.
      split_and!; cbn [c_cons c_user]; try done; [apply landed_nil | cbn; f_equal; lia].
    - apply wp_ret, wp_ret. split_and!; cbn [c_cons c_user]; try done; [apply landed_nil | cbn; f_equal; lia]. }
  destruct (um_copyout_ok (c_user s) pt dst [c] 1) as (r & u' & n & Hco & Hok' & Hw & _ & Hm & Hr');
    [done | done | done | cbn; lia | by constructor; [apply at_idx_byte |] |].
  apply wp_bind, wp_zoom. apply wp_ok. eexists _, _. split; [exact Hco |]. cbn [c_cons c_user].
  assert (mapped (c_user s) pt dst 0 = negb (bool_decide (um_read (c_user s) pt dst = None))) as ->.
  { unfold mapped. rewrite Z.add_0_r, <- bool_decide_not. apply bool_decide_ext. by rewrite not_eq_None_Some. }
  destruct Hr' as [(-> & ->)|(-> & Hn1 & Hnone)].
  2:{ replace n with 0 in * by lia. rewrite Z.add_0_r in Hnone. rewrite bool_decide_eq_true_2 by done. cbn [negb].
      apply wp_ret. split_and!; cbn [c_cons c_user]; try done; [| cbn; f_equal; lia].
      intros x Hx. rewrite Hw by done. cbn. by rewrite !decide_False by lia. }
  assert (um_read (c_user s) pt dst <> None) as Hs.
  { intros Hnone. apply Hm in Hnone. rewrite Hw, decide_True, Z.sub_diag in Hnone by lia. done. }
  rewrite bool_decide_eq_false_2 by done. cbn [negb]. change (0 =? -1) with false. cbn match.
  assert (landed (c_user s) pt dst [c] u') as HL by exact Hw.
  destruct (c =? NL).
  { apply wp_ret. split_and!; cbn [c_cons c_user]; try done. cbn. f_equal. lia. }
  rewrite u64_small by lia. replace (Z.of_nat (S k) - 1) with (Z.of_nat k) by lia.
  eapply wp_mono; [apply IH; cbn [c_cons c_user]; done || lia |]. cbn [c_cons c_user]. intros run s'.
  rewrite (proj2 (Z.eqb_neq (Z.of_nat k) target)) by lia.
  rewrite (read_spec_ext k false (mapped u' pt (dst + 1)) (fun i => mapped (c_user s) pt dst (S i))).
  2:{ intros i. unfold mapped. replace (dst + Z.of_nat (S i)) with (dst + 1 + Z.of_nat i) by lia.
      apply bool_decide_ext. rewrite <- !not_eq_None_Some. by rewrite Hm. }
  destruct (read_spec k false _ _) as [[out rest] over]. intros (I2 & Hok2 & Hr2 & He2 & HL2 & Hrun).
  split_and!; try done; [by eapply landed_cons |]. rewrite Hrun. cbn [length].
  destruct over; [f_equal; lia |]. destruct killed; [done |]. f_equal; lia.
Qed.

End consoleread.

(** C29: a run of [consoleread] takes from the ready characters exactly those
    specified, up to a newline or before a ^D, and puts them at the
    destination; it returns how many it delivered in all, sleeps, with the
    characters delivered so far accounted for, only when no character is
    ready, and returns -1 if it would sleep in a killed process. *)
Theorem consoleread_correct {ok : U -> Prop} {space : Z -> Prop} {UL : UserMemLaws U ok space}
    (s : cst) (pt target dst n : Z) (killed : bool) :
  cons_inv (c_cons s) -> ok (c_user s) -> space pt -> 0 <= n <= target -> 0 <= dst -> dst + n < 2 ^ 64 ->
  exists run s', consoleread pt killed target dst n s = Ok run s' /\
    let '(out, rest, over) := read_spec (Z.to_nat n) (n =? target)
      (mapped (c_user s) pt dst) (ready (c_cons s)) in
    cons_inv (c_cons s') /\ ok (c_user s') /\ ready (c_cons s') = rest /\ edit (c_cons s') = edit (c_cons s) /\
    landed (c_user s) pt dst out (c_user s') /\
    run = (if over then CRet (target - n + Z.of_nat (length out))
           else if killed then CRet (-1)
           else CSleep (dst + Z.of_nat (length out)) (n - Z.of_nat (length out))).
Proof.
  intros I Hok Hpt Hn Hd Hdn. replace n with (Z.of_nat (Z.to_nat n)) by lia.
  destruct (proj1 (wp_ok _ _ _) (wp_consoleread_loop (Z.to_nat n) s pt killed target dst I Hok Hpt
    ltac:(lia) Hd ltac:(lia))) as (run & s' & Hr & Hpost).
  exists run, s'. unfold consoleread. rewrite Nat2Z.id. split; [exact Hr |]. exact Hpost.
Qed.


End console.

(** ** A console on a process with one page of user memory *)

#[local] Instance idle_uart : UartRegs unit := {| rd_reg _ d := (LSR_TX_IDLE, d); wr_reg _ _ d := d |}.

Lemma idle_spin (u : uart unit) : exists d, wait_idle 0 u = Ok tt (with_dev d u).
Proof. by exists (u_dev u). Qed.

(** The line "hi" has been typed; the transmit ring holds [w] characters. *)
Definition demo_cons (w : Z) : cst (D := unit) (U := kmem) :=
  Cst (Cons ([104; 105; 10] ++ replicate 125 0) 0 3 3) (Uart (replicate 32 0) w 0 tt false [] []) demo2 [].

Lemma demo_cons_inv w : cons_inv (c_cons (demo_cons w)).
Proof.
  split; [done | | done | done | done | done | cbn; set_solver].
  apply Forall_app. split; [repeat constructor; done || (unfold is_byte; lia) |]. apply Forall_replicate. unfold is_byte. lia.
Qed.

Lemma consoleintr_witness :
  wp (consoleintr 0 [] 97) (fun _ s' => intr_post (demo_cons 0) ([104; 105; 10], [97]) s') (demo_cons 0) /\
  intr_spec 97 (ready (c_cons (demo_cons 0)), edit (c_cons (demo_cons 0))) = ([104; 105; 10], [97]).
Proof.
  split; [| by vm_compute].
  apply (consoleintr_correct 0 idle_spin [] 97 (demo_cons 0)); [lia | apply demo_cons_inv | done].
Defined.

Lemma consoleread_witness :
  exists run s', consoleread (page_at 0) false 10 100 10 (demo_cons 0) = Ok run s' /\ run = CRet 3 /\
    ready (c_cons s') = [] /\ um_read (UserMemLaws := demo_laws) (c_user s') (page_at 0) 101 = Some 105.
Proof.
  destruct (consoleread_correct (UL := demo_laws) (demo_cons 0) (page_at 0) 10 100 10 false)
    as (run & s' & Hr & Hp); [apply demo_cons_inv | apply demo_spaces_ok | by left | lia | lia | lia |].
  exists run, s'. split; [exact Hr |].
  assert (forall i, (i < 3)%nat -> mapped (UL := demo_laws) demo2 (page_at 0) 100 i = true) as Hm.
  { intros i Hi. apply bool_decide_eq_true_2. apply not_eq_None_Some.
    destruct demo2_live as (l & _ & Hd). apply Hd. klia. }
  change (c_user (demo_cons 0)) with demo2 in Hp.
  change (ready (c_cons (demo_cons 0))) with [104; 105; 10] in Hp.
  change (read_spec (Z.to_nat 10) (10 =? 10)) with (read_spec 10 true) in Hp. cbn [read_spec] in Hp.
  rewrite !Hm in Hp by lia. cbn in Hp. destruct Hp as (_ & _ & Hrd & _ & HL & ->).
  split_and!; [done | done |]. by rewrite HL by lia.
Defined.

