(* ===== verification/File.v ===== *)
(** * kernel/file.c and [pipealloc] of kernel/pipe.c

    The file table and the operations on open files.  Below it lie the file
    system (fs.c, over an interface of logged block operations), the pipes
    (one per allocated page, by its address), physical and user memory, and
    the devices of [devsw], which are an interface that the console
    implements.  [ftable.lock] makes each critical section one step; a call
    ends at its return or where it sleeps. *)

From S2P Require Import Prelude Riscv Mem KString Kalloc Vm Uvm Ucopy Usermem.
From S2P Require Import Sleeplock Pipe Bio Layout Log Txn Fs Uart Console.

Inductive fdtype := FD_NONE | FD_PIPE | FD_INODE | FD_DEVICE.

#[export] Instance fdtype_eq_dec : EqDecision fdtype.
Proof. solve_decision. Defined.

(** [fl_pipe] is the address of the pipe, [fl_ip] the index of the inode. *)
Record file := File {
  fl_type : fdtype; fl_ref : Z; fl_readable : bool; fl_writable : bool;
  fl_pipe : Z; fl_ip : nat; fl_off : Z; fl_major : Z;
}.
Definition file0 : file := File FD_NONE 0 false false 0 0 0 0.

Definition CONSOLE : Z := 1.

(** [devsw[major].read] and [.write], called with [user] 1; [None] is a null
    pointer. *)
Class Devices (Dv : Type) := {
  dev_read : Z -> option (Z -> bool -> Z -> Z -> M (Dv * kmem) Z);
  dev_write : Z -> option (Z -> Z -> Z -> M (Dv * kmem) Z);
}.

(** [devsw] as [consoleinit] leaves it. *)
Section console_dev.
Context {D : Type} `{UartRegs D}.

Definition as_cst (x : (cons * uart D * list chan) * kmem) : cst (D := D) (U := kmem) :=
  let '(c, u, w, m) := x in Cst c u m w.
Definition of_cst (s : cst (D := D) (U := kmem)) : (cons * uart D * list chan) * kmem :=
  (c_cons s, c_uart s, c_woken s, c_user s).

#[export] Instance console_devices : Devices (cons * uart D * list chan) := {|
  dev_read major := if major =? CONSOLE then
    Some (fun pt killed addr n => zoom as_cst (fun s _ => of_cst s)
      (let! r := consoleread pt killed n addr n in
       match r with CRet v => ret v | CSleep _ _ => sleep_on ChCons end))
    else None;
  dev_write major := if major =? CONSOLE then
    Some (fun pt addr n => zoom as_cst (fun s _ => of_cst s) (consolewrite pt addr n))
    else None;
|}.
End console_dev.

Section file.
Context {S Dv : Type} `{Blocks S} `{LogOps S} `{Devices Dv}.
Context (kend : Z).

Record kst := Kst {
  ks_fs : fst (S := S) (U := kmem);
  ks_files : list file;
  ks_pipes : gmap Z pipe;
  ks_dev : Dv;
  ks_woken : list chan;
}.

Definition in_fs {A} (m : M (fst (S := S) (U := kmem)) A) : M kst A :=
  zoom ks_fs (fun f s => Kst f (ks_files s) (ks_pipes s) (ks_dev s) (ks_woken s)) m.
Definition in_mem {A} (m : M kmem A) : M kst A := in_fs (in_usr m).

Definition with_user (u : kmem) (f : fst (S := S) (U := kmem)) : fst := Fst (f_blk f) (f_sb f) (f_inodes f) u.

Definition in_dev {A} (m : M (Dv * kmem) A) : M kst A :=
  zoom (fun s => (ks_dev s, f_user (ks_fs s)))
       (fun '(d, u) s => Kst (with_user u (ks_fs s)) (ks_files s) (ks_pipes s) d (ks_woken s)) m.

(** The pipe at address [pi]. *)
Definition getp (s : kst) (pi : Z) : pipe := default (pipe_init []) (ks_pipes s !! pi).
Definition in_pipe {A} (pi : Z) (m : M (pst (U := kmem)) A) : M kst A :=
  zoom (fun s => Pst (getp s pi) (f_user (ks_fs s)) (ks_woken s))
       (fun t s => Kst (with_user (p_user t) (ks_fs s)) (ks_files s) (<[pi := p_pipe t]> (ks_pipes s)) (ks_dev s) (p_woken t)) m.

Definition begin_op : M kst unit := in_fs (in_blk op_begin).
Definition end_op : M kst unit := in_fs (in_blk op_end).

Definition getf (s : kst) (f : nat) : file := default file0 (ks_files s !! f).
Definition setf (f : nat) (g : file -> file) : M kst unit :=
  modify (fun s => Kst (ks_fs s) (alter g f (ks_files s)) (ks_pipes s) (ks_dev s) (ks_woken s)).

Definition with_ref (r : Z) (f : file) : file :=
  File (fl_type f) r (fl_readable f) (fl_writable f) (fl_pipe f) (fl_ip f) (fl_off f) (fl_major f).
Definition with_type (t : fdtype) (f : file) : file :=
  File t (fl_ref f) (fl_readable f) (fl_writable f) (fl_pipe f) (fl_ip f) (fl_off f) (fl_major f).
Definition with_off (o : Z) (f : file) : file :=
  File (fl_type f) (fl_ref f) (fl_readable f) (fl_writable f) (fl_pipe f) (fl_ip f) o (fl_major f).

(** The table is zero-initialised; [initlock] has no visible effect. *)
Definition fileinit : list file := replicate 100 file0.

Fixpoint free_slot (l : list file) (i : nat) : option nat :=
  match l with
  | [] => None
  | f :: l' => if fl_ref f =? 0 then Some i else free_slot l' (Datatypes.S i)
  end.

Definition filealloc : M kst (option nat) :=
  let! l := gets ks_files in
  match free_slot l 0 with
  | Some i => setf i (with_ref 1) ;;; ret (Some i)
  | None => ret None
  end.

Definition filedup (f : nat) : M kst nat :=
  let! ff := gets (fun s => getf s f) in
  if fl_ref ff <? 1 then panic "filedup"
  else setf f (with_ref (fl_ref ff + 1)) ;;; ret f.

(** [pipeclose] and the [kfree] of the page when both ends are closed. *)
Definition close_pipe (pi : Z) (writable : bool) : M kst unit :=
  let! gone := in_pipe pi (pipeclose pi writable) in
  if gone : bool then
    in_mem (kfree kend pi) ;;;
    modify (fun s => Kst (ks_fs s) (ks_files s) (delete pi (ks_pipes s)) (ks_dev s) (ks_woken s))
  else ret tt.

Definition fileclose (pid : Z) (f : nat) : M kst unit :=
  let! ff := gets (fun s => getf s f) in
  if fl_ref ff <? 1 then panic "fileclose"
  else if 0 <? fl_ref ff - 1 then setf f (with_ref (fl_ref ff - 1))
  else
    setf f (fun g => with_type FD_NONE (with_ref 0 g)) ;;;
    match fl_type ff with
    | FD_PIPE => close_pipe (fl_pipe ff) (fl_writable ff)
    | FD_INODE | FD_DEVICE => begin_op ;;; in_fs (iput pid (fl_ip ff)) ;;; end_op
    | FD_NONE => ret tt
    end.

(** [struct stat] as it lies in memory: 4 bytes of padding before [size]. *)
Definition stat_bytes (st : stat) : list Z :=
  le_bytes 4 (st_dev st) ++ le_bytes 4 (st_ino st) ++ le_bytes 2 (st_type st) ++ le_bytes 2 (st_nlink st) ++
  le_bytes 4 0 ++ le_bytes 8 (st_size st).

Definition filestat (pid pt : Z) (f : nat) (addr : Z) : M kst Z :=
  let! ff := gets (fun s => getf s f) in
  match fl_type ff with
  | FD_INODE | FD_DEVICE =>
      in_fs (ilock pid (fl_ip ff)) ;;;
      let! st := in_fs (stati (fl_ip ff)) in
      in_fs (iunlock pid (fl_ip ff)) ;;;
      let! r := in_mem (copyout pt addr (stat_bytes st) 24) in
      if r <? 0 then ret (-1) else ret 0
  | _ => ret (-1)
  end.

Definition fileread (pid pt : Z) (killed : bool) (f : nat) (addr n : Z) : M kst Z :=
  let! ff := gets (fun s => getf s f) in
  if negb (fl_readable ff) then ret (-1)
  else
    match fl_type ff with
    | FD_PIPE =>
        let! r := in_pipe (fl_pipe ff) (piperead (fl_pipe ff) pt killed addr n) in
        match r with PRet v => ret v | PSleep _ => sleep_on (ChPipeRead (fl_pipe ff)) end
    | FD_DEVICE =>
        if (fl_major ff <? 0) || (NDEV <=? fl_major ff) then ret (-1)
        else
          match dev_read (fl_major ff) with
          | None => ret (-1)
          | Some rd => in_dev (rd pt killed addr n)
          end
    | FD_INODE =>
        in_fs (ilock pid (fl_ip ff)) ;;;
        let! '(r, _) := in_fs (readi (fl_ip ff) (UserDst pt addr) (fl_off ff) (u32 n)) in
        (if 0 <? r then setf f (with_off (u32 (fl_off ff + r))) else ret tt) ;;;
        in_fs (iunlock pid (fl_ip ff)) ;;;
        ret r
    | FD_NONE => panic "fileread"
    end.

(** [((MAXOPBLOCKS - 1 - 1 - 2) / 2) * BSIZE] *)
Definition max_write : Z := (MAXOPBLOCKS - 1 - 1 - 2) / 2 * BSIZE.

(** The loop of [filewrite] from byte [i] on. *)
Fixpoint filewrite_loop (fuel : nat) (pid pt : Z) (f : nat) (addr n i : Z) : M kst Z :=
  if i <? n then
    match fuel with
    | O => out_of_fuel
    | Datatypes.S fuel' =>
        let n1 := if max_write <? n - i then max_write else n - i in
        begin_op ;;;
        let! ff := gets (fun s => getf s f) in
        in_fs (ilock pid (fl_ip ff)) ;;;
        let! r := in_fs (writei (fl_ip ff) (UserSrc pt (u64 (addr + i))) (fl_off ff) n1) in
        (if 0 <? r then setf f (with_off (u32 (fl_off ff + r))) else ret tt) ;;;
        in_fs (iunlock pid (fl_ip ff)) ;;;
        end_op ;;;
        if r <? 0 then ret i
        else if negb (r =? n1) then panic "short filewrite"
        else filewrite_loop fuel' pid pt f addr n (i + r)
    end
  else ret i.

(** Each round but the last writes [max_write] bytes. *)
Definition write_fuel (n : Z) : nat := Z.to_nat (n / max_write + 1).

Definition filewrite (pid pt : Z) (killed : bool) (f : nat) (addr n : Z) : M kst Z :=
  let! ff := gets (fun s => getf s f) in
  if negb (fl_writable ff) then ret (-1)
  else
    match fl_type ff with
    | FD_PIPE =>
        let! r := in_pipe (fl_pipe ff) (pipewrite (fl_pipe ff) pt killed addr n 0) in
        match r with PRet v => ret v | PSleep _ => sleep_on (ChPipeWrite (fl_pipe ff)) end
    | FD_DEVICE =>
        if (fl_major ff <? 0) || (NDEV <=? fl_major ff) then ret (-1)
        else
          match dev_write (fl_major ff) with
          | None => ret (-1)
          | Some wr => in_dev (wr pt addr n)
          end
    | FD_INODE =>
        let! i := filewrite_loop (write_fuel n) pid pt f addr n 0 in
        ret (if i =? n then n else -1)
    | FD_NONE => panic "filewrite"
    end.

(** The fields [pipealloc] sets in the file of one end. *)
Definition pipe_end (pi : Z) (rd : bool) (f : file) : file :=
  File FD_PIPE (fl_ref f) rd (negb rd) pi (fl_ip f) (fl_off f) (fl_major f).

(** [None] is -1; the page [kalloc] returns is filled with 5. *)
Definition pipealloc (pid : Z) : M kst (option (nat * nat)) :=
  let! f0 := filealloc in
  match f0 with
  | None => ret None
  | Some f0 =>
      let! f1 := filealloc in
      match f1 with
      | None => fileclose pid f0 ;;; ret None
      | Some f1 =>
          let! pi := in_mem kalloc in
          if pi =? 0 then fileclose pid f0 ;;; fileclose pid f1 ;;; ret None
          else
            modify (fun s => Kst (ks_fs s) (ks_files s) (<[pi := pipe_init (replicate 512 5)]> (ks_pipes s)) (ks_dev s) (ks_woken s)) ;;;
            setf f0 (pipe_end pi true) ;;;
            setf f1 (pipe_end pi false) ;;;
            ret (Some (f0, f1))
      end
  end.

End file.
