(* ===== verification/Procs.v ===== *)
(** * kernel/proc.h: the structures of a process

    [struct proc] without its lock: the code between [acquire(&p->lock)] and
    [release] is one step of the model.  Pointers to processes, files and
    inodes are indices into their tables, [chan] is the channel slept on, and
    [pr_trapframe] is the address of the trapframe's page, whose fields are
    read and written in memory. *)

From S2P Require Import Prelude Riscv Mem Kalloc Vm.

Record context := Ctx {
  cx_ra : Z; cx_sp : Z; cx_s0 : Z; cx_s1 : Z; cx_s2 : Z; cx_s3 : Z; cx_s4 : Z; cx_s5 : Z; cx_s6 : Z; cx_s7 : Z; cx_s8 : Z; cx_s9 : Z; cx_s10 : Z; cx_s11 : Z;
}.
Definition context0 : context := Ctx 0 0 0 0 0 0 0 0 0 0 0 0 0 0.

(** The fields of [struct trapframe], by name, and where they lie. *)
Inductive trapframe :=
  | tf_kernel_satp | tf_kernel_sp | tf_kernel_trap | tf_epc | tf_kernel_hartid | tf_ra
  | tf_sp | tf_gp | tf_tp | tf_t0 | tf_t1 | tf_t2
  | tf_s0 | tf_s1 | tf_a0 | tf_a1 | tf_a2 | tf_a3
  | tf_a4 | tf_a5 | tf_a6 | tf_a7 | tf_s2 | tf_s3
  | tf_s4 | tf_s5 | tf_s6 | tf_s7 | tf_s8 | tf_s9
  | tf_s10 | tf_s11 | tf_t3 | tf_t4 | tf_t5 | tf_t6.

Definition tf_off (r : trapframe) : Z :=
  match r with
  | tf_kernel_satp => 0 | tf_kernel_sp => 8 | tf_kernel_trap => 16 | tf_epc => 24 | tf_kernel_hartid => 32 | tf_ra => 40
  | tf_sp => 48 | tf_gp => 56 | tf_tp => 64 | tf_t0 => 72 | tf_t1 => 80 | tf_t2 => 88
  | tf_s0 => 96 | tf_s1 => 104 | tf_a0 => 112 | tf_a1 => 120 | tf_a2 => 128 | tf_a3 => 136
  | tf_a4 => 144 | tf_a5 => 152 | tf_a6 => 160 | tf_a7 => 168 | tf_s2 => 176 | tf_s3 => 184
  | tf_s4 => 192 | tf_s5 => 200 | tf_s6 => 208 | tf_s7 => 216 | tf_s8 => 224 | tf_s9 => 232
  | tf_s10 => 240 | tf_s11 => 248 | tf_t3 => 256 | tf_t4 => 264 | tf_t5 => 272 | tf_t6 => 280
  end.

Inductive procstate := UNUSED | SLEEPING | RUNNABLE | RUNNING | ZOMBIE.

#[export] Instance procstate_eq_dec : EqDecision procstate.
Proof. solve_decision. Defined.

Record proc := Proc {
  pr_state : procstate;
  pr_parent : option nat;
  pr_chan : option chan;
  pr_killed : bool;
  pr_xstate : Z;
  pr_pid : Z;
  pr_kstack : Z;
  pr_sz : Z;
  pr_pagetable : Z;
  pr_trapframe : Z;
  pr_context : context;
  pr_ofile : list (option nat);
  pr_cwd : option nat;
  pr_name : list Z;
}.
Definition proc0 : proc := Proc UNUSED None None false 0 0 0 0 0 0 context0 (replicate 16 None) None (replicate 16 0).

Definition set_state (v : procstate) (p : proc) : proc :=
  Proc v (pr_parent p) (pr_chan p) (pr_killed p) (pr_xstate p) (pr_pid p) (pr_kstack p) (pr_sz p) (pr_pagetable p) (pr_trapframe p) (pr_context p) (pr_ofile p) (pr_cwd p) (pr_name p).
Definition set_parent (v : option nat) (p : proc) : proc :=
  Proc (pr_state p) v (pr_chan p) (pr_killed p) (pr_xstate p) (pr_pid p) (pr_kstack p) (pr_sz p) (pr_pagetable p) (pr_trapframe p) (pr_context p) (pr_ofile p) (pr_cwd p) (pr_name p).
Definition set_chan (v : option chan) (p : proc) : proc :=
  Proc (pr_state p) (pr_parent p) v (pr_killed p) (pr_xstate p) (pr_pid p) (pr_kstack p) (pr_sz p) (pr_pagetable p) (pr_trapframe p) (pr_context p) (pr_ofile p) (pr_cwd p) (pr_name p).
Definition set_killed (v : bool) (p : proc) : proc :=
  Proc (pr_state p) (pr_parent p) (pr_chan p) v (pr_xstate p) (pr_pid p) (pr_kstack p) (pr_sz p) (pr_pagetable p) (pr_trapframe p) (pr_context p) (pr_ofile p) (pr_cwd p) (pr_name p).
Definition set_xstate (v : Z) (p : proc) : proc :=
  Proc (pr_state p) (pr_parent p) (pr_chan p) (pr_killed p) v (pr_pid p) (pr_kstack p) (pr_sz p) (pr_pagetable p) (pr_trapframe p) (pr_context p) (pr_ofile p) (pr_cwd p) (pr_name p).
Definition set_pid (v : Z) (p : proc) : proc :=
  Proc (pr_state p) (pr_parent p) (pr_chan p) (pr_killed p) (pr_xstate p) v (pr_kstack p) (pr_sz p) (pr_pagetable p) (pr_trapframe p) (pr_context p) (pr_ofile p) (pr_cwd p) (pr_name p).
Definition set_kstack (v : Z) (p : proc) : proc :=
  Proc (pr_state p) (pr_parent p) (pr_chan p) (pr_killed p) (pr_xstate p) (pr_pid p) v (pr_sz p) (pr_pagetable p) (pr_trapframe p) (pr_context p) (pr_ofile p) (pr_cwd p) (pr_name p).
Definition set_sz (v : Z) (p : proc) : proc :=
  Proc (pr_state p) (pr_parent p) (pr_chan p) (pr_killed p) (pr_xstate p) (pr_pid p) (pr_kstack p) v (pr_pagetable p) (pr_trapframe p) (pr_context p) (pr_ofile p) (pr_cwd p) (pr_name p).
Definition set_pagetable (v : Z) (p : proc) : proc :=
  Proc (pr_state p) (pr_parent p) (pr_chan p) (pr_killed p) (pr_xstate p) (pr_pid p) (pr_kstack p) (pr_sz p) v (pr_trapframe p) (pr_context p) (pr_ofile p) (pr_cwd p) (pr_name p).
Definition set_trapframe (v : Z) (p : proc) : proc :=
  Proc (pr_state p) (pr_parent p) (pr_chan p) (pr_killed p) (pr_xstate p) (pr_pid p) (pr_kstack p) (pr_sz p) (pr_pagetable p) v (pr_context p) (pr_ofile p) (pr_cwd p) (pr_name p).
Definition set_context (v : context) (p : proc) : proc :=
  Proc (pr_state p) (pr_parent p) (pr_chan p) (pr_killed p) (pr_xstate p) (pr_pid p) (pr_kstack p) (pr_sz p) (pr_pagetable p) (pr_trapframe p) v (pr_ofile p) (pr_cwd p) (pr_name p).
Definition set_ofile (v : list (option nat)) (p : proc) : proc :=
  Proc (pr_state p) (pr_parent p) (pr_chan p) (pr_killed p) (pr_xstate p) (pr_pid p) (pr_kstack p) (pr_sz p) (pr_pagetable p) (pr_trapframe p) (pr_context p) v (pr_cwd p) (pr_name p).
Definition set_cwd (v : option nat) (p : proc) : proc :=
  Proc (pr_state p) (pr_parent p) (pr_chan p) (pr_killed p) (pr_xstate p) (pr_pid p) (pr_kstack p) (pr_sz p) (pr_pagetable p) (pr_trapframe p) (pr_context p) (pr_ofile p) v (pr_name p).
Definition set_name (v : list Z) (p : proc) : proc :=
  Proc (pr_state p) (pr_parent p) (pr_chan p) (pr_killed p) (pr_xstate p) (pr_pid p) (pr_kstack p) (pr_sz p) (pr_pagetable p) (pr_trapframe p) (pr_context p) (pr_ofile p) (pr_cwd p) v.

(** [p->trapframe->r] and [p->trapframe->r = v] *)
Definition tf_get (tf : Z) (r : trapframe) : M kmem Z := load64 (tf + tf_off r).
Definition tf_set (tf : Z) (r : trapframe) (v : Z) : M kmem unit := store64 (tf + tf_off r) v.
