(* ===== verification/Proc.v ===== *)
(** * kernel/proc.c: creating, ending and waking processes

    The process table over the state of the file layer.  A function runs in
    the process with index [me]; the code under [p->lock] or [pid_lock] is one
    step.  [y_out] are the characters the kernel has printed.  What switches
    between processes ([sched], [scheduler], [swtch]) is in Sched.v: here a
    run that sleeps ends in [Sleeps], and [exit] ends with the process a
    zombie. *)

From S2P Require Import Prelude Riscv Mem KString Kalloc Vm Uvm Ucopy Usermem.
From S2P Require Import Pipe Layout Log Txn Fs Printf File Procs.

(** [safestrcpy(dst, src, sizeof dst)] on a name field. *)
Definition name_copy (dst src : list Z) : list Z :=
  let s := take (length dst - 1) (cstr src) in
  s ++ [0] ++ drop (length s + 1) dst.

Definition getProcState (st : procstate) : list Z :=
  match st with
  | UNUSED => zstr "unused"
  | SLEEPING => zstr "sleep"
  | RUNNABLE => zstr "runnable"
  | RUNNING => zstr "run"
  | ZOMBIE => zstr "zombie"
  end.

(** ** Page tables of processes *)

Section pagetable.
Context (kend trampoline : Z).

(** [trapframe] is [p->trapframe]; 0 means failure. *)
Definition proc_pagetable (trapframe : Z) : M kmem Z :=
  let! pagetable := uvmcreate in
  if pagetable =? 0 then ret 0
  else
    let! r := mappages pagetable TRAMPOLINE PGSIZE trampoline (Z.lor PTE_R PTE_X) in
    if r <? 0 then uvmfree kend pagetable 0 ;;; ret 0
    else
      let! r := mappages pagetable TRAPFRAME PGSIZE trapframe (Z.lor PTE_R PTE_W) in
      if r <? 0 then
        uvmunmap kend pagetable TRAMPOLINE 1 false ;;;
        uvmfree kend pagetable 0 ;;;
        ret 0
      else ret pagetable.

Definition proc_freepagetable (pagetable sz : Z) : M kmem unit :=
  uvmunmap kend pagetable TRAMPOLINE 1 false ;;;
  uvmunmap kend pagetable TRAPFRAME 1 false ;;;
  uvmfree kend pagetable sz.
End pagetable.

Section proc.
Context {S Dv : Type} `{Blocks S} `{LogOps S} `{Devices Dv}.
(** The linker symbols [end], [trampoline] and [forkret], and the kernel's
    page table. *)
Context (kend trampoline forkret kernel_pagetable : Z).

Record sys := Sys {
  y_k : kst (S := S) (Dv := Dv);
  y_procs : list proc;
  y_initproc : option nat;
  y_nextpid : Z;
  y_ticks : Z;
  y_out : list Z;
}.

Definition getpr (s : sys) (p : nat) : proc := default proc0 (y_procs s !! p).
Definition set_procs (f : list proc -> list proc) : M sys unit :=
  modify (fun s => Sys (y_k s) (f (y_procs s)) (y_initproc s) (y_nextpid s) (y_ticks s) (y_out s)).
Definition setpr (p : nat) (f : proc -> proc) : M sys unit := set_procs (alter f p).
Definition print (cs : list Z) : M sys unit :=
  modify (fun s => Sys (y_k s) (y_procs s) (y_initproc s) (y_nextpid s) (y_ticks s) (y_out s ++ cs)).

(** [wakeup(chan)] *)
Definition wake_procs (c : chan) (l : list proc) : list proc :=
  map (fun p => if bool_decide (pr_state p = SLEEPING) && bool_decide (pr_chan p = Some c)
                then set_state RUNNABLE p else p) l.
Definition wakeup (c : chan) : M sys unit := set_procs (wake_procs c).

(** The lower layers record their wakeups; they reach the process table when
    the call returns or sleeps. *)
Definition deliver (k : kst (S := S) (Dv := Dv)) (s : sys) : sys :=
  Sys (Kst (ks_fs k) (ks_files k) (ks_pipes k) (ks_dev k) [])
      (foldr wake_procs (y_procs s) (ks_woken k)) (y_initproc s) (y_nextpid s) (y_ticks s) (y_out s).
Definition in_k {A} (m : M (kst (S := S) (Dv := Dv)) A) : M sys A := zoom y_k deliver m.
Definition in_kmem {A} (m : M kmem A) : M sys A := in_k (in_mem m).

(** [wakeup1(p)]; [held] is [holding(&p->lock)]. *)
Definition wakeup1 (held : bool) (p : nat) : M sys unit :=
  if negb held then panic "wakeup1"
  else
    let! q := gets (fun s => getpr s p) in
    if bool_decide (pr_chan q = Some (ChProc p)) && bool_decide (pr_state q = SLEEPING)
    then setpr p (set_state RUNNABLE) else ret tt.

(** One kernel stack per process, high in the kernel's address space. *)
Definition procinit : M sys unit :=
  let! r := for_range (R := Empty_set) 64 0 (fun p =>
    let! pa := in_kmem kalloc in
    if pa =? 0 then panic "kalloc"
    else
      let va := KSTACK p in
      in_kmem (kvmmap kernel_pagetable va pa PGSIZE (Z.lor PTE_R PTE_W)) ;;;
      setpr (Z.to_nat p) (set_kstack va) ;;;
      ret None) in
  ret tt.

Definition allocpid : M sys Z :=
  let! pid := gets y_nextpid in
  modify (fun s => Sys (y_k s) (y_procs s) (y_initproc s) (s32 (pid + 1)) (y_ticks s) (y_out s)) ;;;
  ret pid.

Definition freeproc (p : nat) : M sys unit :=
  let! q := gets (fun s => getpr s p) in
  (if pr_trapframe q =? 0 then ret tt else in_kmem (kfree kend (pr_trapframe q))) ;;;
  setpr p (set_trapframe 0) ;;;
  (if pr_pagetable q =? 0 then ret tt else in_kmem (proc_freepagetable kend (pr_pagetable q) (pr_sz q))) ;;;
  setpr p (fun q => set_state UNUSED (set_xstate 0 (set_killed false (set_chan None
    (set_name (<[0%nat := 0]> (pr_name q)) (set_parent None (set_pid 0 (set_sz 0 (set_pagetable 0 q))))))))).

Fixpoint unused_slot (l : list proc) (i : nat) : option nat :=
  match l with
  | [] => None
  | p :: l' => if bool_decide (pr_state p = UNUSED) then Some i else unused_slot l' (Datatypes.S i)
  end.

Definition allocproc : M sys (option nat) :=
  let! l := gets y_procs in
  match unused_slot l 0 with
  | None => ret None
  | Some p =>
      let! pid := allocpid in
      setpr p (set_pid pid) ;;;
      let! tf := in_kmem kalloc in
      setpr p (set_trapframe tf) ;;;
      if tf =? 0 then ret None
      else
        let! pt := in_kmem (proc_pagetable kend trampoline tf) in
        setpr p (set_pagetable pt) ;;;
        if pt =? 0 then freeproc p ;;; ret None
        else
          setpr p (fun q => set_context (Ctx forkret (u64 (pr_kstack q + PGSIZE)) 0 0 0 0 0 0 0 0 0 0 0 0) q) ;;;
          ret (Some p)
  end.

Definition initcode : list Z :=
  [0x17; 0x05; 0x00; 0x00; 0x13; 0x05; 0x45; 0x02; 0x97; 0x05; 0x00; 0x00; 0x93;
   0x85; 0x35; 0x02; 0x93; 0x08; 0x70; 0x00; 0x73; 0x00; 0x00; 0x00; 0x93; 0x08;
   0x20; 0x00; 0x73; 0x00; 0x00; 0x00; 0xef; 0xf0; 0x9f; 0xff; 0x2f; 0x69; 0x6e;
   0x69; 0x74; 0x00; 0x00; 0x24; 0x00; 0x00; 0x00; 0x00; 0x00; 0x00; 0x00; 0x00].

(** Runs at boot, outside any process; a full table or no memory makes
    [allocproc] return a null pointer, which the source dereferences. *)
Definition userinit : M sys unit :=
  let! r := allocproc in
  match r with
  | None => panic "userinit: null process"
  | Some p =>
      modify (fun s => Sys (y_k s) (y_procs s) (Some p) (y_nextpid s) (y_ticks s) (y_out s)) ;;;
      let! q := gets (fun s => getpr s p) in
      in_kmem (uvminit (pr_pagetable q) initcode (Z.of_nat (length initcode))) ;;;
      setpr p (set_sz PGSIZE) ;;;
      in_kmem (tf_set (pr_trapframe q) tf_epc 0) ;;;
      in_kmem (tf_set (pr_trapframe q) tf_sp PGSIZE) ;;;
      setpr p (fun q => set_name (name_copy (pr_name q) (zstr "initcode")) q) ;;;
      let! ip := in_k (in_fs (namei 0 0 [SLASH])) in
      setpr p (set_cwd ip) ;;;
      setpr p (set_state RUNNABLE)
  end.

(** [sz] is a [uint] here, while [p->sz] has 64 bits. *)
Definition growproc (me : nat) (n : Z) : M sys Z :=
  let! p := gets (fun s => getpr s me) in
  let sz := u32 (pr_sz p) in
  if 0 <? n then
    let! sz1 := in_kmem (uvmalloc kend (pr_pagetable p) sz (u32 (sz + n))) in
    if u32 sz1 =? 0 then ret (-1)
    else setpr me (set_sz (u32 sz1)) ;;; ret 0
  else if n <? 0 then
    let! sz1 := in_kmem (uvmdealloc kend (pr_pagetable p) sz (u32 (sz + n))) in
    setpr me (set_sz (u32 sz1)) ;;; ret 0
  else setpr me (set_sz sz) ;;; ret 0.

(** [p->cwd], which no code path dereferences when it is null. *)
Definition cwd_of (p : proc) : M sys nat :=
  match pr_cwd p with
  | Some ip => ret ip
  | None => panic "null cwd"
  end.

(** The loop over [ofile] in [fork], from descriptor [fd] on. *)
Fixpoint dup_files (fs : list (option nat)) (np : nat) (fd : nat) : M sys unit :=
  match fs with
  | [] => ret tt
  | None :: fs' => dup_files fs' np (Datatypes.S fd)
  | Some f :: fs' =>
      let! f' := in_k (filedup f) in
      setpr np (fun q => set_ofile (<[fd := Some f']> (pr_ofile q)) q) ;;;
      dup_files fs' np (Datatypes.S fd)
  end.

(** [*(np->trapframe) = *(p->trapframe)] *)
Definition copy_trapframe (dst src : Z) : M kmem unit :=
  modify (set_k_mem (fun m => st_bytes m dst (bytes m src 288))).

Definition fork (me : nat) : M sys Z :=
  let! r := allocproc in
  match r with
  | None => ret (-1)
  | Some np =>
      let! p := gets (fun s => getpr s me) in
      let! q := gets (fun s => getpr s np) in
      let! r := in_kmem (uvmcopy kend (pr_pagetable p) (pr_pagetable q) (pr_sz p)) in
      if r <? 0 then freeproc np ;;; ret (-1)
      else
        setpr np (set_sz (pr_sz p)) ;;;
        setpr np (set_parent (Some me)) ;;;
        in_kmem (copy_trapframe (pr_trapframe q) (pr_trapframe p)) ;;;
        in_kmem (tf_set (pr_trapframe q) tf_a0 0) ;;;
        dup_files (pr_ofile p) np 0 ;;;
        let! cwd := cwd_of p in
        let! cwd := in_k (in_fs (idup cwd)) in
        setpr np (set_cwd (Some cwd)) ;;;
        setpr np (fun q => set_name (name_copy (pr_name q) (pr_name p)) q) ;;;
        let! q := gets (fun s => getpr s np) in
        setpr np (set_state RUNNABLE) ;;;
        ret (pr_pid q)
  end.

(** [reparent(p)] *)
Definition reparent (p : nat) : M sys unit :=
  let! init := gets y_initproc in
  set_procs (map (fun pp => if bool_decide (pr_parent pp = Some p) then set_parent init pp else pp)).

Fixpoint close_files (pid : Z) (fs : list (option nat)) (p : nat) (fd : nat) : M sys unit :=
  match fs with
  | [] => ret tt
  | None :: fs' => close_files pid fs' p (Datatypes.S fd)
  | Some f :: fs' =>
      in_k (fileclose kend pid f) ;;;
      setpr p (fun q => set_ofile (<[fd := None]> (pr_ofile q)) q) ;;;
      close_files pid fs' p (Datatypes.S fd)
  end.

(** [exit_info(fmt, ...)]: the addresses 1 and 2 stand for the two strings. *)
Definition exit_info (fmt : list Z) (args : list Z) (s1 s2 : list Z) : M sys unit :=
  print (default [] (option_map (fun out => ESC_CYAN ++ INFO_TAG ++ out ++ ESC_RESET)
    (print_fmt (fun a => if a =? 1 then s1 else s2) fmt args))).

Definition fmt_parent : list Z := zstr "proc %d exit, parent pid %d, name %s, state %s" ++ [10].
Definition fmt_child : list Z := zstr "proc %d exit, child %d, pid %d, name %s, state %s" ++ [10].

(** The loop of [exit] that reports the children; [i] counts them. *)
Fixpoint report_children (l : list proc) (p : nat) (pid i : Z) : M sys unit :=
  match l with
  | [] => ret tt
  | pp :: l' =>
      if bool_decide (pr_parent pp = Some p) then
        exit_info fmt_child [pid; i; pr_pid pp; 1; 2] (cstr (pr_name pp)) (getProcState (pr_state pp)) ;;;
        report_children l' p pid (i + 1)
      else report_children l' p pid i
  end.

(** [exit(status)] up to [sched()], from which it does not come back.  A null
    parent or [initproc] would be dereferenced by the source. *)
Definition exit (me : nat) (status : Z) : M sys unit :=
  let! init := gets y_initproc in
  if bool_decide (init = Some me) then panic "init exiting"
  else
    let! p := gets (fun s => getpr s me) in
    close_files (pr_pid p) (pr_ofile p) me 0 ;;;
    let! cwd := cwd_of p in
    in_k (begin_op ;;; in_fs (iput (pr_pid p) cwd) ;;; end_op) ;;;
    setpr me (set_cwd None) ;;;
    match init with
    | None => panic "exit: null initproc"
    | Some i =>
        wakeup1 true i ;;;
        let! p := gets (fun s => getpr s me) in
        match pr_parent p with
        | None => panic "exit: null parent"
        | Some parent =>
            let! pp := gets (fun s => getpr s parent) in
            exit_info fmt_parent [pr_pid p; pr_pid pp; 1; 2] (cstr (pr_name pp)) (getProcState (pr_state pp)) ;;;
            let! l := gets y_procs in
            report_children l me (pr_pid p) 0 ;;;
            reparent me ;;;
            wakeup1 true parent ;;;
            setpr me (fun q => set_state ZOMBIE (set_xstate status q))
        end
    end.

(** The scan of [wait]: the first zombie child, and whether there is a child
    before it. *)
Fixpoint zombie_child (l : list proc) (p : nat) (i : nat) (kids : bool) : option nat * bool :=
  match l with
  | [] => (None, kids)
  | np :: l' =>
      if bool_decide (pr_parent np = Some p) then
        if bool_decide (pr_state np = ZOMBIE) then (Some i, true) else zombie_child l' p (Datatypes.S i) true
      else zombie_child l' p (Datatypes.S i) kids
  end.

(** One run of [wait], up to its return or its sleep on the process itself. *)
Definition wait (me : nat) (addr flags : Z) : M sys Z :=
  let! l := gets y_procs in
  let! p := gets (fun s => getpr s me) in
  match zombie_child l me 0 false with
  | (Some c, _) =>
      let! np := gets (fun s => getpr s c) in
      let! r := (if addr =? 0 then ret 0
                 else in_kmem (copyout (pr_pagetable p) addr (le_bytes 4 (pr_xstate np)) 4)) in
      if r <? 0 then ret (-1)
      else freeproc c ;;; ret (pr_pid np)
  | (None, kids) =>
      if negb kids || pr_killed p then ret (-1)
      else if negb (flags =? 0) then ret (-1)
      else sleep_on (ChProc me)
  end.

Fixpoint with_pid (l : list proc) (pid : Z) (i : nat) : option nat :=
  match l with
  | [] => None
  | p :: l' => if pr_pid p =? pid then Some i else with_pid l' pid (Datatypes.S i)
  end.

Definition kill (pid : Z) : M sys Z :=
  let! l := gets y_procs in
  match with_pid l pid 0 with
  | None => ret (-1)
  | Some p =>
      setpr p (set_killed true) ;;;
      let! q := gets (fun s => getpr s p) in
      (if bool_decide (pr_state q = SLEEPING) then setpr p (set_state RUNNABLE) else ret tt) ;;;
      ret 0
  end.

Definition dump_state (st : procstate) : list Z :=
  match st with
  | UNUSED => zstr "unused"
  | SLEEPING => zstr "sleep "
  | RUNNABLE => zstr "runble"
  | RUNNING => zstr "run   "
  | ZOMBIE => zstr "zombie"
  end.

(** The characters [procdump] prints. *)
Definition procdump (l : list proc) : list Z :=
  10 :: concat (map (fun p =>
    if bool_decide (pr_state p = UNUSED) then []
    else default [] (print_fmt (fun a => if a =? 1 then dump_state (pr_state p) else cstr (pr_name p))
           (zstr "%d %s %s") [pr_pid p; 1; 2]) ++ [10]) l).

End proc.
