(* ===== verification/Syscall.v ===== *)
(** * kernel/syscall.c and kernel/sysproc.c

    Fetching system call arguments from the trapframe and from user memory,
    and the system calls on processes. *)

From S2P Require Import Prelude Riscv Mem KString Kalloc Vm Uvm Ucopy Usermem.
From S2P Require Import Pipe Layout Log Txn Fs Printf File Procs Proc.

(** ** kernel/syscall.h *)
Definition SYS_fork : Z := 1.
Definition SYS_exit : Z := 2.
Definition SYS_wait : Z := 3.
Definition SYS_pipe : Z := 4.
Definition SYS_read : Z := 5.
Definition SYS_kill : Z := 6.
Definition SYS_exec : Z := 7.
Definition SYS_fstat : Z := 8.
Definition SYS_chdir : Z := 9.
Definition SYS_dup : Z := 10.
Definition SYS_getpid : Z := 11.
Definition SYS_sbrk : Z := 12.
Definition SYS_sleep : Z := 13.
Definition SYS_uptime : Z := 14.
Definition SYS_open : Z := 15.
Definition SYS_write : Z := 16.
Definition SYS_mknod : Z := 17.
Definition SYS_unlink : Z := 18.
Definition SYS_link : Z := 19.
Definition SYS_mkdir : Z := 20.
Definition SYS_close : Z := 21.
Definition SYS_rename : Z := 22.
Definition SYS_yield : Z := 23.

Section syscall.
Context {S Dv : Type} `{Blocks S} `{LogOps S} `{Devices Dv}.
Context (kend trampoline forkret kernel_pagetable : Z).

Abbreviation sys := (sys (S := S) (Dv := Dv)).
Implicit Types s : sys.

(** ** Arguments *)

(** [*ip], when the result is 0. *)
Definition fetchaddr (me : nat) (addr : Z) : M sys (Z * Z) :=
  let! p := gets (fun s => getpr s me) in
  if (pr_sz p <=? addr) || (pr_sz p <? u64 (addr + 8)) then ret (-1, 0)
  else
    let! '(r, bs) := in_kmem (copyin (pr_pagetable p) addr 8) in
    if negb (r =? 0) then ret (-1, 0) else ret (0, get64 bs 0).

(** The bytes copied to [buf], with the NUL when there is one. *)
Definition fetchstr (me : nat) (addr max : Z) : M sys (Z * list Z) :=
  let! p := gets (fun s => getpr s me) in
  let! '(err, buf) := in_kmem (copyinstr (pr_pagetable p) addr max) in
  if err <? 0 then ret (err, buf) else ret (Z.of_nat (length (cstr buf)), buf).

Definition argraw (me : nat) (n : Z) : M sys Z :=
  let! p := gets (fun s => getpr s me) in
  let arg r := in_kmem (tf_get (pr_trapframe p) r) in
  if n =? 0 then arg tf_a0
  else if n =? 1 then arg tf_a1
  else if n =? 2 then arg tf_a2
  else if n =? 3 then arg tf_a3
  else if n =? 4 then arg tf_a4
  else if n =? 5 then arg tf_a5
  else panic "argraw".

(** Both always return 0; the value is [*ip]. *)
Definition argint (me : nat) (n : Z) : M sys Z := let! v := argraw me n in ret (s32 v).
Definition argaddr (me : nat) (n : Z) : M sys Z := argraw me n.

Definition argstr (me : nat) (n max : Z) : M sys (Z * list Z) :=
  let! addr := argaddr me n in
  fetchstr me addr max.

(** ** kernel/sysproc.c *)

Definition sys_exit (me : nat) : M sys unit := let! n := argint me 0 in exit kend me n.

Definition sys_getpid (me : nat) : M sys Z := gets (fun s => pr_pid (getpr s me)).

Definition sys_fork (me : nat) : M sys Z := fork kend trampoline forkret me.

Definition sys_wait (me : nat) : M sys Z :=
  let! p := argaddr me 0 in
  let! flags := argint me 1 in
  wait kend me p flags.

Definition sys_sbrk (me : nat) : M sys Z :=
  let! n := argint me 0 in
  let! addr := gets (fun s => s32 (pr_sz (getpr s me))) in
  let! r := growproc kend me n in
  if r <? 0 then ret (-1) else ret addr.

(** The loop of [sys_sleep], entered at tick [ticks0] or resumed after a
    sleep; the comparison is between unsigned numbers. *)
Definition sys_sleep_loop (me : nat) (ticks0 n : Z) : M sys Z :=
  let! ticks := gets y_ticks in
  if u32 (ticks - ticks0) <? u32 n then
    let! p := gets (fun s => getpr s me) in
    if pr_killed p then ret (-1) else sleep_on ChTicks
  else ret 0.

Definition sys_sleep (me : nat) : M sys Z :=
  let! n := argint me 0 in
  let! ticks0 := gets y_ticks in
  sys_sleep_loop me ticks0 n.

Definition sys_kill (me : nat) : M sys Z := let! pid := argint me 0 in kill pid.

Definition sys_uptime : M sys Z := gets y_ticks.

(** [name] has 16 bytes and [argstr] may write up to [MAXPATH] of them: more
    than 16 bytes overwrite the kernel stack. *)
Definition sys_rename (me : nat) : M sys Z :=
  let! '(len, name) := argstr me 0 MAXPATH in
  if 16 <? Z.of_nat (length name) then panic "stack overflow"
  else if len <? 0 then ret (-1)
  else
    setpr me (fun p => set_name (<[Z.to_nat len := 0]> (take (Z.to_nat len) name ++ drop (Z.to_nat len) (pr_name p))) p) ;;;
    ret 0.

Definition fmt_save : list Z :=
  zstr "Save the context of the process to the memory region from address %p to %p" ++ [10].
Definition fmt_current : list Z := zstr "Current running process pid is %d and user pc is %p" ++ [10].
Definition fmt_next : list Z := zstr "Next runnable process pid is %d and user pc is %p" ++ [10].

Definition printk (fmt : list Z) (args : list Z) : M sys unit :=
  print (default [] (print_fmt (fun _ => []) fmt args)).

Fixpoint first_runnable (l : list proc) : option proc :=
  match l with
  | [] => None
  | p :: l' => if bool_decide (pr_state p = RUNNABLE) then Some p else first_runnable l'
  end.

(** Up to [sched()]; [context_addr] is the address of [p->context]. *)
Definition sys_yield (context_addr : nat -> Z) (me : nat) : M sys Z :=
  let! p := gets (fun s => getpr s me) in
  printk fmt_save [context_addr me; u64 (context_addr me + 112)] ;;;
  let! epc := in_kmem (tf_get (pr_trapframe p) tf_epc) in
  printk fmt_current [pr_pid p; epc] ;;;
  let! l := gets y_procs in
  match first_runnable l with
  | None => ret tt
  | Some pp =>
      let! epc := in_kmem (tf_get (pr_trapframe pp) tf_epc) in
      printk fmt_next [pr_pid pp; epc]
  end ;;;
  setpr me (set_state RUNNABLE) ;;;
  ret 0.

End syscall.
