(* ===== verification/Exec.v ===== *)
(** * kernel/exec.c and kernel/elf.h

    [exec] builds a new address space from an ELF file, pushes the argument
    strings and the array of pointers to them on the new stack, and only then
    gives up the old address space.  The argument strings come from the
    kernel pages [sys_exec] filled; here they are byte lists without their
    NUL. *)

From S2P Require Import Prelude Riscv Mem KString Kalloc Vm Uvm Ucopy Usermem.
From S2P Require Import Pipe Bio Layout Log Txn Fs Printf File Procs Proc.

Definition ELF_MAGIC : Z := 0x464C457F.
Definition ELF_PROG_LOAD : Z := 1.

Record elfhdr := Elfhdr {
  e_magic : Z; e_elf : list Z; e_type : Z; e_machine : Z; e_version : Z; e_entry : Z; e_phoff : Z; e_shoff : Z;
  e_flags : Z; e_ehsize : Z; e_phentsize : Z; e_phnum : Z; e_shentsize : Z; e_shnum : Z; e_shstrndx : Z;
}.
Definition SIZEOF_ELFHDR : Z := 64.
Definition get_elfhdr (d : list Z) : elfhdr :=
  Elfhdr (get32 d 0) (slice d 4 12) (get16 d 16) (get16 d 18) (get32 d 20) (get64 d 24) (get64 d 32) (get64 d 40)
         (get32 d 48) (get16 d 52) (get16 d 54) (get16 d 56) (get16 d 58) (get16 d 60) (get16 d 62).

Record proghdr := Proghdr {
  ph_type : Z; ph_flags : Z; ph_off : Z; ph_vaddr : Z; ph_paddr : Z; ph_filesz : Z; ph_memsz : Z; ph_align : Z;
}.
Definition SIZEOF_PROGHDR : Z := 56.
Definition get_proghdr (d : list Z) : proghdr :=
  Proghdr (get32 d 0) (get32 d 4) (get64 d 8) (get64 d 16) (get64 d 24) (get64 d 32) (get64 d 40) (get64 d 48).

(** The part of [path] after its last slash. *)
Fixpoint last_elem (path acc : list Z) : list Z :=
  match path with
  | [] => acc
  | c :: rest => last_elem rest (if c =? SLASH then rest else acc)
  end.

(** The bytes of [ustack[0..argc]]. *)
Definition word_bytes (ws : list Z) : list Z := concat (map (le_bytes 8) ws).

(** One argument string on the stack: [sp -= strlen + 1; sp -= sp % 16]. *)
Definition push_arg (sp len : Z) : Z :=
  let sp := u64 (sp - (len + 1)) in u64 (sp - sp mod 16).

Section exec.
Context {S Dv : Type} `{Blocks S} `{LogOps S} `{Devices Dv}.
Context (kend trampoline : Z).

Abbreviation sys := (sys (S := S) (Dv := Dv)).
Implicit Types s : sys.

Definition fsop {A} (m : M (fst (S := S) (U := kmem)) A) : M sys A := in_k (in_fs m).

(** The loop of [loadseg] from offset [i]; -1 when the file is too short. *)
Fixpoint loadseg_loop (fuel : nat) (pagetable va : Z) (ip : nat) (offset sz i : Z) : M sys Z :=
  if i <? sz then
    match fuel with
    | O => out_of_fuel
    | Datatypes.S fuel' =>
        let! pa := in_kmem (walkaddr pagetable (u64 (va + i))) in
        if pa =? 0 then panic "loadseg: address should exist"
        else
          let n := if sz - i <? PGSIZE then sz - i else PGSIZE in
          let! '(r, bs) := fsop (readi ip KernDst (u32 (offset + i)) n) in
          in_kmem (copy_to pa bs (Z.of_nat (length bs))) ;;;
          if negb (r =? n) then ret (-1)
          else loadseg_loop fuel' pagetable va ip offset sz (u32 (i + PGSIZE))
    end
  else ret 0.

(** One round per page. *)
Definition loadseg (pagetable va : Z) (ip : nat) (offset sz : Z) : M sys Z :=
  if negb (va mod PGSIZE =? 0) then panic "loadseg: va must be page aligned"
  else loadseg_loop (Z.to_nat (sz / PGSIZE + 1)) pagetable va ip offset sz 0.

(** The loop over the program headers, [k] of them left, the next one at
    [off]: the size of the new address space, or [inl] of it at [goto bad]. *)
Fixpoint load_segments (k : nat) (ip : nat) (pagetable off sz : Z) : M sys (Z + Z) :=
  match k with
  | O => ret (inr sz)
  | Datatypes.S k' =>
      let! '(r, bs) := fsop (readi ip KernDst (u32 off) SIZEOF_PROGHDR) in
      if negb (r =? SIZEOF_PROGHDR) then ret (inl sz)
      else
        let ph := get_proghdr bs in
        let next := s32 (off + SIZEOF_PROGHDR) in
        if negb (ph_type ph =? ELF_PROG_LOAD) then load_segments k' ip pagetable next sz
        else if ph_memsz ph <? ph_filesz ph then ret (inl sz)
        else if u64 (ph_vaddr ph + ph_memsz ph) <? ph_vaddr ph then ret (inl sz)
        else
          let! sz1 := in_kmem (uvmalloc kend pagetable sz (u64 (ph_vaddr ph + ph_memsz ph))) in
          if sz1 =? 0 then ret (inl sz)
          else if negb (ph_vaddr ph mod PGSIZE =? 0) then ret (inl sz1)
          else
            let! r := loadseg pagetable (ph_vaddr ph) ip (u32 (ph_off ph)) (u32 (ph_filesz ph)) in
            if r <? 0 then ret (inl sz1)
            else load_segments k' ip pagetable next sz1
  end.

(** Push the argument strings; [None] is [goto bad]. *)
Fixpoint push_args (argv : list (list Z)) (pagetable stackbase argc sp : Z) (ustack : list Z)
    : M sys (option (Z * list Z)) :=
  match argv with
  | [] => ret (Some (sp, ustack))
  | a :: argv' =>
      if MAXARG <=? argc then ret None
      else
        let sp := push_arg sp (Z.of_nat (length a)) in
        if sp <? stackbase then ret None
        else
          let! r := in_kmem (copyout pagetable sp (a ++ [0]) (Z.of_nat (length a) + 1)) in
          if r <? 0 then ret None
          else push_args argv' pagetable stackbase (argc + 1) sp (ustack ++ [sp])
  end.

(** [bad:] *)
Definition exec_bad (pid pagetable sz : Z) (ip : option nat) : M sys Z :=
  (if pagetable =? 0 then ret tt else in_kmem (proc_freepagetable kend pagetable sz)) ;;;
  match ip with
  | Some ip => fsop (iunlockput pid ip) ;;; in_k end_op
  | None => ret tt
  end ;;;
  ret (-1).

(** The second half: the stack, the registers and the switch to the new
    address space. *)
Definition exec_stack (me : nat) (path : list Z) (argv : list (list Z)) (entry pagetable sz : Z) : M sys Z :=
  let! p := gets (fun s => getpr s me) in
  let sz := PGROUNDUP sz in
  let! sz1 := in_kmem (uvmalloc kend pagetable sz (u64 (sz + 2 * PGSIZE))) in
  if sz1 =? 0 then exec_bad (pr_pid p) pagetable sz None
  else
    in_kmem (uvmclear pagetable (u64 (sz1 - 2 * PGSIZE))) ;;;
    let stackbase := u64 (sz1 - PGSIZE) in
    let! r := push_args argv pagetable stackbase 0 sz1 [] in
    match r with
    | None => exec_bad (pr_pid p) pagetable sz1 None
    | Some (sp, ustack) =>
        let argc := Z.of_nat (length argv) in
        let sp := u64 (sp - (argc + 1) * 8) in
        let sp := u64 (sp - sp mod 16) in
        if sp <? stackbase then exec_bad (pr_pid p) pagetable sz1 None
        else
          let! r := in_kmem (copyout pagetable sp (word_bytes (ustack ++ [0])) ((argc + 1) * 8)) in
          if r <? 0 then exec_bad (pr_pid p) pagetable sz1 None
          else
            in_kmem (tf_set (pr_trapframe p) tf_a1 sp) ;;;
            setpr me (fun q => set_name (name_copy (pr_name q) (last_elem path path)) q) ;;;
            setpr me (fun q => set_sz sz1 (set_pagetable pagetable q)) ;;;
            in_kmem (tf_set (pr_trapframe p) tf_epc entry) ;;;
            in_kmem (tf_set (pr_trapframe p) tf_sp sp) ;;;
            in_kmem (proc_freepagetable kend (pr_pagetable p) (pr_sz p)) ;;;
            ret argc
    end.

Definition exec (me : nat) (path : list Z) (argv : list (list Z)) : M sys Z :=
  let! p := gets (fun s => getpr s me) in
  in_k begin_op ;;;
  let! cwd := cwd_of p in
  let! ip := fsop (namei (pr_pid p) cwd path) in
  match ip with
  | None => in_k end_op ;;; ret (-1)
  | Some ip =>
      fsop (ilock (pr_pid p) ip) ;;;
      let! '(r, bs) := fsop (readi ip KernDst 0 SIZEOF_ELFHDR) in
      let elf := get_elfhdr bs in
      if negb (r =? SIZEOF_ELFHDR) then exec_bad (pr_pid p) 0 0 (Some ip)
      else if negb (e_magic elf =? ELF_MAGIC) then exec_bad (pr_pid p) 0 0 (Some ip)
      else
        let! pagetable := in_kmem (proc_pagetable kend trampoline (pr_trapframe p)) in
        if pagetable =? 0 then exec_bad (pr_pid p) 0 0 (Some ip)
        else
          let! r := load_segments (Z.to_nat (e_phnum elf)) ip pagetable (s32 (e_phoff elf)) 0 in
          match r with
          | inl sz => exec_bad (pr_pid p) pagetable sz (Some ip)
          | inr sz =>
              fsop (iunlockput (pr_pid p) ip) ;;;
              in_k end_op ;;;
              exec_stack me path argv (e_entry elf) pagetable sz
          end
  end.

End exec.
