(* ===== verification/Sysfile.v ===== *)
(** * kernel/sysfile.c, kernel/fcntl.h and the dispatch of kernel/syscall.c

    The file system calls.  Each runs in the process [me] and ends at its
    return or where it sleeps; a result -1 is returned as -1 and stored in a0
    as a 64-bit word by [syscall]. *)

From S2P Require Import Prelude Riscv Mem KString Kalloc Vm Uvm Ucopy Usermem.
From S2P Require Import Pipe Bio Layout Log Txn Fs Printf File Procs Proc Syscall Exec.

Definition O_RDONLY : Z := 0x000.
Definition O_WRONLY : Z := 0x001.
Definition O_RDWR : Z := 0x002.
Definition O_CREATE : Z := 0x200.
Definition O_TRUNC : Z := 0x400.

Definition DOT : list Z := zstr ".".
Definition DOTDOT : list Z := zstr "..".

Section sysfile.
Context {S Dv : Type} `{Blocks S} `{LogOps S} `{Devices Dv}.
Context (kend trampoline forkret : Z).

Abbreviation sys := (sys (S := S) (Dv := Dv)).
Implicit Types s : sys.

Definition me_proc (me : nat) : M sys proc := gets (fun s => getpr s me).

(** The descriptor and the file; [None] is -1. *)
Definition argfd (me : nat) (n : Z) : M sys (option (Z * nat)) :=
  let! fd := argint me n in
  let! p := me_proc me in
  if (fd <? 0) || (NOFILE <=? fd) then ret None
  else
    match pr_ofile p !! Z.to_nat fd with
    | Some (Some f) => ret (Some (fd, f))
    | _ => ret None
    end.

Fixpoint free_fd (l : list (option nat)) (fd : nat) : option nat :=
  match l with
  | [] => None
  | None :: _ => Some fd
  | Some _ :: l' => free_fd l' (Datatypes.S fd)
  end.

Definition set_fd (me : nat) (fd : nat) (f : option nat) : M sys unit :=
  setpr me (fun p => set_ofile (<[fd := f]> (pr_ofile p)) p).

Definition fdalloc (me : nat) (f : nat) : M sys Z :=
  let! p := me_proc me in
  match free_fd (pr_ofile p) 0 with
  | Some fd => set_fd me fd (Some f) ;;; ret (Z.of_nat fd)
  | None => ret (-1)
  end.

Definition sys_dup (me : nat) : M sys Z :=
  let! r := argfd me 0 in
  match r with
  | None => ret (-1)
  | Some (_, f) =>
      let! fd := fdalloc me f in
      if fd <? 0 then ret (-1) else in_k (filedup f) ;;; ret fd
  end.

Definition sys_read (me : nat) : M sys Z :=
  let! r := argfd me 0 in
  match r with
  | None => ret (-1)
  | Some (_, f) =>
      let! n := argint me 2 in
      let! a := argaddr me 1 in
      let! p := me_proc me in
      in_k (fileread (pr_pid p) (pr_pagetable p) (pr_killed p) f a n)
  end.

Definition sys_write (me : nat) : M sys Z :=
  let! r := argfd me 0 in
  match r with
  | None => ret (-1)
  | Some (_, f) =>
      let! n := argint me 2 in
      let! a := argaddr me 1 in
      let! p := me_proc me in
      in_k (filewrite (pr_pid p) (pr_pagetable p) (pr_killed p) f a n)
  end.

Definition sys_close (me : nat) : M sys Z :=
  let! r := argfd me 0 in
  match r with
  | None => ret (-1)
  | Some (fd, f) =>
      set_fd me (Z.to_nat fd) None ;;;
      let! p := me_proc me in
      in_k (fileclose kend (pr_pid p) f) ;;;
      ret 0
  end.

Definition sys_fstat (me : nat) : M sys Z :=
  let! r := argfd me 0 in
  match r with
  | None => ret (-1)
  | Some (_, f) =>
      let! st := argaddr me 1 in
      let! p := me_proc me in
      in_k (filestat (pr_pid p) (pr_pagetable p) f st)
  end.

(** [ip->nlink++] and [ip->nlink--], on a [short]. *)
Definition add_nlink (ip : nat) (d : Z) : M sys unit :=
  fsop (seti ip (fun i => with_inlink (s16 (i_nlink i + d)) i)).

Definition the_inode (ip : nat) : M sys inode := fsop (gets (fun f => geti f ip)).

(** [bad:] of [sys_link] *)
Definition link_bad (pid : Z) (ip : nat) : M sys Z :=
  fsop (ilock pid ip) ;;;
  add_nlink ip (-1) ;;;
  fsop (iupdate ip) ;;;
  fsop (iunlockput pid ip) ;;;
  in_k end_op ;;;
  ret (-1).

Definition sys_link (me : nat) : M sys Z :=
  let! '(r0, old) := argstr me 0 MAXPATH in
  if r0 <? 0 then ret (-1)
  else
    let! '(r1, new) := argstr me 1 MAXPATH in
    if r1 <? 0 then ret (-1)
    else
      let! p := me_proc me in
      let! cwd := cwd_of p in
      let pid := pr_pid p in
      in_k begin_op ;;;
      let! r := fsop (namei pid cwd (cstr old)) in
      match r with
      | None => in_k end_op ;;; ret (-1)
      | Some ip =>
          fsop (ilock pid ip) ;;;
          let! i := the_inode ip in
          if i_type i =? T_DIR then fsop (iunlockput pid ip) ;;; in_k end_op ;;; ret (-1)
          else
            add_nlink ip 1 ;;;
            fsop (iupdate ip) ;;;
            fsop (iunlock pid ip) ;;;
            let! '(dp, name) := fsop (nameiparent pid cwd (cstr new)) in
            match dp with
            | None => link_bad pid ip
            | Some dp =>
                fsop (ilock pid dp) ;;;
                let! d := the_inode dp in
                let! i := the_inode ip in
                if negb (i_dev d =? i_dev i) then fsop (iunlockput pid dp) ;;; link_bad pid ip
                else
                  let! r := fsop (dirlink pid dp name (i_inum i)) in
                  if r <? 0 then fsop (iunlockput pid dp) ;;; link_bad pid ip
                  else
                    fsop (iunlockput pid dp) ;;;
                    fsop (iput pid ip) ;;;
                    in_k end_op ;;;
                    ret 0
            end
      end.

(** The loop of [isdirempty] from offset [off]. *)
Fixpoint isdirempty_loop (fuel : nat) (dp : nat) (off : Z) : M sys bool :=
  let! d := the_inode dp in
  if off <? i_size d then
    match fuel with
    | O => out_of_fuel
    | Datatypes.S fuel' =>
        let! '(r, bs) := fsop (readi dp KernDst off SIZEOF_DIRENT) in
        if negb (r =? SIZEOF_DIRENT) then panic "isdirempty: readi"
        else if negb (de_inum (get_dirent bs) =? 0) then ret false
        else isdirempty_loop fuel' dp (u32 (off + SIZEOF_DIRENT))
    end
  else ret true.

Definition isdirempty (dp : nat) : M sys bool :=
  let! d := the_inode dp in
  isdirempty_loop (dir_fuel (i_size d)) dp (2 * SIZEOF_DIRENT).

(** [bad:] of [sys_unlink] *)
Definition unlink_bad (pid : Z) (dp : nat) : M sys Z :=
  fsop (iunlockput pid dp) ;;; in_k end_op ;;; ret (-1).

Definition sys_unlink (me : nat) : M sys Z :=
  let! '(r0, path) := argstr me 0 MAXPATH in
  if r0 <? 0 then ret (-1)
  else
    let! p := me_proc me in
    let! cwd := cwd_of p in
    let pid := pr_pid p in
    in_k begin_op ;;;
    let! '(dp, name) := fsop (nameiparent pid cwd (cstr path)) in
    match dp with
    | None => in_k end_op ;;; ret (-1)
    | Some dp =>
        fsop (ilock pid dp) ;;;
        if (namecmp name DOT =? 0) || (namecmp name DOTDOT =? 0) then unlink_bad pid dp
        else
          let! r := fsop (dirlookup dp name) in
          match r with
          | None => unlink_bad pid dp
          | Some (ip, off) =>
              fsop (ilock pid ip) ;;;
              let! i := the_inode ip in
              if i_nlink i <? 1 then panic "unlink: nlink < 1"
              else
                let! busy := (if i_type i =? T_DIR then let! e := isdirempty ip in ret (negb e) else ret false) in
                if busy : bool then fsop (iunlockput pid ip) ;;; unlink_bad pid dp
                else
                  let! r := fsop (writei dp (KernSrc (replicate 16 0)) off SIZEOF_DIRENT) in
                  if negb (r =? SIZEOF_DIRENT) then panic "unlink: writei"
                  else
                    (if i_type i =? T_DIR then add_nlink dp (-1) ;;; fsop (iupdate dp) else ret tt) ;;;
                    fsop (iunlockput pid dp) ;;;
                    add_nlink ip (-1) ;;;
                    fsop (iupdate ip) ;;;
                    fsop (iunlockput pid ip) ;;;
                    in_k end_op ;;;
                    ret 0
          end
    end.

(** The locked inode, or [None] for 0. *)
Definition create (me : nat) (path : list Z) (type major minor : Z) : M sys (option nat) :=
  let! p := me_proc me in
  let! cwd := cwd_of p in
  let pid := pr_pid p in
  let! '(dp, name) := fsop (nameiparent pid cwd path) in
  match dp with
  | None => ret None
  | Some dp =>
      fsop (ilock pid dp) ;;;
      let! r := fsop (dirlookup dp name) in
      match r with
      | Some (ip, _) =>
          fsop (iunlockput pid dp) ;;;
          fsop (ilock pid ip) ;;;
          let! i := the_inode ip in
          if (type =? T_FILE) && ((i_type i =? T_FILE) || (i_type i =? T_DEVICE)) then ret (Some ip)
          else fsop (iunlockput pid ip) ;;; ret None
      | None =>
          let! d := the_inode dp in
          let! ip := fsop (ialloc (i_dev d) type) in
          fsop (ilock pid ip) ;;;
          fsop (seti ip (fun i => with_inlink 1 (with_dev_nums (s16 major) (s16 minor) i))) ;;;
          fsop (iupdate ip) ;;;
          let! i := the_inode ip in
          (if type =? T_DIR then
             add_nlink dp 1 ;;;
             fsop (iupdate dp) ;;;
             let! r := fsop (dirlink pid ip DOT (i_inum i)) in
             if r <? 0 then panic "create dots"
             else
               let! r := fsop (dirlink pid ip DOTDOT (i_inum d)) in
               if r <? 0 then panic "create dots" else ret tt
           else ret tt) ;;;
          let! r := fsop (dirlink pid dp name (i_inum i)) in
          if r <? 0 then panic "create: dirlink"
          else fsop (iunlockput pid dp) ;;; ret (Some ip)
      end
  end.

Definition flag (omode bit : Z) : bool := negb (Z.land omode bit =? 0).

(** The fields [sys_open] sets. *)
Definition open_file (i : inode) (ip : nat) (omode : Z) (f : file) : file :=
  let rd := negb (flag omode O_WRONLY) in
  let wr := flag omode O_WRONLY || flag omode O_RDWR in
  if i_type i =? T_DEVICE then File FD_DEVICE (fl_ref f) rd wr (fl_pipe f) ip (fl_off f) (i_major i)
  else File FD_INODE (fl_ref f) rd wr (fl_pipe f) ip 0 (fl_major f).

(** [sys_open] from the locked inode on. *)
Definition open_inode (me : nat) (pid : Z) (ip : nat) (omode : Z) : M sys Z :=
  let! i := the_inode ip in
  if (i_type i =? T_DEVICE) && ((i_major i <? 0) || (NDEV <=? i_major i)) then
    fsop (iunlockput pid ip) ;;; in_k end_op ;;; ret (-1)
  else
    let! f := in_k filealloc in
    match f with
    | None => fsop (iunlockput pid ip) ;;; in_k end_op ;;; ret (-1)
    | Some f =>
        let! fd := fdalloc me f in
        if fd <? 0 then
          in_k (fileclose kend pid f) ;;; fsop (iunlockput pid ip) ;;; in_k end_op ;;; ret (-1)
        else
          in_k (setf f (open_file i ip omode)) ;;;
          (if flag omode O_TRUNC && (i_type i =? T_FILE) then fsop (itrunc ip) else ret tt) ;;;
          fsop (iunlock pid ip) ;;;
          in_k end_op ;;;
          ret fd
    end.

Definition sys_open (me : nat) : M sys Z :=
  let! '(n, path) := argstr me 0 MAXPATH in
  if n <? 0 then ret (-1)
  else
    let! omode := argint me 1 in
    let! p := me_proc me in
    let! cwd := cwd_of p in
    let pid := pr_pid p in
    in_k begin_op ;;;
    if flag omode O_CREATE then
      let! r := create me (cstr path) T_FILE 0 0 in
      match r with
      | None => in_k end_op ;;; ret (-1)
      | Some ip => open_inode me pid ip omode
      end
    else
      let! r := fsop (namei pid cwd (cstr path)) in
      match r with
      | None => in_k end_op ;;; ret (-1)
      | Some ip =>
          fsop (ilock pid ip) ;;;
          let! i := the_inode ip in
          if (i_type i =? T_DIR) && negb (omode =? O_RDONLY) then
            fsop (iunlockput pid ip) ;;; in_k end_op ;;; ret (-1)
          else open_inode me pid ip omode
      end.

(** The common end of [sys_mkdir] and [sys_mknod]. *)
Definition made (pid : Z) (r : option nat) : M sys Z :=
  match r with
  | None => in_k end_op ;;; ret (-1)
  | Some ip => fsop (iunlockput pid ip) ;;; in_k end_op ;;; ret 0
  end.

Definition sys_mkdir (me : nat) : M sys Z :=
  let! p := me_proc me in
  in_k begin_op ;;;
  let! '(n, path) := argstr me 0 MAXPATH in
  if n <? 0 then in_k end_op ;;; ret (-1)
  else
    let! r := create me (cstr path) T_DIR 0 0 in
    made (pr_pid p) r.

Definition sys_mknod (me : nat) : M sys Z :=
  let! p := me_proc me in
  in_k begin_op ;;;
  let! '(n, path) := argstr me 0 MAXPATH in
  if n <? 0 then in_k end_op ;;; ret (-1)
  else
    let! major := argint me 1 in
    let! minor := argint me 2 in
    let! r := create me (cstr path) T_DEVICE major minor in
    made (pr_pid p) r.

Definition sys_chdir (me : nat) : M sys Z :=
  let! p := me_proc me in
  let! cwd := cwd_of p in
  let pid := pr_pid p in
  in_k begin_op ;;;
  let! '(n, path) := argstr me 0 MAXPATH in
  if n <? 0 then in_k end_op ;;; ret (-1)
  else
    let! r := fsop (namei pid cwd (cstr path)) in
    match r with
    | None => in_k end_op ;;; ret (-1)
    | Some ip =>
        fsop (ilock pid ip) ;;;
        let! i := the_inode ip in
        if negb (i_type i =? T_DIR) then fsop (iunlockput pid ip) ;;; in_k end_op ;;; ret (-1)
        else
          fsop (iunlock pid ip) ;;;
          fsop (iput pid cwd) ;;;
          in_k end_op ;;;
          setpr me (set_cwd (Some ip)) ;;;
          ret 0
    end.

(** The loop of [sys_exec] that copies the argument strings: the pages
    allocated so far, with the strings in them, and whether all were copied.
    A page whose string could not be copied is in the list. *)
Fixpoint fetch_args (k : nat) (me : nat) (uargv i : Z) (argv : list (Z * list Z)) : M sys (bool * list (Z * list Z)) :=
  match k with
  | O => ret (false, argv)
  | Datatypes.S k' =>
      let! '(r, uarg) := fetchaddr me (u64 (uargv + 8 * i)) in
      if r <? 0 then ret (false, argv)
      else if uarg =? 0 then ret (true, argv)
      else
        let! pa := in_kmem kalloc in
        if pa =? 0 then ret (false, argv)
        else
          let! '(r, bs) := fetchstr me uarg PGSIZE in
          if r <? 0 then ret (false, argv ++ [(pa, bs)])
          else fetch_args k' me uargv (i + 1) (argv ++ [(pa, bs)])
  end.

Fixpoint free_args (argv : list (Z * list Z)) : M sys unit :=
  match argv with
  | [] => ret tt
  | (pa, _) :: argv' => in_kmem (kfree kend pa) ;;; free_args argv'
  end.

Definition sys_exec (me : nat) : M sys Z :=
  let! '(n, path) := argstr me 0 MAXPATH in
  if n <? 0 then ret (-1)
  else
    let! uargv := argaddr me 1 in
    let! '(ok, argv) := fetch_args (Z.to_nat MAXARG) me uargv 0 [] in
    if ok : bool then
      let! r := exec kend trampoline me (cstr path) (map (fun a => cstr (a.2)) argv) in
      free_args argv ;;;
      ret r
    else free_args argv ;;; ret (-1).

Definition sys_pipe (me : nat) : M sys Z :=
  let! fdarray := argaddr me 0 in
  let! p := me_proc me in
  let pid := pr_pid p in
  let! r := in_k (pipealloc kend pid) in
  match r with
  | None => ret (-1)
  | Some (rf, wf) =>
      let! fd0 := fdalloc me rf in
      if fd0 <? 0 then in_k (fileclose kend pid rf) ;;; in_k (fileclose kend pid wf) ;;; ret (-1)
      else
        let! fd1 := fdalloc me wf in
        if fd1 <? 0 then
          set_fd me (Z.to_nat fd0) None ;;;
          in_k (fileclose kend pid rf) ;;; in_k (fileclose kend pid wf) ;;; ret (-1)
        else
          let! r0 := in_kmem (copyout (pr_pagetable p) fdarray (le_bytes 4 fd0) 4) in
          let! r1 := (if r0 <? 0 then ret r0
                      else in_kmem (copyout (pr_pagetable p) (u64 (fdarray + 4)) (le_bytes 4 fd1) 4)) in
          if r1 <? 0 then
            set_fd me (Z.to_nat fd0) None ;;;
            set_fd me (Z.to_nat fd1) None ;;;
            in_k (fileclose kend pid rf) ;;; in_k (fileclose kend pid wf) ;;; ret (-1)
          else ret 0
  end.

(** ** [syscall] of kernel/syscall.c *)

Context (context_addr : nat -> Z).

(** The table [syscalls]; [None] is a null entry.  [sys_exit] does not
    return. *)
Definition syscalls (me : nat) (num : Z) : option (M sys Z) :=
  if num =? SYS_fork then Some (sys_fork kend trampoline forkret me)
  else if num =? SYS_exit then Some (sys_exit kend me ;;; ret 0)
  else if num =? SYS_wait then Some (sys_wait kend me)
  else if num =? SYS_pipe then Some (sys_pipe me)
  else if num =? SYS_read then Some (sys_read me)
  else if num =? SYS_kill then Some (sys_kill me)
  else if num =? SYS_exec then Some (sys_exec me)
  else if num =? SYS_fstat then Some (sys_fstat me)
  else if num =? SYS_chdir then Some (sys_chdir me)
  else if num =? SYS_dup then Some (sys_dup me)
  else if num =? SYS_getpid then Some (sys_getpid me)
  else if num =? SYS_sbrk then Some (sys_sbrk kend me)
  else if num =? SYS_sleep then Some (sys_sleep me)
  else if num =? SYS_uptime then Some sys_uptime
  else if num =? SYS_open then Some (sys_open me)
  else if num =? SYS_write then Some (sys_write me)
  else if num =? SYS_mknod then Some (sys_mknod me)
  else if num =? SYS_unlink then Some (sys_unlink me)
  else if num =? SYS_link then Some (sys_link me)
  else if num =? SYS_mkdir then Some (sys_mkdir me)
  else if num =? SYS_close then Some (sys_close me)
  else if num =? SYS_rename then Some (sys_rename me)
  else if num =? SYS_yield then Some (sys_yield context_addr me)
  else None.

Definition fmt_unknown : list Z := zstr "%d %s: unknown sys call %d" ++ [10].

Definition syscall (me : nat) : M sys unit :=
  let! p := me_proc me in
  let! a7 := in_kmem (tf_get (pr_trapframe p) tf_a7) in
  let num := s32 a7 in
  match (if 0 <? num then syscalls me num else None) with
  | Some f =>
      let! r := f in
      in_kmem (tf_set (pr_trapframe p) tf_a0 (u64 r))
  | None =>
      print (default [] (print_fmt (fun _ => cstr (pr_name p)) fmt_unknown [pr_pid p; 1; num])) ;;;
      in_kmem (tf_set (pr_trapframe p) tf_a0 (u64 (-1)))
  end.

End sysfile.
