(* ===== verification/Frames.v ===== *)
(** * What the system calls leave alone

    [kframe]: a function of the file layer changes no reference count of the
    file table; [sframe]: a function of the kernel changes no reference count
    and no descriptor of a process, and no process ends.  Most functions are
    framed, which is proved by walking through their code; [filealloc],
    [filedup] and [fileclose] change one count by one. *)

From S2P Require Import Prelude Riscv Mem KString Kalloc Vm Uvm Ucopy Usermem.
From S2P Require Import Pipe Bio Layout Log Txn Fs Printf File Procs Proc Syscall Exec Sysfile.

Section fdref.
Context {S Dv : Type} {HB : Blocks S} {HL : LogOps S} {HDv : Devices Dv}.
Context (kend trampoline forkret : Z) (context_addr : nat -> Z).

Abbreviation sys := (sys (S := S) (Dv := Dv)).
Abbreviation kst := (kst (S := S) (Dv := Dv)).
Implicit Types (s : sys) (k : kst).

(** ** The file layer *)

Definition krefs k (f : nat) : Z := fl_ref (getf k f).

Definition kframe k k' : Prop := forall f, krefs k' f = krefs k f.
#[export] Instance kframe_preorder : PreOrder kframe.
Proof. split; [done | intros k1 k2 k3 H1 H2 f; by rewrite H2]. Qed.

(** Counts with [d] added to the entry [f]. *)
Definition shifted k (f : nat) (d : Z) k' : Prop :=
  forall g, krefs k' g = krefs k g + (if decide (g = f) then d else 0).

Lemma krefs_setf k f h : (f < length (ks_files k))%nat ->
  forall g, krefs (Kst (ks_fs k) (alter h f (ks_files k)) (ks_pipes k) (ks_dev k) (ks_woken k)) g =
    if decide (g = f) then fl_ref (h (getf k f)) else krefs k g.
Proof.
  intros Hf g. unfold krefs, getf; cbn. destruct (decide (g = f)) as [->|Hg].
  - apply lookup_lt_is_Some in Hf as [x Hx]. by rewrite list_lookup_alter_eq, Hx.
  - by rewrite list_lookup_alter_ne.
Qed.

Lemma getf_live k f : krefs k f <> 0 -> (f < length (ks_files k))%nat.
Proof.
  unfold krefs, getf. intros Hr. destruct (ks_files k !! f) eqn:E; [by eapply lookup_lt_Some | done].
Qed.

Lemma free_slot_spec l i j : free_slot l i = Some j -> (i <= j)%nat /\ exists f, l !! (j - i)%nat = Some f /\ fl_ref f = 0.
Proof.
  revert i. induction l as [|f l IH]; intros i; cbn [free_slot]; [done |].
  destruct (Z.eqb_spec (fl_ref f) 0) as [E|E].
  - intros [= ->]. split; [lia |]. exists f. by rewrite Nat.sub_diag.
  - intros Hj%IH. destruct Hj as (Hle & g & Hg & Hr). split; [lia |]. exists g.
    replace (j - i)%nat with (Datatypes.S (j - Datatypes.S i)) by lia. done.
Qed.

Lemma wlp_filealloc k : wlp filealloc (fun r k' =>
  match r with Some i => krefs k i = 0 /\ shifted k i 1 k' | None => k' = k end) k.
Proof.
  unfold filealloc. apply wlp_bind, wlp_gets. destruct (free_slot (ks_files k) 0) as [i|] eqn:E; [| by apply wlp_ret].
  apply free_slot_spec in E as (_ & f & Hf & Hr). rewrite Nat.sub_0_r in Hf.
  assert (krefs k i = 0) as Hk by (unfold krefs, getf; by rewrite Hf).
  apply wlp_bind, wlp_modify, wlp_ret. split; [done |]. intros g.
  rewrite krefs_setf by (by eapply lookup_lt_Some). destruct (decide (g = i)) as [->|]; [cbn; lia | lia].
Qed.

Lemma wlp_filedup f k : wlp (filedup f) (fun r k' => r = f /\ shifted k f 1 k') k.
Proof.
  unfold filedup. apply wlp_bind, wlp_gets. destruct (Z.ltb_spec (fl_ref (getf k f)) 1) as [|Hr]; [by apply wlp_intro |].
  apply wlp_bind, wlp_modify, wlp_ret. split; [done |]. intros g.
  rewrite krefs_setf by (apply getf_live; unfold krefs; lia). destruct (decide (g = f)) as [->|]; unfold krefs; cbn; lia.
Qed.

Lemma keeps_in_fs {A} (m : M (fst (S := S) (U := kmem)) A) : keeps kframe (in_fs m).
Proof. by apply keeps_zoom. Qed.
Lemma keeps_in_mem {A} (m : M kmem A) : keeps kframe (in_mem m).
Proof. apply keeps_in_fs. Qed.
Lemma keeps_in_dev {A} (m : M (Dv * kmem) A) : keeps kframe (in_dev m).
Proof. apply keeps_zoom. by intros s a [d u] _. Qed.
Lemma keeps_in_pipe {A} pi (m : M (pst (U := kmem)) A) : keeps kframe (in_pipe pi m).
Proof. by apply keeps_zoom. Qed.
Lemma keeps_setf f h : (forall x, fl_ref (h x) = fl_ref x) -> keeps kframe (setf f h).
Proof.
  intros Hh k a k' [= _ <-] g. unfold krefs, getf; cbn. destruct (decide (g = f)) as [->|Hg].
  - rewrite list_lookup_alter_eq. by destruct (ks_files k !! f); cbn.
  - by rewrite list_lookup_alter_ne.
Qed.
Lemma keeps_modify_pipes (h : gmap Z pipe -> gmap Z pipe) :
  keeps kframe (modify (fun k : kst => Kst (ks_fs k) (ks_files k) (h (ks_pipes k)) (ks_dev k) (ks_woken k))).
Proof. by apply keeps_modify. Qed.

#[local] Hint Resolve keeps_in_fs keeps_in_mem keeps_in_dev keeps_in_pipe keeps_modify_pipes : keeps.
#[local] Hint Extern 1 (keeps kframe (setf _ (with_off _))) => apply keeps_setf; done : keeps.
#[local] Hint Extern 1 (keeps kframe begin_op) => apply keeps_in_fs : keeps.
#[local] Hint Extern 1 (keeps kframe end_op) => apply keeps_in_fs : keeps.

Lemma keeps_close_pipe pi w : keeps kframe (close_pipe kend pi w).
Proof. unfold close_pipe. keeps_tac. Qed.
#[local] Hint Resolve keeps_close_pipe : keeps.

Lemma wlp_fileclose pid f k : wlp (fileclose kend pid f) (fun _ k' => krefs k f >= 1 /\ shifted k f (-1) k') k.
Proof.
  unfold fileclose. apply wlp_bind, wlp_gets. destruct (Z.ltb_spec (fl_ref (getf k f)) 1) as [|Hr]; [by apply wlp_intro |].
  assert (f < length (ks_files k))%nat as Hf by (apply getf_live; unfold krefs; lia).
  destruct (Z.ltb_spec 0 (fl_ref (getf k f) - 1)).
  { apply wlp_modify. split; [unfold krefs; lia |]. intros g. rewrite krefs_setf by done.
    destruct (decide (g = f)) as [->|]; unfold krefs; cbn; lia. }
  apply wlp_bind, wlp_modify. set (k1 := Kst _ _ _ _ _).
  assert (shifted k f (-1) k1) as H1.
  { intros g. unfold k1. rewrite krefs_setf by done. destruct (decide (g = f)) as [->|]; unfold krefs; cbn; lia. }
  apply wlp_intro. intros a k' Hk'. split; [unfold krefs; lia |].
  assert (kframe k1 k') as HK by (refine ((_ : keeps kframe _) k1 a k' Hk'); keeps_tac).
  intros g. by rewrite HK.
Qed.

Lemma keeps_filestat pid pt f a : keeps kframe (filestat pid pt f a).
Proof. unfold filestat. keeps_tac. Qed.
Lemma keeps_fileread pid pt kl f a n : keeps kframe (fileread pid pt kl f a n).
Proof. unfold fileread. keeps_tac. Qed.
Lemma keeps_filewrite_loop fuel pid pt f a n i : keeps kframe (filewrite_loop fuel pid pt f a n i).
Proof. revert i. induction fuel as [|fuel IH]; intros i; cbn [filewrite_loop]; keeps_tac. Qed.
#[local] Hint Resolve keeps_filewrite_loop : keeps.
Lemma keeps_filewrite pid pt kl f a n : keeps kframe (filewrite pid pt kl f a n).
Proof. unfold filewrite. keeps_tac. Qed.
#[local] Hint Resolve keeps_filestat keeps_fileread keeps_filewrite : keeps.

(** ** The process table *)

Definition dead (p : proc) : Prop := pr_state p = UNUSED \/ pr_state p = ZOMBIE.

Definition fds s : list (list (option nat)) := map pr_ofile (y_procs s).

Record sframe s s' : Prop := SFrame {
  sf_refs : kframe (y_k s) (y_k s');
  sf_fds : fds s' = fds s;
  sf_dead : forall i, dead (getpr s' i) -> dead (getpr s i);
}.
#[export] Instance sframe_preorder : PreOrder sframe.
Proof.
  split; [done |]. intros s1 s2 s3 [A1 B1 C1] [A2 B2 C2]. split; [by transitivity (y_k s2) | by rewrite B2 | auto].
Qed.

Lemma getpr_lookup s i p : y_procs s !! i = Some p -> getpr s i = p.
Proof. intros Hi. unfold getpr. by rewrite Hi. Qed.

Lemma wake_procs_frame c l :
  map pr_ofile (wake_procs c l) = map pr_ofile l /\
  forall i, dead (default proc0 (wake_procs c l !! i)) -> dead (default proc0 (l !! i)).
Proof.
  split.
  - unfold wake_procs. rewrite map_map. apply map_ext. intros p. by destruct (_ && _).
  - intros i. unfold wake_procs. rewrite list_lookup_fmap. destruct (l !! i) as [p|]; cbn; [| done].
    destruct (_ && _); [| done]. intros [E|E]; discriminate E.
Qed.

Lemma deliver_procs k s : fds (deliver k s) = fds s /\ forall i, dead (getpr (deliver k s) i) -> dead (getpr s i).
Proof.
  destruct s as [k0 l ip np t o]. unfold deliver, fds, getpr; cbn.
  induction (ks_woken k) as [|c cs [IH1 IH2]]; cbn [foldr]; [done |].
  destruct (wake_procs_frame c (foldr wake_procs l cs)) as [E1 E2]. split; [by rewrite E1 | auto].
Qed.

Lemma deliver_frame k s : kframe (y_k s) k -> sframe s (deliver k s).
Proof. intros Hk. destruct (deliver_procs k s) as [E1 E2]. by split. Qed.

Lemma keeps_in_k {A} (m : M kst A) : keeps kframe m -> keeps sframe (in_k m).
Proof. intros Hm. apply keeps_zoom. intros s a k Hr. apply deliver_frame. by eapply Hm. Qed.
Lemma keeps_fsop {A} (m : M (fst (S := S) (U := kmem)) A) : keeps sframe (fsop m).
Proof. apply keeps_in_k, keeps_in_fs. Qed.
Lemma keeps_in_kmem {A} (m : M kmem A) : keeps sframe (in_kmem m).
Proof. apply keeps_in_k, keeps_in_mem. Qed.

Lemma keeps_setpr p h : (forall q, pr_ofile (h q) = pr_ofile q /\ (dead (h q) -> dead q)) -> keeps sframe (setpr p h).
Proof.
  intros Hh. apply keeps_modify. intros s. split; [done | |].
  - unfold fds; cbn. apply list_eq. intros i. rewrite !list_lookup_fmap. destruct (decide (i = p)) as [->|Hi].
    + rewrite list_lookup_alter_eq. destruct (y_procs s !! p); cbn; [by rewrite (proj1 (Hh _)) | done].
    + by rewrite list_lookup_alter_ne.
  - intros i. unfold getpr; cbn. destruct (decide (i = p)) as [->|Hi].
    + rewrite list_lookup_alter_eq. destruct (y_procs s !! p); cbn; [apply Hh | done].
    + by rewrite list_lookup_alter_ne.
Qed.

Lemma keeps_sys_modify (h : sys -> sys) :
  (forall s, y_k (h s) = y_k s /\ y_procs (h s) = y_procs s) -> keeps sframe (modify h).
Proof.
  intros Hh. apply keeps_modify. intros s. destruct (Hh s) as [E1 E2].
  split; [by rewrite E1 | unfold fds; by rewrite E2 | intros i; unfold getpr; by rewrite E2].
Qed.

Ltac setpr_frame := apply keeps_setpr; intros q; split; [done | cbn; try done; by intros [? | ?]].

#[local] Hint Resolve keeps_in_k keeps_fsop keeps_in_kmem : keeps.
#[local] Hint Extern 2 (keeps sframe (setpr _ _)) => setpr_frame : keeps.
#[local] Hint Extern 2 (keeps sframe (modify _)) => apply keeps_sys_modify; done : keeps.
#[local] Hint Extern 2 (keeps sframe (print _)) => apply keeps_sys_modify; done : keeps.

Lemma keeps_wakeup1 h p : keeps sframe (wakeup1 (S := S) (Dv := Dv) h p).
Proof. unfold wakeup1. keeps_tac. Qed.
Lemma keeps_allocpid : keeps sframe (allocpid (S := S) (Dv := Dv)).
Proof. unfold allocpid. keeps_tac. Qed.
Lemma keeps_cwd_of p : keeps sframe (cwd_of (S := S) (Dv := Dv) p).
Proof. unfold cwd_of. keeps_tac. Qed.
Lemma keeps_growproc me n : keeps sframe (growproc kend me n).
Proof. unfold growproc. keeps_tac. Qed.
Lemma keeps_exit_info f a (x y : list Z) : keeps sframe (exit_info (S := S) (Dv := Dv) f a x y).
Proof. unfold exit_info. keeps_tac. Qed.
#[local] Hint Resolve keeps_wakeup1 keeps_allocpid keeps_cwd_of keeps_growproc keeps_exit_info : keeps.
Lemma keeps_report_children l p pid i : keeps sframe (report_children (S := S) (Dv := Dv) l p pid i).
Proof. revert i. induction l as [|q l IH]; intros i; cbn [report_children]; keeps_tac. Qed.
Lemma keeps_kill pid : keeps sframe (kill (S := S) (Dv := Dv) pid).
Proof. unfold kill. keeps_tac. Qed.
Lemma keeps_reparent p : keeps sframe (reparent (S := S) (Dv := Dv) p).
Proof.
  unfold reparent. apply keeps_bind; [apply _ | keeps_tac |]. intros init. apply keeps_modify. intros s. split; [done | |].
  - unfold fds; cbn. rewrite map_map. apply map_ext. intros q. by destruct (bool_decide _).
  - intros i. unfold getpr; cbn. rewrite list_lookup_fmap. destruct (y_procs s !! i) as [q|]; cbn; [| done].
    by destruct (bool_decide _).
Qed.
#[local] Hint Resolve keeps_report_children keeps_kill keeps_reparent : keeps.

Lemma keeps_fetchaddr me a : keeps sframe (fetchaddr (S := S) (Dv := Dv) me a).
Proof. unfold fetchaddr. keeps_tac. Qed.
Lemma keeps_fetchstr me a max : keeps sframe (fetchstr (S := S) (Dv := Dv) me a max).
Proof. unfold fetchstr. keeps_tac. Qed.
Lemma keeps_argraw me n : keeps sframe (argraw (S := S) (Dv := Dv) me n).
Proof. unfold argraw. keeps_tac. Qed.
#[local] Hint Resolve keeps_fetchaddr keeps_fetchstr keeps_argraw : keeps.
Lemma keeps_argint me n : keeps sframe (argint (S := S) (Dv := Dv) me n).
Proof. unfold argint. keeps_tac. Qed.
Lemma keeps_argstr me n max : keeps sframe (argstr (S := S) (Dv := Dv) me n max).
Proof. unfold argstr, argaddr. keeps_tac. Qed.
Lemma keeps_printk f a : keeps sframe (printk (S := S) (Dv := Dv) f a).
Proof. unfold printk. keeps_tac. Qed.
#[local] Hint Resolve keeps_argint keeps_argstr keeps_printk : keeps.
#[local] Hint Extern 2 (keeps sframe (argaddr _ _)) => apply keeps_argraw : keeps.

Lemma keeps_loadseg_loop fuel pt va ip off sz i : keeps sframe (loadseg_loop (S := S) (Dv := Dv) fuel pt va ip off sz i).
Proof. revert i. induction fuel as [|fuel IH]; intros i; cbn [loadseg_loop]; keeps_tac. Qed.
#[local] Hint Resolve keeps_loadseg_loop : keeps.
Lemma keeps_loadseg pt va ip off sz : keeps sframe (loadseg (S := S) (Dv := Dv) pt va ip off sz).
Proof. unfold loadseg. keeps_tac. Qed.
#[local] Hint Resolve keeps_loadseg : keeps.
Lemma keeps_load_segments n ip pt off sz : keeps sframe (load_segments (S := S) (Dv := Dv) kend n ip pt off sz).
Proof. revert off sz. induction n as [|n IH]; intros off sz; cbn [load_segments]; keeps_tac. Qed.
Lemma keeps_push_args argv pt sb argc sp us : keeps sframe (push_args (S := S) (Dv := Dv) argv pt sb argc sp us).
Proof. revert argc sp us. induction argv as [|a argv IH]; intros argc sp us; cbn [push_args]; keeps_tac. Qed.
#[local] Hint Extern 2 (keeps kframe end_op) => apply keeps_in_fs : keeps.
#[local] Hint Extern 2 (keeps kframe begin_op) => apply keeps_in_fs : keeps.
Lemma keeps_exec_bad pid pt sz ip : keeps sframe (exec_bad (S := S) (Dv := Dv) kend pid pt sz ip).
Proof. unfold exec_bad. keeps_tac. Qed.
#[local] Hint Resolve keeps_load_segments keeps_push_args keeps_exec_bad : keeps.
Lemma keeps_exec_stack me path argv e pt sz : keeps sframe (exec_stack (S := S) (Dv := Dv) kend me path argv e pt sz).
Proof. unfold exec_stack. keeps_tac. Qed.
#[local] Hint Resolve keeps_exec_stack : keeps.
Lemma keeps_exec me path argv : keeps sframe (exec kend trampoline me path argv).
Proof. unfold exec. keeps_tac. Qed.
#[local] Hint Resolve keeps_exec : keeps.

Lemma keeps_argfd me n : keeps sframe (argfd (S := S) (Dv := Dv) me n).
Proof. unfold argfd, me_proc. keeps_tac. Qed.
Lemma keeps_the_inode ip : keeps sframe (the_inode (S := S) (Dv := Dv) ip).
Proof. apply keeps_fsop. Qed.
Lemma keeps_add_nlink ip d : keeps sframe (add_nlink (S := S) (Dv := Dv) ip d).
Proof. apply keeps_fsop. Qed.
Lemma keeps_me_proc me : keeps sframe (me_proc (S := S) (Dv := Dv) me).
Proof. unfold me_proc. keeps_tac. Qed.
#[local] Hint Resolve keeps_argfd keeps_the_inode keeps_add_nlink keeps_me_proc : keeps.
Lemma keeps_link_bad pid ip : keeps sframe (link_bad (S := S) (Dv := Dv) pid ip).
Proof. unfold link_bad. keeps_tac. Qed.
#[local] Hint Resolve keeps_link_bad : keeps.
Lemma keeps_sys_link me : keeps sframe (sys_link (S := S) (Dv := Dv) me).
Proof. unfold sys_link. keeps_tac. Qed.
Lemma keeps_isdirempty_loop fuel dp off : keeps sframe (isdirempty_loop (S := S) (Dv := Dv) fuel dp off).
Proof. revert off. induction fuel as [|fuel IH]; intros off; cbn [isdirempty_loop]; keeps_tac. Qed.
#[local] Hint Resolve keeps_isdirempty_loop : keeps.
Lemma keeps_isdirempty dp : keeps sframe (isdirempty (S := S) (Dv := Dv) dp).
Proof. unfold isdirempty. keeps_tac. Qed.
Lemma keeps_unlink_bad pid dp : keeps sframe (unlink_bad (S := S) (Dv := Dv) pid dp).
Proof. unfold unlink_bad. keeps_tac. Qed.
#[local] Hint Resolve keeps_isdirempty keeps_unlink_bad : keeps.
Lemma keeps_sys_unlink me : keeps sframe (sys_unlink (S := S) (Dv := Dv) me).
Proof. unfold sys_unlink. keeps_tac. Qed.
Lemma keeps_create me path ty ma mi : keeps sframe (create (S := S) (Dv := Dv) me path ty ma mi).
Proof. unfold create. keeps_tac. Qed.
Lemma keeps_made pid r : keeps sframe (made (S := S) (Dv := Dv) pid r).
Proof. unfold made. keeps_tac. Qed.
#[local] Hint Resolve keeps_create keeps_made : keeps.
Lemma keeps_sys_mkdir me : keeps sframe (sys_mkdir (S := S) (Dv := Dv) me).
Proof. unfold sys_mkdir. keeps_tac. Qed.
Lemma keeps_sys_mknod me : keeps sframe (sys_mknod (S := S) (Dv := Dv) me).
Proof. unfold sys_mknod. keeps_tac. Qed.
Lemma keeps_sys_chdir me : keeps sframe (sys_chdir (S := S) (Dv := Dv) me).
Proof. unfold sys_chdir. keeps_tac. Qed.
Lemma keeps_fetch_args n me ua i av : keeps sframe (fetch_args (S := S) (Dv := Dv) n me ua i av).
Proof. revert i av. induction n as [|n IH]; intros i av; cbn [fetch_args]; keeps_tac. Qed.
Lemma keeps_free_args av : keeps sframe (free_args (S := S) (Dv := Dv) kend av).
Proof. induction av as [|[pa bs] av IH]; cbn [free_args]; keeps_tac. Qed.
#[local] Hint Resolve keeps_fetch_args keeps_free_args : keeps.
Lemma keeps_sys_exec me : keeps sframe (sys_exec kend trampoline me).
Proof. unfold sys_exec. keeps_tac. Qed.
Lemma keeps_sys_read me : keeps sframe (sys_read (S := S) (Dv := Dv) me).
Proof. unfold sys_read. keeps_tac. Qed.
Lemma keeps_sys_write me : keeps sframe (sys_write (S := S) (Dv := Dv) me).
Proof. unfold sys_write. keeps_tac. Qed.
Lemma keeps_sys_fstat me : keeps sframe (sys_fstat (S := S) (Dv := Dv) me).
Proof. unfold sys_fstat. keeps_tac. Qed.
Lemma keeps_sys_sbrk me : keeps sframe (sys_sbrk kend me).
Proof. unfold sys_sbrk. keeps_tac. Qed.
Lemma keeps_sys_sleep me : keeps sframe (sys_sleep (S := S) (Dv := Dv) me).
Proof. unfold sys_sleep, sys_sleep_loop. keeps_tac. Qed.
Lemma keeps_sys_kill me : keeps sframe (sys_kill (S := S) (Dv := Dv) me).
Proof. unfold sys_kill. keeps_tac. Qed.
Lemma keeps_sys_rename me : keeps sframe (sys_rename (S := S) (Dv := Dv) me).
Proof. unfold sys_rename. keeps_tac. Qed.
Lemma keeps_sys_yield me : keeps sframe (sys_yield (S := S) (Dv := Dv) context_addr me).
Proof. unfold sys_yield. keeps_tac. Qed.

End fdref.
