(* ===== verification/Fdref.v ===== *)
(** * Reference counts of open files

    The reference count of every entry of the file table is the number of
    descriptors, over all processes, that point to it.  The difference between
    the two is tracked through the code that changes either ([bal]); every
    system call brings it back to zero. *)

From S2P Require Import Prelude Riscv Mem KString Kalloc Vm Uvm Ucopy Usermem.
From S2P Require Import Pipe Bio Layout Log Txn Fs Printf File Procs Proc Syscall Exec Sysfile Frames.

(** How often [f] occurs among descriptors. *)
Definition cnt (f : nat) (l : list (option nat)) : Z :=
  foldr (fun o z => (if decide (o = Some f) then 1 else 0) + z) 0 l.

Lemma cnt_app f l1 l2 : cnt f (l1 ++ l2) = cnt f l1 + cnt f l2.
Proof. induction l1 as [|o l1 IH]; cbn; [done |]. unfold cnt in *. lia. Qed.

Lemma cnt_insert f l i o o' : l !! i = Some o ->
  cnt f (<[i := o']> l) = cnt f l + (if decide (o' = Some f) then 1 else 0) - (if decide (o = Some f) then 1 else 0).
Proof.
  revert i. induction l as [|x l IH]; intros [|i]; try done.
  - intros [= ->]. cbn. lia.
  - intros Hi. specialize (IH i Hi). change (<[S i := o']> (x :: l)) with (x :: <[i := o']> l).
    unfold cnt in *. cbn [foldr]. lia.
Qed.

Lemma cnt_none f l : Forall (.= None) l -> cnt f l = 0.
Proof. induction 1 as [|o l -> _ IH]; [done |]. cbn [cnt foldr]. rewrite decide_False by done. exact IH. Qed.

(** One row of the table of descriptors is replaced. *)
Lemma cnt_rows f (rows : list (list (option nat))) p l l' : rows !! p = Some l ->
  cnt f (concat (<[p := l']> rows)) = cnt f (concat rows) + cnt f l' - cnt f l.
Proof.
  revert p. induction rows as [|r rows IH]; intros [|p]; try done.
  - intros [= ->]. change (<[0%nat := l']> (l :: rows)) with (l' :: rows). cbn [concat]. rewrite !cnt_app. lia.
  - intros Hp. specialize (IH p Hp). change (<[S p := l']> (r :: rows)) with (r :: <[p := l']> rows).
    cbn [concat]. rewrite !cnt_app. lia.
Qed.

(** [e] with [d] more at [f]. *)
Definition shift (e : nat -> Z) (f : nat) (d : Z) : nat -> Z := fun g => e g + (if decide (g = f) then d else 0).

Section fdref.
Context {S Dv : Type} {HB : Blocks S} {HL : LogOps S} {HDv : Devices Dv}.
Context (kend trampoline forkret : Z) (context_addr : nat -> Z).

Abbreviation sys := (sys (S := S) (Dv := Dv)).
Abbreviation kst := (kst (S := S) (Dv := Dv)).
Implicit Types (s : sys) (k : kst) (e : nat -> Z).

Definition refs s (f : nat) : Z := krefs (y_k s) f.

(** The descriptors of all processes that point to [f]. *)
Definition users s (f : nat) : Z := cnt f (concat (fds s)).

(** Counts exceed descriptors by [e]; [x] is a process that is being created
    and may have descriptors though it is not running yet. *)
Record bal e (x : option nat) s : Prop := Bal {
  bl_count : forall f, refs s f = users s f + e f;
  bl_len : forall i p, y_procs s !! i = Some p -> length (pr_ofile p) = 16%nat;
  bl_dead : forall i, Some i <> x -> dead (getpr s i) -> Forall (.= None) (pr_ofile (getpr s i));
}.

Definition fd_inv s : Prop := bal (fun _ => 0) None s.

Lemma fds_lookup s i : fds s !! i = pr_ofile <$> (y_procs s !! i).
Proof. apply list_lookup_fmap. Qed.

Lemma ofile_getpr s i : pr_ofile (getpr s i) = default (replicate 16 None) (fds s !! i).
Proof. rewrite fds_lookup. unfold getpr. by destruct (y_procs s !! i). Qed.

Lemma bal_frame e x s s' : sframe s s' -> bal e x s -> bal e x s'.
Proof.
  intros [F1 F2 F3] [B1 B2 B3]. split.
  - intros f. unfold refs, users. rewrite F1, F2. apply B1.
  - intros i p Hi. assert (fds s' !! i = Some (pr_ofile p)) as Hf by (by rewrite fds_lookup, Hi).
    rewrite F2, fds_lookup in Hf. destruct (y_procs s !! i) as [q|] eqn:Hq; [| done]. injection Hf as <-. by apply (B2 i).
  - intros i Hx Hd. rewrite ofile_getpr, F2, <- ofile_getpr. auto.
Qed.

Lemma wlp_keeps {A} (m : M sys A) e x s : keeps sframe m -> bal e x s -> wlp m (fun _ => bal e x) s.
Proof. intros Hm B. apply wlp_intro. intros a s' Hr. eapply bal_frame, B. by eapply Hm. Qed.

Lemma bal_ext e e' x s : (forall f, e f = e' f) -> bal e x s -> bal e' x s.
Proof. intros He [B1 B2 B3]. split; [| done | done]. intros f. by rewrite <- He. Qed.

(** A call of the file layer that changes one count. *)
Lemma deliver_shift e x s k f d : shifted (y_k s) f d k -> bal e x s -> bal (shift e f d) x (deliver k s).
Proof.
  intros Hs [B1 B2 B3]. destruct (deliver_procs k s) as [E1 E2]. split.
  - intros g. unfold refs, users. rewrite E1. change (krefs (y_k (deliver k s)) g) with (krefs k g).
    rewrite Hs. specialize (B1 g). unfold refs, users in B1. unfold shift. lia.
  - intros i p Hi. assert (fds (deliver k s) !! i = Some (pr_ofile p)) as Hf by (by rewrite fds_lookup, Hi).
    rewrite E1, fds_lookup in Hf. destruct (y_procs s !! i) as [q|] eqn:Hq; [| done]. injection Hf as <-. by apply (B2 i).
  - intros i Hx Hd. rewrite ofile_getpr, E1, <- ofile_getpr. auto.
Qed.

Lemma wlp_in_k {A} (m : M kst A) Q s :
  wlp m (fun a k => Q a (deliver k s)) (y_k s) -> wlp (in_k m) Q s.
Proof.
  intros Hm. apply wlp_intro. intros a s' Hr. unfold in_k, zoom in Hr.
  destruct (m (y_k s)) as [b k| | |] eqn:E; try done. injection Hr as -> <-. by apply (wlp_elim _ _ _ _ _ Hm E).
Qed.

Lemma wlp_filedup_sys e x s f : bal e x s ->
  wlp (in_k (filedup f)) (fun r s' => r = f /\ bal (shift e f 1) x s' /\ fds s' = fds s) s.
Proof.
  intros B. apply wlp_in_k. eapply wlp_mono; [apply wlp_filedup |]. intros r k [-> Hk].
  split_and!; [done | by apply deliver_shift | apply deliver_procs].
Qed.

Lemma wlp_fileclose_sys e x s pid f : bal e x s ->
  wlp (in_k (fileclose kend pid f)) (fun _ s' => bal (shift e f (-1)) x s' /\ fds s' = fds s) s.
Proof.
  intros B. apply wlp_in_k. eapply wlp_mono; [apply wlp_fileclose |]. intros r k [_ Hk].
  split; [by apply deliver_shift | apply deliver_procs].
Qed.

(** Changing one descriptor. *)
Lemma wlp_set_row e x s p fd l o n :
  bal e x s -> fds s !! p = Some l -> l !! fd = Some o -> (n = None \/ x = Some p \/ ~ dead (getpr s p)) ->
  wlp (setpr p (fun q => set_ofile (<[fd := n]> (pr_ofile q)) q)) (fun _ s' =>
    bal (fun g => e g + (if decide (o = Some g) then 1 else 0) - (if decide (n = Some g) then 1 else 0)) x s' /\
    fds s' = <[p := <[fd := n]> l]> (fds s) /\ (forall i, dead (getpr s' i) <-> dead (getpr s i))) s.
Proof.
  intros [B1 B2 B3] Hl Ho Hn. apply wlp_modify.
  set (s' := Sys _ _ _ _ _ _). assert (fds s' = <[p := <[fd := n]> l]> (fds s)) as Hf.
  { apply list_eq. intros i. rewrite fds_lookup. subst s'; cbn. destruct (decide (i = p)) as [->|Hi].
    - rewrite list_lookup_alter_eq, list_lookup_insert_eq by (by eapply lookup_lt_Some).
      rewrite fds_lookup in Hl. destruct (y_procs s !! p); [| done]. by injection Hl as <-.
    - by rewrite list_lookup_alter_ne, list_lookup_insert_ne, fds_lookup by done. }
  assert (forall i, dead (getpr s' i) <-> dead (getpr s i)) as Hd.
  { intros i. unfold getpr; subst s'; cbn. destruct (decide (i = p)) as [->|Hi].
    - rewrite list_lookup_alter_eq. by destruct (y_procs s !! p).
    - by rewrite list_lookup_alter_ne. }
  split_and!; [| done | done]. split.
  - intros g. unfold refs, users. rewrite Hf, (cnt_rows g _ _ _ _ Hl), (cnt_insert g _ _ _ n Ho).
    change (y_k s') with (y_k s). specialize (B1 g). unfold refs, users in B1. lia.
  - intros i q Hi. assert (fds s' !! i = Some (pr_ofile q)) as Hq by (by rewrite fds_lookup, Hi).
    rewrite Hf in Hq. destruct (decide (i = p)) as [->|Hne].
    + rewrite list_lookup_insert_eq in Hq by (by eapply lookup_lt_Some). injection Hq as <-. rewrite length_insert.
      rewrite fds_lookup in Hl. destruct (y_procs s !! p) as [q'|] eqn:Eq; [| done]. injection Hl as <-. by apply (B2 p).
    + rewrite list_lookup_insert_ne, fds_lookup in Hq by done. destruct (y_procs s !! i) as [q'|] eqn:Eq; [| done].
      injection Hq as <-. by apply (B2 i).
  - intros i Hx Hi%Hd. specialize (B3 i Hx Hi). rewrite ofile_getpr in *. rewrite Hf. destruct (decide (i = p)) as [->|Hne].
    + rewrite list_lookup_insert_eq by (by eapply lookup_lt_Some). rewrite Hl in B3. cbn in *.
      destruct Hn as [->|[->|Hn]]; [by apply Forall_insert | done | done].
    + by rewrite list_lookup_insert_ne.
Qed.

(** In a process [me] that is running. *)
Definition run (me : nat) e s : Prop := bal e None s /\ ~ dead (getpr s me).

Lemma run_frame me e s s' : sframe s s' -> run me e s -> run me e s'.
Proof. intros F [B L]. split; [by eapply bal_frame | intros D; apply L; by apply F]. Qed.

Lemma run_ext me e e' s : (forall f, e f = e' f) -> run me e s -> run me e' s.
Proof. intros He [B L]. split; [by eapply bal_ext | done]. Qed.

Lemma run_row me e s : run me e s -> exists l, fds s !! me = Some l /\ length l = 16%nat /\ pr_ofile (getpr s me) = l.
Proof.
  intros [[_ B2 _] L]. unfold getpr in *. destruct (y_procs s !! me) as [p|] eqn:E.
  - exists (pr_ofile p). rewrite fds_lookup, E. split_and!; [done | by apply (B2 me) | done].
  - exfalso. apply L. by left.
Qed.

Lemma wlp_run_keeps {A} (m : M sys A) me e s : keeps sframe m -> run me e s ->
  wlp m (fun _ s' => run me e s' /\ fds s' = fds s) s.
Proof. intros Hm B. apply wlp_intro. intros a s' Hr%Hm. split; [by eapply run_frame | apply Hr]. Qed.

Lemma wlp_set_fd me e s fd l o n :
  run me e s -> fds s !! me = Some l -> l !! fd = Some o ->
  wlp (set_fd me fd n) (fun _ s' =>
    run me (fun g => e g + (if decide (o = Some g) then 1 else 0) - (if decide (n = Some g) then 1 else 0)) s' /\
    fds s' = <[me := <[fd := n]> l]> (fds s)) s.
Proof.
  intros [B L] Hl Ho. unfold set_fd. eapply wlp_mono; [apply (wlp_set_row e None s me fd l o n B Hl Ho); auto |].
  intros _ s' (B' & Hf & Hd). split; [split; [done | by rewrite Hd] | done].
Qed.

Lemma free_fd_spec l i j : free_fd l i = Some j -> (i <= j)%nat /\ l !! (j - i)%nat = Some None.
Proof.
  revert i. induction l as [|[o|] l IH]; intros i; cbn [free_fd]; [done | |].
  - intros Hj%IH. destruct Hj as [Hle Hl]. split; [lia |].
    by replace (j - i)%nat with (Datatypes.S (j - Datatypes.S i)) by lia.
  - intros [= ->]. split; [lia |]. by rewrite Nat.sub_diag.
Qed.

Lemma wlp_fdalloc me e s f : run me e s ->
  wlp (fdalloc me f) (fun fd s' => (fd = -1 /\ s' = s) \/
    (0 <= fd /\ run me (shift e f (-1)) s' /\ exists l, fds s !! me = Some l /\ l !! Z.to_nat fd = Some None /\
       fds s' = <[me := <[Z.to_nat fd := Some f]> l]> (fds s))) s.
Proof.
  intros R. unfold fdalloc. apply wlp_bind, wlp_gets.
  destruct (free_fd (pr_ofile (getpr s me)) 0) as [fd|] eqn:E; [| apply wlp_ret; by left].
  destruct (run_row me e s R) as (l & Hl & _ & Ho). rewrite Ho in E. apply free_fd_spec in E as [_ E].
  rewrite Nat.sub_0_r in E. apply wlp_bind. eapply wlp_mono; [by apply (wlp_set_fd me e s fd l None (Some f)) |].
  intros _ s' [R' Hf]. apply wlp_ret. right. split_and!; [lia | | exists l; by rewrite Nat2Z.id].
  eapply run_ext, R'. intros g. cbn beta. unfold shift. rewrite decide_False by done.
  destruct (decide (Some f = Some g)), (decide (g = f)); naive_solver lia.
Qed.

(** [argfd] finds an open descriptor of the process. *)
Lemma wlp_argfd me e s n : run me e s ->
  wlp (argfd me n) (fun r s' => run me e s' /\
    match r with
    | Some (fd, f) => 0 <= fd /\ exists l, fds s' !! me = Some l /\ l !! Z.to_nat fd = Some (Some f)
    | None => True
    end) s.
Proof.
  intros R. unfold argfd. apply wlp_bind. eapply wlp_mono; [apply wlp_run_keeps; [apply keeps_argint | exact R] |].
  intros fd s1 [R1 _]. apply wlp_bind, wlp_gets. destruct ((fd <? 0) || _) eqn:Eb; [by apply wlp_ret |].
  destruct (run_row me e s1 R1) as (l & Hl & _ & Ho). rewrite Ho.
  destruct (l !! Z.to_nat fd) as [[f|]|] eqn:E; try by apply wlp_ret. apply wlp_ret. split; [done |].
  split; [| by exists l]. apply orb_false_iff in Eb as [Eb _]. apply Z.ltb_ge in Eb. lia.
Qed.

Abbreviation bal0 := (fun _ : nat => 0).

Lemma run_fd_inv me s : run me bal0 s -> fd_inv s.
Proof. by intros []. Qed.

(** ** The calls that change descriptors *)

Lemma wlp_sys_dup me s : run me bal0 s -> wlp (sys_dup me) (fun _ => fd_inv) s.
Proof.
  intros R. unfold sys_dup. apply wlp_bind. eapply wlp_mono; [by apply wlp_argfd |].
  intros [[fd f]|] s1 [R1 H1]; [| apply wlp_ret; by eapply run_fd_inv].
  apply wlp_bind. eapply wlp_mono; [by apply wlp_fdalloc |]. intros fd' s2 [(-> & ->)|(Hfd & R2 & _)].
  { apply wlp_ret. by eapply run_fd_inv. }
  destruct (Z.ltb_spec fd' 0); [lia |]. apply wlp_bind. eapply wlp_mono; [apply wlp_filedup_sys, R2 |].
  intros r s3 (-> & B3 & _). apply wlp_ret. eapply bal_ext, B3. intros g. unfold shift. destruct (decide (g = f)); lia.
Qed.

Lemma wlp_sys_close me s : run me bal0 s -> wlp (sys_close kend me) (fun _ => fd_inv) s.
Proof.
  intros R. unfold sys_close. apply wlp_bind. eapply wlp_mono; [by apply wlp_argfd |].
  intros [[fd f]|] s1 [R1 H1]; [| apply wlp_ret; by eapply run_fd_inv]. destruct H1 as (Hfd & l & Hl & Ho).
  apply wlp_bind. eapply wlp_mono; [by apply (wlp_set_fd me bal0 s1 (Z.to_nat fd) l (Some f) None) |]. intros _ s2 [R2 _].
  apply wlp_bind, wlp_gets, wlp_bind. eapply wlp_mono; [apply wlp_fileclose_sys, R2 |]. intros _ s3 [B3 _].
  apply wlp_ret. eapply bal_ext, B3. intros g. unfold shift. rewrite (decide_False (P := None = Some g)) by done.
  destruct (decide (Some f = Some g)), (decide (g = f)); naive_solver lia.
Qed.

Lemma wlp_run_fileclose me e s pid f : run me e s ->
  wlp (in_k (fileclose kend pid f)) (fun _ s' => run me (shift e f (-1)) s' /\ fds s' = fds s) s.
Proof.
  intros [B L]. apply wlp_intro. intros a s' Hr.
  destruct (wlp_elim _ _ _ _ _ (wlp_fileclose_sys e None s pid f B) Hr) as [B' Hf]. split; [split; [done |] | done].
  unfold in_k, zoom in Hr. destruct (fileclose kend pid f (y_k s)) as [b k| | |]; try done. injection Hr as _ <-.
  intros D. apply L. by apply (deliver_procs k s).
Qed.

Lemma wlp_run_filealloc me e s : run me e s ->
  wlp (in_k filealloc) (fun r s' => fds s' = fds s /\
    match r with Some i => run me (shift e i 1) s' | None => run me e s' end) s.
Proof.
  intros [B L]. apply wlp_in_k. eapply wlp_mono; [apply wlp_filealloc |]. intros [i|] k Hk; (split; [apply deliver_procs |]).
  - destruct Hk as [_ Hk]. split; [by apply deliver_shift | intros D; apply L; by apply (deliver_procs k s)].
  - subst k. apply (run_frame me e s); [by apply deliver_frame | by split].
Qed.

Lemma shift_back e f d g : shift (shift e f d) f (- d) g = e g.
Proof. unfold shift. destruct (decide (g = f)); lia. Qed.

(** Whatever follows an open descriptor is framed. *)
Lemma wlp_tail {A} (m : M sys A) me s : keeps sframe m -> run me bal0 s -> wlp m (fun _ => fd_inv) s.
Proof. intros Hm R. eapply wlp_mono; [by apply wlp_run_keeps |]. intros a s' [R' _]. by eapply run_fd_inv. Qed.

Lemma keeps_end {A} (m : M sys unit) (a : A) : keeps sframe m -> keeps sframe (m ;;; in_k end_op ;;; ret a).
Proof.
  intros Hm. apply keeps_bind; [apply _ | done |]. intros _. apply keeps_bind; [apply _ | apply keeps_in_k, keeps_in_fs |].
  intros _. apply keeps_ret. apply _.
Qed.

Lemma wlp_open_inode me s pid ip omode : run me bal0 s -> wlp (open_inode kend me pid ip omode) (fun _ => fd_inv) s.
Proof.
  intros R. unfold open_inode. apply wlp_bind. eapply wlp_mono; [apply wlp_run_keeps; [apply keeps_the_inode | exact R] |].
  intros i s1 [R1 _]. destruct (_ && _); [apply (wlp_tail _ me); [apply keeps_end, keeps_fsop | done] |].
  apply wlp_bind. eapply wlp_mono; [by apply wlp_run_filealloc |]. intros [f|] s2 [_ R2].
  2:{ apply (wlp_tail _ me); [apply keeps_end, keeps_fsop | done]. }
  apply wlp_bind. eapply wlp_mono; [by apply wlp_fdalloc |]. intros fd s3 [(-> & ->)|(Hfd & R3 & _)].
  { apply wlp_bind. eapply wlp_mono; [by apply wlp_run_fileclose |]. intros _ s3 [R3 _].
    apply (wlp_tail _ me); [apply keeps_end, keeps_fsop |]. eapply run_ext, R3. intros g. apply shift_back. }
  destruct (Z.ltb_spec fd 0); [lia |].
  apply (wlp_tail _ me); [| eapply run_ext, R3; intros g; apply shift_back].
  apply keeps_bind; [apply _ | apply keeps_in_k, keeps_setf; intros x; unfold open_file; by destruct (_ =? _) |]. intros _.
  apply keeps_bind; [apply _ | destruct (_ && _); [apply keeps_fsop | apply keeps_ret, _] |]. intros _.
  apply keeps_end, keeps_fsop.
Qed.

Lemma wlp_sys_open me s : run me bal0 s -> wlp (sys_open kend me) (fun _ => fd_inv) s.
Proof.
  intros R. unfold sys_open. apply wlp_bind. eapply wlp_mono; [apply wlp_run_keeps; [apply keeps_argstr | exact R] |].
  intros [n path] s1 [R1 _]. destruct (n <? 0); [apply wlp_ret; by eapply run_fd_inv |].
  apply wlp_bind. eapply wlp_mono; [apply wlp_run_keeps; [apply keeps_argint | exact R1] |]. intros omode s2 [R2 _].
  apply wlp_bind, wlp_gets, wlp_bind. eapply wlp_mono; [apply wlp_run_keeps; [apply keeps_cwd_of | exact R2] |].
  intros cwd s3 [R3 _]. apply wlp_bind.
  eapply wlp_mono; [apply wlp_run_keeps; [apply keeps_in_k, keeps_in_fs | exact R3] |]. intros _ s4 [R4 _].
  assert (keeps sframe (in_k end_op ;;; ret (-1) : M sys Z)) as Ke.
  { apply keeps_bind; [apply _ | apply keeps_in_k, keeps_in_fs | intros _; apply keeps_ret, _]. }
  destruct (flag omode O_CREATE).
  - apply wlp_bind. eapply wlp_mono; [apply wlp_run_keeps; [apply keeps_create | exact R4] |].
    intros [ip|] s5 [R5 _]; [by apply wlp_open_inode | by apply (wlp_tail _ me)].
  - apply wlp_bind. eapply wlp_mono; [apply wlp_run_keeps; [apply keeps_fsop | exact R4] |].
    intros [ip|] s5 [R5 _]; [| by apply (wlp_tail _ me)].
    apply wlp_bind. eapply wlp_mono; [apply wlp_run_keeps; [apply keeps_fsop | exact R5] |]. intros _ s6 [R6 _].
    apply wlp_bind. eapply wlp_mono; [apply wlp_run_keeps; [apply keeps_the_inode | exact R6] |]. intros i s7 [R7 _].
    destruct (_ && _); [apply (wlp_tail _ me); [apply keeps_end, keeps_fsop | done] | by apply wlp_open_inode].
Qed.

Lemma wlp_pipealloc k pid : wlp (pipealloc kend pid) (fun r k' =>
  match r with
  | Some (f0, f1) => exists k1, shifted k f0 1 k1 /\ shifted k1 f1 1 k'
  | None => kframe k k'
  end) k.
Proof.
  unfold pipealloc. apply wlp_bind. eapply wlp_mono; [apply wlp_filealloc |]. intros [f0|] k1 H1; [| by subst; apply wlp_ret].
  destruct H1 as [_ H1]. apply wlp_bind. eapply wlp_mono; [apply wlp_filealloc |]. intros [f1|] k2 H2.
  2:{ subst k2. apply wlp_bind. eapply wlp_mono; [apply wlp_fileclose |]. intros _ k2 [_ H2]. apply wlp_ret.
      intros g. rewrite H2, H1. destruct (decide (g = f0)); lia. }
  destruct H2 as [_ H2]. apply wlp_bind, wlp_intro. intros pi k3 H3%keeps_in_mem. destruct (pi =? 0).
  { apply wlp_bind. eapply wlp_mono; [apply wlp_fileclose |]. intros _ k4 [_ H4].
    apply wlp_bind. eapply wlp_mono; [apply wlp_fileclose |]. intros _ k5 [_ H5]. apply wlp_ret.
    intros g. rewrite H5, H4, H3, H2, H1. destruct (decide (g = f0)), (decide (g = f1)); lia. }
  apply wlp_intro. intros r k4 Hr. apply bind_ok in Hr as ([] & k5 & H5 & Hr). apply bind_ok in Hr as ([] & k6 & H6 & Hr).
  apply bind_ok in Hr as ([] & k7 & H7 & Hr). injection Hr as <- <-. exists k1. split; [done |]. intros g.
  assert (kframe k5 k6) as F6 by (by eapply (keeps_setf f0 (pipe_end pi true))).
  assert (kframe k6 k7) as F7 by (by eapply (keeps_setf f1 (pipe_end pi false))).
  rewrite F7, F6, (keeps_modify_pipes _ _ _ _ H5 g), H3. apply H2.
Qed.

Lemma wlp_close_both me s pid rf wf : run me (shift (shift bal0 rf 1) wf 1) s ->
  wlp (in_k (fileclose kend pid rf) ;;; in_k (fileclose kend pid wf) ;;; ret (-1)) (fun _ => fd_inv) s.
Proof.
  intros R. apply wlp_bind. eapply wlp_mono; [by apply wlp_run_fileclose |]. intros _ s1 [R1 _].
  apply wlp_bind. eapply wlp_mono; [by apply wlp_run_fileclose |]. intros _ s2 [R2 _]. apply wlp_ret, (run_fd_inv me).
  eapply run_ext, R2. intros g. unfold shift. destruct (decide (g = rf)), (decide (g = wf)); lia.
Qed.

Ltac same_shift := intros g; unfold shift; repeat rewrite (decide_False (P := None = Some g)) by done;
  repeat case_decide; simplify_eq; lia.

Lemma wlp_sys_pipe me s : run me bal0 s -> wlp (sys_pipe kend me) (fun _ => fd_inv) s.
Proof.
  intros R. unfold sys_pipe. apply wlp_bind. eapply wlp_mono; [apply wlp_run_keeps; [apply keeps_argraw | exact R] |].
  intros fda s1 [R1 _]. apply wlp_bind, wlp_gets, wlp_bind, wlp_in_k. eapply wlp_mono; [apply wlp_pipealloc |].
  intros [[rf wf]|] k Hk.
  2:{ apply wlp_ret, (run_fd_inv me), (run_frame me bal0 s1); [by apply deliver_frame | done]. }
  set (s2 := deliver k s1). assert (run me (shift (shift bal0 rf 1) wf 1) s2) as R2.
  { destruct Hk as (k1 & H1 & H2). destruct R1 as [B1 L1]. split; [| intros D; apply L1; by apply (deliver_procs k s1)].
    eapply bal_ext, (deliver_shift (shift bal0 rf 1) None (Sys k1 (y_procs s1) (y_initproc s1) (y_nextpid s1) (y_ticks s1) (y_out s1))); [done | exact H2 |].
    destruct B1 as [C1 C2 C3]. split; [| done | done]. intros g. specialize (C1 g). unfold refs, users, fds in *; cbn [y_k y_procs] in *.
    rewrite H1. unfold shift. lia. }
  clearbody s2. clear Hk. apply wlp_bind. eapply wlp_mono; [by apply wlp_fdalloc |].
  intros fd0 s3 [(-> & ->)|(Hfd0 & R3 & l0 & Hl0 & Ho0 & Hf0)].
  { by apply (wlp_close_both me). }
  destruct (Z.ltb_spec fd0 0); [lia |]. apply wlp_bind. eapply wlp_mono; [by apply wlp_fdalloc |].
  intros fd1 s4 [(-> & ->)|(Hfd1 & R4 & l1 & Hl1 & Ho1 & Hf1)].
  { assert (fds s3 !! me = Some (<[Z.to_nat fd0 := Some rf]> l0)) as Hl3.
    { rewrite Hf0, list_lookup_insert_eq; [done | by eapply lookup_lt_Some]. }
    apply wlp_bind. eapply wlp_mono; [apply (wlp_set_fd me _ s3 (Z.to_nat fd0) _ (Some rf) None R3 Hl3) |].
    { by rewrite list_lookup_insert_eq by (by eapply lookup_lt_Some). }
    intros _ s4 [R4 _]. apply (wlp_close_both me). eapply run_ext, R4. same_shift. }
  destruct (Z.ltb_spec fd1 0); [lia |].
  apply wlp_bind. eapply wlp_mono; [apply wlp_run_keeps; [apply keeps_in_kmem | exact R4] |]. intros r0 s5 [R5 E5].
  apply wlp_bind. eapply wlp_mono; [eapply wlp_run_keeps; [| exact R5]; destruct (r0 <? 0); [apply keeps_ret, _ | apply keeps_in_kmem] |].
  intros r1 s6 [R6 E6]. destruct (r1 <? 0).
  2:{ apply wlp_ret, (run_fd_inv me). eapply run_ext, R6. same_shift. }
  assert (l1 !! Z.to_nat fd0 = Some (Some rf)) as Ho01.
  { rewrite Hf0, list_lookup_insert_eq in Hl1 by (by eapply lookup_lt_Some). injection Hl1 as <-.
    by rewrite list_lookup_insert_eq by (by eapply lookup_lt_Some). }
  assert (Z.to_nat fd0 <> Z.to_nat fd1) as Hne by (intros E; rewrite E, Ho1 in Ho01; done).
  assert (fds s6 !! me = Some (<[Z.to_nat fd1 := Some wf]> l1)) as Hl6.
  { rewrite E6, E5, Hf1, list_lookup_insert_eq; [done | by eapply lookup_lt_Some]. }
  apply wlp_bind. eapply wlp_mono; [apply (wlp_set_fd me _ s6 (Z.to_nat fd0) _ (Some rf) None R6 Hl6); by rewrite list_lookup_insert_ne |].
  intros _ s7 [R7 Hf7]. assert (fds s7 !! me = Some (<[Z.to_nat fd0 := None]> (<[Z.to_nat fd1 := Some wf]> l1))) as Hl7.
  { rewrite Hf7, list_lookup_insert_eq; [done | by eapply lookup_lt_Some]. }
  apply wlp_bind. eapply wlp_mono; [apply (wlp_set_fd me _ s7 (Z.to_nat fd1) _ (Some wf) None R7 Hl7) |].
  { rewrite list_lookup_insert_ne, list_lookup_insert_eq by (done || by eapply lookup_lt_Some). done. }
  intros _ s8 [R8 _]. apply (wlp_close_both me). eapply run_ext, R8. same_shift.
Qed.

(** ** Creating and ending processes *)

(** No descriptors are left in [p]. *)
Definition bare s (p : nat) : Prop := Forall (.= None) (pr_ofile (getpr s p)).

Lemma bare_fds s s' p : fds s' = fds s -> bare s p -> bare s' p.
Proof. intros E. unfold bare. by rewrite !ofile_getpr, E. Qed.

(** A process without descriptors may end, whatever else is set. *)
Lemma bal_setpr e x s p h : bal e x s -> (forall q, pr_ofile (h q) = pr_ofile q) -> bare s p ->
  wlp (setpr p h) (fun _ s' => bal e x s' /\ fds s' = fds s) s.
Proof.
  intros [B1 B2 B3] Hh Hb. apply wlp_modify. set (s' := Sys _ _ _ _ _ _). assert (fds s' = fds s) as Hf.
  { apply list_eq. intros i. rewrite !fds_lookup. subst s'; cbn. destruct (decide (i = p)) as [->|Hi].
    - rewrite list_lookup_alter_eq. destruct (y_procs s !! p); cbn; [by rewrite Hh | done].
    - by rewrite list_lookup_alter_ne. }
  split; [| done]. split.
  - intros f. unfold refs, users. rewrite Hf. apply B1.
  - intros i q Hi. assert (fds s' !! i = Some (pr_ofile q)) as Hq by (by rewrite fds_lookup, Hi).
    rewrite Hf, fds_lookup in Hq. destruct (y_procs s !! i) as [q'|] eqn:Eq; [| done]. injection Hq as <-. by apply (B2 i).
  - intros i Hx Hd. destruct (decide (i = p)) as [->|Hi]; [by apply (bare_fds s) |].
    rewrite ofile_getpr, Hf, <- ofile_getpr. apply B3; [done |]. revert Hd. unfold getpr; subst s'; cbn.
    by rewrite list_lookup_alter_ne.
Qed.

Lemma wlp_bal_keeps {A} (m : M sys A) e x s : keeps sframe m -> bal e x s ->
  wlp m (fun _ s' => bal e x s' /\ fds s' = fds s) s.
Proof. intros Hm B. apply wlp_intro. intros a s' Hr%Hm. split; [by eapply bal_frame | apply Hr]. Qed.

Lemma wlp_freeproc e x s p : bal e x s -> bare s p -> wlp (freeproc kend p) (fun _ s' => bal e x s' /\ fds s' = fds s) s.
Proof.
  intros B Hb. unfold freeproc. apply wlp_bind, wlp_gets, wlp_bind.
  eapply wlp_mono; [eapply wlp_bal_keeps; [| exact B]; destruct (_ =? 0); [apply keeps_ret, _ | apply keeps_in_kmem] |].
  intros _ s1 [B1 E1]. apply wlp_bind. eapply wlp_mono; [apply (bal_setpr _ _ _ _ _ B1); [done | by eapply bare_fds] |].
  intros _ s2 [B2 E2]. apply wlp_bind.
  eapply wlp_mono; [eapply wlp_bal_keeps; [| exact B2]; destruct (_ =? 0); [apply keeps_ret, _ | apply keeps_in_kmem] |].
  intros _ s3 [B3 E3]. assert (fds s3 = fds s) as E by (by rewrite E3, E2, E1).
  eapply wlp_mono; [apply (bal_setpr _ _ _ _ _ B3); [done | by eapply bare_fds] |].
  intros _ s4 [B4 E4]. split; [done | by rewrite E4].
Qed.

Lemma unused_slot_spec l i j : unused_slot l i = Some j -> (i <= j)%nat /\ exists p, l !! (j - i)%nat = Some p /\ pr_state p = UNUSED.
Proof.
  revert i. induction l as [|p l IH]; intros i; cbn [unused_slot]; [done |]. case_bool_decide as E.
  - intros [= ->]. split; [lia |]. exists p. by rewrite Nat.sub_diag.
  - intros Hj%IH. destruct Hj as (Hle & q & Hq & Hs). split; [lia |]. exists q.
    by replace (j - i)%nat with (Datatypes.S (j - Datatypes.S i)) by lia.
Qed.

Lemma keeps_set_field p h : (forall q, pr_ofile (h q) = pr_ofile q /\ pr_state (h q) = pr_state q) ->
  keeps sframe (setpr (S := S) (Dv := Dv) p h).
Proof. intros Hh. apply keeps_setpr. intros q. destruct (Hh q) as [-> Hs]. split; [done |]. unfold dead. by rewrite Hs. Qed.

Lemma wlp_allocproc e s : bal e None s -> wlp (allocproc kend trampoline forkret) (fun r s' => bal e None s' /\ fds s' = fds s /\
  match r with Some p => exists l, fds s' !! p = Some l /\ length l = 16%nat /\ Forall (.= None) l | None => True end) s.
Proof.
  intros B. unfold allocproc. apply wlp_bind, wlp_gets. destruct (unused_slot (y_procs s) 0) as [p|] eqn:E; [| by apply wlp_ret].
  apply unused_slot_spec in E as (_ & q & Hq & Hs). rewrite Nat.sub_0_r in Hq.
  assert (dead (getpr s p)) as Hd by (left; unfold getpr; by rewrite Hq).
  assert (bare s p) as Hb by (by apply (bl_dead _ _ _ B)).
  apply wlp_bind. eapply wlp_mono; [eapply wlp_bal_keeps; [apply keeps_allocpid | exact B] |]. intros pid s1 [B1 E1].
  apply wlp_bind. eapply wlp_mono; [eapply wlp_bal_keeps; [by apply keeps_set_field | exact B1] |]. intros _ s2 [B2 E2].
  apply wlp_bind. eapply wlp_mono; [eapply wlp_bal_keeps; [apply keeps_in_kmem | exact B2] |]. intros tf s3 [B3 E3].
  apply wlp_bind. eapply wlp_mono; [eapply wlp_bal_keeps; [by apply keeps_set_field | exact B3] |]. intros _ s4 [B4 E4].
  destruct (tf =? 0); [apply wlp_ret; split_and!; [done | by rewrite E4, E3, E2, E1 | done] |].
  apply wlp_bind. eapply wlp_mono; [eapply wlp_bal_keeps; [apply keeps_in_kmem | exact B4] |]. intros pt s5 [B5 E5].
  apply wlp_bind. eapply wlp_mono; [eapply wlp_bal_keeps; [by apply keeps_set_field | exact B5] |]. intros _ s6 [B6 E6].
  assert (fds s6 = fds s) as E by (by rewrite E6, E5, E4, E3, E2, E1).
  destruct (pt =? 0).
  - apply wlp_bind. eapply wlp_mono; [apply (wlp_freeproc _ _ _ _ B6); by eapply bare_fds |].
    intros _ s7 [B7 E7]. apply wlp_ret. by rewrite E7.
  - apply wlp_bind. eapply wlp_mono; [eapply wlp_bal_keeps; [by apply keeps_set_field | exact B6] |]. intros _ s7 [B7 E7].
    apply wlp_ret. assert (fds s7 = fds s) as E' by (by rewrite E7). split_and!; [done | done |].
    exists (pr_ofile q). rewrite E', fds_lookup, Hq. split_and!; [done | by apply (bl_len _ _ _ B p) |].
    unfold bare, getpr in Hb. by rewrite Hq in Hb.
Qed.

Lemma bal_weaken e x s : bal e None s -> bal e x s.
Proof. intros [B1 B2 B3]. split; [done | done | intros i _; by apply B3]. Qed.

Lemma ofile_length e x s i : bal e x s -> length (pr_ofile (getpr s i)) = 16%nat.
Proof. intros B. unfold getpr. destruct (y_procs s !! i) as [q|] eqn:E; [by apply (bl_len _ _ _ B i) | done]. Qed.

Lemma wlp_dup_files e fs : forall s np fd l, bal e (Some np) s -> fds s !! np = Some l ->
  (forall i, (fd <= i < 16)%nat -> l !! i = Some None) -> (fd + length fs <= 16)%nat ->
  wlp (dup_files fs np fd) (fun _ => bal e (Some np)) s.
Proof.
  induction fs as [|[f|] fs IH]; intros s np fd l B Hl Hn Hlen; cbn [dup_files length] in *; [by apply wlp_ret | |].
  2:{ apply (IH s np (Datatypes.S fd) l); try done; [intros; apply Hn; lia | lia]. }
  apply wlp_bind. eapply wlp_mono; [by apply wlp_filedup_sys |]. intros r s1 (-> & B1 & E1).
  apply wlp_bind. eapply wlp_mono; [apply (wlp_set_row _ _ s1 np fd l None (Some f) B1); [by rewrite E1 | apply Hn; lia | auto] |].
  intros _ s2 (B2 & E2 & _). apply (IH s2 np (Datatypes.S fd) (<[fd := Some f]> l)).
  - eapply bal_ext, B2. intros g. unfold shift. rewrite (decide_False (P := None = Some g)) by done.
    repeat case_decide; simplify_eq; lia.
  - rewrite E2, list_lookup_insert_eq; [done |]. rewrite E1. by eapply lookup_lt_Some.
  - intros i Hi. rewrite list_lookup_insert_ne by lia. apply Hn. lia.
  - lia.
Qed.

(** The new process starts to run and may keep its descriptors. *)
Lemma wlp_start e s np : bal e (Some np) s -> wlp (setpr np (set_state RUNNABLE)) (fun _ => bal e None) s.
Proof.
  intros B. apply wlp_intro. intros [] s' Hr.
  assert (bal e (Some np) s') as B'.
  { eapply bal_frame, B. eapply keeps_setpr, Hr. intros q. split; [done |]. by intros [E|E]. }
  destruct B' as [B1 B2 B3]. split; [done | done |]. intros i _ Hd.
  destruct (decide (i = np)) as [->|Hi]; [| by apply B3; [congruence |]].
  injection Hr as <-. unfold getpr in *; cbn in *. rewrite list_lookup_alter_eq in *.
  destruct (y_procs s !! np); cbn in *; [by destruct Hd | by repeat constructor].
Qed.

Lemma wlp_fork me s : run me bal0 s -> wlp (fork kend trampoline forkret me) (fun _ => fd_inv) s.
Proof.
  intros [B L]. unfold fork. apply wlp_bind. eapply wlp_mono; [by apply wlp_allocproc |].
  intros [np|] s1 (B1 & E1 & H1); [| by apply wlp_ret]. destruct H1 as (l & Hl & Hlen & Hn).
  apply wlp_bind, wlp_gets, wlp_bind, wlp_gets, wlp_bind.
  eapply wlp_mono; [eapply wlp_bal_keeps; [apply keeps_in_kmem | exact B1] |]. intros r s2 [B2 E2].
  assert (bare s2 np) as Hb by (unfold bare; by rewrite ofile_getpr, E2, Hl).
  destruct (r <? 0).
  { apply wlp_bind. eapply wlp_mono; [by apply (wlp_freeproc _ _ _ _ B2) |]. intros _ s3 [B3 _]. by apply wlp_ret. }
  apply wlp_bind. eapply wlp_mono; [eapply wlp_bal_keeps; [by apply keeps_set_field | exact B2] |]. intros _ s3 [B3 E3].
  apply wlp_bind. eapply wlp_mono; [eapply wlp_bal_keeps; [by apply keeps_set_field | exact B3] |]. intros _ s4 [B4 E4].
  apply wlp_bind. eapply wlp_mono; [eapply wlp_bal_keeps; [apply keeps_in_kmem | exact B4] |]. intros _ s5 [B5 E5].
  apply wlp_bind. eapply wlp_mono; [eapply wlp_bal_keeps; [apply keeps_in_kmem | exact B5] |]. intros _ s6 [B6 E6].
  apply wlp_bind. eapply wlp_mono; [apply (wlp_dup_files bal0 _ s6 np 0 l (bal_weaken _ (Some np) _ B6)) |].
  { by rewrite E6, E5, E4, E3, E2. }
  { intros i Hi. destruct (lookup_lt_is_Some_2 l i) as [o Ho]; [lia |]. rewrite Ho. f_equal. by eapply Forall_lookup_1 in Hn. }
  { rewrite (ofile_length _ _ _ me B1). done. }
  intros ? s7 B7. cbn beta in B7. apply wlp_bind. eapply wlp_mono; [eapply wlp_bal_keeps; [apply keeps_cwd_of | exact B7] |]. intros cwd s8 [B8 _].
  apply wlp_bind. eapply wlp_mono; [eapply wlp_bal_keeps; [apply keeps_fsop | exact B8] |]. intros cwd' s9 [B9 _].
  apply wlp_bind. eapply wlp_mono; [eapply wlp_bal_keeps; [by apply keeps_set_field | exact B9] |]. intros _ s10 [B10 _].
  apply wlp_bind. eapply wlp_mono; [eapply wlp_bal_keeps; [by apply keeps_set_field | exact B10] |]. intros _ s11 [B11 _].
  apply wlp_bind, wlp_gets, wlp_bind. eapply wlp_mono; [by apply wlp_start |]. intros ? s12 B12. by apply wlp_ret.
Qed.

Lemma wlp_close_files pid me fs : forall e s fd l, run me e s -> fds s !! me = Some l -> drop fd l = fs ->
  Forall (.= None) (take fd l) ->
  wlp (close_files kend pid fs me fd) (fun _ s' => run me e s' /\ bare s' me) s.
Proof.
  induction fs as [|o fs IH]; intros e s fd l R Hl Hd Ht; cbn [close_files].
  { apply wlp_ret. split; [done |]. unfold bare. rewrite ofile_getpr, Hl. cbn.
    rewrite <- (take_drop fd l), Hd, app_nil_r. done. }
  assert (l !! fd = Some o) as Ho.
  { rewrite <- (Nat.add_0_r fd), <- lookup_drop, Hd. done. }
  assert (drop (Datatypes.S fd) l = fs) as Hd'.
  { replace (Datatypes.S fd) with (fd + 1)%nat by lia. rewrite <- drop_drop, Hd. done. }
  destruct o as [f|].
  2:{ apply (IH e s (Datatypes.S fd) l R Hl Hd'). rewrite (take_S_r _ _ _ Ho). apply Forall_app. split; [done | by repeat constructor]. }
  apply wlp_bind. eapply wlp_mono; [by apply wlp_run_fileclose |]. intros _ s1 [R1 E1].
  apply wlp_bind. eapply wlp_mono; [apply (wlp_set_fd me _ s1 fd l (Some f) None R1); [by rewrite E1 | done] |].
  intros _ s2 [R2 E2]. apply (IH e s2 (Datatypes.S fd) (<[fd := None]> l)).
  - eapply run_ext, R2. same_shift.
  - rewrite E2, list_lookup_insert_eq; [done |]. rewrite E1. by eapply lookup_lt_Some.
  - rewrite drop_insert_lt by lia. done.
  - rewrite (take_S_r _ _ None) by (by rewrite list_lookup_insert_eq by (by eapply lookup_lt_Some)).
    rewrite take_insert_ge by lia. apply Forall_app. split; [done | by repeat constructor].
Qed.

Lemma wlp_exit me s status : run me bal0 s -> wlp (exit kend me status) (fun _ => fd_inv) s.
Proof.
  intros R. unfold exit. apply wlp_bind, wlp_gets. destruct (bool_decide _); [by apply wlp_intro |].
  destruct (run_row me _ s R) as (l & Hl & _ & Ho). apply wlp_bind, wlp_gets, wlp_bind. rewrite Ho.
  eapply wlp_mono; [by apply (wlp_close_files _ me l bal0 s 0 l); [| | | constructor] |]. intros _ s1 [R1 Hb1].
  apply wlp_bind. eapply wlp_mono; [apply wlp_run_keeps; [apply keeps_cwd_of | exact R1] |]. intros cwd s2 [R2 E2].
  apply wlp_bind. eapply wlp_mono; [apply wlp_run_keeps; [apply keeps_in_k | exact R2] |].
  { do 2 (apply keeps_bind; [apply _ | apply keeps_in_fs |]; intros _). apply keeps_in_fs. }
  intros _ s3 [R3 E3]. apply wlp_bind. eapply wlp_mono; [apply wlp_run_keeps; [by apply keeps_set_field | exact R3] |].
  intros _ s4 [R4 E4]. destruct (y_initproc s) as [ip|]; [| by apply wlp_intro].
  apply wlp_bind. eapply wlp_mono; [apply wlp_run_keeps; [apply keeps_wakeup1 | exact R4] |]. intros _ s5 [R5 E5].
  apply wlp_bind, wlp_gets. destruct (pr_parent (getpr s5 me)) as [pp|]; [| by apply wlp_intro].
  apply wlp_bind, wlp_gets, wlp_bind. eapply wlp_mono; [apply wlp_run_keeps; [apply keeps_exit_info | exact R5] |].
  intros _ s6 [R6 E6]. apply wlp_bind, wlp_gets, wlp_bind.
  eapply wlp_mono; [apply wlp_run_keeps; [apply keeps_report_children | exact R6] |]. intros _ s7 [R7 E7].
  apply wlp_bind. eapply wlp_mono; [apply wlp_run_keeps; [apply keeps_reparent | exact R7] |]. intros _ s8 [R8 E8].
  apply wlp_bind. eapply wlp_mono; [apply wlp_run_keeps; [apply keeps_wakeup1 | exact R8] |]. intros _ s9 [[B9 _] E9].
  eapply wlp_mono; [apply (bal_setpr _ _ _ _ _ B9); [done |] |]; [| by intros _ s10 []].
  apply (bare_fds s1); [| done]. by rewrite E9, E8, E7, E6, E5, E4, E3, E2.
Qed.

Lemma zombie_child_spec l p i kids c b : zombie_child l p i kids = (Some c, b) ->
  (i <= c)%nat /\ exists q, l !! (c - i)%nat = Some q /\ pr_state q = ZOMBIE /\ pr_parent q = Some p.
Proof.
  revert i kids. induction l as [|q l IH]; intros i kids; cbn [zombie_child]; [done |].
  assert (forall kids', zombie_child l p (Datatypes.S i) kids' = (Some c, b) ->
    (i <= c)%nat /\ exists q0, (q :: l) !! (c - i)%nat = Some q0 /\ pr_state q0 = ZOMBIE /\ pr_parent q0 = Some p) as Hrec.
  { intros kids' Hc%IH. destruct Hc as (Hle & q' & Hq & Hz). split; [lia |]. exists q'.
    by replace (c - i)%nat with (Datatypes.S (c - Datatypes.S i)) by lia. }
  case_bool_decide as Ep; [| apply Hrec]. case_bool_decide as Es; [| apply Hrec].
  intros [= <- <-]. split; [lia |]. exists q. by rewrite Nat.sub_diag.
Qed.

Lemma wlp_wait me s addr flags : run me bal0 s -> wlp (wait kend me addr flags) (fun _ => fd_inv) s.
Proof.
  intros R. pose proof (run_fd_inv _ _ R) as B. unfold wait. apply wlp_bind, wlp_gets, wlp_bind, wlp_gets.
  destruct (zombie_child (y_procs s) me 0 false) as [[c|] kids] eqn:E.
  2:{ destruct (_ || _); [by apply wlp_ret |]. destruct (negb _); [by apply wlp_ret | by apply wlp_intro]. }
  apply zombie_child_spec in E as (_ & q & Hq & Hz & _). rewrite Nat.sub_0_r in Hq.
  assert (bare s c) as Hb by (apply (bl_dead _ _ _ B c); [done | right; unfold getpr; by rewrite Hq]).
  apply wlp_bind, wlp_gets, wlp_bind.
  eapply wlp_mono; [eapply wlp_bal_keeps; [| exact B]; destruct (_ =? 0); [apply keeps_ret, _ | apply keeps_in_kmem] |].
  intros r s1 [B1 E1]. destruct (r <? 0); [by apply wlp_ret |].
  apply wlp_bind. eapply wlp_mono; [apply (wlp_freeproc _ _ _ _ B1); by eapply bare_fds |]. intros _ s2 [B2 _]. by apply wlp_ret.
Qed.

Lemma keeps_sys_getpid me : keeps sframe (sys_getpid (S := S) (Dv := Dv) me).
Proof. apply keeps_gets, _. Qed.

(** The calls that are framed. *)
Ltac frame_call :=
  lazymatch goal with
  | |- keeps _ (sys_read _) => apply keeps_sys_read
  | |- keeps _ (sys_kill _) => apply keeps_sys_kill
  | |- keeps _ (sys_exec _ _ _) => apply keeps_sys_exec
  | |- keeps _ (sys_fstat _) => apply keeps_sys_fstat
  | |- keeps _ (sys_chdir _) => apply keeps_sys_chdir
  | |- keeps _ (sys_getpid _) => apply keeps_sys_getpid
  | |- keeps _ (sys_sbrk _ _) => apply keeps_sys_sbrk
  | |- keeps _ (sys_sleep _) => apply keeps_sys_sleep
  | |- keeps _ sys_uptime => apply keeps_gets, _
  | |- keeps _ (sys_write _) => apply keeps_sys_write
  | |- keeps _ (sys_mknod _) => apply keeps_sys_mknod
  | |- keeps _ (sys_unlink _) => apply keeps_sys_unlink
  | |- keeps _ (sys_link _) => apply keeps_sys_link
  | |- keeps _ (sys_mkdir _) => apply keeps_sys_mkdir
  | |- keeps _ (sys_rename _) => apply keeps_sys_rename
  | |- keeps _ (sys_yield _ _) => apply keeps_sys_yield
  end.

Lemma wlp_syscalls me num s f : syscalls kend trampoline forkret context_addr me num = Some f ->
  run me bal0 s -> wlp f (fun _ => fd_inv) s.
Proof.
  intros Hf R. unfold syscalls in Hf.
  repeat match type of Hf with (if ?b then _ else _) = _ => destruct b end; injection Hf as <- || discriminate Hf;
    try (apply (wlp_tail _ me); [frame_call | exact R]).
  - by apply wlp_fork.
  - apply wlp_bind, wlp_bind. eapply wlp_mono; [apply wlp_run_keeps; [apply keeps_argint | exact R] |].
    intros n s1 [R1 _]. eapply wlp_mono; [by apply wlp_exit |]. intros ? s2 B2. by apply wlp_ret.
  - apply wlp_bind. eapply wlp_mono; [apply wlp_run_keeps; [apply keeps_argraw | exact R] |]. intros a s1 [R1 _].
    apply wlp_bind. eapply wlp_mono; [apply wlp_run_keeps; [apply keeps_argint | exact R1] |]. intros fl s2 [R2 _].
    by apply wlp_wait.
  - by apply wlp_sys_pipe.
  - by apply wlp_sys_dup.
  - by apply wlp_sys_open.
  - by apply wlp_sys_close.
Qed.


End fdref.

(** ** A process that duplicates its standard input *)

#[local] Instance no_devices : Devices unit := {| dev_read _ := None; dev_write _ := None |}.
#[local] Instance demo_blocks : Blocks unit :=
  {| blk_read _ _ := ret 0%nat; blk_data _ := ret []; blk_set _ _ := ret tt; blk_log _ := ret tt; blk_rel _ := ret tt |}.
#[local] Instance demo_logops : LogOps unit := {| op_begin := ret tt; op_end := ret tt; op_init _ _ _ := ret tt |}.

(** The trapframe, at [page_at 7], asks for [dup(0)]. *)
Definition demo_tf : kmem := Kmem (st64 (st64 ∅ (page_at 7 + tf_off tf_a7) SYS_dup) (page_at 7 + tf_off tf_a0) 0) 0.

Definition demo_sys : sys (S := unit) (Dv := unit) :=
  Sys (Kst (Fst tt (Superblock 0 0 0 0 0 0 0 0) [] demo_tf) [File FD_DEVICE 1 true true 0 0 0 1] ∅ tt [])
      [Proc RUNNING None None false 0 1 0 0 0 (page_at 7) context0 (Some 0%nat :: replicate 15 None) (Some 0%nat) (replicate 16 0)]
      (Some 0%nat) 2 0 [].

Lemma demo_fd_inv : fd_inv demo_sys.
Proof.
  split.
  - intros [|f]; [done |]. done.
  - intros [|i] p Hp; [by injection Hp as <- | by destruct i].
  - intros [|i] _ Hd; [by destruct Hd | repeat constructor].
Qed.

