(* ===== verification/Sched.v ===== *)
(** * kernel/proc.c: scheduling, sleep and wakeup

    CPUs and the kernel threads of processes, interleaved at the points where
    locks are taken or given up and where [swtch] passes a CPU from the
    scheduler to a process or back.  A spinlock is the CPU that holds it
    (Spinlock.v shows that [acquire] and [release] implement this); a CPU that
    finds a lock taken spins, that is, its step changes nothing.  [push_off]
    and [pop_off] are those of Spinlock.v, so that the checks of [sched] are
    made on the real nesting depth and interrupt flag.

    Besides scheduling, processes here use one condition [cond] protected by a
    lock [lk]: they wait for it with [sleep(ch, lk)], and set it and call
    [wakeup(ch)] while they hold [lk], as all users of [sleep] in the kernel
    do.  [sleep(p, &p->lock)], as [wait] calls it, and [wakeup1], as [exit]
    calls it for init, are there too; the second process lock [exit] and [wait]
    hold while they look at a parent or a child is not.  The rest of [exit],
    [wait] and [fork] is in Proc.v. *)

From S2P Require Import Prelude Riscv Spinlock Procs.

(** Where the thread of a process goes on after the [swtch] in [sched]. *)
Inductive resume := RYield | RSleep | ROwn | RExit | RFirst.

Record thread := Thread {
  t_state : procstate;
  t_chan : option chan;
  t_lock : option nat;      (* p->lock *)
  t_resume : resume;        (* p->context *)
  t_intena : bool;          (* the local of [sched] *)
}.

(** Where a CPU is; [p] is the process. *)
Inductive hpc :=
  | Scan                       (* scheduler: before acquire(&p->lock) *)
  | Chosen (p : nat)           (* scheduler: p->lock acquired *)
  | After (p : nat)            (* scheduler: back from swtch *)
  | Back (p : nat)             (* p: back from swtch in sched, or in forkret *)
  | Run (p : nat)              (* p runs and holds no lock *)
  | Held (p : nat)             (* p holds lk *)
  | Switch (p : nat) (r : resume) (* yield, sleep or exit: about to call sched *)
  | SleepLk (p : nat)          (* sleep: holds lk and p->lock *)
  | SleepP (p : nat)           (* sleep: has released lk *)
  | Relock (p : nat)           (* sleep: before acquire(lk) *)
  | Own (p : nat)              (* wait: p holds its own p->lock *)
  | Wake1 (p i : nat)          (* exit: p holds the lock of i, to call wakeup1 *)
  | Waking (p i : nat)         (* wakeup: before acquire(&proc[i].lock) *)
  | WakeOne (p i : nat).       (* wakeup: proc[i].lock acquired *)

Record hart := Hart { h_cpu : cpu; h_proc : option nat; h_pc : hpc }.

Record ssys := Ssys { th : nat -> thread; hs : nat -> hart; lk : option nat; cond : bool }.

Section sched.
(** [nproc] processes; the channel slept on. *)
Context (nproc : nat) (ch : chan).
Context (Hch : forall p, ch <> ChProc p).

Definition set_th (p : nat) (f : thread -> thread) : M ssys unit :=
  modify (fun s => Ssys (upd (th s) p (f (th s p))) (hs s) (lk s) (cond s)).
Definition set_h (c : nat) (f : hart -> hart) : M ssys unit :=
  modify (fun s => Ssys (th s) (upd (hs s) c (f (hs s c))) (lk s) (cond s)).
Definition set_lk (l : option nat) : M ssys unit := modify (fun s => Ssys (th s) (hs s) l (cond s)).
Definition set_cond (b : bool) : M ssys unit := modify (fun s => Ssys (th s) (hs s) (lk s) b).

Definition goto (c : nat) (pc : hpc) : M ssys unit := set_h c (fun h => Hart (h_cpu h) (h_proc h) pc).
Definition on_cpu {A} (c : nat) (m : M cpu A) : M ssys A :=
  zoom (fun s => h_cpu (hs s c))
       (fun x s => Ssys (th s) (upd (hs s) c (Hart x (h_proc (hs s c)) (h_pc (hs s c)))) (lk s) (cond s)) m.

Definition tstate (st : procstate) (t : thread) : thread := Thread st (t_chan t) (t_lock t) (t_resume t) (t_intena t).
Definition tchan (x : option chan) (t : thread) : thread := Thread (t_state t) x (t_lock t) (t_resume t) (t_intena t).
Definition tlock (l : option nat) (t : thread) : thread := Thread (t_state t) (t_chan t) l (t_resume t) (t_intena t).

(** [acquire(&p->lock)] and [release(&p->lock)] on CPU [c]. *)
Definition acquire_p (c p : nat) (next : M ssys unit) : M ssys unit :=
  let! l := gets (fun s => t_lock (th s p)) in
  match l with
  | None => on_cpu c push_off ;;; set_th p (tlock (Some c)) ;;; next
  | Some c' => if decide (c' = c) then panic "acquire" else ret tt
  end.
Definition release_p (c p : nat) (next : M ssys unit) : M ssys unit :=
  let! l := gets (fun s => t_lock (th s p)) in
  if decide (l = Some c) then set_th p (tlock None) ;;; on_cpu c pop_off ;;; next else panic "release".

Definition acquire_lk (c : nat) (next : M ssys unit) : M ssys unit :=
  let! l := gets lk in
  match l with
  | None => on_cpu c push_off ;;; set_lk (Some c) ;;; next
  | Some c' => if decide (c' = c) then panic "acquire" else ret tt
  end.
Definition release_lk (c : nat) (next : M ssys unit) : M ssys unit :=
  let! l := gets lk in
  if decide (l = Some c) then set_lk None ;;; on_cpu c pop_off ;;; next else panic "release".

(** ** scheduler() *)

(** [intr_on()] at the start of a round; and [acquire(&p->lock)] for the entry
    [p] the loop has come to.  Which entry that is, and when a round ends, is
    left open. *)
Definition scheduler_round (c : nat) : M ssys unit := on_cpu c intr_on.
Definition scheduler_scan (c p : nat) : M ssys unit := acquire_p c p (goto c (Chosen p)).

Definition scheduler_chosen (c p : nat) : M ssys unit :=
  let! t := gets (fun s => th s p) in
  if decide (t_state t = RUNNABLE) then
    set_th p (tstate RUNNING) ;;;
    set_h c (fun h => Hart (h_cpu h) (Some p) (Back p))   (* swtch *)
  else release_p c p (goto c Scan).

Definition scheduler_after (c p : nat) : M ssys unit :=
  set_h c (fun h => Hart (h_cpu h) None (h_pc h)) ;;; release_p c p (goto c Scan).

(** ** sched() *)

(** [mycpu()]; [sie] is what [intr_get] returns. *)
Definition mycpu (c : nat) : M ssys cpu := gets (fun s => h_cpu (hs s c)).

Definition sched (c p : nat) (r : resume) : M ssys unit :=
  let! t := gets (fun s => th s p) in
  let! x := mycpu c in
  if decide (t_lock t <> Some c) then panic "sched p->lock"
  else if negb (noff x =? 1) then panic "sched locks"
  else if decide (t_state t = RUNNING) then panic "sched running"
  else if sie x then panic "sched interruptible"
  else
    set_th p (fun t => Thread (t_state t) (t_chan t) (t_lock t) r (intena x)) ;;;
    goto c (After p).   (* swtch *)

(** [mycpu()->intena = intena] *)
Definition sched_return (c p : nat) : M ssys unit :=
  let! t := gets (fun s => th s p) in
  on_cpu c (modify (fun x => Cpu (sstatus x) (noff x) (t_intena t))).

(** The process goes on after [sched] (or starts in [forkret]). *)
Definition resume_thread (c p : nat) : M ssys unit :=
  let! t := gets (fun s => th s p) in
  match t_resume t with
  | RFirst => release_p c p (goto c (Run p))
  | RYield => sched_return c p ;;; release_p c p (goto c (Run p))
  | RSleep => sched_return c p ;;; set_th p (tchan None) ;;; release_p c p (goto c (Relock p))
  | ROwn => sched_return c p ;;; set_th p (tchan None) ;;; goto c (Own p)
  | RExit => sched_return c p ;;; panic "zombie exit"
  end.

(** ** yield(), and the end of exit() *)
Definition yield (c p : nat) : M ssys unit :=
  acquire_p c p (set_th p (tstate RUNNABLE) ;;; goto c (Switch p RYield)).
Definition exit_switch (c p : nat) : M ssys unit :=
  acquire_p c p (set_th p (tstate ZOMBIE) ;;; goto c (Switch p RExit)).

(** ** sleep(ch, lk) *)
Definition sleep_acquire (c p : nat) : M ssys unit := acquire_p c p (goto c (SleepLk p)).
Definition sleep_release (c p : nat) : M ssys unit := release_lk c (goto c (SleepP p)).
Definition sleep_mark (c p : nat) : M ssys unit :=
  set_th p (fun t => tstate SLEEPING (tchan (Some ch) t)) ;;; goto c (Switch p RSleep).

(** ** sleep(p, &p->lock), in wait() *)
Definition wait_acquire (c p : nat) : M ssys unit := acquire_p c p (goto c (Own p)).
Definition wait_release (c p : nat) : M ssys unit := release_p c p (goto c (Run p)).
Definition sleep_own (c p : nat) : M ssys unit :=
  set_th p (fun t => tstate SLEEPING (tchan (Some (ChProc p)) t)) ;;; goto c (Switch p ROwn).

(** ** wakeup1(i), in exit() *)
Definition exit_acquire (c p i : nat) : M ssys unit := acquire_p c i (goto c (Wake1 p i)).
Definition wakeup1_release (c p i : nat) : M ssys unit :=
  let! t := gets (fun s => th s i) in
  if decide (t_lock t <> Some c) then panic "wakeup1" else
  (if decide (t_chan t = Some (ChProc i) /\ t_state t = SLEEPING) then set_th i (tstate RUNNABLE) else ret tt) ;;;
  release_p c i (goto c (Run p)).

(** ** wakeup(ch) *)
Definition wakeup_lock (c p i : nat) : M ssys unit :=
  if decide (i < nproc)%nat then acquire_p c i (goto c (WakeOne p i)) else goto c (Held p).
Definition wakeup_one (c p i : nat) : M ssys unit :=
  let! t := gets (fun s => th s i) in
  (if decide (t_state t = SLEEPING /\ t_chan t = Some ch) then set_th i (tstate RUNNABLE) else ret tt) ;;;
  release_p c i (goto c (Waking p (S i))).

(** What the CPU [c] can do next.  At [Held] the process may give up the
    lock, set the condition and wake the sleepers, use the condition up, or,
    when it does not hold, sleep. *)
Inductive sstep (s : ssys) : outcome ssys unit -> Prop :=
  | SRound c : h_pc (hs s c) = Scan -> sstep s (scheduler_round c s)
  | SScan c p : h_pc (hs s c) = Scan -> (p < nproc)%nat -> sstep s (scheduler_scan c p s)
  | SChosen c p : h_pc (hs s c) = Chosen p -> sstep s (scheduler_chosen c p s)
  | SAfter c p : h_pc (hs s c) = After p -> sstep s (scheduler_after c p s)
  | SBack c p : h_pc (hs s c) = Back p -> sstep s (resume_thread c p s)
  | SYield c p : h_pc (hs s c) = Run p -> sstep s (yield c p s)
  | SExit c p : h_pc (hs s c) = Run p -> sstep s (exit_switch c p s)
  | SSwitch c p r : h_pc (hs s c) = Switch p r -> sstep s (sched c p r s)
  | SLock c p : h_pc (hs s c) = Run p \/ h_pc (hs s c) = Relock p -> sstep s (acquire_lk c (goto c (Held p)) s)
  | SUnlock c p : h_pc (hs s c) = Held p -> sstep s (release_lk c (goto c (Run p)) s)
  | SSet c p : h_pc (hs s c) = Held p -> sstep s ((set_cond true ;;; goto c (Waking p 0)) s)
  | SUse c p : h_pc (hs s c) = Held p -> cond s = true -> sstep s (set_cond false s)
  | SSleep c p : h_pc (hs s c) = Held p -> cond s = false -> sstep s (sleep_acquire c p s)
  | SSleep2 c p : h_pc (hs s c) = SleepLk p -> sstep s (sleep_release c p s)
  | SSleep3 c p : h_pc (hs s c) = SleepP p -> sstep s (sleep_mark c p s)
  | SWake c p i : h_pc (hs s c) = Waking p i -> sstep s (wakeup_lock c p i s)
  | SWakeOne c p i : h_pc (hs s c) = WakeOne p i -> sstep s (wakeup_one c p i s)
  | SOwn c p : h_pc (hs s c) = Run p -> sstep s (wait_acquire c p s)
  | SDisown c p : h_pc (hs s c) = Own p -> sstep s (wait_release c p s)
  | SSleepOwn c p : h_pc (hs s c) = Own p -> sstep s (sleep_own c p s)
  | SExit1 c p i : h_pc (hs s c) = Run p -> (i < nproc)%nat -> sstep s (exit_acquire c p i s)
  | SWake1 c p i : h_pc (hs s c) = Wake1 p i -> sstep s (wakeup1_release c p i s).

Inductive sreach (s0 : ssys) : outcome ssys unit -> Prop :=
  | SInit : sreach s0 (Ok tt s0)
  | SStep s o : sreach s0 (Ok tt s) -> sstep s o -> sreach s0 o.

(** ** The invariant *)

(** The process lock a CPU holds, whether it holds [lk], and the process it
    runs. *)
Definition holdsP (pc : hpc) : option nat :=
  match pc with
  | Chosen p | After p | Back p | Switch p _ | SleepLk p | SleepP p | WakeOne _ p | Own p | Wake1 _ p => Some p
  | _ => None
  end.
Definition holdsL (pc : hpc) : bool :=
  match pc with Held _ | SleepLk _ | Waking _ _ | WakeOne _ _ => true | _ => false end.
Definition owns (pc : hpc) : option nat :=
  match pc with
  | Back p | Run p | Held p | Switch p _ | SleepLk p | SleepP p | Relock p | Waking p _ | WakeOne p _ | Own p | Wake1 p _ => Some p
  | Scan | Chosen _ | After _ => None
  end.
Definition hdepth (pc : hpc) : Z :=
  (match holdsP pc with Some _ => 1 | None => 0 end) + (if holdsL pc then 1 else 0).

(** The state of the process a CPU runs. *)
Definition st_ok (pc : hpc) (st : procstate) : Prop :=
  match pc with
  | Switch _ RSleep | Switch _ ROwn => st = SLEEPING
  | Switch _ RExit => st = ZOMBIE
  | Switch _ _ => st = RUNNABLE
  | _ => st = RUNNING
  end.

(** [p] sleeps on [ch]. *)
Definition asleep (t : thread) : Prop := t_state t = SLEEPING /\ t_chan t = Some ch.

(** The entry a [wakeup] looks at next, and the process that is past the point
    of no return in [sleep]. *)
Definition wk (pc : hpc) : option nat := match pc with Waking _ i | WakeOne _ i => Some i | _ => None end.
Definition slp (pc : hpc) : option nat := match pc with SleepP p => Some p | _ => None end.

Definition going s (p : nat) : Prop := asleep (th s p) \/ exists c, slp (h_pc (hs s c)) = Some p.
(** A [wakeup] that has yet to look at [p]. *)
Definition coming s (p : nat) : Prop := exists c i, wk (h_pc (hs s c)) = Some i /\ (i <= p)%nat.

(** One CPU [c] and one process [p] change. *)
Definition mk s (p : nat) (t : thread) (c : nat) (h : hart) (l : option nat) (b : bool) : ssys :=
  Ssys (upd (th s) p t) (upd (hs s) c h) l b.

(** ** The invariant: locks and interrupts *)
Record locks_ok s : Prop := LocksOk {
  lo_noff : forall c, noff (h_cpu (hs s c)) = hdepth (h_pc (hs s c));
  lo_sie : forall c, 0 < hdepth (h_pc (hs s c)) -> sie (h_cpu (hs s c)) = false;
  lo_plock : forall c p, holdsP (h_pc (hs s c)) = Some p <-> t_lock (th s p) = Some c;
  lo_lk : forall c, holdsL (h_pc (hs s c)) = true <-> lk s = Some c;
}.

Lemma locks_mk s p t c h l b : locks_ok s ->
  noff (h_cpu h) = hdepth (h_pc h) -> (0 < hdepth (h_pc h) -> sie (h_cpu h) = false) ->
  (holdsP (h_pc h) = holdsP (h_pc (hs s c)) /\ t_lock t = t_lock (th s p) \/
   (holdsP (h_pc (hs s c)) = None \/ holdsP (h_pc (hs s c)) = Some p) /\
   (t_lock (th s p) = None \/ t_lock (th s p) = Some c) /\
   (holdsP (h_pc h) = None /\ t_lock t = None \/ holdsP (h_pc h) = Some p /\ t_lock t = Some c)) ->
  (holdsL (h_pc h) = holdsL (h_pc (hs s c)) /\ l = lk s \/
   (lk s = None \/ lk s = Some c) /\ (holdsL (h_pc h) = false /\ l = None \/ holdsL (h_pc h) = true /\ l = Some c)) ->
  locks_ok (mk s p t c h l b).
Proof.
  intros [L1 L2 L3 L4] N Hs HP HL. split; cbn.
  - intros c'. destruct (decide (c' = c)) as [->|]; [by rewrite upd_eq | by rewrite upd_ne].
  - intros c'. destruct (decide (c' = c)) as [->|]; [by rewrite upd_eq | rewrite upd_ne by done; apply L2].
  - intros c' p'. pose proof (L3 c p) as A1. pose proof (L3 c p') as A2. pose proof (L3 c' p) as A3. pose proof (L3 c' p') as A4.
    destruct (decide (c' = c)) as [->|Hc], (decide (p' = p)) as [->|Hp]; rewrite ?upd_eq, ?upd_ne by done;
      (destruct HP as [[E1 E2]|(E0 & E1 & [[E2 E3]|[E2 E3]])]; [by rewrite ?E1, ?E2 | |]);
      rewrite ?E2, ?E3; try assumption; (split; intros X; [try apply A3 in X | try apply A2 in X]); destruct E0, E1; congruence.
  - intros c'. pose proof (L4 c) as A1. pose proof (L4 c') as A2.
    destruct (decide (c' = c)) as [->|Hc]; rewrite ?upd_eq, ?upd_ne by done;
      (destruct HL as [[E1 E2]|(E1 & [[E2 E3]|[E2 E3]])]; [by rewrite ?E1, ?E2 | |]);
      rewrite ?E2, ?E3; try done; (split; intros X; [try apply A2 in X |]); destruct E1; congruence.
Qed.

(** ** The invariant: processes and the CPUs that run them *)

Record own_ok s : Prop := OwnOk {
  oo_uniq : forall c c' p, owns (h_pc (hs s c)) = Some p -> owns (h_pc (hs s c')) = Some p -> c = c';
  oo_state : forall c p, owns (h_pc (hs s c)) = Some p -> st_ok (h_pc (hs s c)) (t_state (th s p));
  oo_run : forall p, t_state (th s p) = RUNNING -> exists c, owns (h_pc (hs s c)) = Some p;
  oo_proc : forall c p, owns (h_pc (hs s c)) = Some p -> h_proc (hs s c) = Some p;
  oo_range : forall c p, owns (h_pc (hs s c)) = Some p \/ h_pc (hs s c) = Chosen p -> (p < nproc)%nat;
  oo_exit : forall p, t_resume (th s p) = RExit -> t_state (th s p) = ZOMBIE;
}.

(** No CPU but [c] runs [p]. *)
Definition alone s (c p : nat) : Prop := forall c', c' <> c -> owns (h_pc (hs s c')) <> Some p.

Lemma own_mk s p t c h l b : own_ok s ->
  (owns (h_pc h) = owns (h_pc (hs s c)) \/ owns (h_pc h) = None \/ owns (h_pc h) = Some p /\ alone s c p) ->
  (forall q, owns (h_pc h) = Some q -> st_ok (h_pc h) (if decide (q = p) then t_state t else t_state (th s q)) /\ h_proc h = Some q) ->
  (t_state t = t_state (th s p) \/ alone s c p) ->
  (t_state t = RUNNING -> owns (h_pc h) = Some p \/ t_state (th s p) = RUNNING /\ owns (h_pc (hs s c)) <> Some p) ->
  (forall q, q <> p -> owns (h_pc (hs s c)) = Some q -> owns (h_pc h) = Some q) ->
  (forall q, h_pc h = Chosen q -> (q < nproc)%nat) -> (owns (h_pc h) = Some p -> (p < nproc)%nat) ->
  (t_resume t = RExit -> t_state t = ZOMBIE) ->
  own_ok (mk s p t c h l b).
Proof.
  intros [O1 O2 O3 O4 O5 O6] HU HS HT HR HK HC HP HX. split; cbn.
  - intros c1 c2 q. destruct (decide (c1 = c)) as [->|H1], (decide (c2 = c)) as [->|H2];
      rewrite ?upd_eq, ?upd_ne by done; [done | | | apply O1].
    + intros E1 E2. destruct HU as [E|[E|[E A]]]; [apply (O1 c c2 q); congruence | congruence | exfalso; apply (A c2); congruence].
    + intros E1 E2. destruct HU as [E|[E|[E A]]]; [apply (O1 c1 c q); congruence | congruence | exfalso; apply (A c1); congruence].
  - intros c1 q. destruct (decide (c1 = c)) as [->|H1]; rewrite ?upd_eq, ?upd_ne by done; intros E.
    + specialize (HS q E) as [HS _]. destruct (decide (q = p)) as [->|Hq]; by rewrite ?upd_eq, ?upd_ne by done.
    + destruct (decide (q = p)) as [->|Hq]; rewrite ?upd_eq, ?upd_ne by done; [| by apply O2].
      destruct HT as [->|A]; [by apply O2 | by exfalso; apply (A c1)].
  - intros q. destruct (decide (q = p)) as [->|Hq]; rewrite ?upd_eq, ?upd_ne by done; intros E.
    + destruct (HR E) as [E1|[E1 E2]]; [exists c; by rewrite upd_eq |]. destruct (O3 p E1) as [c1 E3]. exists c1.
      rewrite upd_ne; [done |]. by intros ->.
    + destruct (O3 q E) as [c1 E3]. destruct (decide (c1 = c)) as [->|H1]; [exists c; rewrite upd_eq; by apply HK |].
      exists c1. by rewrite upd_ne.
  - intros c1 q. destruct (decide (c1 = c)) as [->|H1]; rewrite ?upd_eq, ?upd_ne by done; [apply HS | apply O4].
  - intros c1 q. destruct (decide (c1 = c)) as [->|H1]; rewrite ?upd_eq, ?upd_ne by done; [| apply O5].
    intros [E|E]; [| by apply HC]. destruct (decide (q = p)) as [->|Hq]; [by apply HP |].
    destruct HU as [E'|[E'|[E' _]]]; [apply (O5 c); left; congruence | congruence | congruence].
  - intros q. destruct (decide (q = p)) as [->|Hq]; rewrite ?upd_eq, ?upd_ne by done; [apply HX | apply O6].
Qed.

(** ** The invariant: sleepers and wakers *)

Record wake_ok s : Prop := WakeOk {
  wo_false : forall c p, h_pc (hs s c) = SleepLk p -> cond s = false;
  wo_wake : cond s = true -> forall p, going s p -> coming s p;
  wo_range : forall p, going s p -> (p < nproc)%nat;
}.

(** The step starts no sleep and gives up no [wakeup]. *)
Lemma wake_mk s p t c h l : wake_ok s ->
  (t_state t = SLEEPING -> t_chan t = Some ch -> going s p) ->
  (forall q, slp (h_pc h) = Some q -> going s q) ->
  (wk (h_pc h) = wk (h_pc (hs s c)) \/ wk (h_pc (hs s c)) = None) ->
  (forall q, h_pc h = SleepLk q -> cond s = false) ->
  wake_ok (mk s p t c h l (cond s)).
Proof.
  intros [W2 W3 W4] HS HG HW HF.
  assert (forall q, going (mk s p t c h l (cond s)) q -> going s q) as Hg.
  { intros q [E|[c1 E]]; cbn in E.
    - destruct (decide (q = p)) as [->|Hq]; [rewrite upd_eq in E; destruct E; by apply HS | rewrite upd_ne in E by done; by left].
    - destruct (decide (c1 = c)) as [->|H1]; [rewrite upd_eq in E; by apply HG |].
      rewrite upd_ne in E by done. right. by exists c1. }
  split; cbn.
  - intros c1 q. destruct (decide (c1 = c)) as [->|H1]; rewrite ?upd_eq, ?upd_ne by done; [apply HF | apply W2].
  - intros Hb q Hq%Hg. destruct (W3 Hb q Hq) as (c1 & i & E & Hi). destruct (decide (c1 = c)) as [->|H1].
    + exists c, i. cbn. rewrite upd_eq. destruct HW as [->|HW]; [done | congruence].
    + exists c1, i. cbn. by rewrite upd_ne.
  - intros q Hq%Hg. by apply W4.
Qed.

(** ** Steps *)

Definition sinv s : Prop := locks_ok s /\ own_ok s /\ wake_ok s.

(** States are compared pointwise. *)
Definition seqv s s' : Prop :=
  (forall p, th s p = th s' p) /\ (forall c, hs s c = hs s' c) /\ lk s = lk s' /\ cond s = cond s'.

Lemma sinv_seqv s s' : seqv s s' -> sinv s' -> sinv s.
Proof.
  intros (E1 & E2 & E3 & E4) ([L1 L2 L3 L4] & [O1 O2 O3 O4 O5 O6] & [W2 W3 W4]).
  assert (forall p, going s p -> going s' p) as Hg.
  { intros p [E|[c E]]; [left; by rewrite <- E1 | right; exists c; by rewrite <- E2]. }
  split_and!.
  - split; intros; rewrite ?E1, ?E2, ?E3 in *; auto.
  - split; intros *; rewrite ?E1, ?E2; eauto. intros H. destruct (O3 _ H) as [c Hc]. exists c. by rewrite E2.
  - split; intros *; rewrite ?E1, ?E2, ?E4; eauto. intros Hb p Hp%Hg. destruct (W3 Hb p Hp) as (c & i & Hc & Hi).
    exists c, i. by rewrite E2.
Qed.

Ltac seqv_tac := split_and!; cbn; intros; unfold upd; repeat case_decide; subst; try done; congruence.

Lemma SIE_off_sie x n i : sie (Cpu (SIE_off x) n i) = false.
Proof. rewrite sie_bit. cbn [sstatus]. rewrite SIE_off_bit by lia. by rewrite andb_false_r. Qed.

(** The CPU after taking one more lock. *)
Definition pushed (x : cpu) : cpu := Cpu (SIE_off (sstatus x)) (noff x + 1) (if noff x =? 0 then sie x else intena x).
(** ... and one lock fewer. *)
Definition popped (x : cpu) : cpu :=
  Cpu (if (noff x =? 1) && intena x then Z.lor (sstatus x) SSTATUS_SIE else sstatus x) (noff x - 1) (intena x).

Lemma popped_sie x : sie x = false -> 2 <= noff x -> sie (popped x) = false.
Proof. intros Hs Hn. unfold popped. destruct (Z.eqb_spec (noff x) 1); [lia |]. cbn. done. Qed.

Definition with_cpu (x : cpu) (h : hart) : hart := Hart x (h_proc h) (h_pc h).

Lemma wp_on_push c (Q : unit -> ssys -> Prop) s : 0 <= noff (h_cpu (hs s c)) < 10 ->
  Q tt (Ssys (th s) (upd (hs s) c (with_cpu (pushed (h_cpu (hs s c))) (hs s c))) (lk s) (cond s)) ->
  wp (on_cpu c push_off) Q s.
Proof.
  intros Hn HQ. apply wp_zoom, wp_ok. eexists _, _. split; [apply push_off_eq |]. by rewrite s32_small by lia.
Qed.

Lemma wp_on_pop c (Q : unit -> ssys -> Prop) s : sie (h_cpu (hs s c)) = false -> 1 <= noff (h_cpu (hs s c)) < 10 ->
  Q tt (Ssys (th s) (upd (hs s) c (with_cpu (popped (h_cpu (hs s c))) (hs s c))) (lk s) (cond s)) ->
  wp (on_cpu c pop_off) Q s.
Proof. intros Hs Hn HQ. apply wp_zoom, wp_ok. eexists _, _. split; [by apply pop_off_eq; [| lia] | done]. Qed.

Lemma hdepth_range pc : 0 <= hdepth pc <= 2.
Proof. unfold hdepth. destruct (holdsP pc), (holdsL pc); lia. Qed.

(** [acquire(&p->lock)]: the lock is free, or another CPU holds it. *)
Lemma wp_acquire_p c p next s : sinv s -> holdsP (h_pc (hs s c)) <> Some p ->
  (t_lock (th s p) = None ->
   wp next (fun _ => sinv) (mk s p (tlock (Some c) (th s p)) c (with_cpu (pushed (h_cpu (hs s c))) (hs s c)) (lk s) (cond s))) ->
  wp (acquire_p c p next) (fun _ => sinv) s.
Proof.
  intros I Hh Hn. unfold acquire_p. apply wp_bind, wp_gets. destruct (t_lock (th s p)) as [c'|] eqn:E.
  - destruct (decide (c' = c)) as [->|]; [| by apply wp_ret]. by apply I in E.
  - apply wp_bind, wp_on_push.
    + destruct I as ([L1 _ _ _] & _). rewrite L1. pose proof (hdepth_range (h_pc (hs s c))). lia.
    + apply wp_bind, wp_modify. by apply Hn.
Qed.

Lemma wp_release_p c p next s x : sie x = false -> 1 <= noff x < 10 -> h_cpu (hs s c) = x -> t_lock (th s p) = Some c ->
  wp next (fun _ => sinv) (mk s p (tlock None (th s p)) c (with_cpu (popped x) (hs s c)) (lk s) (cond s)) ->
  wp (release_p c p next) (fun _ => sinv) s.
Proof.
  intros Hs Hn Hx Hl Hw. unfold release_p. apply wp_bind, wp_gets. rewrite decide_True by done.
  apply wp_bind, wp_modify, wp_bind, wp_on_pop; cbn [hs th]; rewrite Hx; done.
Qed.

Lemma pushed_ok s c : sinv s -> noff (pushed (h_cpu (hs s c))) = hdepth (h_pc (hs s c)) + 1 /\ sie (pushed (h_cpu (hs s c))) = false.
Proof. intros ([L1 _ _ _] & _). split; [cbn; by rewrite L1 | apply SIE_off_sie]. Qed.

(** Facts about the CPU that makes the step. *)
Lemma at_pc s c pc : sinv s -> h_pc (hs s c) = pc ->
  noff (h_cpu (hs s c)) = hdepth pc /\ (0 < hdepth pc -> sie (h_cpu (hs s c)) = false) /\
  (forall p, holdsP pc = Some p -> t_lock (th s p) = Some c) /\
  (holdsL pc = true -> lk s = Some c) /\
  (forall p, owns pc = Some p -> st_ok pc (t_state (th s p)) /\ h_proc (hs s c) = Some p /\ alone s c p /\ (p < nproc)%nat).
Proof.
  intros ([L1 L2 L3 L4] & [O1 O2 O3 O4 O5 O6] & W) <-. split_and!; [apply L1 | apply L2 | intros p; apply L3 | apply L4 |].
  intros p E. split_and!; [by apply O2 | by apply O4 | | by apply (O5 c); left].
  intros c' Hc E'. apply Hc. by apply (O1 c' c p).
Qed.

Lemma still_asleep s p : t_state (th s p) = SLEEPING -> t_chan (th s p) = Some ch -> going s p.
Proof. by left. Qed.

#[local] Hint Resolve still_asleep oo_exit : core.

(** The state after the step, as one change of a process and a CPU. *)
Ltac becomes s p t c h l Hpc :=
  apply (sinv_seqv _ (mk s p t c h l (cond s))); [seqv_tac |]; split_and!;
  [apply locks_mk | apply own_mk | apply wake_mk]; cbn; rewrite ?Hpc; cbn; try done; eauto.

Lemma step_round s c : sinv s -> h_pc (hs s c) = Scan -> wp (scheduler_round c) (fun _ => sinv) s.
Proof.
  intros I Hpc. apply wp_zoom, wp_modify. destruct (at_pc s c _ I Hpc) as (N & _). destruct I as (L & O & W).
  becomes s 0%nat (th s 0%nat) c (with_cpu (Cpu (Z.lor (sstatus (h_cpu (hs s c))) SSTATUS_SIE) (noff (h_cpu (hs s c))) (intena (h_cpu (hs s c)))) (hs s c)) (lk s) Hpc.
Qed.

Lemma step_scan s c p : sinv s -> h_pc (hs s c) = Scan -> (p < nproc)%nat -> wp (scheduler_scan c p) (fun _ => sinv) s.
Proof.
  intros I Hpc Hp. apply wp_acquire_p; [done | by rewrite Hpc |]. intros Hl. apply wp_modify.
  destruct (pushed_ok s c I) as [N S]. rewrite Hpc in N. destruct I as (L & O & W).
  becomes s p (tlock (Some c) (th s p)) c (Hart (pushed (h_cpu (hs s c))) (h_proc (hs s c)) (Chosen p)) (lk s) Hpc.
  - right. auto.
  - by intros q [= <-].
Qed.

(** Giving up [p->lock], the only lock held. *)
Lemma step_release s c p pc pc1 : sinv s -> h_pc (hs s c) = pc -> holdsP pc = Some p -> hdepth pc = 1 ->
  (pc1 = Scan /\ owns pc = None \/ (pc1 = Run p \/ pc1 = Relock p) /\ (pc = Back p \/ pc = Own p)) ->
  wp (release_p c p (goto c pc1)) (fun _ => sinv) s.
Proof.
  intros I Hpc HP HD H1. destruct (at_pc s c _ I Hpc) as (N & S & Hl & _ & HO).
  assert (holdsL pc = false /\ wk pc = None) as [HL Hw] by (unfold hdepth in HD; rewrite HP in HD; by destruct pc).
  assert (owns pc1 = owns pc /\ holdsP pc1 = None /\ holdsL pc1 = false /\ wk pc1 = None /\ slp pc1 = None /\
    (forall q, owns pc1 = Some q -> q = p /\ st_ok pc1 (t_state (th s q)) /\ h_proc (hs s c) = Some q /\ (p < nproc)%nat) /\
    (forall q, pc1 <> Chosen q) /\ (forall q, pc1 <> SleepLk q)) as (Ho1 & HP1 & HL1 & Hw1 & Hs1 & HO1 & HC1 & HK1).
  { destruct H1 as [[-> Ho]|[[->| ->] [->| ->]]]; rewrite ?Ho; split_and!; try done;
      intros q [= <-]; destruct (HO p eq_refl) as (Hst & Hpr & _ & Hr); done. }
  apply (wp_release_p c p _ s (h_cpu (hs s c))); [apply S; lia | lia | done | by apply Hl |]. apply wp_modify.
  destruct I as (L & O & W).
  becomes s p (tlock None (th s p)) c (Hart (popped (h_cpu (hs s c))) (h_proc (hs s c)) pc1) (lk s) Hpc.
  - unfold hdepth. rewrite HP1, HL1. lia.
  - unfold hdepth. rewrite HP1, HL1. lia.
  - right. split_and!; eauto.
  - intros q Hq. destruct (HO1 q Hq) as (-> & Hst & Hpr & _). by rewrite decide_True.
  - intros E. rewrite Ho1. destruct (owns pc) as [q|] eqn:Eo; [| by right].
    destruct (HO1 q) as (-> & _); [congruence | by left].
  - intros q _ Hq. congruence.
  - intros q Hq. by destruct (HC1 q).
  - intros Hq. by destruct (HO1 p Hq) as (_ & _ & _ & Hr).
  - intros q Hq. congruence.
  - intros q Hq. by destruct (HK1 q).
Qed.

Lemma step_chosen s c p : sinv s -> h_pc (hs s c) = Chosen p -> wp (scheduler_chosen c p) (fun _ => sinv) s.
Proof.
  intros I Hpc. destruct (at_pc s c _ I Hpc) as (N & S & Hl & _). unfold scheduler_chosen. apply wp_bind, wp_gets.
  destruct (decide (t_state (th s p) = RUNNABLE)) as [E|E].
  - apply wp_bind, wp_modify, wp_modify.
    assert (alone s c p) as A.
    { intros c' Hc Ho. destruct I as ([L1 L2 L3 L4] & [O1 O2 O3 O4 O5 O6] & _). pose proof (O2 c' p Ho) as St. rewrite E in St.
      destruct (h_pc (hs s c')) as [| | | | | |q r| | | | | | |] eqn:Ec; cbn in St, Ho; try done. simplify_eq.
      apply Hc. assert (t_lock (th s p) = Some c') as Hl' by (apply L3; by rewrite Ec).
      rewrite (Hl p eq_refl) in Hl'. congruence. }
    destruct I as (L & O & W).
    becomes s p (tstate RUNNING (th s p)) c (Hart (h_cpu (hs s c)) (Some p) (Back p)) (lk s) Hpc.
    + intros q [= <-]. by rewrite decide_True.
    + intros _. apply (oo_range _ O c). by right.
    + intros X%(oo_exit _ O). congruence.
  - by apply (step_release s c p (Chosen p)); auto.
Qed.

Lemma step_after s c p : sinv s -> h_pc (hs s c) = After p -> wp (scheduler_after c p) (fun _ => sinv) s.
Proof.
  intros I Hpc. unfold scheduler_after. apply wp_bind, wp_modify. set (s1 := Ssys _ _ _ _).
  destruct (at_pc s c _ I Hpc) as (N & S & Hl & _).
  assert (sinv s1) as I1.
  { destruct I as (L & O & W). becomes s p (th s p) c (Hart (h_cpu (hs s c)) None (h_pc (hs s c))) (lk s) Hpc. }
  apply (step_release s1 c p (After p)); auto. cbn. by rewrite upd_eq.
Qed.

(** [mycpu()->intena = intena] leaves everything the invariant speaks of. *)
Lemma step_sched_return s c p : sinv s -> h_pc (hs s c) = Back p ->
  wp (sched_return c p) (fun _ s' => sinv s' /\ h_pc (hs s' c) = Back p) s.
Proof.
  intros I Hpc. unfold sched_return. apply wp_bind, wp_gets, wp_zoom, wp_modify. split; [| cbn; by rewrite upd_eq].
  destruct (at_pc s c _ I Hpc) as (N & S & Hl & _ & HO). destruct (HO p eq_refl) as (Hst & Hpr & A & Hr). destruct I as (L & O & W).
  becomes s p (th s p) c (with_cpu (Cpu (sstatus (h_cpu (hs s c))) (noff (h_cpu (hs s c))) (t_intena (th s p))) (hs s c)) (lk s) Hpc.
  intros q [= <-]. by rewrite decide_True.
Qed.

Lemma step_clear_chan s c p : sinv s -> h_pc (hs s c) = Back p ->
  wp (set_th p (tchan None)) (fun _ s' => sinv s' /\ h_pc (hs s' c) = Back p) s.
Proof.
  intros I Hpc. apply wp_modify. split; [| done].
  destruct (at_pc s c _ I Hpc) as (N & S & Hl & _ & HO). destruct (HO p eq_refl) as (Hst & Hpr & A & Hr). destruct I as (L & O & W).
  becomes s p (tchan None (th s p)) c (hs s c) (lk s) Hpc. by intros q [= <-]; rewrite decide_True.
Qed.

Lemma step_back s c p : sinv s -> h_pc (hs s c) = Back p -> wp (resume_thread c p) (fun _ => sinv) s.
Proof.
  intros I Hpc. unfold resume_thread. apply wp_bind, wp_gets. destruct (t_resume (th s p)) eqn:E.
  - apply wp_bind. eapply wp_mono; [by apply step_sched_return |]. intros _ s1 [I1 Hpc1].
    apply (step_release s1 c p (Back p)); auto.
  - apply wp_bind. eapply wp_mono; [by apply step_sched_return |]. intros _ s1 [I1 Hpc1].
    apply wp_bind. eapply wp_mono; [by apply step_clear_chan |]. intros _ s2 [I2 Hpc2].
    apply (step_release s2 c p (Back p)); auto.
  - apply wp_bind. eapply wp_mono; [by apply step_sched_return |]. intros _ s1 [I1 Hpc1].
    apply wp_bind. eapply wp_mono; [by apply step_clear_chan |]. clear s I Hpc E s1 I1 Hpc1. intros _ s [I Hpc]. apply wp_modify.
    destruct (at_pc s c _ I Hpc) as (N & S & Hl & _ & HO). destruct (HO p eq_refl) as (Hst & Hpr & A & Hr). destruct I as (L & O & W).
    becomes s p (th s p) c (Hart (h_cpu (hs s c)) (h_proc (hs s c)) (Own p)) (lk s) Hpc. by intros q [= <-]; rewrite decide_True.
  - exfalso. destruct (at_pc s c _ I Hpc) as (_ & _ & _ & _ & HO). destruct (HO p eq_refl) as (Hst & _). cbn in Hst.
    destruct I as (_ & O & _). apply (oo_exit _ O) in E. congruence.
  - apply (step_release s c p (Back p)); auto.
Qed.

(** Taking its own lock to give up the CPU, with a new state. *)
Lemma step_give_up s c p st r : sinv s -> h_pc (hs s c) = Run p -> st = RUNNABLE /\ r = RYield \/ st = ZOMBIE /\ r = RExit ->
  wp (acquire_p c p (set_th p (tstate st) ;;; goto c (Switch p r))) (fun _ => sinv) s.
Proof.
  intros I Hpc Hst. apply wp_acquire_p; [done | by rewrite Hpc |]. intros Hl. apply wp_bind, wp_modify, wp_modify.
  destruct (pushed_ok s c I) as [N S]. rewrite Hpc in N.
  destruct (at_pc s c _ I Hpc) as (_ & _ & _ & _ & HO). destruct (HO p eq_refl) as (Hrun & Hpr & A & Hr). destruct I as (L & O & W).
  becomes s p (tstate st (tlock (Some c) (th s p))) c (Hart (pushed (h_cpu (hs s c))) (h_proc (hs s c)) (Switch p r)) (lk s) Hpc.
  - right. auto.
  - intros q [= <-]. rewrite decide_True by done. by destruct Hst as [[-> ->]|[-> ->]].
  - intros X%(oo_exit _ O). cbn in Hrun. congruence.
  - intros ->. by destruct Hst as [[? _]|[? _]].
Qed.

Lemma step_sched s c p r : sinv s -> h_pc (hs s c) = Switch p r -> wp (sched c p r) (fun _ => sinv) s.
Proof.
  intros I Hpc. destruct (at_pc s c _ I Hpc) as (N & S & Hl & _ & HO). destruct (HO p eq_refl) as (Hst & Hpr & A & Hr).
  assert (t_state (th s p) <> RUNNING) as Hne by (cbn in Hst; destruct r; naive_solver congruence).
  unfold sched. apply wp_bind, wp_gets, wp_bind, wp_gets. rewrite decide_False by (rewrite (Hl p eq_refl); auto).
  rewrite N. cbn [negb Z.eqb hdepth holdsP holdsL Z.add Pos.eqb]. rewrite decide_False, S by done.
  apply wp_bind, wp_modify, wp_modify. destruct I as (L & O & W).
  becomes s p (Thread (t_state (th s p)) (t_chan (th s p)) (t_lock (th s p)) r (intena (h_cpu (hs s c)))) c
    (Hart (h_cpu (hs s c)) (h_proc (hs s c)) (After p)) (lk s) Hpc.
  - by intros q Hq [= <-].
  - by intros ->.
Qed.

Lemma step_lock s c p : sinv s -> h_pc (hs s c) = Run p \/ h_pc (hs s c) = Relock p ->
  wp (acquire_lk c (goto c (Held p))) (fun _ => sinv) s.
Proof.
  intros I Hpc. assert (exists pc, h_pc (hs s c) = pc /\ (pc = Run p \/ pc = Relock p)) as (pc & Hp & Hpc') by eauto.
  destruct (pushed_ok s c I) as [N S]. rewrite Hp in N.
  destruct (at_pc s c _ I Hp) as (N0 & _ & _ & _ & HO).
  destruct (HO p) as (Hst & Hpr & A & Hr); [by destruct Hpc' as [->| ->] |].
  unfold acquire_lk. apply wp_bind, wp_gets. destruct (lk s) as [c'|] eqn:E.
  - destruct (decide (c' = c)) as [->|]; [| by apply wp_ret]. destruct I as ([_ _ _ L4] & _).
    apply L4 in E. rewrite Hp in E. by destruct Hpc' as [->| ->].
  - apply wp_bind, wp_on_push; [rewrite N0; pose proof (hdepth_range pc); lia |]. apply wp_bind, wp_modify, wp_modify.
    destruct I as (L & O & W).
    becomes s p (th s p) c (Hart (pushed (h_cpu (hs s c))) (h_proc (hs s c)) (Held p)) (Some c) Hp.
    all: destruct Hpc' as [-> | ->]; cbn in *; auto; try (intros q [= <-]; by rewrite decide_True).
    all: try (intros q Hq [= <-]; done).
Qed.

Lemma going_mk s p t c h l b q : going (mk s p t c h l b) q ->
  (q = p /\ asleep t \/ q <> p /\ asleep (th s q)) \/
  slp (h_pc h) = Some q \/ exists c', c' <> c /\ slp (h_pc (hs s c')) = Some q.
Proof.
  intros [E|[c1 E]]; cbn in E.
  - left. destruct (decide (q = p)) as [->|Hq]; [rewrite upd_eq in E | rewrite upd_ne in E by done]; auto.
  - right. destruct (decide (c1 = c)) as [->|H1]; [rewrite upd_eq in E | rewrite upd_ne in E by done]; eauto.
Qed.

(** Only the CPU that holds [lk] can be in [sleep] before it gives [lk] up. *)
Lemma sleeplk_mk s p t c h l b : locks_ok s -> lk s = Some c -> (forall q, h_pc h <> SleepLk q) ->
  forall c' q, h_pc (hs (mk s p t c h l b) c') = SleepLk q -> b = false.
Proof.
  intros L Hl Hh c' q. cbn. destruct (decide (c' = c)) as [->|Hc]; rewrite ?upd_eq, ?upd_ne by done; intros E; [by destruct (Hh q) |].
  destruct Hc. assert (holdsL (h_pc (hs s c')) = true) as X%(lo_lk s L) by (by rewrite E). congruence.
Qed.

(** Giving up [lk] for [pc1], holding [p->lock] or not. *)
Lemma wp_release_lk s c pc (next : M ssys unit) : sinv s -> h_pc (hs s c) = pc -> holdsL pc = true ->
  wp next (fun _ => sinv) (Ssys (th s) (upd (hs s) c (with_cpu (popped (h_cpu (hs s c))) (hs s c))) None (cond s)) ->
  wp (release_lk c next) (fun _ => sinv) s.
Proof.
  intros I Hpc HL Hn. destruct (at_pc s c _ I Hpc) as (N & S & _ & Hl & _).
  assert (1 <= hdepth pc <= 2) as Hd by (unfold hdepth; rewrite HL; destruct (holdsP pc); lia).
  unfold release_lk. apply wp_bind, wp_gets. rewrite decide_True by auto.
  apply wp_bind, wp_modify, wp_bind, wp_on_pop; cbn [hs th]; [apply S; lia | lia | done].
Qed.

Lemma step_unlock s c p : sinv s -> h_pc (hs s c) = Held p -> wp (release_lk c (goto c (Run p))) (fun _ => sinv) s.
Proof.
  intros I Hpc. apply (wp_release_lk s c (Held p)); auto. apply wp_modify.
  destruct (at_pc s c _ I Hpc) as (N & S & _ & Hl & HO). destruct (HO p eq_refl) as (Hst & Hpr & A & Hr). destruct I as (L & O & W).
  becomes s p (th s p) c (Hart (popped (h_cpu (hs s c))) (h_proc (hs s c)) (Run p)) (@None nat) Hpc.
  - rewrite N. done.
  - right. rewrite Hl by done. auto.
  - intros q [= <-]. by rewrite decide_True.
Qed.

Lemma step_set s c p : sinv s -> h_pc (hs s c) = Held p ->
  wp (set_cond true ;;; goto c (Waking p 0)) (fun _ => sinv) s.
Proof.
  intros I Hpc. apply wp_bind, wp_modify, wp_modify.
  destruct (at_pc s c _ I Hpc) as (N & S & _ & Hl & HO). destruct (HO p eq_refl) as (Hst & Hpr & A & Hr). destruct I as (L & O & W).
  apply (sinv_seqv _ (mk s p (th s p) c (Hart (h_cpu (hs s c)) (h_proc (hs s c)) (Waking p 0)) (lk s) true)); [seqv_tac |].
  split_and!; [apply locks_mk | apply own_mk |]; cbn; rewrite ?Hpc; cbn; try done; eauto.
  - intros q [= <-]. by rewrite decide_True.
  - split.
    + apply sleeplk_mk; auto.
    + intros _ q _. exists c, 0%nat. cbn. rewrite upd_eq. split; [done | lia].
    + intros q Hq%going_mk. apply (wo_range _ W). cbn in Hq. destruct Hq as [[[-> ?]|[_ ?]]|[?|(c' & _ & ?)]]; [by left | by left | done | right; eauto].
Qed.

Lemma step_use s : sinv s -> wp (set_cond false) (fun _ => sinv) s.
Proof.
  intros (L & O & W). apply wp_modify. split_and!; [by destruct L | by destruct O |].
  split; cbn; [done | done | apply W].
Qed.

Lemma step_sleep s c p : sinv s -> h_pc (hs s c) = Held p -> cond s = false -> wp (sleep_acquire c p) (fun _ => sinv) s.
Proof.
  intros I Hpc Hc. apply wp_acquire_p; [done | by rewrite Hpc |]. intros Hl. apply wp_modify.
  destruct (pushed_ok s c I) as [N S]. rewrite Hpc in N.
  destruct (at_pc s c _ I Hpc) as (_ & _ & _ & _ & HO). destruct (HO p eq_refl) as (Hst & Hpr & A & Hr). destruct I as (L & O & W).
  becomes s p (tlock (Some c) (th s p)) c (Hart (pushed (h_cpu (hs s c))) (h_proc (hs s c)) (SleepLk p)) (lk s) Hpc.
  - right. auto.
  - intros q [= <-]. by rewrite decide_True.
Qed.

Lemma step_sleep_release s c p : sinv s -> h_pc (hs s c) = SleepLk p -> wp (sleep_release c p) (fun _ => sinv) s.
Proof.
  intros I Hpc. apply (wp_release_lk s c (SleepLk p)); auto. apply wp_modify.
  destruct (at_pc s c _ I Hpc) as (N & S & _ & Hl & HO). destruct (HO p eq_refl) as (Hst & Hpr & A & Hr). destruct I as (L & O & W).
  apply (sinv_seqv _ (mk s p (th s p) c (Hart (popped (h_cpu (hs s c))) (h_proc (hs s c)) (SleepP p)) None (cond s))); [seqv_tac |].
  split_and!; [apply locks_mk | apply own_mk |]; cbn; rewrite ?Hpc; cbn; try done; eauto.
  - rewrite N. done.
  - intros _. apply popped_sie; [by apply S | by rewrite N].
  - right. rewrite Hl by done. auto.
  - intros q [= <-]. by rewrite decide_True.
  - pose proof (wo_false _ W c p Hpc) as Hf. split.
    + intros. done.
    + cbn. congruence.
    + intros q Hq%going_mk. cbn in Hq. destruct Hq as [[[-> ?]|[_ ?]]|[[= <-]|(c' & _ & ?)]]; [done | | done |];
        apply (wo_range _ W); [by left | right; eauto].
Qed.

Lemma step_sleep_mark s c p : sinv s -> h_pc (hs s c) = SleepP p -> wp (sleep_mark c p) (fun _ => sinv) s.
Proof.
  intros I Hpc. apply wp_bind, wp_modify, wp_modify.
  destruct (at_pc s c _ I Hpc) as (N & S & Hl & _ & HO). destruct (HO p eq_refl) as (Hst & Hpr & A & Hr). destruct I as (L & O & W).
  becomes s p (tstate SLEEPING (tchan (Some ch) (th s p))) c (Hart (h_cpu (hs s c)) (h_proc (hs s c)) (Switch p RSleep)) (lk s) Hpc.
  - intros q [= <-]. by rewrite decide_True.
  - intros X%(oo_exit _ O). cbn in Hst. congruence.
  - intros _ _. right. exists c. by rewrite Hpc.
Qed.

Lemma step_wakeup_lock s c p i : sinv s -> h_pc (hs s c) = Waking p i -> wp (wakeup_lock c p i) (fun _ => sinv) s.
Proof.
  intros I Hpc. destruct (at_pc s c _ I Hpc) as (N & S & _ & Hl & HO). destruct (HO p eq_refl) as (Hst & Hpr & A & Hr).
  unfold wakeup_lock. destruct (decide (i < nproc)%nat) as [Hi|Hi].
  - apply wp_acquire_p; [done | by rewrite Hpc |]. intros Hf. apply wp_modify.
    destruct (pushed_ok s c I) as [N1 S1]. rewrite Hpc in N1. destruct I as (L & O & W).
    becomes s i (tlock (Some c) (th s i)) c (Hart (pushed (h_cpu (hs s c))) (h_proc (hs s c)) (WakeOne p i)) (lk s) Hpc.
    + right. auto.
    + intros q [= <-]. case_decide; by subst.
    + intros E. destruct (decide (i = p)) as [->|]; [by left | right; split; [done | congruence]].
  - apply wp_modify. destruct I as (L & O & W).
    apply (sinv_seqv _ (mk s p (th s p) c (Hart (h_cpu (hs s c)) (h_proc (hs s c)) (Held p)) (lk s) (cond s))); [seqv_tac |].
    split_and!; [apply locks_mk | apply own_mk |]; cbn; rewrite ?Hpc; cbn; try done; eauto.
    + intros q [= <-]. by rewrite decide_True.
    + assert (forall q, going (mk s p (th s p) c (Hart (h_cpu (hs s c)) (h_proc (hs s c)) (Held p)) (lk s) (cond s)) q -> going s q) as Hg.
      { intros q Hq%going_mk. cbn in Hq. destruct Hq as [[[-> ?]|[_ ?]]|[?|(c' & _ & ?)]]; [by left | by left | done | right; eauto]. }
      split.
      * apply sleeplk_mk; auto.
      * intros Hb q Hq%Hg. destruct (wo_wake _ W Hb q Hq) as (c1 & j & E & Hj). pose proof (wo_range _ W q Hq).
        exists c1, j. cbn. destruct (decide (c1 = c)) as [->|]; [rewrite Hpc in E; cbn in E; simplify_eq; lia | by rewrite upd_ne].
      * intros q Hq%Hg. by apply (wo_range _ W).
Qed.

(** The entry [wakeup] ([wakeup1]) has looked at, its lock still held. *)
Definition woken (x : chan) (t : thread) : thread :=
  if decide (t_state t = SLEEPING /\ t_chan t = Some x) then tstate RUNNABLE t else t.

(** Waking on [x] the entry [i] whose lock is held. *)
Definition wakes (pc pc1 : hpc) (p i : nat) (x : chan) : Prop :=
  pc = WakeOne p i /\ pc1 = Waking p (S i) /\ x = ch \/ pc = Wake1 p i /\ pc1 = Run p /\ x = ChProc i.

(** A sleeping process is run by no CPU, and nobody else goes to sleep in an
    entry whose lock is held. *)
Lemma held_asleep s c pc pc1 p i x : sinv s -> h_pc (hs s c) = pc -> wakes pc pc1 p i x ->
  (t_state (th s i) = SLEEPING -> alone s c i /\ p <> i) /\ forall c', slp (h_pc (hs s c')) <> Some i.
Proof.
  intros I Hpc Hw. destruct (at_pc s c _ I Hpc) as (_ & _ & Hl & _ & HO).
  assert (holdsP pc = Some i /\ owns pc = Some p /\ slp pc = None /\ forall st, st_ok pc st -> st = RUNNING) as (HP & Ho & Hs & Hok)
    by (by destruct Hw as [[-> _]|[-> _]]).
  destruct (HO p Ho) as (Hst & _). apply Hok in Hst.
  destruct I as ([L1 L2 L3 L4] & [O1 O2 O3 O4 O5 O6] & W).
  assert (forall c' pc', h_pc (hs s c') = pc' -> holdsP pc' = Some i -> c' = c) as Hc.
  { intros c' pc' <- X%L3. rewrite (Hl i HP) in X. congruence. }
  split.
  - intros E. split; [| intros ->; congruence]. intros c' Hn Ho'. pose proof (O2 c' i Ho') as St. rewrite E in St.
    destruct (h_pc (hs s c')) as [| | | | | |q r| | | | | | |] eqn:Ec; cbn in St, Ho'; try done. simplify_eq. by apply Hn, (Hc _ _ Ec).
  - intros c' E. destruct (h_pc (hs s c')) eqn:Ec; cbn in E; try done. simplify_eq. pose proof (Hc _ _ Ec eq_refl). subst c'.
    by rewrite Ec in Hs.
Qed.

Lemma wake_woken s c pc pc1 p i x cp t l : sinv s -> h_pc (hs s c) = pc -> wakes pc pc1 p i x ->
  t_state t = t_state (woken x (th s i)) -> t_chan t = t_chan (th s i) ->
  wake_ok (mk s i t c (Hart cp (h_proc (hs s c)) pc1) l (cond s)).
Proof.
  intros I Hpc Hw Ht Htc. destruct (held_asleep s c pc pc1 p i x I Hpc Hw) as [_ Hs].
  destruct (at_pc s c _ I Hpc) as (_ & _ & _ & Hlk & _). destruct I as (L & O & W).
  destruct Hw as [(-> & -> & ->)|(-> & -> & ->)].
  2: { apply wake_mk; cbn; rewrite ?Hpc; cbn; auto; try done. rewrite Ht, Htc. unfold woken. case_decide; [done | by left]. }
  assert (~ asleep t) as Hn.
  { unfold asleep. rewrite Ht, Htc. unfold woken. case_decide as D; [by intros [? _] | done]. }
  set (s' := mk _ _ _ _ _ _ _). assert (forall q, going s' q -> going s q /\ q <> i) as Hg.
  { intros q Hq%going_mk. cbn in Hq. destruct Hq as [[[-> ?]|[? ?]]|[?|(c' & _ & E)]]; [done | by split; [left |] | done |].
    split; [right; eauto | intros ->; by apply (Hs c')]. }
  split.
  - apply sleeplk_mk; auto.
  - intros Hb q [Hq Hi]%Hg. destruct (wo_wake _ W Hb q Hq) as (c1 & j & E & Hj).
    destruct (decide (c1 = c)) as [->|Hc].
    + rewrite Hpc in E. cbn in E. simplify_eq. exists c, (S j). cbn. rewrite upd_eq. split; [done | lia].
    + exists c1, j. cbn. by rewrite upd_ne.
  - intros q [Hq _]%Hg. by apply (wo_range _ W).
Qed.

Lemma sinv_woken s c pc pc1 p i x : sinv s -> h_pc (hs s c) = pc -> wakes pc pc1 p i x ->
  sinv (mk s i (tlock None (woken x (th s i))) c (Hart (popped (h_cpu (hs s c))) (h_proc (hs s c)) pc1) (lk s) (cond s)).
Proof.
  intros I Hpc Hx. destruct (held_asleep s c pc pc1 p i x I Hpc Hx) as [Ha _].
  destruct (at_pc s c _ I Hpc) as (N & S & Hl & Hlk & HO).
  assert (holdsP pc = Some i /\ owns pc = Some p /\ owns pc1 = Some p /\ (forall st, st_ok pc st -> st_ok pc1 st) /\
    holdsP pc1 = None /\ holdsL pc1 = holdsL pc /\ hdepth pc = hdepth pc1 + 1 /\ forall q, pc1 <> Chosen q)
    as (HP & Ho & Ho1 & Hst1 & HP1 & HL1 & HD & HC) by (by destruct Hx as [(-> & -> & _)|(-> & -> & _)]).
  destruct (HO p Ho) as (Hst & Hpr & A & Hr). pose proof (hdepth_range pc1).
  assert (t_state (woken x (th s i)) = t_state (th s i) \/ t_state (th s i) = SLEEPING /\ t_state (woken x (th s i)) = RUNNABLE) as Hw.
  { unfold woken. case_decide as D; [right; by destruct D | by left]. }
  assert (t_resume (woken x (th s i)) = t_resume (th s i)) as Hre by (unfold woken; by case_decide).
  assert (t_chan (woken x (th s i)) = t_chan (th s i)) as Hcn by (unfold woken; by case_decide).
  split_and!; [apply locks_mk | apply own_mk | by apply (wake_woken s c pc pc1 p i x)];
    try apply I; cbn [h_pc h_cpu h_proc tlock t_lock t_state t_resume popped noff]; rewrite ?Hpc; eauto.
  - lia.
  - intros Hp. apply popped_sie; [apply S; lia | lia].
  - right. rewrite (Hl i HP). auto.
  - left. congruence.
  - intros q Hq. assert (q = p) as -> by congruence. split; [| done]. case_decide as D; [subst | by apply Hst1].
    destruct Hw as [->|[E _]]; [by apply Hst1 |]. by destruct (Ha E).
  - destruct Hw as [->|[E _]]; [by left | right; by destruct (Ha E)].
  - intros E. destruct Hw as [Hw|[_ Hw]]; [| congruence]. rewrite <- Hw, Ho1, Ho.
    destruct (decide (i = p)) as [->|]; [by left | right; split; [done | congruence]].
  - intros q _ Hq. congruence.
  - intros q Hq. by destruct (HC q).
  - intros Hq. by assert (i = p) as -> by congruence.
  - rewrite Hre. intros X%(oo_exit _ (proj1 (proj2 I))). destruct Hw as [->|[? _]]; [done | congruence].
Qed.

(** The tested change of the entry, then [release]. *)
Lemma step_woken s c pc pc1 p i x (m : M ssys unit) : sinv s -> h_pc (hs s c) = pc -> wakes pc pc1 p i x ->
  (m s = Ok tt (Ssys (upd (th s) i (woken x (th s i))) (hs s) (lk s) (cond s)) \/ woken x (th s i) = th s i /\ m s = Ok tt s) ->
  wp (m ;;; release_p c i (goto c pc1)) (fun _ => sinv) s.
Proof.
  intros I Hpc Hx Hm. pose proof (sinv_woken s c pc pc1 p i x I Hpc Hx) as I'.
  destruct (at_pc s c _ I Hpc) as (N & S & Hl & _).
  assert (holdsP pc = Some i /\ 1 <= hdepth pc <= 2) as [HP HD] by (by destruct Hx as [[-> _]|[-> _]]).
  assert (t_lock (woken x (th s i)) = Some c) as Hlw by (unfold woken; case_decide; by rewrite <- (Hl i HP)).
  apply wp_bind, wp_ok. destruct Hm as [Hm|[Hw Hm]]; eexists _, _; (split; [exact Hm |]);
    (apply (wp_release_p c i _ _ (h_cpu (hs s c))); [apply S; lia | lia | done | cbn; rewrite ?upd_eq; congruence |]);
    apply wp_modify; eapply sinv_seqv, I'; [| rewrite Hw]; seqv_tac.
Qed.

Lemma step_wakeup_one s c p i : sinv s -> h_pc (hs s c) = WakeOne p i -> wp (wakeup_one c p i) (fun _ => sinv) s.
Proof.
  intros I Hpc. unfold wakeup_one. apply wp_bind, wp_gets.
  apply (step_woken s c (WakeOne p i) (Waking p (S i)) p i ch); [done | done | by left |].
  unfold woken. case_decide; [by left | by right].
Qed.

Lemma step_wakeup1 s c p i : sinv s -> h_pc (hs s c) = Wake1 p i -> wp (wakeup1_release c p i) (fun _ => sinv) s.
Proof.
  intros I Hpc. unfold wakeup1_release. apply wp_bind, wp_gets.
  destruct (at_pc s c _ I Hpc) as (_ & _ & Hl & _). rewrite decide_False by (rewrite (Hl i eq_refl); auto).
  apply (step_woken s c (Wake1 p i) (Run p) p i (ChProc i)); [done | done | by right |].
  unfold woken. repeat case_decide; [by left | tauto | tauto | by right].
Qed.

(** [wait] and [exit] take a process lock. *)
Lemma step_take s c p i pc1 : sinv s -> h_pc (hs s c) = Run p ->
  (pc1 = Own p /\ i = p \/ pc1 = Wake1 p i) -> wp (acquire_p c i (goto c pc1)) (fun _ => sinv) s.
Proof.
  intros I Hpc H1. apply wp_acquire_p; [done | by rewrite Hpc |]. intros Hl. apply wp_modify.
  destruct (pushed_ok s c I) as [N S]. rewrite Hpc in N.
  destruct (at_pc s c _ I Hpc) as (_ & _ & _ & _ & HO). destruct (HO p eq_refl) as (Hst & Hpr & A & Hr). destruct I as (L & O & W).
  assert (owns pc1 = Some p /\ holdsP pc1 = Some i /\ holdsL pc1 = false /\ wk pc1 = None /\ slp pc1 = None /\
    (forall st, st_ok pc1 st <-> st = RUNNING) /\ (forall q, pc1 <> Chosen q) /\ (forall q, pc1 <> SleepLk q))
    as (Ho1 & HP1 & HL1 & Hw1 & Hs1 & Hst1 & HC1 & HK1) by (by destruct H1 as [[-> ->]| ->]).
  becomes s i (tlock (Some c) (th s i)) c (Hart (pushed (h_cpu (hs s c))) (h_proc (hs s c)) pc1) (lk s) Hpc.
  - unfold hdepth. rewrite HP1, HL1. done.
  - right. auto.
  - intros q Hq. assert (q = p) as -> by congruence. split; [apply Hst1; case_decide; by subst | done].
  - intros E. rewrite Ho1. destruct (decide (i = p)) as [->|]; [by left | right; split; [done | congruence]].
  - intros q _ Hq. congruence.
  - intros q Hq. by destruct (HC1 q).
  - intros Hq. by assert (i = p) as -> by congruence.
  - intros q Hq. congruence.
  - intros q Hq. by destruct (HK1 q).
Qed.

Lemma step_sleep_own s c p : sinv s -> h_pc (hs s c) = Own p -> wp (sleep_own c p) (fun _ => sinv) s.
Proof.
  intros I Hpc. apply wp_bind, wp_modify, wp_modify.
  destruct (at_pc s c _ I Hpc) as (N & S & Hl & _ & HO). destruct (HO p eq_refl) as (Hst & Hpr & A & Hr). destruct I as (L & O & W).
  becomes s p (tstate SLEEPING (tchan (Some (ChProc p)) (th s p))) c (Hart (h_cpu (hs s c)) (h_proc (hs s c)) (Switch p ROwn)) (lk s) Hpc.
  - intros q [= <-]. by rewrite decide_True.
  - intros X%(oo_exit _ O). cbn in Hst. congruence.
  - intros _ [= X]. by destruct (Hch p).
Qed.

(** ** All runs *)

(** All CPUs are about to scan the process table, no lock is held, and nobody
    runs or sleeps. *)
Definition sched_start s : Prop :=
  (forall c, h_pc (hs s c) = Scan /\ noff (h_cpu (hs s c)) = 0) /\
  (forall p, t_lock (th s p) = None /\ t_resume (th s p) = RFirst /\ t_state (th s p) <> RUNNING /\ t_state (th s p) <> SLEEPING) /\
  lk s = None.

Lemma sinv_start s : sched_start s -> sinv s.
Proof.
  intros (Hc & Hp & Hl).
  assert (forall c, h_pc (hs s c) = Scan) as Hpc by apply Hc.
  assert (forall p, ~ going s p) as Hg.
  { intros p [[E _]|[c E]]; [by apply Hp in E | by rewrite Hpc in E]. }
  split_and!; split; intros *; rewrite ?Hpc; cbn; try done.
  - apply Hc.
  - by destruct (Hp p) as (-> & _).
  - by rewrite Hl.
  - intros E. by apply Hp in E.
  - by intros [?|?].
  - destruct (Hp p) as (_ & -> & _). done.
  - intros _ p Hx. by apply Hg in Hx.
  - intros Hx. by apply Hg in Hx.
Qed.

Lemma sinv_step s o : sinv s -> sstep s o -> exists s', o = Ok tt s' /\ sinv s'.
Proof.
  intros I St.
  assert (exists m, o = m s /\ wp m (fun _ => sinv) s) as (m & -> & Hm).
  { destruct St; eexists; (split; [reflexivity |]); [by apply step_round | by apply step_scan | by apply step_chosen | by apply step_after | by apply step_back
      | by apply step_give_up; auto | by apply step_give_up; auto | by apply step_sched | by apply step_lock | by apply step_unlock
      | by apply step_set | by apply step_use | by apply step_sleep | by apply step_sleep_release | by apply step_sleep_mark
      | by apply step_wakeup_lock | by apply step_wakeup_one
      | by apply (step_take s c p p); auto | by apply (step_release s c p (Own p)); auto | by apply step_sleep_own
      | by apply (step_take s c p i); auto | by apply step_wakeup1]. }
  apply wp_ok in Hm as ([] & s' & E & I'). eauto.
Qed.

Lemma sinv_reach s0 o : sched_start s0 -> sreach s0 o -> exists s, o = Ok tt s /\ sinv s.
Proof.
  intros H0%sinv_start Hr. remember o as o' eqn:Eo. clear Eo. induction Hr as [|s o' Hr (s' & [= <-] & I) St]; [eauto |].
  by apply (sinv_step s).
Qed.


(** C2: no wakeup is lost: whenever the condition holds and its lock is free,
    no process is asleep on the channel, and none is on its way to sleep
    between giving the lock up and marking itself SLEEPING. *)
Theorem no_lost_wakeup s0 s : sched_start s0 -> sreach s0 (Ok tt s) -> cond s = true -> lk s = None ->
  forall p, ~ (t_state (th s p) = SLEEPING /\ t_chan (th s p) = Some ch) /\ forall c, h_pc (hs s c) <> SleepP p.
Proof.
  intros H0 Hr Hb Hl. destruct (sinv_reach s0 _ H0 Hr) as (s' & [= <-] & (L & O & W)).
  assert (forall p, ~ going s p) as Hg.
  { intros p (c & i & E & _)%(wo_wake _ W Hb). assert (holdsL (h_pc (hs s c)) = true) as X%(lo_lk _ L); [| congruence].
    by destruct (h_pc (hs s c)). }
  intros p. split; [intros E; apply (Hg p); by left | intros c E; apply (Hg p); right; exists c; by rewrite E].
Qed.

End sched.

(** ** A run: process 0 sleeps, process 1 sets the condition and wakes it *)

Definition start0 : ssys :=
  Ssys (fun _ => Thread RUNNABLE None None RFirst false) (fun _ => Hart (Cpu 0 0 false) None Scan) None false.

Lemma start0_ok : sched_start start0.
Proof. by split_and!. Qed.

Definition is_ok (o : outcome ssys unit) : bool := match o with Ok _ _ => true | _ => false end.
Definition state_of (o : outcome ssys unit) : ssys := match o with Ok _ s => s | _ => start0 end.

Lemma sreach_next n x s0 s o : sreach n x s0 (Ok tt s) -> sstep n x s o -> is_ok o = true -> sreach n x s0 (Ok tt (state_of o)).
Proof. intros R St Ho. destruct o as [[] s'| | |]; try done. by apply (SStep n x s0 s). Qed.

(** Extend the run [R] by the step [st]. *)
Tactic Notation "next" hyp(R) uconstr(st) :=
  eapply sreach_next in R; [| solve [eapply st; first [reflexivity | left; reflexivity | lia]] | reflexivity].
Tactic Notation "runs" hyp(R) constr(c) constr(p) :=
  next R (SScan 2 ChTicks _ c p); next R (SChosen 2 ChTicks _ c p); next R (SBack 2 ChTicks _ c p).

Lemma wakeup_run : exists s, sreach 2 ChTicks start0 (Ok tt s) /\ cond s = true /\ lk s = None /\
  h_pc (hs s 0%nat) = Run 1 /\ t_state (th s 0%nat) = RUNNABLE.
Proof.
  pose proof (SInit 2 ChTicks start0) as R. next R (SRound 2 ChTicks _ 0%nat). runs R 0%nat 0%nat.
  next R (SLock 2 ChTicks _ 0%nat 0%nat). next R (SSleep 2 ChTicks _ 0%nat 0%nat).
  next R (SSleep2 2 ChTicks _ 0%nat 0%nat). next R (SSleep3 2 ChTicks _ 0%nat 0%nat).
  next R (SSwitch 2 ChTicks _ 0%nat 0%nat RSleep). next R (SAfter 2 ChTicks _ 0%nat 0%nat).
  runs R 0%nat 1%nat. next R (SLock 2 ChTicks _ 0%nat 1%nat). next R (SSet 2 ChTicks _ 0%nat 1%nat).
  next R (SWake 2 ChTicks _ 0%nat 1%nat 0%nat). next R (SWakeOne 2 ChTicks _ 0%nat 1%nat 0%nat).
  next R (SWake 2 ChTicks _ 0%nat 1%nat 1%nat). next R (SWakeOne 2 ChTicks _ 0%nat 1%nat 1%nat).
  next R (SWake 2 ChTicks _ 0%nat 1%nat 2%nat). next R (SUnlock 2 ChTicks _ 0%nat 1%nat).
  eexists. split; [exact R |]. repeat split; vm_compute; reflexivity.
Qed.


Lemma no_lost_wakeup_witness : exists s, sreach 2 ChTicks start0 (Ok tt s) /\ cond s = true /\ lk s = None /\
  forall p, ~ (t_state (th s p) = SLEEPING /\ t_chan (th s p) = Some ChTicks) /\ forall c, h_pc (hs s c) <> SleepP p.
Proof.
  destruct wakeup_run as (s & R & Hb & Hl & _). exists s. split_and!; [done | done | done |].
  exact (no_lost_wakeup 2 ChTicks ltac:(done) start0 s start0_ok R Hb Hl).
Defined.
