(* ===== verification/Ulib.v ===== *)
(** * user/ulib.c, user/printf.c and user/wc.c

    The C library of the user programs, over byte memory and views as
    kernel/string.c is: string and memory functions, [gets], [atoi], and the
    printing functions as the characters they write.  The memory functions
    agree with the kernel's; a number printed with [%d] is read back by
    [atoi]; [strcmp] orders strings; [wc] counts, however its input is cut
    into reads. *)

From S2P Require Import Prelude Mem KString Printf.

(** ** ulib.c *)

(** Loops up to a terminating NUL take fuel. *)
Fixpoint strcpy (fuel : nat) (m : mem) (s t : Z) : option mem :=
  match fuel with
  | O => None
  | S fuel' =>
      let c := ld8 m t in
      let m := st8 m s c in
      if c =? 0 then Some m else strcpy fuel' m (s + 1) (t + 1)
  end.

Fixpoint strcmp (fuel : nat) (p q : Z -> Z) (i : Z) : option Z :=
  match fuel with
  | O => None
  | S fuel' =>
      if negb (p i =? 0) && (p i =? q i) then strcmp fuel' p q (i + 1)
      else Some (p i - q i)
  end.

Fixpoint strlen (fuel : nat) (s : Z -> Z) (n : Z) : option Z :=
  match fuel with
  | O => None
  | S fuel' => if s n =? 0 then Some (u32 n) else strlen fuel' s (n + 1)
  end.

Fixpoint memset (n : nat) (m : mem) (dst c i : Z) : mem :=
  match n with
  | O => m
  | S n' => memset n' (st8 m (dst + i) c) dst c (i + 1)
  end.

(** The offset of the character found. *)
Fixpoint strchr (fuel : nat) (s : Z -> Z) (c i : Z) : option (option Z) :=
  match fuel with
  | O => None
  | S fuel' =>
      if s i =? 0 then Some None
      else if s i =? c then Some (Some i)
      else strchr fuel' s c (i + 1)
  end.

Definition NL : Z := 10.
Definition CR : Z := 13.

(** The loop of [gets]; [input] holds the characters [read] still returns, one
    per call: the characters stored, and the input left. *)
Fixpoint gets_loop (room : nat) (input : list Z) : list Z * list Z :=
  match room with
  | O => ([], input)
  | S room' =>
      match input with
      | [] => ([], [])
      | c :: input' =>
          if (c =? NL) || (c =? CR) then ([c], input')
          else let '(l, rest) := gets_loop room' input' in (c :: l, rest)
      end
  end.

(** What [gets] leaves in [buf], up to and including the NUL. *)
Definition gets (max : Z) (input : list Z) : list Z * list Z :=
  let '(l, rest) := gets_loop (Z.to_nat (max - 1)) input in (l ++ [0], rest).

Fixpoint atoi (fuel : nat) (s : Z -> Z) (i n : Z) : option Z :=
  match fuel with
  | O => None
  | S fuel' =>
      if (48 <=? s i) && (s i <=? 57) then atoi fuel' s (i + 1) (s32 (n * 10 + s i - 48))
      else Some n
  end.

Definition memmove (m : mem) (dst src n : Z) : mem :=
  if dst <? src then KString.move_up (Z.to_nat n) m dst src
  else KString.move_down (Z.to_nat n) m (dst + n) (src + n).

Fixpoint memcmp (n : nat) (p1 p2 : Z -> Z) (i : Z) : Z :=
  match n with
  | O => 0
  | S n' => if negb (p1 i =? p2 i) then p1 i - p2 i else memcmp n' p1 p2 (i + 1)
  end.

Definition memcpy (m : mem) (dst src n : Z) : mem := memmove m dst src (s32 n).

(** [stat]: [open], [fstat] and [close] are the system calls. *)
Section stat.
Context {W : Type} (open : list Z -> Z -> M W Z) (fstat : Z -> M W Z) (close : Z -> M W Z).

Definition stat (n : list Z) : M W Z :=
  let! fd := open n 0 in
  if fd <? 0 then ret (-1)
  else
    let! r := fstat fd in
    close fd ;;;
    ret r.
End stat.

(** ** printf.c: the characters written, in order *)

Definition digits : list Z := [48; 49; 50; 51; 52; 53; 54; 55; 56; 57; 65; 66; 67; 68; 69; 70].
Definition digit (d : Z) : Z := default 0 (digits !! Z.to_nat d).

Fixpoint digit_loop (fuel : nat) (x base : Z) : option (list Z) :=
  match fuel with
  | O => None
  | S fuel' =>
      let q := x / base in
      if q =? 0 then Some [digit (x mod base)]
      else option_map (cons (digit (x mod base))) (digit_loop fuel' q base)
  end.

Definition printint (xx base : Z) (sgn : bool) : option (list Z) :=
  let neg := sgn && (xx <? 0) in
  let x := if neg then u32 (- xx) else u32 xx in
  option_map (fun buf => rev (if neg then buf ++ [MINUS] else buf)) (digit_loop digit_fuel x base).

Fixpoint printptr_loop (k : nat) (x : Z) : list Z :=
  match k with
  | O => []
  | S k' => digit (Z.shiftr x 60) :: printptr_loop k' (u64 (Z.shiftl x 4))
  end.

Definition printptr (x : Z) : list Z := 48 :: 120 :: printptr_loop 16 x.

(** [vprintf]: [state] is [true] after a percent sign; the arguments are the
    words [va_arg] takes, and [None] is returned when there are too few. *)
Fixpoint vprintf (str : Z -> list Z) (fmt : list Z) (state : bool) (ap : list Z) : option (list Z) :=
  match fmt with
  | [] => Some []
  | c :: fmt' =>
      if negb state then
        if c =? PERCENT then vprintf str fmt' true ap
        else option_map (cons c) (vprintf str fmt' false ap)
      else
        let arg (f : Z -> option (list Z)) :=
          match ap with
          | [] => None
          | a :: ap' => match f a with Some out => option_map (app out) (vprintf str fmt' false ap') | None => None end
          end in
        if c =? 100 then arg (fun a => printint (s32 a) 10 true)
        else if c =? 108 then arg (fun a => printint (s32 a) 10 false)
        else if c =? 120 then arg (fun a => printint (s32 a) 16 false)
        else if c =? 112 then arg (fun a => Some (printptr (u64 a)))
        else if c =? 115 then arg (fun a => Some (if a =? 0 then null_str else str a))
        else if c =? 99 then arg (fun a => Some [u8 a])
        else if c =? PERCENT then option_map (cons c) (vprintf str fmt' false ap)
        else option_map (fun out => PERCENT :: c :: out) (vprintf str fmt' false ap)
  end.

(** The file descriptor, and what is written to it. *)
Definition fprintf (str : Z -> list Z) (fd : Z) (fmt ap : list Z) : option (Z * list Z) :=
  option_map (pair fd) (vprintf str fmt false ap).
Definition printf (str : Z -> list Z) (fmt ap : list Z) : option (Z * list Z) := fprintf str 1 fmt ap.

(** ** wc.c *)

Record wcount := Wcount { wl : Z; ww : Z; wc_c : Z; inword : bool }.

(** [strchr(" \r\t\n\v", buf[i])] *)
Definition blanks : list Z := [32; 13; 9; 10; 11].
Definition is_blank (c : Z) : bool :=
  match strchr 6 (lview blanks) c 0 with Some (Some _) => true | _ => false end.

Definition wc_char (s : wcount) (b : Z) : wcount :=
  let c := s32 (wc_c s + 1) in
  let l := if b =? NL then s32 (wl s + 1) else wl s in
  if is_blank b then Wcount l (ww s) c false
  else if negb (inword s) then Wcount l (s32 (ww s + 1)) c true
  else Wcount l (ww s) c (inword s).

Definition wc_buf (s : wcount) (buf : list Z) : wcount := foldl wc_char s buf.

(** The loop over [read]; a negative result of [read] is [None]. *)
Fixpoint wc_loop (s : wcount) (reads : list (option (list Z))) : option wcount :=
  match reads with
  | [] => Some s
  | None :: _ => None
  | Some [] :: _ => Some s
  | Some buf :: reads' => wc_loop (wc_buf s buf) reads'
  end.

Definition wc (str : Z -> list Z) (reads : list (option (list Z))) (name : Z) : option (list Z) :=
  match wc_loop (Wcount 0 0 0 false) reads with
  | None => option_map snd (printf str (zstr "wc: read error" ++ [NL]) [])
  | Some s => option_map snd (printf str (zstr "%d %d %d %s" ++ [NL]) [wl s; ww s; wc_c s; name])
  end.

(** ** Memory and strings *)

Lemma memmove_agrees m dst src n x : ld8 (memmove m dst src n) x = ld8 (KString.memmove m dst src n) x.
Proof.
  rewrite KString.ld8_memmove. unfold memmove. destruct (decide (0 <= n)) as [Hn|Hn].
  - destruct (Z.ltb_spec dst src).
    + rewrite KString.ld8_move_up by lia. repeat case_decide; done || lia.
    + rewrite KString.ld8_move_down by lia. repeat case_decide; try (done || lia). f_equal. lia.
  - replace (Z.to_nat n) with O by lia. cbn. rewrite decide_False by lia. by destruct (_ <? _).
Qed.

Lemma memset_agrees n m dst c i : memset n m dst c i = KString.memset_loop n m dst c i.
Proof. revert m i. induction n as [|n IH]; intros m i; cbn; [done | apply IH]. Qed.

Lemma memcmp_agrees n p q i : memcmp n p q i = KString.memcmp_loop n p q i.
Proof. revert i. induction n as [|n IH]; intros i; cbn; [done |]. destruct (p i =? q i); cbn; [apply IH | done]. Qed.

(** A string and its NUL, copied upwards without running into itself. *)
Lemma strcpy_correct fuel m s t l : Forall (fun c => 0 < c < 256) l -> (length l < fuel)%nat -> bytes m t (S (length l)) = l ++ [0] ->
  s <= t \/ t + Z.of_nat (length l) < s ->
  exists m', strcpy fuel m s t = Some m' /\ bytes m' s (S (length l)) = l ++ [0] /\
    forall x, x < s \/ s + Z.of_nat (length l) < x -> ld8 m' x = ld8 m x.
Proof.
  revert fuel m s t. induction l as [|c l IH]; intros [|fuel] m s t Hl Hf Hb Hov; cbn [length] in *; try lia; cbn [strcpy].
  - cbn in Hb. injection Hb as Hb. rewrite Hb. cbn [Z.eqb]. eexists. split_and!; [done | cbn; by rewrite ld8_st8, decide_True |].
    intros x Hx. apply ld8_st8_ne. lia.
  - apply Forall_cons in Hl as [Hc Hl]. cbn [bytes app] in Hb. injection Hb as Hb1 Hb2. rewrite Hb1, (proj2 (Z.eqb_neq _ _)) by lia.
    destruct (IH fuel (st8 m s c) (s + 1) (t + 1)) as (m' & E & B & F); [done | lia | | lia |].
    + rewrite <- Hb2. change (ld8 m (t + 1) :: bytes m (t + 1 + 1) (length l)) with (bytes m (t + 1) (S (length l))). apply bytes_ext. intros i Hi. apply ld8_st8_ne. lia.
    + exists m'. split_and!; [done | |].
      * change (ld8 m' s :: bytes m' (s + 1) (S (length l)) = c :: l ++ [0]). rewrite B, F by lia.
        rewrite ld8_st8, decide_True by done. by rewrite u8_small by lia.
      * intros x Hx. rewrite F by lia. apply ld8_st8_ne. lia.
Qed.

(** The order of C strings. *)
Fixpoint lex (a b : list Z) : comparison :=
  match a, b with
  | [], [] => Eq
  | [], _ => Lt
  | _, [] => Gt
  | x :: a', y :: b' => match x ?= y with Eq => lex a' b' | r => r end
  end.

Lemma strcmp_ext fuel p q p' q' i j : (forall k, 0 <= k -> p (i + k) = p' (j + k) /\ q (i + k) = q' (j + k)) ->
  strcmp fuel p q i = strcmp fuel p' q' j.
Proof.
  revert i j. induction fuel as [|fuel IH]; intros i j H; cbn [strcmp]; [done |]. destruct (H 0 ltac:(lia)) as [Hp Hq]. rewrite !Z.add_0_r in *.
  rewrite Hp, Hq, (IH (i + 1) (j + 1)); [done |]. intros k Hk. rewrite <- !Z.add_assoc. apply H. lia.
Qed.

Lemma lview_cons c l k : 0 <= k -> lview (c :: l) (1 + k) = lview l k.
Proof. intros Hk. unfold lview. replace (Z.to_nat (1 + k)) with (S (Z.to_nat k)) by lia. done. Qed.

(** [strcmp] decides the order of two strings, whatever follows their NULs. *)
Lemma strcmp_correct fuel a b ra rb : Forall (fun c => 0 < c < 256) a -> Forall (fun c => 0 < c < 256) b -> (length a < fuel)%nat ->
  exists r, strcmp fuel (lview (a ++ 0 :: ra)) (lview (b ++ 0 :: rb)) 0 = Some r /\ lex a b = (r ?= 0).
Proof.
  intros Ha. revert fuel b. induction Ha as [|x a Hx Ha IH]; intros [|fuel] b Hb Hf; cbn [length] in *; try lia; cbn [strcmp].
  - change (lview ([] ++ 0 :: ra) 0) with 0. cbn [Z.eqb negb andb]. destruct Hb as [|y b Hy Hb]; [by exists 0 |].
    change (lview ((y :: b) ++ 0 :: rb) 0) with y. exists (0 - y). split; [done |]. cbn [lex]. symmetry. apply Z.compare_lt_iff. lia.
  - destruct Hb as [|y b Hy Hb].
    + change (lview ((x :: a) ++ 0 :: ra) 0) with x. change (lview ([] ++ 0 :: rb) 0) with 0. rewrite (proj2 (Z.eqb_neq x 0)) by lia. cbn [negb andb lex].
      eexists. split; [done |]. symmetry. apply Z.compare_gt_iff. lia.
    + change (lview ((x :: a) ++ 0 :: ra) 0) with x. change (lview ((y :: b) ++ 0 :: rb) 0) with y. rewrite (proj2 (Z.eqb_neq x 0)) by lia. cbn [negb andb lex].
      destruct (Z.eqb_spec x y) as [->|Hne].
      * rewrite Z.compare_refl. destruct (IH fuel b Hb ltac:(lia)) as (r & E & Hr). exists r. split; [| done]. rewrite <- E.
        apply strcmp_ext. intros k Hk. cbn [app]. rewrite !lview_cons by done. done.
      * eexists. split; [done |]. destruct (Z.compare_spec x y); [done | symmetry; apply Z.compare_lt_iff; lia | symmetry; apply Z.compare_gt_iff; lia].
Qed.

(** The line [gets] returns: at most [max - 1] characters, up to and including
    the first end of line. *)
Lemma gets_loop_spec room input l rest : gets_loop room input = (l, rest) ->
  input = l ++ rest /\ (length l <= room)%nat /\
  (exists l0 c, l = l0 ++ [c] /\ (c = NL \/ c = CR) /\ Forall (fun x => x <> NL /\ x <> CR) l0) \/
  input = l ++ rest /\ Forall (fun x => x <> NL /\ x <> CR) l /\ (length l = room \/ rest = [] /\ length l <= room)%nat.
Proof.
  revert input l rest. induction room as [|room IH]; intros input l rest; cbn [gets_loop].
  - injection 1 as <- <-. right. split_and!; [done | done | by left].
  - destruct input as [|c input]; [injection 1 as <- <-; right; split_and!; [done | done | right; split; [done | cbn; lia]] |].
    destruct (Z.eqb_spec c NL), (Z.eqb_spec c CR); cbn [orb]; try (injection 1 as <- <-; left; split_and!; [done | cbn; lia | exists [], c; auto]).
    destruct (gets_loop room input) as [l0 r0] eqn:E. injection 1 as <- <-. destruct (IH _ _ _ E) as [(-> & Hl & l1 & d & -> & Hd & Hn)|(-> & Hn & Hl)].
    + left. split_and!; [done | cbn; lia |]. exists (c :: l1), d. split_and!; [done | done | by constructor].
    + right. split_and!; [done | by constructor |]. destruct Hl as [<-|[-> Hl]]; [by left | right; split; [done | cbn; lia]].
Qed.

(** ** Numbers *)

(** The hexadecimal digits are capital. *)
Definition upper (c : Z) : Z := if c <? 97 then c else c - 32.

Lemma digit_upper d : 0 <= d < 16 -> digit d = upper (Printf.digit d).
Proof.
  intros. assert (d = 0 \/ d = 1 \/ d = 2 \/ d = 3 \/ d = 4 \/ d = 5 \/ d = 6 \/ d = 7 \/ d = 8 \/ d = 9 \/
    d = 10 \/ d = 11 \/ d = 12 \/ d = 13 \/ d = 14 \/ d = 15) as Hd by lia.
  by repeat destruct Hd as [-> | Hd]; subst.
Qed.

Lemma digit_loop_upper fuel x base : 2 <= base <= 16 -> 0 <= x -> digit_loop fuel x base = option_map (map upper) (Printf.digit_loop fuel x base).
Proof.
  intros Hb. revert x. induction fuel as [|fuel IH]; intros x Hx; cbn [digit_loop Printf.digit_loop]; [done |].
  pose proof (Z.mod_pos_bound x base ltac:(lia)). rewrite digit_upper by lia. destruct (_ =? 0); [done |].
  rewrite IH by (apply Z.div_pos; lia). by destruct (Printf.digit_loop _ _ _).
Qed.

(** The user library prints what the kernel prints, in capitals. *)
Lemma printint_upper xx base sgn : 2 <= base <= 16 -> printint xx base sgn = option_map (map upper) (Printf.printint xx base sgn).
Proof.
  intros Hb. unfold printint, Printf.printint, printint_buf. set (neg := sgn && _).
  rewrite digit_loop_upper by (done || (destruct neg; apply u32_range)). destruct (Printf.digit_loop _ _ _) as [ds|]; cbn [option_map]; [| done].
  f_equal. rewrite map_rev. destruct neg; [by rewrite map_app | done].
Qed.

Definition is_digit (c : Z) : Prop := 48 <= c <= 57.

Lemma atoi_ext fuel p q i j n : (forall k, 0 <= k -> p (i + k) = q (j + k)) -> atoi fuel p i n = atoi fuel q j n.
Proof.
  revert i j n. induction fuel as [|fuel IH]; intros i j n H; cbn [atoi]; [done |]. pose proof (H 0 ltac:(lia)) as H0. rewrite !Z.add_0_r in H0.
  rewrite H0. destruct (_ && _); [| done]. apply IH. intros k Hk. rewrite <- !Z.add_assoc. apply H. lia.
Qed.

(** [atoi] on decimal digits up to something else, without overflow. *)
Lemma atoi_digits fuel ds c rest n : Forall is_digit ds -> ~ is_digit c -> (length ds < fuel)%nat -> 0 <= n ->
  n * 10 ^ Z.of_nat (length ds) + num_val 10 ds < 2 ^ 31 ->
  atoi fuel (lview (ds ++ c :: rest)) 0 n = Some (n * 10 ^ Z.of_nat (length ds) + num_val 10 ds).
Proof.
  intros Hd Hc. revert fuel n. induction Hd as [|d ds Hd Hds IH]; intros [|fuel] n Hf Hn Hmax; cbn [length] in *; try lia; cbn [atoi].
  - change (lview ([] ++ c :: rest) 0) with c. unfold is_digit in Hc. rewrite (proj2 (andb_false_iff _ _)) by lia. cbn. f_equal. lia.
  - change (lview ((d :: ds) ++ c :: rest) 0) with d. unfold is_digit in Hd. rewrite (proj2 (Z.leb_le _ _)), (proj2 (Z.leb_le _ _)) by lia. cbn [andb].
    rewrite num_val_cons in *. unfold digit_val in *. rewrite (proj2 (Z.ltb_lt _ _)) in * by lia. rewrite Nat2Z.inj_succ, Z.pow_succ_r in * by lia.
    assert (0 < 10 ^ Z.of_nat (length ds)) as Hp by (apply Z.pow_pos_nonneg; lia).
    assert (0 <= num_val 10 ds) as Hv.
    { clear -Hds. induction Hds as [|e l He _ IH]; [done |]. rewrite num_val_cons. unfold digit_val, is_digit in *. rewrite (proj2 (Z.ltb_lt _ _)) by lia.
      assert (0 <= 10 ^ Z.of_nat (length l)) by (apply Z.pow_nonneg; lia). nia. }
    rewrite s32_small by nia. rewrite (atoi_ext _ _ (lview (ds ++ c :: rest)) (0 + 1) 0), IH; [f_equal; ring | lia | lia | |].
    + replace ((n * 10 + d - 48) * 10 ^ Z.of_nat (length ds)) with (n * (10 * 10 ^ Z.of_nat (length ds)) + (d - 48) * 10 ^ Z.of_nat (length ds)) by ring. lia.
    + intros k Hk. cbn [app]. rewrite Z.add_0_l. by rewrite lview_cons, Z.add_0_l by lia.
Qed.

Lemma digit_loop_decimal fuel x ds : 0 <= x -> Printf.digit_loop fuel x 10 = Some ds -> Forall is_digit ds.
Proof.
  revert x ds. induction fuel as [|fuel IH]; intros x ds Hx; cbn [Printf.digit_loop]; [done |].
  assert (is_digit (Printf.digit (x mod 10))) as Hd.
  { pose proof (Z.mod_pos_bound x 10 ltac:(lia)) as Hm. assert (Forall is_digit (take 10 Printf.digits)) as Ht by (repeat constructor; unfold is_digit; lia).
    apply (Forall_lookup_1 _ _ (Z.to_nat (x mod 10)) _ Ht). rewrite lookup_take_lt by lia. unfold Printf.digit.
    destruct (lookup_lt_is_Some_2 Printf.digits (Z.to_nat (x mod 10))) as [y Hy]; [cbn; lia | by rewrite Hy]. }
  destruct (_ =? 0); [intros [= <-]; by constructor |]. destruct (Printf.digit_loop fuel (x / 10) 10) as [ds'|] eqn:E; cbn [option_map]; [| done].
  intros [= <-]. constructor; [done |]. eapply IH; [| done]. apply Z.div_pos; lia.
Qed.

Lemma map_upper_digits ds : Forall is_digit ds -> map upper ds = ds.
Proof. induction 1 as [|d ds Hd _ IH]; cbn; [done |]. rewrite IH. unfold upper, is_digit in *. by rewrite (proj2 (Z.ltb_lt _ _)) by lia. Qed.

(** What [printint] prints in decimal. *)
Lemma printint_decimal n : - 2 ^ 31 <= n < 2 ^ 31 ->
  exists ds, printint n 10 true = Some ((if n <? 0 then [MINUS] else []) ++ ds) /\ Forall is_digit ds /\ num_val 10 ds = Z.abs n.
Proof.
  intros Hn. rewrite printint_upper by lia. unfold Printf.printint, printint_buf. cbn [andb]. set (x := if n <? 0 then _ else _).
  assert (x = Z.abs n) as Ex by (unfold x; destruct (Z.ltb_spec n 0); rewrite u32_small; lia).
  destruct (digit_loop_spec digit_fuel 10 x 10) as (ds & Hd & Hv & _ & _); [lia | split; [lia | change (x < 10000000000); lia] | unfold digit_fuel; lia | lia |].
  rewrite Hd. cbn [option_map]. pose proof (digit_loop_decimal digit_fuel x ds ltac:(lia) Hd) as Hds. exists (rev ds). rewrite Hv. split_and!; [| by apply Forall_rev | done].
  f_equal. destruct (n <? 0); rewrite ?rev_app_distr, ?map_app; cbn [rev app map]; rewrite map_upper_digits by (by apply Forall_rev); done.
Qed.

(** C31: Round trip.  The characters [printf] writes for an int with [%d] are
    read back by [atoi], whatever character that is no digit follows them; for
    a negative number, whose minus sign [atoi] does not accept, the result
    is 0. *)
Theorem printf_atoi str n : - 2 ^ 31 <= n < 2 ^ 31 ->
  exists out, printf str (zstr "%d") [n] = Some (1, out) /\
    forall fuel c rest, ~ is_digit c -> (length out < fuel)%nat ->
      atoi fuel (lview (out ++ c :: rest)) 0 0 = Some (if n <? 0 then 0 else n).
Proof.
  intros Hn. destruct (printint_decimal n Hn) as (ds & E & Hd & Hv). exists ((if n <? 0 then [MINUS] else []) ++ ds). split.
  - unfold printf, fprintf. 
    change (vprintf str (zstr "%d") false [n]) with (match printint (s32 n) 10 true with Some out => option_map (app out) (Some []) | None => None end).
    rewrite s32_small, E by done. cbn [option_map]. by rewrite app_nil_r.
  - intros fuel c rest Hc Hf. destruct (Z.ltb_spec n 0) as [Hneg|Hpos].
    + destruct fuel; [cbn in Hf; lia |]. cbn [atoi app]. change (lview (MINUS :: ds ++ c :: rest) 0) with MINUS. done.
    + cbn [app] in *. rewrite atoi_digits; [f_equal; lia | done | done | done | lia | lia].
Qed.

Lemma printf_atoi_witness : exists out, printf (fun _ => []) (zstr "%d") [2147483647] = Some (1, out) /\
  atoi 20 (lview (out ++ [0])) 0 0 = Some 2147483647.
Proof.
  destruct (printf_atoi (fun _ => []) 2147483647) as (out & E & H); [lia |]. exists out. split; [exact E |]. apply (H 20%nat 0 []).
  - unfold is_digit. lia.
  - vm_compute in E. injection E as <-. cbn. lia.
Defined.

(** ** wc *)

(** The words of a text, [cur] being the one begun. *)
Fixpoint words (cur : list Z) (l : list Z) : list (list Z) :=
  match l with
  | [] => match cur with [] => [] | _ => [cur] end
  | c :: l' =>
      if is_blank c then match cur with [] => words [] l' | _ => cur :: words [] l' end
      else words (cur ++ [c]) l'
  end.

Definition lines (l : list Z) : Z := Z.of_nat (length (List.filter (Z.eqb NL) l)).

Lemma wc_buf_spec l : forall s cur, inword s = negb (bool_decide (cur = [])) -> 0 <= wl s -> 0 <= ww s -> 0 <= wc_c s ->
  wl s + Z.of_nat (length l) < 2 ^ 31 -> ww s + Z.of_nat (length l) < 2 ^ 31 -> wc_c s + Z.of_nat (length l) < 2 ^ 31 ->
  exists iw, wc_buf s l = Wcount (wl s + lines l) (ww s + Z.of_nat (length (words cur l)) - (if inword s then 1 else 0)) (wc_c s + Z.of_nat (length l)) iw.
Proof.
  induction l as [|c l IH]; intros [sl sw sc iw] cur Hw H1 H2 H3 B1 B2 B3; cbn [inword wl ww wc_c length] in *.
  - exists iw. unfold wc_buf, lines. cbn. rewrite Hw. destruct cur; cbn; f_equal; lia.
  - unfold wc_buf. cbn [foldl]. fold (wc_buf (wc_char (Wcount sl sw sc iw) c) l).
    set (sl' := if c =? NL then sl + 1 else sl). assert (sl' + lines l = sl + lines (c :: l)) as El.
    { unfold sl', lines. cbn [List.filter]. rewrite (Z.eqb_sym NL c). destruct (c =? NL); cbn [length]; lia. }
    assert ((if c =? NL then s32 (sl + 1) else sl) = sl') as E1 by (unfold sl'; destruct (c =? NL); [by rewrite s32_small by lia | done]).
    assert (sl <= sl' <= sl + 1) by (unfold sl'; destruct (c =? NL); lia). unfold wc_char. cbn [wl ww wc_c inword]. rewrite E1, (s32_small (sc + 1)) by lia.
    cbn [words]. destruct (is_blank c).
    + destruct (IH (Wcount sl' sw (sc + 1) false) []) as [iw' ->]; cbn [inword wl ww wc_c]; try done; try lia. exists iw'.
      rewrite Hw. destruct cur; cbn [bool_decide decide negb length]; f_equal; try lia; cbn; lia.
    + destruct iw eqn:Eiw; cbn [negb].
      * destruct (IH (Wcount sl' sw (sc + 1) true) (cur ++ [c])) as [iw' ->]; cbn [inword wl ww wc_c]; try lia; [by destruct cur |].
        exists iw'. f_equal; lia.
      * rewrite s32_small by lia. destruct (IH (Wcount sl' (sw + 1) (sc + 1) true) (cur ++ [c])) as [iw' ->]; cbn [inword wl ww wc_c]; try lia; [by destruct cur |].
        exists iw'. f_equal; lia.
Qed.

Lemma wc_loop_reads s reads : Forall (fun r => r <> []) reads -> wc_loop s (map Some reads) = Some (wc_buf s (concat reads)).
Proof.
  intros Hr. revert s. induction Hr as [|r reads Hne _ IH]; intros s; cbn [map wc_loop concat]; [done |].
  destruct r as [|b r]; [done |]. rewrite IH. unfold wc_buf. by rewrite foldl_app.
Qed.

(** [wc] prints the number of lines, of words (maximal runs of characters
    that are not blank) and of characters of its input, however [read] cuts
    the input into pieces. *)
Theorem wc_correct str reads name : Forall (fun r => r <> []) reads -> let l := concat reads in Z.of_nat (length l) < 2 ^ 31 ->
  wc str (map Some reads) name =
    option_map snd (printf str (zstr "%d %d %d %s" ++ [NL]) [lines l; Z.of_nat (length (words [] l)); Z.of_nat (length l); name]).
Proof.
  intros Hr l Hl. unfold wc. rewrite wc_loop_reads by done. fold l.
  destruct (wc_buf_spec l (Wcount 0 0 0 false) []) as [iw ->]; cbn [wl ww wc_c inword]; try lia; [done |]. by rewrite Z.sub_0_r, !Z.add_0_l.
Qed.

(** Two words over three reads. *)
Lemma wc_witness : wc (fun _ => [102]) (map Some [[97; 98]; [99; 32]; [100; 10]]) 1 = Some [49; 32; 50; 32; 54; 32; 102; 10].
Proof. rewrite (wc_correct (fun _ => [102]) [[97; 98]; [99; 32]; [100; 10]] 1); [by vm_compute | repeat constructor; discriminate | done]. Defined.
