(* ===== verification/Grep.v ===== *)
(** * user/grep.c

    The matcher of regular expressions with [^ . * $], which the source writes
    with backtracking pointers, is shown to decide the language its pattern
    denotes; and the loop that reads the input in pieces of any size into a
    1024-byte buffer is shown to print exactly the lines that match.  A C
    string is the list of its bytes before the NUL. *)

From S2P Require Import Prelude.

Definition CARET : Z := 94.
Definition DOLLAR : Z := 36.
Definition DOT : Z := 46.
Definition STAR : Z := 42.
Definition NL : Z := 10.

(** ** The matcher *)

(** [here] is [matchhere(re, .)]. *)
Fixpoint matchstar (here : list Z -> bool) (c : Z) (text : list Z) : bool :=
  if here text then true
  else
    match text with
    | [] => false
    | t :: text' => if (t =? c) || (c =? DOT) then matchstar here c text' else false
    end.

Fixpoint matchhere (re text : list Z) : bool :=
  match re with
  | [] => true
  | c :: re' =>
      match re' with
      | d :: re'' =>
          if d =? STAR then matchstar (matchhere re'') c text
          else match text with
               | t :: text' => if (c =? DOT) || (c =? t) then matchhere re' text' else false
               | [] => false
               end
      | [] =>
          if c =? DOLLAR then match text with [] => true | _ => false end
          else match text with
               | t :: text' => if (c =? DOT) || (c =? t) then matchhere re' text' else false
               | [] => false
               end
      end
  end.

Fixpoint match_from (re text : list Z) : bool :=
  if matchhere re text then true
  else match text with [] => false | _ :: text' => match_from re text' end.

Definition match_re (re text : list Z) : bool :=
  match re with
  | c :: re' => if c =? CARET then matchhere re' text else match_from re text
  | [] => match_from re text
  end.

(** ** The loop of grep

    [p] is the buffer from the pointer [p] on, up to [buf + m] where the loop
    has put a NUL. *)

(** [strchr(p, '\n')]: what is before the newline, and after it. *)
Fixpoint strchr_nl (p : list Z) : option (list Z * list Z) :=
  match p with
  | [] => None
  | c :: p' =>
      if c =? 0 then None
      else if c =? NL then Some ([], p')
      else match strchr_nl p' with Some (l, r) => Some (c :: l, r) | None => None end
  end.

(** The inner loop: what it writes, and the buffer from the final [p] on.  Each
    round moves [p] by at least one byte. *)
Fixpoint grep_lines (fuel : nat) (pattern p out : list Z) : option (list Z * list Z) :=
  match strchr_nl p with
  | None => Some (out, p)
  | Some (line, p') =>
      match fuel with
      | O => None
      | S fuel' => grep_lines fuel' pattern p' (if match_re pattern line then out ++ line ++ [NL] else out)
      end
  end.

Definition BUFSZ : nat := 1024.

(** [read(fd, buf + m, max)] takes between one and [max] bytes while there are
    any; how many is [chunk], at each call. *)
Definition read_chunk (chunk max : nat) (input : list Z) : list Z * list Z :=
  let n := Nat.min (Nat.max 1 chunk) max in (take n input, drop n input).

(** [kept] are the [m] bytes at the front of the buffer. *)
Fixpoint grep (fuel : nat) (chunks : nat -> nat) (pattern kept input out : list Z) : option (list Z) :=
  let '(got, input') := read_chunk (chunks fuel) (BUFSZ - length kept - 1) input in
  match got with
  | [] => Some out
  | _ =>
      match fuel with
      | O => None
      | S fuel' =>
          let b := kept ++ got in
          match grep_lines (length b) pattern b out with
          | None => None
          | Some (out', p) => grep fuel' chunks pattern p input' out'
          end
      end
  end.

(** ** What a pattern means *)

Inductive item := One (c : Z) | Many (c : Z).

(** A character of the text that [c] stands for. *)
Definition fits (c t : Z) : Prop := c = DOT \/ c = t.

(** The items of a pattern, and whether it ends in [$]. *)
Fixpoint items (re : list Z) : list item * bool :=
  match re with
  | [] => ([], false)
  | c :: re' =>
      match re' with
      | [] => if decide (c = DOLLAR) then ([], true) else ([One c], false)
      | d :: re'' =>
          if decide (d = STAR) then let (l, e) := items re'' in (Many c :: l, e)
          else let (l, e) := items re' in (One c :: l, e)
      end
  end.

Fixpoint lang (l : list item) (s : list Z) : Prop :=
  match l with
  | [] => s = []
  | One c :: l' => exists t s', s = t :: s' /\ fits c t /\ lang l' s'
  | Many c :: l' => exists u s', s = u ++ s' /\ Forall (fits c) u /\ lang l' s'
  end.

(** Some prefix of the text is in the language; all of it, before a [$]. *)
Definition matches_here (re text : list Z) : Prop :=
  exists mid post, text = mid ++ post /\ lang (items re).1 mid /\ ((items re).2 = true -> post = []).

Definition matches (re text : list Z) : Prop :=
  match re with
  | c :: re' =>
      if decide (c = CARET) then matches_here re' text
      else exists pre rest, text = pre ++ rest /\ matches_here re rest
  | [] => exists pre rest, text = pre ++ rest /\ matches_here re rest
  end.

(** ** The matcher is correct *)

Lemma fits_test c t : (c =? DOT) || (c =? t) = true <-> fits c t.
Proof. unfold fits. rewrite orb_true_iff, !Z.eqb_eq. done. Qed.

Lemma matchstar_iff here (P : list Z -> Prop) c text : (forall s, here s = true <-> P s) ->
  matchstar here c text = true <-> exists u s, text = u ++ s /\ Forall (fits c) u /\ P s.
Proof.
  intros Hh. induction text as [|t text IH]; cbn [matchstar].
  - destruct (here []) eqn:E.
    + split; [| done]. intros _. exists [], []. by rewrite <- Hh.
    + split; [done |]. intros (u & s & Hu & _ & Hs). symmetry in Hu. apply app_nil in Hu as [-> ->]. apply Hh in Hs. congruence.
  - destruct (here (t :: text)) eqn:E.
    + split; [| done]. intros _. exists [], (t :: text). by rewrite <- Hh.
    + destruct ((t =? c) || (c =? DOT)) eqn:Et.
      * rewrite IH. assert (fits c t) as Hf by (unfold fits; lia).
        split.
        -- intros (u & s & -> & Hu & Hs). exists (t :: u), s. by split_and!; [| constructor |].
        -- intros (u & s & Hu & Hf' & Hs). destruct u as [|x u]; [cbn in Hu; subst; apply Hh in Hs; congruence |].
           injection Hu as -> ->. inversion Hf'. by exists u, s.
      * split; [done |]. intros (u & s & Hu & Hf & Hs). destruct u as [|x u]; [cbn in Hu; subst; apply Hh in Hs; congruence |].
        injection Hu as -> ->. inversion Hf as [|? ? Hx]; subst. unfold fits in Hx. lia.
Qed.

Lemma matchhere_text c (re' text : list Z) (P : list Z -> Prop) : (forall s, matchhere re' s = true <-> P s) ->
  match text with t :: text' => if (c =? DOT) || (c =? t) then matchhere re' text' else false | [] => false end = true <->
  exists t s, text = t :: s /\ fits c t /\ P s.
Proof.
  intros H. destruct text as [|t s]; [naive_solver |]. pose proof (fits_test c t).
  destruct ((c =? DOT) || (c =? t)); rewrite <- ?H; naive_solver.
Qed.

(** The items in front of those of [re]. *)
Lemma matches_cons re0 it re text : items re0 = (it :: (items re).1, (items re).2) ->
  matches_here re0 text <-> exists s post, text = s ++ post /\ lang [it] s /\ matches_here re post.
Proof.
  intros E. unfold matches_here. rewrite E. cbn [fst snd]. split.
  - intros (mid & post & -> & Hl & He). destruct it as [c|c]; cbn in Hl.
    + destruct Hl as (t & s & -> & Hf & Hl). exists [t], (s ++ post). split_and!; [done | by exists t, [] | by exists s, post].
    + destruct Hl as (u & s & -> & Hf & Hl). exists u, (s ++ post). rewrite app_assoc. split_and!; [done | | by exists s, post].
      exists u, []. by rewrite app_nil_r.
  - intros (s & p & -> & Hs & mid & post & -> & Hl & He). exists (s ++ mid), post. rewrite app_assoc. split_and!; [done | | done].
    destruct it as [c|c]; cbn in *.
    + destruct Hs as (t & s' & -> & Hf & ->). by exists t, mid.
    + destruct Hs as (u & s' & -> & Hf & ->). exists u, mid. by rewrite app_nil_r.
Qed.

Lemma matchhere_iff re : forall text, matchhere re text = true <-> matches_here re text.
Proof.
  induction re as [re IH] using (induction_ltof1 _ length). unfold ltof in IH. intros text.
  destruct re as [|c [|d re'']].
  - cbn. split; [| done]. intros _. by exists [], text.
  - cbn [matchhere]. destruct (c =? DOLLAR) eqn:E.
    + apply Z.eqb_eq in E as ->. unfold matches_here. cbn. destruct text; [split; [| done]; intros _; by exists [], [] |].
      split; [done |]. intros (mid & post & Ht & -> & Hp). by rewrite Hp in Ht.
    + rewrite (matchhere_text c [] text (matches_here [])) by (apply IH; cbn; lia).
      rewrite (matches_cons [c] (One c) []) by (cbn; by rewrite decide_False by lia). split.
      * intros (t & s & -> & Hf & Hm). exists [t], s. split_and!; [done | by exists t, [] | done].
      * intros (s & p & -> & (t & s' & -> & Hf & ->) & Hm). by exists t, p.
  - cbn [matchhere]. destruct (d =? STAR) eqn:E.
    + rewrite (matchstar_iff _ (matches_here re'')) by (apply IH; cbn; lia).
      rewrite (matches_cons (c :: d :: re'') (Many c) re'') by (cbn; rewrite decide_True by lia; by destruct (items re'')).
      split.
      * intros (u & s & -> & Hf & Hm). exists u, s. split_and!; [done | exists u, []; by rewrite app_nil_r | done].
      * intros (s & p & -> & (u & s' & -> & Hf & ->) & Hm). exists u, p. by rewrite app_nil_r.
    + rewrite (matchhere_text c (d :: re'') text (matches_here (d :: re''))) by (apply IH; cbn; lia).
      rewrite (matches_cons (c :: d :: re'') (One c) (d :: re'')) by (cbn; rewrite decide_False by lia; by destruct (match re'' with [] => _ | _ => _ end)).
      split.
      * intros (t & s & -> & Hf & Hm). exists [t], s. split_and!; [done | by exists t, [] | done].
      * intros (s & p & -> & (t & s' & -> & Hf & ->) & Hm). by exists t, p.
Qed.

Lemma match_from_iff re text : match_from re text = true <-> exists pre rest, text = pre ++ rest /\ matches_here re rest.
Proof.
  induction text as [|t text IH]; cbn [match_from]; destruct (matchhere re _) eqn:E.
  - split; [| done]. intros _. exists [], []. by rewrite <- matchhere_iff.
  - split; [done |]. intros (pre & rest & Hp & Hm). symmetry in Hp. apply app_nil in Hp as [-> ->]. apply matchhere_iff in Hm. congruence.
  - split; [| done]. intros _. exists [], (t :: text). by rewrite <- matchhere_iff.
  - rewrite IH. split.
    + intros (pre & rest & -> & Hm). by exists (t :: pre), rest.
    + intros ([|x pre] & rest & Hp & Hm); cbn in Hp; [subst; apply matchhere_iff in Hm; congruence |].
      injection Hp as -> ->. by exists pre, rest.
Qed.

(** C15: The matcher accepts a line exactly when the pattern denotes a part of
    it: a [c*] any number of characters [c] stands for, [.] any character, [^]
    and [$] the ends of the line. *)
Theorem match_correct re text : match_re re text = true <-> matches re text.
Proof.
  unfold match_re, matches. destruct re as [|c re']; [apply match_from_iff |].
  destruct (decide (c = CARET)) as [->|Hc]; [apply matchhere_iff |].
  destruct (c =? CARET) eqn:E; [lia | apply match_from_iff].
Qed.

(** ** The loop prints the lines that match *)

(** The lines that end in a newline, and what follows the last newline. *)
Fixpoint split_nl (l : list Z) : list (list Z) * list Z :=
  match l with
  | [] => ([], [])
  | c :: l' =>
      let (ls, r) := split_nl l' in
      if decide (c = NL) then ([] :: ls, r)
      else match ls with [] => ([], c :: r) | x :: ls' => ((c :: x) :: ls', r) end
  end.

Definition selected (pattern : list Z) (ls : list (list Z)) : list Z :=
  concat (map (fun l => l ++ [NL]) (filter (fun l => match_re pattern l = true) ls)).

(** Every line fits in the buffer. *)
Definition short (l : list Z) : Prop :=
  Forall (fun x => length x < 1023)%nat (split_nl l).1 /\ (length (split_nl l).2 < 1023)%nat.

Lemma selected_app pattern l l' : selected pattern (l ++ l') = selected pattern l ++ selected pattern l'.
Proof. unfold selected. by rewrite filter_app, map_app, concat_app. Qed.

Lemma selected_one pattern l : selected pattern [l] = if match_re pattern l then l ++ [NL] else [].
Proof.
  unfold selected. rewrite filter_cons. destruct (match_re pattern l); case_decide; [apply app_nil_r | done | done | done].
Qed.

Lemma split_nl_line x l : NL ∉ x -> split_nl (x ++ NL :: l) = (x :: (split_nl l).1, (split_nl l).2).
Proof.
  intros Hx. induction x as [|c x IH]; cbn [split_nl app].
  - destruct (split_nl l). by rewrite decide_True by done.
  - apply not_elem_of_cons in Hx as [Hc Hx]. rewrite IH by done. by rewrite decide_False by done.
Qed.

Lemma split_nl_rest x : NL ∉ x -> split_nl x = ([], x).
Proof.
  induction x as [|c x IH]; [done |]. intros [Hc Hx]%not_elem_of_cons. cbn [split_nl]. rewrite IH by done.
  by rewrite decide_False by done.
Qed.

Lemma strchr_nl_spec p : 0 ∉ p ->
  match strchr_nl p with
  | None => NL ∉ p
  | Some (l, r) => p = l ++ NL :: r /\ NL ∉ l
  end.
Proof.
  induction p as [|c p IH]; cbn [strchr_nl]; [intros _; apply not_elem_of_nil |].
  intros [H0 Hp]%not_elem_of_cons. specialize (IH Hp). destruct (c =? 0) eqn:E0; [lia |].
  destruct (c =? NL) eqn:En; [apply Z.eqb_eq in En as ->; split; [done | apply not_elem_of_nil] |].
  destruct (strchr_nl p) as [[l r]|]; [destruct IH as [-> Hl]; split; [done |] |]; apply not_elem_of_cons; split; [lia | done | lia | done].
Qed.

Lemma grep_lines_spec fuel pattern p out : 0 ∉ p -> (length p <= fuel)%nat ->
  grep_lines fuel pattern p out = Some (out ++ selected pattern (split_nl p).1, (split_nl p).2).
Proof.
  revert p out. induction fuel as [|fuel IH]; intros p out H0 Hf; cbn [grep_lines]; pose proof (strchr_nl_spec p H0) as Hs.
  - destruct p; [| cbn in Hf; lia]. cbn. by rewrite app_nil_r.
  - destruct (strchr_nl p) as [[l r]|]; [destruct Hs as [-> Hl] | rewrite (split_nl_rest _ Hs); cbn; by rewrite app_nil_r].
    rewrite length_app in Hf. cbn in Hf. rewrite elem_of_app, elem_of_cons in H0.
    rewrite IH, split_nl_line by (tauto || lia). cbn [fst snd]. f_equal. f_equal.
    change (l :: (split_nl r).1) with ([l] ++ (split_nl r).1). rewrite selected_app, selected_one. by destruct (match_re pattern l); rewrite <- ?app_assoc.
Qed.

Lemma split_nl_app a b :
  split_nl (a ++ b) = ((split_nl a).1 ++ (split_nl ((split_nl a).2 ++ b)).1, (split_nl ((split_nl a).2 ++ b)).2).
Proof.
  induction a as [|c a IH]; cbn [split_nl app fst snd]; [by destruct (split_nl b) |]. rewrite IH.
  destruct (split_nl a) as [ls r]. cbn [fst snd]. destruct (decide (c = NL)) as [->|Hc]; [done |].
  destruct ls as [|x ls]; cbn [fst snd app]; [| done]. cbn [split_nl].
  by destruct (split_nl (r ++ b)) as [[|y ys] z]; rewrite decide_False by done.
Qed.

Lemma split_nl_nonl p : NL ∉ (split_nl p).2.
Proof.
  induction p as [|c p IH]; cbn [split_nl]; [apply not_elem_of_nil |]. destruct (split_nl p) as [[|x ls] r]; cbn [snd] in *;
    destruct (decide (c = NL)); cbn [snd]; rewrite ?not_elem_of_cons; naive_solver.
Qed.

Lemma split_nl_in p : forall c, c ∈ (split_nl p).2 -> c ∈ p.
Proof.
  induction p as [|d p IH]; cbn [split_nl]; [done |]. intros c. destruct (split_nl p) as [[|x ls] r]; cbn [snd] in *;
    destruct (decide (d = NL)); cbn [snd]; rewrite !elem_of_cons; naive_solver.
Qed.

Lemma split_nl_cons kept input : NL ∉ kept ->
  (exists x ls r, split_nl (kept ++ input) = ((kept ++ x) :: ls, r)) \/ exists x, split_nl (kept ++ input) = ([], kept ++ x).
Proof.
  induction kept as [|c kept IH]; cbn [split_nl app].
  - intros _. destruct (split_nl input) as [[|x ls] r]; [right; by exists r | left; by exists x, ls, r].
  - intros [Hc Hk]%not_elem_of_cons. 
    destruct (IH Hk) as [(x & ls & r & ->)|(x & ->)]; rewrite decide_False by done; [left; by exists x, ls, r | right; by exists x].
Qed.

(** What is kept is the start of a line. *)
Lemma kept_short kept input : NL ∉ kept -> short (kept ++ input) -> (length kept < 1023)%nat.
Proof.
  intros Hk. unfold short. destruct (split_nl_cons kept input Hk) as [(x & ls & r & ->)|(x & ->)]; cbn [fst snd].
  - intros [H _]. inversion H as [|? ? Hx]. rewrite length_app in Hx. lia.
  - rewrite length_app. lia.
Qed.

Lemma grep_run fuel chunks pattern kept input out :
  NL ∉ kept -> 0 ∉ kept ++ input -> short (kept ++ input) -> (length input <= fuel)%nat ->
  grep fuel chunks pattern kept input out = Some (out ++ selected pattern (split_nl (kept ++ input)).1).
Proof.
  revert kept input out. induction fuel as [|fuel IH]; intros kept input out Hk H0 Hs Hf; pose proof (kept_short _ _ Hk Hs) as Hl;
    cbn [grep]; unfold read_chunk, BUFSZ; set (n := Nat.min (Nat.max 1 (chunks _)) (1024 - length kept - 1));
    assert (1 <= n)%nat as Hn by lia.
  - destruct input; [| cbn in Hf; lia]. rewrite take_nil, app_nil_r, (split_nl_rest _ Hk). cbn. by rewrite app_nil_r.
  - destruct (take n input) as [|c got] eqn:Et.
    { assert (input = []) as -> by (destruct input; [done |]; by destruct n; [lia |]).
      rewrite app_nil_r, (split_nl_rest _ Hk). cbn. by rewrite app_nil_r. }
    rewrite <- Et. assert (kept ++ input = (kept ++ take n input) ++ drop n input) as Ei by (by rewrite <- app_assoc, take_drop).
    rewrite Ei in *. assert (0 ∉ kept ++ take n input) as H0' by (intros H; apply H0; rewrite elem_of_app; by left).
    rewrite grep_lines_spec by (done || lia). cbv beta iota.
    unfold short in Hs. rewrite (split_nl_app (kept ++ take n input)) in Hs |- *. cbn [fst snd] in *. rewrite selected_app, app_assoc. apply IH.
    + apply split_nl_nonl.
    + intros [H|H]%elem_of_app; apply H0; rewrite elem_of_app; [left; by apply split_nl_in | by right].
    + destruct Hs as [Hs ?]. apply Forall_app in Hs as [_ Hs]. by split.
    + rewrite length_drop. assert (0 < length input)%nat by (destruct input; [by rewrite take_nil in Et | cbn; lia]). lia.
Qed.

(** C16: On an input without NUL bytes whose lines fit in the buffer, grep ends
    and prints exactly the newline-terminated lines that match, in order,
    however the input is cut into reads. *)
Theorem grep_correct chunks pattern input fuel : 0 ∉ input -> short input -> (length input <= fuel)%nat ->
  grep fuel chunks pattern [] input [] = Some (selected pattern (split_nl input).1).
Proof. intros H0 Hs Hf. by rewrite (grep_run fuel chunks pattern [] input []) by (done || apply not_elem_of_nil). Qed.

(** "ab\ncb\n" in reads of one byte, with "^a" *)
Lemma grep_correct_witness : grep 6 (fun _ => 1%nat) [94; 97] [] [97; 98; 10; 99; 98; 10] [] = Some [97; 98; 10].
Proof.
  rewrite (grep_correct (fun _ => 1%nat) [94; 97] [97; 98; 10; 99; 98; 10] 6); [reflexivity | | | reflexivity].
  - rewrite !elem_of_cons, elem_of_nil. lia.
  - unfold short. cbn. repeat constructor; cbn; lia.
Defined.

(** A line of 1023 bytes fills the buffer: the next read has no room, and the
    loop takes this for the end of the input. *)
Lemma grep_long_line pattern line rest chunks : length line = 1023%nat -> 0 ∉ line -> NL ∉ line -> (1023 <= chunks 1)%nat ->
  grep 1 chunks pattern [] (line ++ rest) [] = Some [].
Proof.
  intros Hl H0 Hn Hc. cbn [grep length]. unfold read_chunk. change (BUFSZ - 0 - 1)%nat with 1023%nat.
  replace (Nat.min (Nat.max 1 (chunks 1%nat)) 1023) with 1023%nat by lia.
  rewrite take_app_length' by done. destruct (line) as [|c l] eqn:E; [done |]. rewrite <- E in *. cbn [app].
  rewrite grep_lines_spec, (split_nl_rest _ Hn) by (done || lia). cbn [fst snd]. rewrite Hl.
  change (BUFSZ - 1023 - 1)%nat with 0%nat. by rewrite Nat.min_0_r.
Qed.
