(* ===== verification/Umalloc.v ===== *)
(** * user/umalloc.c: the storage allocator

    The circular list of free blocks, sorted by address and threaded through
    the headers in front of the blocks.  An address is a byte address, a
    header has 16 bytes; the store maps the address of a header to its two
    fields.  [sbrk] is the system call: it may refuse, and moves the break.
    Programs may write anything into the blocks they were given. *)

From S2P Require Import Prelude.

Definition HDR : Z := 16.
#[export] Hint Unfold HDR : consts.

(** [u_ptr a] and [u_size a] are the fields [s.ptr] and [s.size] of the header
    at [a]; [u_grants] are the answers [sbrk] will give. *)
Record um := Um {
  u_ptr : Z -> Z;
  u_size : Z -> Z;
  u_freep : Z;
  u_brk : Z;
  u_grants : list bool;
}.

Definition set_ptr (a v : Z) : M um unit := modify (fun s => Um (upd (u_ptr s) a v) (u_size s) (u_freep s) (u_brk s) (u_grants s)).
Definition set_size (a v : Z) : M um unit := modify (fun s => Um (u_ptr s) (upd (u_size s) a (u32 v)) (u_freep s) (u_brk s) (u_grants s)).
Definition set_freep (v : Z) : M um unit := modify (fun s => Um (u_ptr s) (u_size s) v (u_brk s) (u_grants s)).
Definition ptr_of (a : Z) : M um Z := gets (fun s => u_ptr s a).
Definition size_of (a : Z) : M um Z := gets (fun s => u_size s a).

(** [sbrk(n)], [n] converted to [int]: the old break, or -1.  The kernel keeps
    the size of a process below 2^32. *)
Definition sbrk (n : Z) : M um Z := fun s =>
  let n := s32 n in
  match u_grants s with
  | true :: g =>
      if u_brk s + n <? 2 ^ 32 then Ok (u_brk s) (Um (u_ptr s) (u_size s) (u_freep s) (u_brk s + n) g)
      else Ok (-1) (Um (u_ptr s) (u_size s) (u_freep s) (u_brk s) g)
  | g => Ok (-1) (Um (u_ptr s) (u_size s) (u_freep s) (u_brk s) (tail g))
  end.

(** The [for] loop of [free]: the block after which [bp] belongs. *)
Fixpoint free_scan (fuel : nat) (bp p : Z) : M um Z :=
  match fuel with
  | O => out_of_fuel
  | S fuel' =>
      let! next := ptr_of p in
      if (p <? bp) && (bp <? next) then ret p
      else if (next <=? p) && ((p <? bp) || (bp <? next)) then ret p
      else free_scan fuel' bp next
  end.

(** Join [bp] with the block that follows it, or link it in front of it. *)
Definition join_next (bp p : Z) : M um unit :=
  let! bsize := size_of bp in
  let! next := ptr_of p in
  if bp + bsize * HDR =? next then
    let! nsize := size_of next in
    set_size bp (bsize + nsize) ;;;
    let! nnext := ptr_of next in
    set_ptr bp nnext
  else set_ptr bp next.

(** Join the block before [bp] with it, or link it to [bp]. *)
Definition join_prev (bp p : Z) : M um unit :=
  let! psize := size_of p in
  if p + psize * HDR =? bp then
    let! bsize := size_of bp in
    set_size p (psize + bsize) ;;;
    let! bnext := ptr_of bp in
    set_ptr p bnext
  else set_ptr p bp.

Definition free (fuel : nat) (ap : Z) : M um unit :=
  let bp := ap - HDR in
  let! p0 := gets u_freep in
  let! p := free_scan fuel bp p0 in
  join_next bp p ;;;
  join_prev bp p ;;;
  set_freep p.

Definition morecore (fuel : nat) (nu : Z) : M um Z :=
  let nu := if nu <? 4096 then 4096 else nu in
  let! p := sbrk (nu * HDR) in
  if p =? -1 then ret 0
  else
    set_size p nu ;;;
    free fuel (p + HDR) ;;;
    gets u_freep.

(** What the loop does with the block [p] it has found. *)
Definition take_block (nunits prevp p : Z) : M um Z :=
  let! size := size_of p in
  let! p :=
    (if size =? nunits then
       let! next := ptr_of p in
       set_ptr prevp next ;;; ret p
     else
       set_size p (size - nunits) ;;;
       let p := p + (size - nunits) * HDR in
       set_size p nunits ;;; ret p) in
  set_freep prevp ;;;
  ret (p + HDR).

Fixpoint malloc_loop (fuel : nat) (nunits prevp p : Z) : M um Z :=
  match fuel with
  | O => out_of_fuel
  | S fuel' =>
      let! size := size_of p in
      if nunits <=? size then
        take_block nunits prevp p
      else
        let! freep := gets u_freep in
        let! more :=
          (if p =? freep then
             let! p := morecore fuel nunits in
             ret (if p =? 0 then None else Some p)
           else ret (Some p)) in
        match more with
        | None => ret 0
        | Some p =>
            let! next := ptr_of p in
            malloc_loop fuel' nunits p next
        end
  end.

(** [base] is the address of the static header. *)
Definition malloc (base : Z) (fuel : nat) (nbytes : Z) : M um Z :=
  let nunits := u32 ((nbytes + HDR - 1) / HDR + 1) in
  let! freep := gets u_freep in
  let! prevp :=
    (if freep =? 0 then
       set_freep base ;;; set_ptr base base ;;; set_size base 0 ;;; ret base
     else ret freep) in
  let! p := ptr_of prevp in
  malloc_loop fuel nunits prevp p.

(** ** Blocks *)

(** A block is the address of its header and its size in units, the header
    included. *)
Abbreviation block := (Z * Z)%type.
Definition bend (b : block) : Z := b.1 + b.2 * HDR.
Definition apart (b c : block) : Prop := bend b <= c.1 \/ bend c <= b.1.

(** No two blocks of the list overlap. *)
Fixpoint disjoint_blocks (L : list block) : Prop :=
  match L with [] => True | b :: L' => Forall (apart b) L' /\ disjoint_blocks L' end.

Definition wf_block (lo hi : Z) (b : block) : Prop := lo <= b.1 /\ bend b <= hi /\ 0 < b.2 /\ (HDR | b.1).

Lemma apart_sym b c : apart b c -> apart c b.
Proof. unfold apart. tauto. Qed.

#[export] Instance disjoint_blocks_perm : Proper ((≡ₚ) ==> iff) disjoint_blocks.
Proof.
  intros L L' P. induction P as [|b L L' P IH|b c L|L1 L2 L3 P1 IH1 P2 IH2]; cbn; [done | | | by rewrite IH1].
  - by rewrite IH, P.
  - rewrite !Forall_cons. split; intros ([H1 H2] & H3 & H4); split_and!; auto using apart_sym.
Qed.

(** Cutting a block in two, and joining two neighbours. *)
Lemma disjoint_cut a n m (L : list block) : 0 < n -> 0 < m ->
  disjoint_blocks ((a, n + m) :: L) -> disjoint_blocks ((a, n) :: (a + n * HDR, m) :: L).
Proof.
  intros Hn Hm. cbn. rewrite Forall_cons, !Forall_forall. intros [HF Hd].
  split_and!; [unfold apart, bend; cbn; lia | | | done]; intros c Hc; specialize (HF c Hc); unfold apart, bend in *; cbn in *; klia.
Qed.

Lemma disjoint_join a n m (L : list block) : 0 < n -> 0 < m -> Forall (fun c : block => 0 < c.2) L ->
  disjoint_blocks ((a, n) :: (a + n * HDR, m) :: L) -> disjoint_blocks ((a, n + m) :: L).
Proof.
  intros Hn Hm HL. cbn. rewrite Forall_cons, !Forall_forall in *. intros ([_ Ha] & Hb & Hd). split; [| done].
  intros c Hc. specialize (HL c Hc). specialize (Ha c Hc). specialize (Hb c Hc). unfold apart, bend in *; cbn in *; klia.
Qed.

(** ** Linked segments *)

(** From [x] the links lead through [l] to [y]. *)
Fixpoint seg (f : Z -> Z) (x : Z) (l : list Z) (y : Z) : Prop :=
  match l with [] => f x = y | b :: l' => f x = b /\ seg f b l' y end.

Lemma seg_app f x l1 b l2 y : seg f x (l1 ++ b :: l2) y <-> seg f x l1 b /\ seg f b l2 y.
Proof. revert x. induction l1 as [|c l1 IH]; intros x; cbn; [done |]. rewrite IH. tauto. Qed.

Lemma seg_upd f x l y a v : a ∉ x :: l -> seg f x l y -> seg (upd f a v) x l y.
Proof.
  revert x. induction l as [|b l IH]; intros x [Hx Hl]%not_elem_of_cons; cbn; rewrite upd_ne by done; [done |].
  intros [<- H]. split; [done | by apply IH].
Qed.

Lemma seg_ext f g x l y : (forall a, a ∈ x :: l -> g a = f a) -> seg f x l y -> seg g x l y.
Proof.
  revert x. induction l as [|b l IH]; intros x E; cbn; rewrite (E x) by apply list_elem_of_here; [done |].
  intros [<- H]. split; [done |]. apply IH; [| done]. intros a Ha. apply E. by right.
Qed.

Lemma seg_redirect f x l y v : NoDup (x :: l) -> seg f x l y -> seg (upd f (default x (last l)) v) x l v.
Proof.
  destruct l as [|b l _] using rev_ind; cbn; [by rewrite upd_eq |]. rewrite last_snoc. cbn.
  intros Hn. rewrite !seg_app. intros [H _]. split; [| apply upd_eq]. apply seg_upd; [| done].
  rewrite app_comm_cons in Hn. apply NoDup_app in Hn as (_ & Hd & _). intros Hb. by apply (Hd b Hb), list_elem_of_here.
Qed.

Lemma seg_at f x l y B1 q n B2 : seg f x l y -> x :: l = B1 ++ q :: n :: B2 -> f q = n.
Proof.
  revert x l. induction B1 as [|c B1 IH]; intros x l Hs E; cbn in E; injection E as -> ->; [by destruct Hs |].
  destruct (B1 ++ q :: n :: B2) as [|b l] eqn:El; [by destruct B1 |]. destruct Hs as [_ Hs]. by eapply (IH b l).
Qed.

Lemma seg_end f x l y : seg f x l y -> f (default x (last l)) = y.
Proof. destruct l as [|b l _] using rev_ind; [done |]. rewrite last_snoc, seg_app. cbn. tauto. Qed.

Lemma snoc_last (x : Z) l : exists B, x :: l = B ++ [default x (last l)].
Proof. destruct l as [|b l _] using rev_ind; [by exists [] |]. exists (x :: l). by rewrite last_snoc. Qed.

Lemma elem_snoc (x : Z) l : x ∈ l ++ [x].
Proof. rewrite elem_of_app, list_elem_of_singleton. by right. Qed.

Lemma seg_map f x l y : seg f x l y -> map f (x :: l) = l ++ [y].
Proof. revert x. induction l as [|b l IH]; intros x; cbn; [by intros -> |]. intros [-> H]. f_equal. by apply IH. Qed.

Lemma nodup_map_inj (f : Z -> Z) l x y : NoDup (map f l) -> x ∈ l -> y ∈ l -> f x = f y -> x = y.
Proof.
  intros Hn [i Hi]%list_elem_of_lookup [j Hj]%list_elem_of_lookup E.
  assert (i = j) as <-; [| congruence]. eapply (NoDup_lookup _ _ _ (f x) Hn); rewrite list_lookup_fmap, ?Hi, ?Hj; cbn; congruence.
Qed.

(** A node of a circle has one predecessor. *)
Lemma circle_inj f base l x y : NoDup (base :: l) -> seg f base l base -> x ∈ base :: l -> y ∈ base :: l -> f x = f y -> x = y.
Proof.
  intros Hn Hs. apply nodup_map_inj. rewrite (seg_map _ _ _ _ Hs). by rewrite <- Permutation_cons_append.
Qed.

(** The first address of [l], or [base], where the circle closes. *)
Definition hd_or (base : Z) (l : list Z) : Z := match l with [] => base | b :: _ => b end.
Definition rest_ok (f : Z -> Z) (base : Z) (l : list Z) : Prop :=
  match l with [] => True | b :: l' => seg f b l' base end.

Lemma circle_app f base l1 l2 : seg f base (l1 ++ l2) base <-> seg f base l1 (hd_or base l2) /\ rest_ok f base l2.
Proof. destruct l2 as [|b l2]; cbn; [rewrite app_nil_r; tauto | apply seg_app]. Qed.

Lemma rest_ok_upd f base l a v : a ∉ l -> rest_ok f base l -> rest_ok (upd f a v) base l.
Proof. destruct l as [|b l]; [done |]. apply seg_upd. Qed.

Lemma rest_ok_tail f base b l : rest_ok f base (b :: l) -> f b = hd_or base l /\ rest_ok f base l.
Proof. destruct l as [|c l]; cbn; naive_solver. Qed.

Lemma rest_ok_app f base l1 l2 : rest_ok f base (l1 ++ l2) -> rest_ok f base l2.
Proof. induction l1 as [|b l1 IH]; [done |]. intros [_ H]%rest_ok_tail. by apply IH. Qed.

(** ** Sorted lists of blocks that do not touch *)

Fixpoint spaced (lo : Z) (F : list block) : Prop :=
  match F with [] => True | b :: F' => lo < b.1 /\ 0 < b.2 /\ spaced (bend b) F' end.

Definition end_of (lo : Z) (F : list block) : Z := match last F with Some b => bend b | None => lo end.

Lemma end_of_cons lo b F : end_of lo (b :: F) = end_of (bend b) F.
Proof. unfold end_of. destruct F as [|c F]; [done |]. rewrite last_cons. cbn. by destruct (last (c :: F)) eqn:E; [| by apply last_None in E]. Qed.

Lemma spaced_app lo F G : spaced lo (F ++ G) <-> spaced lo F /\ spaced (end_of lo F) G.
Proof.
  revert lo. induction F as [|b F IH]; intros lo; [cbn; tauto |]. rewrite end_of_cons. cbn. rewrite IH. tauto.
Qed.

Lemma spaced_le lo lo' F : lo' <= lo -> spaced lo F -> spaced lo' F.
Proof. destruct F; cbn; [done |]. intros. destruct_and?. split_and!; [lia | done..]. Qed.

Lemma spaced_lt lo F b : spaced lo F -> b ∈ F -> lo < b.1.
Proof.
  revert lo. induction F as [|c F IH]; intros lo; [by intros _ ?%elem_of_nil |]. cbn. intros (H1 & H2 & H3) [->|Hb]%elem_of_cons; [done |].
  specialize (IH _ H3 Hb). unfold bend in IH. klia.
Qed.

Lemma spaced_nodup lo F : spaced lo F -> NoDup (lo :: map fst F).
Proof.
  revert lo. induction F as [|b F IH]; intros lo; [intros; apply NoDup_singleton |]. intros H. apply NoDup_cons_2.
  - intros (c & -> & Hc)%list_elem_of_fmap. apply (spaced_lt _ _ _ H) in Hc. lia.
  - cbn in *. destruct H as (_ & Hb & H). pose proof (IH _ H) as Hn. apply NoDup_cons in Hn as [_ Hn]. apply NoDup_cons_2; [| done].
    intros (c & E & Hc)%list_elem_of_fmap. apply (spaced_lt _ _ _ H) in Hc. unfold bend in Hc. klia.
Qed.

(** Neighbours in the list are in order. *)
Lemma spaced_step lo F B1 q n B2 : spaced lo F -> lo :: map fst F = B1 ++ q :: n :: B2 -> q < n.
Proof.
  revert lo F. induction B1 as [|c B1 IH]; intros lo [|b F] Hs E; cbn in E; [done | | by destruct B1 |].
  - injection E as <- <- _. by destruct Hs.
  - injection E as _ E. destruct Hs as (_ & Hb & Hs). apply (IH b.1 F); [| exact E].
    eapply spaced_le; [| done]. unfold bend. klia.
Qed.

(** The place of an address in a sorted list. *)
Lemma spaced_split lo F a : spaced lo F -> a ∉ map fst F ->
  exists F1 F2, F = F1 ++ F2 /\ Forall (fun b => b.1 < a) F1 /\ Forall (fun b => a < b.1) F2.
Proof.
  revert lo. induction F as [|b F IH]; intros lo H Ha; [by exists [], [] |]. cbn in H, Ha. destruct H as (H1 & H2 & H3).
  apply not_elem_of_cons in Ha as [Hb Ha]. destruct (decide (b.1 < a)) as [Hlt|Hge].
  - destruct (IH _ H3 Ha) as (F1 & F2 & -> & HF1 & HF2). exists (b :: F1), F2. by split_and!; [| constructor |].
  - exists [], (b :: F). split_and!; [done | done |]. constructor; [lia |]. apply Forall_forall. intros c Hc.
    apply (spaced_lt _ _ _ H3) in Hc. unfold bend in Hc. klia.
Qed.

(** ** The invariant *)

Fixpoint units (L : list block) : Z := match L with [] => 0 | b :: L' => b.2 + units L' end.

Lemma units_app L L' : units (L ++ L') = units L + units L'.
Proof. induction L; cbn; lia. Qed.

#[export] Instance units_perm : Proper ((≡ₚ) ==> eq) units.
Proof. intros L L' P. induction P; cbn; lia. Qed.

Section heap.
(** The static header, the start of the heap, and the units in use by the
    program, [live]. *)
Context (base lo : Z).
Hypothesis base_low : 0 < base /\ base + HDR <= lo.

#[local] Abbreviation addrs F := (map (@fst Z Z) F).

(** The list from [base] through the blocks [F] and back. *)
Record linked (s : um) (F : list block) : Prop := Linked {
  ln_seg : seg (u_ptr s) base (addrs F) base;
  ln_base : u_size s base = 0;
  ln_size : Forall (fun b : block => u_size s b.1 = b.2) F;
  ln_freep : u_freep s ∈ base :: addrs F;
  ln_spaced : spaced base F;
}.

Record blocks_ok (s : um) (L : list block) : Prop := BlocksOk {
  bk_wf : Forall (wf_block lo (u_brk s)) L;
  bk_disjoint : disjoint_blocks L;
  bk_brk : lo <= u_brk s < 2 ^ 32 /\ (HDR | u_brk s);
}.

Record heap_ok (s : um) (F live : list block) : Prop := HeapOk {
  hk_list : linked s F;
  hk_live : Forall (fun b : block => u_size s b.1 = b.2) live;
  hk_blocks : blocks_ok s (F ++ live);
}.

Lemma wf_size s L b : blocks_ok s L -> b ∈ L -> 0 < b.2 < 2 ^ 28 /\ base < b.1 /\ bend b < 2 ^ 32.
Proof.
  intros [W _ [B _]] Hb. rewrite Forall_forall in W. destruct (W b Hb) as (H1 & H2 & H3 & _). unfold bend in *. klia.
Qed.

Lemma disjoint_in L b c : disjoint_blocks L -> b ∈ L -> c ∈ L -> b = c \/ apart b c.
Proof.
  induction L as [|d L IH]; [by intros _ ?%elem_of_nil |]. cbn. rewrite Forall_forall. intros [HF Hd].
  rewrite !elem_of_cons. intros [->|Hb] [->|Hc]; [by left | right; by apply HF | right; by apply apart_sym, HF | by apply IH].
Qed.

(** *** The search in [free] *)

(** The links followed from any node of the circle come back to it, through
    all the others. *)
Lemma rotate f l x : seg f base l base -> x ∈ base :: l -> exists r, seg f x r x /\ base :: l ≡ₚ x :: r.
Proof.
  intros H [->|Hx]%elem_of_cons; [by exists l |]. apply list_elem_of_split in Hx as (l1 & l2 & ->).
  apply seg_app in H as [H1 H2]. exists (l2 ++ base :: l1). split; [by apply seg_app | solve_Permutation].
Qed.

Definition goes_after (bp p next : Z) : bool :=
  (p <? bp) && (bp <? next) || (next <=? p) && ((p <? bp) || (bp <? next)).

Lemma free_scan_spec fuel s bp p r y P : seg (u_ptr s) p r y -> P ∈ p :: r -> (length r < fuel)%nat ->
  (forall q, q ∈ p :: r -> goes_after bp q (u_ptr s q) = bool_decide (q = P)) ->
  free_scan fuel bp p s = Ok P s.
Proof.
  revert p r. induction fuel as [|fuel IH]; intros p r Hs HP Hf Hg; [lia |]. cbn [free_scan]. unfold bind, ptr_of, gets.
  pose proof (Hg p (list_elem_of_here _ _)) as Hp. unfold goes_after in Hp.
  destruct (decide (p = P)) as [->|Hne].
  - rewrite bool_decide_eq_true_2 in Hp by done. destruct ((P <? bp) && (bp <? u_ptr s P)); [done |]. cbn in Hp. by rewrite Hp.
  - rewrite bool_decide_eq_false_2 in Hp by done. apply orb_false_iff in Hp as [-> ->].
    destruct r as [|q r]; [by apply list_elem_of_singleton in HP |]. destruct Hs as [Hq Hs]. rewrite Hq.
    apply (IH q r); [done | by apply elem_of_cons in HP as [|] | cbn in Hf; lia | intros x Hx; apply Hg; by right].
Qed.

(** In a sorted circle exactly one node is followed by [bp]: *)
Section place.
Context (f : Z -> Z) (F1 F2 : list block) (bp : Z).
Hypothesis Hs : seg f base (addrs (F1 ++ F2)) base.
Hypothesis Hsp : spaced base (F1 ++ F2).
Hypothesis Hbp : base < bp.
Hypothesis H1 : Forall (fun b : block => b.1 < bp) F1.
Hypothesis H2 : Forall (fun b : block => bp < b.1) F2.

Definition pred_of : Z := default base (last (addrs F1)).

Lemma place_low x : x ∈ base :: addrs F1 -> base <= x < bp.
Proof.
  intros [->|(b & -> & Hb)%list_elem_of_fmap]%elem_of_cons; [lia |]. rewrite Forall_forall in H1. split; [| by apply H1].
  apply Z.lt_le_incl, (spaced_lt base (F1 ++ F2)); [done | rewrite elem_of_app; by left].
Qed.

Lemma place_high x : x ∈ addrs F2 -> bp < x.
Proof. intros (b & -> & Hb)%list_elem_of_fmap. rewrite Forall_forall in H2. by apply H2. Qed.

Lemma pred_in : pred_of ∈ base :: addrs F1.
Proof. unfold pred_of. destruct (snoc_last base (addrs F1)) as [B ->]. apply elem_snoc. Qed.

Lemma place_segs : seg f base (addrs F1) (hd_or base (addrs F2)) /\ rest_ok f base (addrs F2).
Proof. apply circle_app. by rewrite <- map_app. Qed.

Lemma place_pred : goes_after bp pred_of (f pred_of) = true.
Proof.
  pose proof (place_low _ pred_in) as HP. unfold goes_after.
  rewrite (seg_end _ _ _ _ (proj1 place_segs) : f pred_of = _).
  destruct (addrs F2) as [|n l] eqn:E2; cbn; [lia |]. assert (bp < n) by (apply place_high; rewrite E2; apply list_elem_of_here). lia.
Qed.

Lemma place_before q : q ∈ base :: addrs F1 -> q <> pred_of -> goes_after bp q (f q) = false.
Proof.
  intros Hq Hne. destruct (snoc_last base (addrs F1)) as [B HB]. fold pred_of in HB.
  rewrite HB, elem_of_app, list_elem_of_singleton in Hq. destruct Hq as [Hq|?]; [| done].
  apply list_elem_of_split in Hq as (B1 & B2 & ->). rewrite <- app_assoc in HB. cbn in HB.
  destruct (B2 ++ [pred_of]) as [|n B3] eqn:E3; [by destruct B2 |].
  unfold goes_after. rewrite (seg_at _ _ _ _ _ _ _ _ (proj1 place_segs) HB).
  assert (q < n) by (apply (spaced_step base F1 B1 q n B3); [by apply spaced_app in Hsp as [? _] | done]).
  assert (n < bp) by (apply place_low; rewrite HB, elem_of_app, !elem_of_cons; tauto). lia.
Qed.

Lemma place_after q : q ∈ addrs F2 -> goes_after bp q (f q) = false.
Proof.
  intros Hq. pose proof (place_high _ Hq). destruct place_segs as [_ Hr]. apply list_elem_of_split in Hq as (l1 & l2 & E2).
  assert (f q = hd_or base l2) as ->.
  { rewrite E2 in Hr. destruct l1 as [|c l1]; [by apply rest_ok_tail in Hr as [? _] |]. cbn in Hr. apply seg_app in Hr as [_ Hr].
    by apply (rest_ok_tail f base q l2) in Hr as [? _]. }
  unfold goes_after. destruct l2 as [|n l2]; cbn; [lia |].
  assert (q < n); [| lia]. apply (spaced_step base (F1 ++ F2) (base :: addrs F1 ++ l1) q n l2); [done |].
  rewrite map_app, E2. cbn. by rewrite <- app_assoc.
Qed.
End place.

Lemma goes_after_spec f F1 F2 bp : seg f base (addrs (F1 ++ F2)) base -> spaced base (F1 ++ F2) -> base < bp ->
  Forall (fun b : block => b.1 < bp) F1 -> Forall (fun b : block => bp < b.1) F2 ->
  forall q, q ∈ base :: addrs (F1 ++ F2) -> goes_after bp q (f q) = bool_decide (q = pred_of F1).
Proof.
  intros Hs Hsp Hbp H1 H2 q Hq. destruct (decide (q = pred_of F1)) as [->|Hne].
  - rewrite bool_decide_eq_true_2 by done. by apply (place_pred f F1 F2).
  - rewrite bool_decide_eq_false_2 by done. rewrite map_app, app_comm_cons, elem_of_app in Hq.
    destruct Hq as [Hq|Hq]; [by apply (place_before f F1 F2) | by apply (place_after f F1 F2)].
Qed.

(** *** Joining *)

Lemma blocks_perm s s' L L' : u_brk s' = u_brk s -> L ≡ₚ L' -> blocks_ok s L -> blocks_ok s' L'.
Proof. intros Hb P []. split; rewrite ?Hb; [by rewrite <- P | by rewrite <- P | done]. Qed.

Lemma blocks_join s a n m L : blocks_ok s ((a, n) :: (a + n * HDR, m) :: L) -> blocks_ok s ((a, n + m) :: L).
Proof.
  intros [W D B]. rewrite !Forall_cons in W. destruct W as (W1 & W2 & W). destruct W1 as (? & ? & ? & ?), W2 as (? & ? & ? & ?).
  cbn in *. split; [| | done].
  - constructor; [| done]. unfold wf_block, bend in *. cbn in *. split_and!; [done | klia | lia | done].
  - apply disjoint_join; [done | done | | done]. eapply Forall_impl; [exact W |]. by intros c (_ & _ & ? & _).
Qed.

Lemma set_size_small s a v : 0 <= v < 2 ^ 32 -> set_size a v s = Ok tt (Um (u_ptr s) (upd (u_size s) a v) (u_freep s) (u_brk s) (u_grants s)).
Proof. intros. unfold set_size, modify. by rewrite u32_small. Qed.

(** What joining leaves alone. *)
Record others_same (s s' : um) (a : Z) : Prop := OthersSame {
  os_size : forall x, x <> a -> u_size s' x = u_size s x;
  os_freep : u_freep s' = u_freep s;
  os_brk : u_brk s' = u_brk s;
  os_grants : u_grants s' = u_grants s;
}.

(** [F2] are the blocks after [bp]. *)
Lemma join_next_spec s bp p n (F2 rest : list block) :
  u_size s bp = n -> u_ptr s p = hd_or base (addrs F2) -> rest_ok (u_ptr s) base (addrs F2) ->
  Forall (fun b : block => u_size s b.1 = b.2) F2 -> spaced bp F2 -> blocks_ok s ((bp, n) :: F2 ++ rest) ->
  exists s' m F2', join_next bp p s = Ok tt s' /\ others_same s s' bp /\
    u_ptr s' = upd (u_ptr s) bp (hd_or base (addrs F2')) /\ u_size s' bp = m /\ n <= m /\
    (exists d, F2 = d ++ F2') /\ spaced (bp + m * HDR) F2' /\ m + units F2' = n + units F2 /\
    blocks_ok s' ((bp, m) :: F2' ++ rest).
Proof.
  intros Hn Hp Hr Hsz Hsp Hb. destruct (wf_size _ _ (bp, n) Hb (list_elem_of_here _ _)) as (Hn0 & Hbase & _). cbn in Hn0, Hbase.
  unfold join_next, bind, size_of, ptr_of, gets. rewrite Hn, Hp. destruct (bp + n * HDR =? hd_or base (addrs F2)) eqn:E.
  - apply Z.eqb_eq in E. destruct F2 as [|[a k] F2']; [cbn in E; klia |]. cbn in E. subst a.
    apply Forall_cons in Hsz as [Hk Hsz]. cbn [fst snd] in Hk. cbn [map hd_or fst].
    rewrite Hk.
    pose proof (blocks_join _ _ _ _ _ Hb) as Hj. destruct (wf_size _ _ (bp, n + k) Hj (list_elem_of_here _ _)) as (Hnk & _). cbn in Hnk.
    destruct Hsp as (_ & Hk0 & Hsp). cbn in Hk0. rewrite set_size_small by lia.
    cbn [u_ptr u_size]. apply rest_ok_tail in Hr as [Hx _]. cbn [fst] in Hx. rewrite Hx. eexists _, (n + k), F2'. split; [reflexivity |]. cbn.
    split_and!; [split; cbn; try done; intros; by apply upd_ne | done | apply upd_eq | lia | by exists [(bp + n * HDR, k)] | | lia |].
    + unfold bend in Hsp. cbn in Hsp. by replace (bp + (n + k) * HDR) with (bp + n * HDR + k * HDR) by lia.
    + by eapply blocks_perm; [| | exact Hj].
  - eexists _, n, F2. split; [reflexivity |]. cbn. split_and!; [by split | done | done | lia | by exists [] | | done | by eapply blocks_perm; [| | exact Hb]].
    destruct F2 as [|b F2']; [done |]. cbn in E. destruct Hsp as (H1 & H2 & H3). cbn. split_and!; [| done | done].
    destruct Hb as [_ [Hd _] _]. apply Forall_cons in Hd as [Hd _]. unfold apart, bend in Hd. cbn in Hd, E.
    assert (hd_or base (b.1 :: addrs F2') = b.1) as Eh by done. klia.
Qed.

Lemma addrs_snoc (G : list block) q k : addrs (G ++ [(q, k)]) = addrs G ++ [q].
Proof. by rewrite map_app. Qed.

Lemma pred_snoc (G : list block) q k : pred_of (G ++ [(q, k)]) = q.
Proof. unfold pred_of. by rewrite addrs_snoc, last_snoc. Qed.

Lemma end_snoc lo' (G : list block) b : end_of lo' (G ++ [b]) = bend b.
Proof. unfold end_of. by rewrite last_snoc. Qed.

(** What the second join leaves alone: everything away from [p]. *)
Definition prev_post (s s' : um) (F1' rest : list block) (bp p m h : Z) (F1 : list block) : Prop :=
  others_same s s' p /\ (forall x, x <> p -> u_ptr s' x = u_ptr s x) /\
  seg (u_ptr s') base (addrs F1') h /\ Forall (fun b : block => u_size s' b.1 = b.2) F1' /\
  u_size s' base = 0 /\ spaced base F1' /\ end_of base F1' = bp + m * HDR /\ p ∈ base :: addrs F1' /\
  units F1' = units F1 + m /\ blocks_ok s' (F1' ++ rest) /\ (exists b, b ∈ F1' /\ m <= b.2) /\
  (length F1' <= S (length F1))%nat.

Lemma join_prev_joined s bp q k m y h (G rest : list block) :
  u_size s bp = m -> u_ptr s bp = h -> seg (u_ptr s) base (addrs (G ++ [(q, k)])) y -> u_size s base = 0 ->
  Forall (fun b : block => u_size s b.1 = b.2) (G ++ [(q, k)]) -> spaced base (G ++ [(q, k)]) ->
  q + k * HDR = bp -> blocks_ok s ((bp, m) :: (G ++ [(q, k)]) ++ rest) ->
  exists s', join_prev bp q s = Ok tt s' /\ prev_post s s' (G ++ [(q, k + m)]) rest bp q m h (G ++ [(q, k)]).
Proof.
  intros Hm Hh Hseg Hb0 Hsz Hsp Hq Hb. subst bp. pose proof (spaced_nodup _ _ Hsp) as Hnd.
  assert (blocks_ok s ((q, k + m) :: G ++ rest)) as Hj.
  { apply blocks_join. eapply blocks_perm; [reflexivity | | exact Hb]. solve_Permutation. }
  destruct (wf_size _ _ (q, k + m) Hj (list_elem_of_here _ _)) as (Hkm & Hqb & _). cbn in Hkm, Hqb.
  assert (0 < m) as Hm0 by (destruct (wf_size _ _ _ Hb (list_elem_of_here _ _)); cbn in *; lia).
  apply Forall_app in Hsz as [HszG Hk]. rewrite Forall_singleton in Hk. cbn in Hk.
  assert (q <> base) by lia. assert (0 < k) as Hk0 by (apply spaced_app in Hsp as [_ (_ & ? & _)]; done).
  unfold join_prev, bind, size_of, ptr_of, gets. rewrite Hk, Z.eqb_refl, Hm, set_size_small by lia. cbn [u_ptr]. rewrite Hh.
  eexists. split; [reflexivity |]. rewrite addrs_snoc in *. unfold prev_post. cbn [u_ptr u_size]. split_and!.
  - split; cbn; try done. intros. by apply upd_ne.
  - intros. by apply upd_ne.
  - rewrite addrs_snoc. pose proof (seg_redirect _ _ _ _ h Hnd Hseg) as H'. by rewrite last_snoc in H'.
  - apply Forall_app. split; [| apply Forall_singleton; cbn; apply upd_eq]. rewrite Forall_forall in *. intros b Hbin.
    rewrite upd_ne; [by apply HszG |]. intros E. rewrite app_comm_cons in Hnd. apply NoDup_app in Hnd as (_ & Hnd & _).
    apply (Hnd q); [| apply list_elem_of_here]. right. apply list_elem_of_fmap. by exists b.
  - by rewrite upd_ne.
  - apply spaced_app in Hsp as [H1 H2]. apply spaced_app. split; [done |]. destruct H2 as (? & ? & _). cbn. split_and!; [done | lia | done].
  - rewrite end_snoc. unfold bend. cbn. lia.
  - rewrite addrs_snoc. right. apply elem_snoc.
  - rewrite !units_app. cbn. lia.
  - eapply blocks_perm; [| | exact Hj]; [done |]. solve_Permutation.
  - exists (q, k + m). split; [apply elem_of_app; right; apply list_elem_of_here | cbn; lia].
  - rewrite !length_app. cbn. lia.
Qed.

Lemma join_prev_linked s bp m y h (F1 rest : list block) :
  u_size s bp = m -> u_ptr s bp = h -> seg (u_ptr s) base (addrs F1) y -> u_size s base = 0 ->
  Forall (fun b : block => u_size s b.1 = b.2) F1 -> spaced base F1 -> bp ∉ base :: addrs F1 ->
  pred_of F1 + u_size s (pred_of F1) * HDR <> bp -> end_of base F1 < bp -> blocks_ok s ((bp, m) :: F1 ++ rest) ->
  exists s', join_prev bp (pred_of F1) s = Ok tt s' /\ prev_post s s' (F1 ++ [(bp, m)]) rest bp (pred_of F1) m h F1.
Proof.
  intros Hm Hh Hseg Hb0 Hsz Hsp Hni Hne He Hb. pose proof (spaced_nodup _ _ Hsp) as Hnd.
  destruct (wf_size _ _ _ Hb (list_elem_of_here _ _)) as (Hm0 & _). cbn in Hm0.
  assert (bp <> pred_of F1) as Hbp by (intros ->; by apply Hni, pred_in).
  unfold join_prev, bind, size_of, ptr_of, gets. apply Z.eqb_neq in Hne. rewrite Hne.
  eexists. split; [reflexivity |]. unfold prev_post. cbn [u_ptr u_size]. rewrite addrs_snoc. split_and!.
  - by split.
  - intros. by apply upd_ne.
  - apply seg_app. split; [by apply (seg_redirect _ _ _ _ bp Hnd Hseg) | cbn; by rewrite upd_ne].
  - apply Forall_app. split; [done | by apply Forall_singleton].
  - done.
  - apply spaced_app. split; [done |]. cbn. split_and!; [done | lia | done].
  - by rewrite end_snoc.
  - rewrite app_comm_cons, elem_of_app. left. apply pred_in.
  - rewrite units_app. cbn. lia.
  - eapply blocks_perm; [| | exact Hb]; [done |]. solve_Permutation.
  - exists (bp, m). split; [apply elem_of_app; right; apply list_elem_of_here | cbn; lia].
  - rewrite length_app. cbn. lia.
Qed.

(** The end of the blocks before [bp]. *)
Lemma end_before s bp m (F1 rest : list block) : Forall (fun b : block => b.1 < bp) F1 -> base < bp ->
  blocks_ok s ((bp, m) :: F1 ++ rest) -> end_of base F1 <= bp.
Proof.
  intros H1 Hbp Hb. destruct F1 as [|[q k] G _] using rev_ind; [cbn; lia |]. rewrite end_snoc.
  apply Forall_app in H1 as [_ H1]. rewrite Forall_singleton in H1. cbn in H1.
  destruct (wf_size _ _ _ Hb (list_elem_of_here _ _)) as (Hm & _). cbn in Hm. destruct Hb as [_ [Hd _] _].
  rewrite !Forall_app in Hd. destruct Hd as [[_ Hd] _]. rewrite Forall_singleton in Hd. unfold apart, bend in *. cbn in *. klia.
Qed.

Lemma join_prev_spec s bp m y h (F1 rest : list block) :
  u_size s bp = m -> u_ptr s bp = h -> seg (u_ptr s) base (addrs F1) y -> u_size s base = 0 ->
  Forall (fun b : block => u_size s b.1 = b.2) F1 -> spaced base F1 -> Forall (fun b : block => b.1 < bp) F1 -> base < bp ->
  blocks_ok s ((bp, m) :: F1 ++ rest) ->
  exists s' F1', join_prev bp (pred_of F1) s = Ok tt s' /\ prev_post s s' F1' rest bp (pred_of F1) m h F1.
Proof.
  intros Hm Hh Hseg Hb0 Hsz Hsp Hlt Hbp Hb. pose proof (end_before _ _ _ _ _ Hlt Hbp Hb) as He.
  assert (bp ∉ base :: addrs F1) as Hni.
  { intros [->|(b & E & Hin)%list_elem_of_fmap]%elem_of_cons; [lia |]. rewrite Forall_forall in Hlt. specialize (Hlt b Hin). lia. }
  destruct (decide (pred_of F1 + u_size s (pred_of F1) * HDR = bp)) as [E|E].
  - destruct F1 as [|[q k] G _] using rev_ind; [cbn in E; lia |]. rewrite pred_snoc in *.
    pose proof Hsz as Hk. apply Forall_app in Hk as [_ Hk]. rewrite Forall_singleton in Hk. cbn in Hk. rewrite Hk in E.
    destruct (join_prev_joined s bp q k m y h G rest) as (s' & H); try done. by exists s', (G ++ [(q, k + m)]).
  - destruct (join_prev_linked s bp m y h F1 rest) as (s' & H); try done; [| by exists s', (F1 ++ [(bp, m)])].
    destruct F1 as [|[q k] G _] using rev_ind; [done |]. rewrite pred_snoc, end_snoc in *. unfold bend in *. cbn in *.
    apply Forall_app in Hsz as [_ Hk]. rewrite Forall_singleton in Hk. cbn in Hk. rewrite Hk in E. lia.
Qed.

(** *** [free] *)

Lemma free_scan_ok s F1 F2 bp fuel : linked s (F1 ++ F2) -> base < bp -> (length (F1 ++ F2) < fuel)%nat ->
  Forall (fun b : block => b.1 < bp) F1 -> Forall (fun b : block => bp < b.1) F2 ->
  free_scan fuel bp (u_freep s) s = Ok (pred_of F1) s.
Proof.
  intros [Hs _ _ Hp Hsp] Hbp Hf H1 H2. destruct (rotate _ _ _ Hs Hp) as (r & Hr & HP).
  apply (free_scan_spec _ _ _ _ r (u_freep s)); [done | | |].
  - rewrite <- HP, map_app, app_comm_cons, elem_of_app. left. apply pred_in.
  - apply Permutation_length in HP. cbn in HP. rewrite length_map in HP. lia.
  - intros q Hq. rewrite <- HP in Hq. by apply (goes_after_spec _ F1 F2).
Qed.

(** A block is not at the address of another one. *)
Lemma block_apart s b L : blocks_ok s (b :: L) -> b.1 ∉ addrs L.
Proof.
  intros [W [Hd _] _] (c & E & Hin)%list_elem_of_fmap. rewrite Forall_forall in Hd. specialize (Hd c Hin).
  rewrite Forall_cons, Forall_forall in W. destruct W as [(_ & _ & H1 & _) W]. destruct (W c Hin) as (_ & _ & H2 & _).
  unfold apart, bend in Hd. klia.
Qed.

Lemma sizes_same s s' a (L : list block) : others_same s s' a -> a ∉ addrs L ->
  Forall (fun b : block => u_size s b.1 = b.2) L -> Forall (fun b : block => u_size s' b.1 = b.2) L.
Proof.
  intros Ho Ha. rewrite !Forall_forall. intros H b Hb. rewrite (os_size _ _ _ Ho); [by apply H |].
  intros E. apply Ha. rewrite <- E. apply list_elem_of_fmap. by exists b.
Qed.

(** The block before [bp], or [base], is not among the others. *)
Lemma pred_apart s b F1 L d : blocks_ok s (b :: d ++ F1 ++ L) -> pred_of F1 ∉ addrs L.
Proof.
  intros Hb Hp. pose proof (pred_in F1) as [Hp'|Hp']%elem_of_cons.
  - rewrite Hp' in Hp. apply list_elem_of_fmap in Hp as (c & E & Hc).
    destruct (wf_size _ _ c Hb) as (_ & ? & _); [rewrite elem_of_cons, !elem_of_app; tauto | lia].
  - apply list_elem_of_fmap in Hp' as (c & E & Hc). apply list_elem_of_split in Hc as (G & G' & ->).
    apply (block_apart s c (b :: d ++ G ++ G' ++ L)); [eapply blocks_perm; [reflexivity | | exact Hb]; solve_Permutation |].
    rewrite <- E. cbn. rewrite !map_app, elem_of_cons, !elem_of_app. tauto.
Qed.

(** The second join, after the first, leaves a list. *)
Lemma relinked s1 s2 F1 F1' F2' live bp m : prev_post s1 s2 F1' (F2' ++ live) bp (pred_of F1) m (hd_or base (addrs F2')) F1 ->
  pred_of F1 ∉ addrs (F2' ++ live) -> rest_ok (u_ptr s1) base (addrs F2') ->
  Forall (fun b : block => u_size s1 b.1 = b.2) (F2' ++ live) -> spaced (bp + m * HDR) F2' ->
  heap_ok (Um (u_ptr s2) (u_size s2) (pred_of F1) (u_brk s2) (u_grants s2)) (F1' ++ F2') live.
Proof.
  intros (O2 & P2 & Sg & Sz & Z0 & Spp & En & Pin & _ & B2 & _) Hni Hr Hz Sp.
  pose proof (sizes_same _ _ _ _ O2 Hni Hz) as Hz'. apply Forall_app in Hz' as [Hz2 Hlv]. rewrite map_app, elem_of_app in Hni.
  split; [split; cbn | done | split; cbn].
  - rewrite map_app. apply circle_app. split; [done |]. destruct (addrs F2') as [|a l] eqn:Ea; [done |].
    eapply seg_ext; [| exact Hr]. intros x Hx. apply P2. intros ->. apply Hni. by left.
  - done.
  - by apply Forall_app.
  - rewrite map_app, app_comm_cons, elem_of_app. by left.
  - apply spaced_app. by rewrite En.
  - rewrite <- app_assoc. apply B2.
  - rewrite <- app_assoc. apply B2.
  - apply B2.
Qed.

Lemma free_spec s F live bp n fuel : heap_ok s F ((bp, n) :: live) -> (length F < fuel)%nat ->
  exists s' F', free fuel (bp + HDR) s = Ok tt s' /\ heap_ok s' F' live /\ units F' = units F + n /\
    u_brk s' = u_brk s /\ u_grants s' = u_grants s /\ (exists b, b ∈ F' /\ n <= b.2) /\ (length F' <= S (length F))%nat.
Proof.
  intros [L Hlv Hb] Hf. apply Forall_cons in Hlv as [Hn Hlv]. cbn in Hn.
  assert (blocks_ok s ((bp, n) :: F ++ live)) as Hb1 by (eapply blocks_perm; [reflexivity | | exact Hb]; solve_Permutation).
  destruct (wf_size _ _ _ Hb1 (list_elem_of_here _ _)) as (Hn0 & Hbp & _). cbn in Hn0, Hbp.
  pose proof (block_apart _ _ _ Hb1) as Hni. rewrite map_app, not_elem_of_app in Hni. destruct Hni as [HnF Hnl]. cbn in HnF, Hnl.
  destruct (spaced_split _ _ _ (ln_spaced _ _ L) HnF) as (F1 & F2 & -> & HF1 & HF2).
  rewrite map_app, not_elem_of_app in HnF. destruct HnF as [Hn1 Hn2].
  unfold free. replace (bp + HDR - HDR) with bp by lia. unfold bind at 1, gets. cbv beta iota.
  unfold bind at 1. rewrite (free_scan_ok s F1 F2 bp fuel L Hbp Hf HF1 HF2).
  destruct L as [Ls Lb Lz Lf Lp]. pose proof (spaced_nodup _ _ Lp) as Hnd. rewrite map_app in Ls, Hnd. apply circle_app in Ls as [Ls1 Ls2].
  apply spaced_app in Lp as [Lp1 Lp2]. apply Forall_app in Lz as [Lz1 Lz2].
  destruct (join_next_spec s bp (pred_of F1) n F2 (F1 ++ live)) as (s1 & m & F2' & E1 & O1 & P1 & S1 & Hnm & [d Hd] & Sp & Hu & B1); try done.
  { by apply seg_end in Ls1. }
  { destruct F2 as [|b F2]; [done |]. apply Forall_cons in HF2 as [? _]. destruct Lp2 as (_ & ? & ?). by split_and!. }
  { eapply blocks_perm; [reflexivity | | exact Hb1]. solve_Permutation. }
  assert (addrs F2 = addrs d ++ addrs F2') as Hd' by (by rewrite Hd, map_app).
  assert (bp ∉ base :: addrs F1) as Hnb by (apply not_elem_of_cons; split; [lia | done]).
  unfold bind at 1. rewrite E1.
  destruct (join_prev_spec s1 bp m (hd_or base (addrs F2)) (hd_or base (addrs F2')) F1 (F2' ++ live)) as (s2 & F1' & E2 & Hpost); try done.
  { by rewrite P1, upd_eq. }
  { rewrite P1. by apply seg_upd. }
  { by rewrite (os_size _ _ _ O1) by lia. }
  { by eapply sizes_same. }
  { eapply blocks_perm; [reflexivity | | exact B1]. solve_Permutation. }
  unfold bind at 1. rewrite E2. eexists _, (F1' ++ F2'). split; [reflexivity |]. split.
  - eapply relinked; [exact Hpost | | | | done].
    + apply (pred_apart s (bp, n) F1 (F2' ++ live) d). eapply blocks_perm; [reflexivity | | exact Hb1]. rewrite Hd. solve_Permutation.
    + rewrite P1. apply rest_ok_upd; [by rewrite Hd', not_elem_of_app in Hn2; destruct Hn2 |]. rewrite Hd' in Ls2. by apply rest_ok_app in Ls2.
    + apply (sizes_same s _ bp); [done | | apply Forall_app; split; [rewrite Hd in Lz2; by apply Forall_app in Lz2 as [_ ?] | done]].
      rewrite map_app, not_elem_of_app. rewrite Hd', not_elem_of_app in Hn2. by destruct Hn2.
  - destruct Hpost as (O2 & _ & _ & _ & _ & _ & _ & _ & U2 & _ & (b & Hb' & Hmb) & Len). cbn.
    rewrite (os_brk _ _ _ O2), (os_brk _ _ _ O1), (os_grants _ _ _ O2), (os_grants _ _ _ O1), !units_app, !length_app, Hd, length_app.
    split_and!; [rewrite Hd in Hu; lia | done | done | exists b; rewrite elem_of_app; split; [by left | lia] | lia].
Qed.

(** *** [morecore] *)

Lemma brk_fresh s L : blocks_ok s L -> u_brk s ∉ base :: addrs L.
Proof.
  intros Hb [E|(c & E & Hc)%list_elem_of_fmap]%elem_of_cons.
  - destruct Hb as [_ _ [? _]]. klia.
  - destruct (wf_size _ _ c Hb Hc) as (? & _). destruct Hb as [W _ _]. rewrite Forall_forall in W. destruct (W c Hc) as (_ & Hw & _).
    unfold bend in Hw. klia.
Qed.

Definition grown (s : um) (nu : Z) (g : list bool) : um :=
  Um (u_ptr s) (upd (u_size s) (u_brk s) nu) (u_freep s) (u_brk s + nu * HDR) g.

Lemma sizes_upd (f : Z -> Z) a v (L : list block) : a ∉ addrs L ->
  Forall (fun b : block => f b.1 = b.2) L -> Forall (fun b : block => upd f a v b.1 = b.2) L.
Proof.
  intros Hn. rewrite !Forall_forall. intros H b Hb. rewrite upd_ne; [by apply H |]. intros E. apply Hn. rewrite <- E.
  apply list_elem_of_fmap. by exists b.
Qed.

Lemma heap_grown s F live nu g : heap_ok s F live -> 0 < nu -> u_brk s + nu * HDR < 2 ^ 32 ->
  heap_ok (grown s nu g) F ((u_brk s, nu) :: live).
Proof.
  intros [[Ls Lb Lz Lf Lp] Hlv Hb] Hnu Hlt. pose proof (brk_fresh _ _ Hb) as Hf. rewrite map_app, not_elem_of_cons, not_elem_of_app in Hf.
  destruct Hf as (Hfb & Hf1 & Hf2).
  split; [split; try done | |].
  - cbn. by rewrite upd_ne by done.
  - by apply sizes_upd.
  - constructor; [cbn; apply upd_eq | by apply sizes_upd].
  - destruct Hb as [W D [B1 B2]]. split; cbn.
    + rewrite <- Permutation_middle. constructor.
      * unfold wf_block, bend. cbn. split_and!; [lia | lia | lia | done].
      * eapply Forall_impl; [exact W |]. intros c (? & ? & ? & ?). unfold wf_block. split_and!; [done | klia | done | done].
    + rewrite <- Permutation_middle. cbn. split; [| done]. eapply Forall_impl; [exact W |]. intros c (_ & ? & _). right. cbn. lia.
    + split; [klia |]. apply Z.divide_add_r; [done | by exists nu].
Qed.

Lemma sbrk_cases s n : 0 <= n < 2 ^ 31 ->
  (exists g, sbrk n s = Ok (u_brk s) (Um (u_ptr s) (u_size s) (u_freep s) (u_brk s + n) g) /\ u_brk s + n < 2 ^ 32) \/
  exists g, sbrk n s = Ok (-1) (Um (u_ptr s) (u_size s) (u_freep s) (u_brk s) g) /\
    (head (u_grants s) <> Some true \/ 2 ^ 32 <= u_brk s + n).
Proof.
  intros Hn. unfold sbrk. rewrite s32_small by lia.
  destruct (u_grants s) as [|[] g]; [right; eexists; split; [done | by left] | | right; eexists; split; [done | by left]].
  destruct (u_brk s + n <? 2 ^ 32) eqn:E; [left; exists g; split; [done | lia] | right; eexists; split; [done | right; lia]].
Qed.

Lemma freep_pos s F live : heap_ok s F live -> 0 < u_freep s.
Proof.
  intros [[_ _ _ Lf _] _ Hb]. apply elem_of_cons in Lf as [->|(c & -> & Hc)%list_elem_of_fmap]; [lia |].
  destruct (wf_size _ _ c Hb) as (_ & ? & _); [rewrite elem_of_app; by left | lia].
Qed.

(** [sbrk] has refused, and nothing else has changed. *)
Definition refused (s s' : um) : Prop :=
  u_ptr s' = u_ptr s /\ u_size s' = u_size s /\ u_freep s' = u_freep s /\ u_brk s' = u_brk s /\
  (head (u_grants s) <> Some true \/ exists nu, nu < 2 ^ 27 /\ 2 ^ 32 <= u_brk s + nu * HDR).

Lemma refused_heap s s' F live : refused s s' -> heap_ok s F live -> heap_ok s' F live.
Proof.
  intros (E1 & E2 & E3 & E4 & _) [[] ? []]. split; [split; rewrite ?E1, ?E2, ?E3; done | by rewrite E2 | split; rewrite ?E4; done].
Qed.

Lemma morecore_spec s F live nu fuel : heap_ok s F live -> 0 < nu < 2 ^ 27 -> (length F < fuel)%nat ->
  (exists s', morecore fuel nu s = Ok 0 s' /\ refused s s') \/
  exists s' F' got, morecore fuel nu s = Ok (u_freep s') s' /\ u_freep s' <> 0 /\ heap_ok s' F' live /\
    (exists b, b ∈ F' /\ nu <= b.2) /\ (length F' <= S (length F))%nat /\ 0 <= got /\
    u_brk s' = u_brk s + got * HDR /\ units F' = units F + got.
Proof.
  intros Hk Hnu Hf. unfold morecore. set (n := if nu <? 4096 then 4096 else nu).
  assert (nu <= n < 2 ^ 27) as Hn by (subst n; destruct (nu <? 4096) eqn:E; lia).
  pose proof (hk_blocks _ _ _ Hk) as [_ _ [Hbr _]].
  destruct (sbrk_cases s (n * HDR)) as [(g & E & Hlt)|(g & E & Hno)]; [klia | |]; rewrite (bind_run _ _ _ _ _ E).
  - destruct (u_brk s =? -1) eqn:E1; [klia |].
    assert (set_size (u_brk s) n (Um (u_ptr s) (u_size s) (u_freep s) (u_brk s + n * HDR) g) = Ok tt (grown s n g)) as Es
      by (rewrite set_size_small by lia; done).
    destruct (free_spec (grown s n g) F live (u_brk s) n fuel) as (s' & F' & Ef & Hk' & Hu & Hb' & _ & (b & Hbin & Hle) & Hlen);
      [by apply heap_grown; [| lia |] | done |].
    right. exists s', F', n. rewrite (bind_run _ _ _ _ _ Es), (bind_run _ _ _ _ _ Ef). split; [done |].
    split_and!; [pose proof (freep_pos _ _ _ Hk'); lia | done | exists b; split; [done | lia] | done | lia | done | done].
  - left. eexists. split; [reflexivity |]. split_and!; [done.. |]. destruct Hno; [by left | right; exists n; split; [lia | done]].
Qed.

(** *** [malloc] *)

Definition malloc_post (s : um) (F live : list block) (n : Z) (o : outcome um Z) : Prop :=
  exists s' F' a, o = Ok (a + HDR) s' /\ heap_ok s' F' ((a, n) :: live) /\ units F' + n = units F /\
    u_brk s' = u_brk s /\ (length F' <= length F)%nat.

Lemma take_exact s G1 G2 q n live : heap_ok s (G1 ++ (q, n) :: G2) live ->
  malloc_post s (G1 ++ (q, n) :: G2) live n (take_block n (pred_of G1) q s).
Proof.
  intros [[Ls Lb Lz Lf Lp] Hlv Hb]. pose proof (spaced_nodup _ _ Lp) as Hnd.
  assert (pred_of G1 ∉ addrs G2) as Hni.
  { apply (pred_apart s (q, n) G1 G2 live). eapply blocks_perm; [reflexivity | | exact Hb]. solve_Permutation. }
  rewrite map_app in Ls, Hnd. cbn [map fst] in Ls, Hnd. apply circle_app in Ls as [Ls1 Ls2]. apply rest_ok_tail in Ls2 as [Hq Ls2].
  apply Forall_app in Lz as [Lz1 [Hn Lz2]%Forall_cons]. cbn in Hn. apply spaced_app in Lp as [Lp1 Lp2]. destruct Lp2 as (Hq1 & Hq2 & Lp2).
  unfold take_block, bind, size_of, ptr_of, gets. rewrite Hn, Z.eqb_refl, Hq.
  eexists _, (G1 ++ G2), q. split; [reflexivity |]. cbn [u_brk]. split_and!; [| rewrite !units_app; cbn; lia | done | rewrite !length_app; cbn; lia].
  split; [split; cbn | by constructor |].
  - rewrite map_app. apply circle_app. split; [| by apply rest_ok_upd].
    rewrite app_comm_cons in Hnd. apply NoDup_app in Hnd as [Hnd _]. by eapply seg_redirect.
  - done.
  - by apply Forall_app.
  - rewrite map_app, app_comm_cons, elem_of_app. left. apply pred_in.
  - apply spaced_app. split; [done |]. eapply spaced_le; [| exact Lp2]. unfold bend in *. cbn in *. klia.
  - eapply blocks_perm; [| | exact Hb]; [done |]. solve_Permutation.
Qed.

Lemma blocks_cut s a n m L : 0 < n -> 0 < m -> blocks_ok s ((a, n + m) :: L) -> blocks_ok s ((a, n) :: (a + n * HDR, m) :: L).
Proof.
  intros Hn Hm [W D B]. apply Forall_cons in W as [(W1 & W2 & W3 & W4) W]. unfold bend in W2. cbn in *. split; [| | done].
  - repeat constructor; cbn; unfold bend; cbn; try done; [klia.. |]. apply Z.divide_add_r; [done | by exists n].
  - by apply disjoint_cut.
Qed.

Lemma take_cut s G1 G2 q k n prevp live : heap_ok s (G1 ++ (q, k) :: G2) live -> 0 < n < k -> prevp ∈ base :: addrs (G1 ++ (q, k) :: G2) ->
  malloc_post s (G1 ++ (q, k) :: G2) live n (take_block n prevp q s).
Proof.
  intros [[Ls Lb Lz Lf Lp] Hlv Hb] Hn Hp. set (q' := q + (k - n) * HDR).
  assert (blocks_ok s ((q, k - n) :: (q', n) :: G1 ++ G2 ++ live)) as Hb1.
  { apply blocks_cut; [lia | lia |]. replace (k - n + n) with k by lia. eapply blocks_perm; [reflexivity | | exact Hb]. solve_Permutation. }
  destruct (wf_size _ _ (q, k - n) Hb1 (list_elem_of_here _ _)) as (Hkn & Hqb & _). cbn in Hkn, Hqb.
  destruct (wf_size _ _ (q', n) Hb1) as (Hnn & Hqb' & _); [right; apply list_elem_of_here |]. cbn in Hnn, Hqb'.
  pose proof (block_apart _ _ _ Hb1) as Hni.
  assert (q' ∉ addrs (G1 ++ G2 ++ live)) as Hni'.
  { apply (block_apart s (q', n)). destruct Hb1 as [W [_ D] B]. apply Forall_cons in W as [_ W]. by split. }
  cbn in Hni. apply not_elem_of_cons in Hni as [Hqq Hni]. rewrite !map_app, !not_elem_of_app in Hni, Hni'.
  destruct Hni as (N1 & N2 & N3), Hni' as (N1' & N2' & N3').
  apply Forall_app in Lz as [Lz1 [Hk Lz2]%Forall_cons]. cbn in Hk. apply spaced_app in Lp as [Lp1 Lp2]. destruct Lp2 as (Hq1 & Hq2 & Lp2).
  unfold take_block, bind, size_of, ptr_of, gets. rewrite Hk. destruct (k =? n) eqn:E; [lia |]. rewrite set_size_small by lia.
  fold q'. rewrite set_size_small by lia. eexists _, (G1 ++ (q, k - n) :: G2), q'. split; [reflexivity |]. cbn [u_brk u_size u_ptr].
  split_and!; [| rewrite !units_app; cbn; lia | done | rewrite !length_app; cbn; lia].
  split; [split; cbn | |].
  - by rewrite map_app in *.
  - by rewrite !upd_ne by lia.
  - apply Forall_app. split; [by apply sizes_upd, sizes_upd |]. constructor; [cbn; by rewrite upd_ne, upd_eq by done |].
    by apply sizes_upd, sizes_upd.
  - by rewrite map_app in *.
  - apply spaced_app. split; [done |]. cbn in *. split_and!; [done | lia |]. eapply spaced_le; [| exact Lp2]. unfold bend. cbn. klia.
  - constructor; [cbn; apply upd_eq | by apply sizes_upd, sizes_upd].
  - eapply blocks_perm; [| | exact Hb1]; [done |]. solve_Permutation.
Qed.

(** Taking a block that is large enough, from its predecessor. *)
Lemma take_spec s F live n prevp p : heap_ok s F live -> prevp ∈ base :: addrs F -> u_ptr s prevp = p -> p ∈ base :: addrs F ->
  0 < n <= u_size s p -> malloc_post s F live n (take_block n prevp p s).
Proof.
  intros Hk Hp Hpp Hin Hn. pose proof (hk_list _ _ _ Hk) as [Ls Lb Lz Lf Lp].
  apply elem_of_cons in Hin as [->|Hin]; [rewrite Lb in Hn; lia |].
  apply list_elem_of_fmap in Hin as ([q k] & -> & Hin). cbn in *. apply list_elem_of_split in Hin as (G1 & G2 & ->).
  assert (u_size s q = k) as Hq by (apply Forall_app in Lz as [_ [Hq _]%Forall_cons]; done). rewrite Hq in Hn.
  destruct (decide (k = n)) as [->|Hne]; [| apply take_cut; [done | lia | done]].
  assert (prevp = pred_of G1) as ->; [| by apply take_exact].
  apply (circle_inj (u_ptr s) base (addrs (G1 ++ (q, n) :: G2))); [by apply spaced_nodup | done | done | |].
  - rewrite map_app, app_comm_cons, elem_of_app. left. apply pred_in.
  - rewrite Hpp. rewrite map_app in Ls. apply circle_app in Ls as [Ls _]. symmetry. exact (seg_end _ _ _ _ Ls).
Qed.

(** One round of the loop that does not find a block. *)
Lemma loop_next s n prevp p fuel : u_size s p < n -> p <> u_freep s ->
  malloc_loop (S fuel) n prevp p s = malloc_loop fuel n p (u_ptr s p) s.
Proof.
  intros Hs Hp. cbn [malloc_loop]. unfold size_of, ptr_of. rewrite !bind_gets. destruct (n <=? u_size s p) eqn:E; [lia |].
  apply Z.eqb_neq in Hp. rewrite bind_gets, Hp. reflexivity.
Qed.

Lemma loop_take s n prevp p fuel : n <= u_size s p -> malloc_loop (S fuel) n prevp p s = take_block n prevp p s.
Proof. intros Hs. cbn [malloc_loop]. unfold size_of. rewrite bind_gets. destruct (n <=? u_size s p) eqn:E; [done | lia]. Qed.

(** The nodes from [prevp] on, up to [freep]. *)
Record ahead (s : um) (F : list block) (prevp : Z) (l : list Z) : Prop := Ahead {
  ah_prev : prevp ∈ base :: addrs F;
  ah_seg : seg (u_ptr s) prevp l (u_freep s);
  ah_in : forall x, x ∈ l -> x ∈ base :: addrs F /\ x <> u_freep s;
}.

Lemma ahead_tail s F prevp b l : ahead s F prevp (b :: l) -> u_ptr s prevp = b /\ ahead s F b l.
Proof.
  intros [Hp [Hb Hs] Hin]. split; [done |]. split; [by apply Hin, list_elem_of_here | done |]. intros x Hx. apply Hin. by right.
Qed.

Lemma loop_found s F live n prevp l fuel : heap_ok s F live -> ahead s F prevp l -> 0 < n ->
  (exists x, x ∈ l ++ [u_freep s] /\ n <= u_size s x) -> (length l < fuel)%nat ->
  malloc_post s F live n (malloc_loop fuel n prevp (u_ptr s prevp) s).
Proof.
  intros Hk. revert prevp fuel. induction l as [|b l IH]; intros prevp fuel Ha Hn (x & Hx & Hnx) Hf; (destruct fuel as [|fuel]; [cbn in Hf; lia |]).
  - apply list_elem_of_singleton in Hx as ->. destruct Ha as [Hp Hs _]. cbn in Hs. rewrite loop_take by (by rewrite Hs).
    eapply take_spec; [done | done | done | rewrite Hs; apply (hk_list _ _ _ Hk) | by rewrite Hs].
  - apply ahead_tail in Ha as Hb. destruct Hb as [Hb Ha']. destruct (ah_in _ _ _ _ Ha b) as [Hbin Hbf]; [apply list_elem_of_here |].
    destruct (decide (n <= u_size s b)) as [Hle|Hgt].
    + rewrite loop_take by (by rewrite Hb). eapply take_spec; [done | apply Ha | done | by rewrite Hb | by rewrite Hb].
    + rewrite loop_next, Hb by (rewrite Hb; lia || done). apply IH; [done | done | | cbn in Hf; lia].
      exists x. split; [| done]. cbn in Hx. apply elem_of_cons in Hx as [->|Hx]; [lia | done].
Qed.

Lemma loop_none s F n prevp l fuel : ahead s F prevp l -> (forall x, x ∈ l -> u_size s x < n) ->
  exists prevp', malloc_loop (length l + fuel) n prevp (u_ptr s prevp) s = malloc_loop fuel n prevp' (u_freep s) s.
Proof.
  revert prevp. induction l as [|b l IH]; intros prevp Ha Hl.
  - destruct Ha as [_ Hs _]. cbn in *. rewrite Hs. by exists prevp.
  - apply ahead_tail in Ha as Hb. destruct Hb as [Hb Ha']. destruct (ah_in _ _ _ _ Ha b) as [_ Hbf]; [apply list_elem_of_here |].
    cbn [length Nat.add]. rewrite loop_next, Hb by (rewrite Hb; (apply Hl, list_elem_of_here) || done).
    apply IH; [done |]. intros x Hx. apply Hl. by right.
Qed.

(** All the nodes are ahead of [freep]. *)
Lemma ahead_start s F live : heap_ok s F live -> exists l, ahead s F (u_freep s) l /\ base :: addrs F ≡ₚ u_freep s :: l.
Proof.
  intros Hk. pose proof (hk_list _ _ _ Hk) as [Ls _ _ Lf Lp]. destruct (rotate _ _ _ Ls Lf) as (l & Hl & P). exists l. split; [| done].
  split; [done | done |]. intros x Hx. split; [rewrite P; by right |]. intros ->.
  pose proof (spaced_nodup _ _ Lp) as Hnd. rewrite P in Hnd. by apply NoDup_cons in Hnd as [? _].
Qed.

(** The loop ends: at a block, after [morecore] at the latest, or refused. *)
Definition malloc_result (s : um) (F live : list block) (n : Z) (o : outcome um Z) : Prop :=
  (exists s', o = Ok 0 s' /\ refused s s') \/
  exists s' F' a got, o = Ok (a + HDR) s' /\ heap_ok s' F' ((a, n) :: live) /\ 0 <= got /\
    u_brk s' = u_brk s + got * HDR /\ units F' + n = units F + got.

(** The rest of the loop once it has come back to [freep]. *)
Lemma loop_more s F live n fuel1 fuel2 : heap_ok s F live -> 0 < n < 2 ^ 27 -> (length F < fuel1)%nat -> (S (length F) < fuel2)%nat ->
  malloc_result s F live n ((let! more := (let! p := morecore fuel1 n in ret (if p =? 0 then None else Some p)) in
     match more with Some p => let! next := gets (fun s => u_ptr s p) in malloc_loop fuel2 n p next | None => ret 0 end) s).
Proof.
  intros Hk Hn Hf1 Hf2. destruct (morecore_spec s F live n fuel1 Hk Hn Hf1) as
    [(s' & E & Hr)|(s' & F' & got & E & Hp & Hk' & (b & Hb & Hnb) & Hlen & Hg & Hbr & Hu)].
  - left. exists s'. unfold bind. by rewrite E.
  - erewrite bind_run by (rewrite (bind_run _ _ _ _ _ E); reflexivity). apply Z.eqb_neq in Hp. rewrite Hp, bind_gets.
    destruct (ahead_start _ _ _ Hk') as (l & Ha & P).
    assert (length l = length F') as Hl by (apply Permutation_length in P; cbn in P; rewrite length_map in P; lia).
    destruct (loop_found s' F' live n (u_freep s') l fuel2) as (s2 & F2 & a & -> & Hk2 & Hu2 & Hb2 & _); [done | done | lia | | lia |].
    + exists b.1. pose proof (ln_size _ _ (hk_list _ _ _ Hk')) as Hz. rewrite Forall_forall in Hz. rewrite (Hz b Hb). split; [| done].
      rewrite <- Permutation_cons_append, <- P. right. apply list_elem_of_fmap. by exists b.
    + right. exists s2, F2, a, got. split_and!; [done | done | done | lia | lia].
Qed.

Lemma loop_spec s F live n fuel : heap_ok s F live -> 0 < n < 2 ^ 27 -> (2 * length F + 4 <= fuel)%nat ->
  malloc_result s F live n (malloc_loop fuel n (u_freep s) (u_ptr s (u_freep s)) s).
Proof.
  intros Hk Hn Hf. destruct (ahead_start _ _ _ Hk) as (l & Ha & P).
  assert (length l = length F) as Hl by (apply Permutation_length in P; cbn in P; rewrite length_map in P; lia).
  destruct (decide (Exists (fun x => n <= u_size s x) (l ++ [u_freep s]))) as [He|Hne].
  - apply Exists_exists in He. destruct (loop_found s F live n (u_freep s) l fuel) as (s' & F' & a & -> & Hk' & Hu & Hb & _); [done | done | lia | done | lia |].
    right. exists s', F', a, 0. split_and!; [done | done | lia | lia | lia].
  - rewrite <- Forall_Exists_neg in Hne || apply not_Exists_Forall in Hne. rewrite Forall_forall in Hne.
    assert (forall x, x ∈ l ++ [u_freep s] -> u_size s x < n) as Hlt by (intros x Hx; specialize (Hne x Hx); cbn in Hne; lia).
    destruct (loop_none s F n (u_freep s) l (S (fuel - length l - 1)) Ha) as [prevp' E].
    { intros x Hx. apply Hlt. rewrite elem_of_app. by left. }
    replace (length l + S (fuel - length l - 1))%nat with fuel in E by lia. rewrite E. cbn [malloc_loop].
    unfold size_of, ptr_of. rewrite bind_gets. assert (u_size s (u_freep s) < n) as Hfp by (apply Hlt, elem_snoc).
    destruct (n <=? u_size s (u_freep s)) eqn:En; [lia |]. rewrite bind_gets, Z.eqb_refl.
    apply loop_more; [done | done | lia..].
Qed.

(** [malloc] on a list that is set up, and on the first call. *)
Definition alloc_ok (s : um) (F live : list block) : Prop :=
  heap_ok s F live \/ u_freep s = 0 /\ F = [] /\ live = [] /\ blocks_ok s [].

Definition nunits (nbytes : Z) : Z := (nbytes + HDR - 1) / HDR + 1.

Definition MAXREQ : Z := 2 ^ 31 - 32.

Lemma nunits_range nbytes : 0 <= nbytes <= MAXREQ -> 0 < nunits nbytes < 2 ^ 27 /\ nbytes <= (nunits nbytes - 1) * HDR.
Proof.
  unfold nunits, MAXREQ, HDR. intros H. pose proof (Z.div_mod (nbytes + 16 - 1) 16). pose proof (Z.mod_pos_bound (nbytes + 16 - 1) 16). lia.
Qed.

Definition first (s : um) : um := Um (upd (u_ptr s) base base) (upd (u_size s) base 0) base (u_brk s) (u_grants s).

Lemma heap_first s : blocks_ok s [] -> heap_ok (first s) [] [].
Proof.
  intros [? ? ?]. split; [split; cbn | done | by split]; [apply upd_eq | apply upd_eq | done | apply list_elem_of_here | done].
Qed.

Lemma malloc_spec s F live nbytes fuel : alloc_ok s F live -> 0 <= nbytes <= MAXREQ -> (2 * length F + 4 <= fuel)%nat ->
  (exists s', malloc base fuel nbytes s = Ok 0 s' /\ alloc_ok s' F live /\ u_brk s' = u_brk s /\
     (head (u_grants s) <> Some true \/ exists nu, nu < 2 ^ 27 /\ 2 ^ 32 <= u_brk s + nu * HDR)) \/
  exists s' F' a got, malloc base fuel nbytes s = Ok (a + HDR) s' /\ heap_ok s' F' ((a, nunits nbytes) :: live) /\ 0 <= got /\
    u_brk s' = u_brk s + got * HDR /\ units F' + nunits nbytes = units F + got.
Proof.
  intros Ha Hb Hf. destruct (nunits_range nbytes Hb) as [Hn _].
  set (s1 := if u_freep s =? 0 then first s else s).
  assert (heap_ok s1 F live /\ malloc base fuel nbytes s = malloc_loop fuel (nunits nbytes) (u_freep s1) (u_ptr s1 (u_freep s1)) s1 /\
    u_brk s1 = u_brk s /\ u_grants s1 = u_grants s) as (Hk & E & Eb & Eg).
  { unfold malloc. fold (nunits nbytes). rewrite u32_small by lia. rewrite bind_gets. subst s1. destruct Ha as [Hk|(H0 & -> & -> & Hbk)].
    - pose proof (freep_pos _ _ _ Hk). destruct (u_freep s =? 0) eqn:E0; [lia |]. done.
    - rewrite H0. cbn [Z.eqb]. split_and!; [by apply heap_first | done..]. }
  rewrite E. destruct (loop_spec s1 F live (nunits nbytes) fuel Hk Hn Hf) as [(s' & -> & Hr)|(s' & F' & a & got & -> & H1 & H2 & H3 & H4)].
  - left. exists s'. split_and!; [done | left; by eapply refused_heap | |]; destruct Hr as (_ & _ & _ & Hbr & Hg); [congruence |].
    by rewrite Eb, Eg in Hg.
  - right. exists s', F', a, got. by rewrite <- Eb.
Qed.

(** *** Enough fuel: the nodes of the list are disjoint parts of the heap *)

Lemma spaced_units lo' hi F : spaced lo' F -> Forall (fun b : block => bend b <= hi) F -> lo' <= hi ->
  lo' + units F * HDR <= hi /\ Z.of_nat (length F) <= units F.
Proof.
  revert lo'. induction F as [|b F IH]; intros lo' Hs Hh Hle; cbn; [lia |]. destruct Hs as (H1 & H2 & H3).
  apply Forall_cons in Hh as [Hb Hh]. destruct (IH _ H3 Hh Hb). unfold bend in *. klia.
Qed.

Lemma fuel_enough s F live : alloc_ok s F live -> (2 * length F + 4 <= Z.to_nat (u_brk s))%nat.
Proof.
  intros [[[_ _ _ _ Lp] _ [W _ B]]|(_ & -> & _ & [_ _ B])]; [| cbn; klia].
  apply Forall_app in W as [W _]. destruct (spaced_units base (u_brk s) F Lp); [| klia | klia].
  eapply Forall_impl; [exact W |]. by intros b (_ & ? & _).
Qed.

(** ** Histories of calls

    The program holds the blocks [live], calls [malloc] and [free], and writes
    into its blocks behind their headers. *)

Definition do_malloc (nbytes : Z) (live : list block) : M um (list block) := fun s =>
  (let! r := malloc base (Z.to_nat (u_brk s)) nbytes in
   ret (if r =? 0 then live else (r - HDR, nunits nbytes) :: live)) s.

Definition do_free (a : Z) (live : list block) : M um (list block) := fun s =>
  (free (Z.to_nat (u_brk s)) (a + HDR) ;;; ret live) s.

Definition inside (b : block) (x : Z) : Prop := b.1 + HDR <= x < bend b.

Inductive ureach (s0 : um) : outcome um (list block) -> Prop :=
  | ur_start : ureach s0 (Ok [] s0)
  | ur_malloc live s nbytes : ureach s0 (Ok live s) -> 0 <= nbytes <= MAXREQ -> ureach s0 (do_malloc nbytes live s)
  | ur_free live1 a n live2 s : ureach s0 (Ok (live1 ++ (a, n) :: live2) s) -> ureach s0 (do_free a (live1 ++ live2) s)
  | ur_write live s f g : ureach s0 (Ok live s) ->
      (forall x, (forall b, b ∈ live -> ~ inside b x) -> f x = u_ptr s x /\ g x = u_size s x) ->
      ureach s0 (Ok live (Um f g (u_freep s) (u_brk s) (u_grants s))).

Definition ustart (s : um) : Prop := u_freep s = 0 /\ lo <= u_brk s < 2 ^ 32 /\ (HDR | u_brk s).

(** Headers are not inside the program's blocks. *)
Lemma outside s F live c : heap_ok s F live -> c ∈ base :: addrs (F ++ live) -> forall b, b ∈ live -> ~ inside b c.
Proof.
  intros [_ _ Hb] Hc b Hl Hi. unfold inside in Hi. assert (b ∈ F ++ live) as Hbin by (rewrite elem_of_app; by right).
  apply elem_of_cons in Hc as [->|(d & -> & Hd)%list_elem_of_fmap].
  - destruct (wf_size _ _ b Hb Hbin). klia.
  - destruct (wf_size _ _ d Hb Hd). destruct (disjoint_in _ b d (bk_disjoint _ _ Hb) Hbin Hd) as [->|[?|?]]; unfold bend in *; klia.
Qed.

Lemma heap_write s F live f g : heap_ok s F live ->
  (forall x, (forall b, b ∈ live -> ~ inside b x) -> f x = u_ptr s x /\ g x = u_size s x) ->
  heap_ok (Um f g (u_freep s) (u_brk s) (u_grants s)) F live.
Proof.
  intros Hk Hw. assert (forall c, c ∈ base :: addrs (F ++ live) -> f c = u_ptr s c /\ g c = u_size s c) as He.
  { intros c Hc. apply Hw. by eapply outside. }
  assert (forall L : list block, (forall b, b ∈ L -> b ∈ F ++ live) -> Forall (fun b : block => u_size s b.1 = b.2) L ->
    Forall (fun b : block => g b.1 = b.2) L) as Hz.
  { intros L HL. rewrite !Forall_forall. intros H b Hb. destruct (He b.1) as [_ ->]; [| by apply H]. right.
    apply list_elem_of_fmap. exists b. split; [done | by apply HL]. }
  destruct Hk as [[Ls Lb Lz Lf Lp] Hlv [W D B]]. split; [split; cbn; try done | | by split].
  - eapply seg_ext; [| exact Ls]. intros c Hc. apply He. rewrite map_app, app_comm_cons, elem_of_app. by left.
  - destruct (He base) as [_ ->]; [apply list_elem_of_here | done].
  - apply Hz; [| done]. intros b Hb. rewrite elem_of_app. by left.
  - cbn. apply Hz; [| done]. intros b Hb. rewrite elem_of_app. by right.
Qed.

(** The free list and the program's blocks make up what [sbrk] has given. *)
Definition good_heap (s0 s : um) (live : list block) : Prop :=
  exists F, alloc_ok s F live /\ (units F + units live) * HDR = u_brk s - u_brk s0.

Lemma ureach_ok s0 o : ustart s0 -> ureach s0 o -> exists live s, o = Ok live s /\ good_heap s0 s live.
Proof.
  intros (Hf & Hb) R. induction R as [|live s nbytes R IH Hn|live1 a n live2 s R IH|live s f g R IH Hw].
  - exists [], s0. split; [done |]. exists []. split; [right; split_and!; try done; by split | cbn; lia].
  - destruct IH as (? & ? & [= <- <-] & F & Ha & Hu). unfold do_malloc.
    destruct (malloc_spec s F live nbytes _ Ha Hn (fuel_enough _ _ _ Ha)) as [(s' & E & Ha' & Hbr & _)|(s' & F' & a & got & E & Hk & Hg & Hbr & Hu')];
      rewrite (bind_run _ _ _ _ _ E); eexists _, s'; (split; [reflexivity |]).
    + exists F. by rewrite Hbr.
    + assert (0 < a) as Hpos by (destruct (wf_size _ _ (a, nunits nbytes) (hk_blocks _ _ _ Hk)) as (_ & ? & _); [rewrite elem_of_app; right; apply list_elem_of_here | cbn in *; lia]).
      destruct (a + HDR =? 0) eqn:E0; [klia |]. replace (a + HDR - HDR) with a by lia. exists F'. split; [by left | cbn [units snd]; klia].
  - destruct IH as (? & ? & [= <- <-] & F & [Hk|(_ & _ & E & _)] & Hu); [| by destruct live1].
    assert (heap_ok s F ((a, n) :: live1 ++ live2)) as Hk'.
    { destruct Hk as [L Hl Hbk]. split; [done | |].
      - by rewrite Permutation_middle.
      - eapply blocks_perm; [reflexivity | | exact Hbk]. solve_Permutation. }
    destruct (free_spec s F (live1 ++ live2) a n (Z.to_nat (u_brk s)) Hk') as (s' & F' & E & H1 & H2 & H3 & _).
    { pose proof (fuel_enough s F _ (or_introl Hk')). lia. }
    unfold do_free. rewrite (bind_run _ _ _ _ _ E). eexists _, s'. split; [reflexivity |]. exists F'. split; [by left |].
    rewrite units_app in *. cbn in Hu. rewrite H3. klia.
  - destruct IH as (? & ? & [= <- <-] & F & Ha & Hu). eexists _, _. split; [reflexivity |]. exists F. split; [| done].
    destruct Ha as [Hk|(H1 & H2 & H3 & [? ? ?])]; [left; by apply heap_write | right; split_and!; try done].
Qed.
End heap.


(** [malloc] returns 0 only when [sbrk] refuses; otherwise the block it
    returns is aligned, lies in the heap, has room for the bytes asked for and
    overlaps no block in use. *)
Theorem malloc_correct base lo s0 live s nbytes : 0 < base /\ base + HDR <= lo -> ustart lo s0 -> ureach base s0 (Ok live s) ->
  0 <= nbytes <= MAXREQ ->
  exists r s', malloc base (Z.to_nat (u_brk s)) nbytes s = Ok r s' /\
    (r = 0 /\ (head (u_grants s) <> Some true \/ exists nu, nu < 2 ^ 27 /\ 2 ^ 32 <= u_brk s + nu * HDR) \/
     (HDR | r) /\ lo + HDR <= r /\ r + nbytes <= u_brk s' /\ forall b, b ∈ live -> r + nbytes <= b.1 \/ bend b <= r - HDR).
Proof.
  intros Hlow H0 R Hn. destruct (ureach_ok base lo Hlow s0 _ H0 R) as (? & ? & [= <- <-] & F & Ha & _).
  destruct (nunits_range nbytes Hn) as [_ Hnb].
  destruct (malloc_spec base lo Hlow s F live nbytes _ Ha Hn (fuel_enough base lo Hlow _ _ _ Ha)) as [(s' & E & _ & _ & Hg)|(s' & F' & a & got & E & Hk & _)].
  - exists 0, s'. split; [done |]. by left.
  - exists (a + HDR), s'. split; [done |]. right. clear E. revert Hk Hnb. generalize (nunits nbytes). intros n Hk Hnb. destruct Hk as [_ _ [W D _]].
    rewrite <- Permutation_middle in W, D. apply Forall_cons in W as [(W1 & W2 & _ & W4) _]. destruct D as [D _].
    rewrite Forall_app, !Forall_forall in D. destruct D as [_ D]. unfold bend in W2. cbn [fst snd] in *.
    split_and!; [apply Z.divide_add_r; [done | by exists 1] | lia | klia |]. intros b Hb. specialize (D b Hb). unfold apart, bend in *. cbn [fst snd] in *. klia.
Qed.

(** ** A run *)

Definition um0 : um := Um (fun _ => 0) (fun _ => 0) 0 4096 [true].

Lemma um0_start : ustart 4096 um0.
Proof. split_and!; cbn; [done | lia | lia | by exists 256]. Qed.

Definition live_of (o : outcome um (list block)) : list block := match o with Ok l _ => l | _ => [] end.
Definition ustate (o : outcome um (list block)) : um := match o with Ok _ s => s | _ => um0 end.
Definition ret_of (o : outcome um Z) : Z := match o with Ok r _ => r | _ => -1 end.

Lemma ureach_next base s0 o l : ureach base s0 o -> (match o with Ok l' _ => l' = l | _ => False end) -> ureach base s0 (Ok l (ustate o)).
Proof. intros R Hl. destruct o; try done. by subst. Qed.

(** Blocks of 100 and 10 bytes; the first is freed. *)
Lemma um_run : exists s, ureach 4064 um0 (Ok [(69472, 2)] s) /\ u_brk s = 69632 /\
  ret_of (malloc 4064 (Z.to_nat (u_brk s)) 100 s) = 69520.
Proof.
  pose proof (ur_malloc 4064 um0 [] um0 100 (ur_start _ _) ltac:(done)) as R.
  apply (ureach_next _ _ _ [(69504, 8)]) in R; [| vm_compute; reflexivity].
  apply (ur_malloc 4064 um0 _ _ 10) in R; [| done]. apply (ureach_next _ _ _ [(69472, 2); (69504, 8)]) in R; [| vm_compute; reflexivity].
  apply (ur_free 4064 um0 [(69472, 2)] 69504 8 []) in R. apply (ureach_next _ _ _ [(69472, 2)]) in R; [| vm_compute; reflexivity].
  eexists. split; [exact R |]. split; vm_compute; reflexivity.
Qed.


Lemma malloc_correct_witness : exists s r s', ureach 4064 um0 (Ok [(69472, 2)] s) /\
  malloc 4064 (Z.to_nat (u_brk s)) 100 s = Ok r s' /\ r = 69520 /\ (HDR | r) /\ r + 100 <= u_brk s'.
Proof.
  destruct um_run as (s & R & _ & Hr). exists s.
  destruct (malloc_correct 4064 4096 um0 _ s 100 ltac:(klia) um0_start R ltac:(done)) as (r & s' & E & H).
  exists r, s'. rewrite E in Hr. cbn in Hr. split; [exact R |]. split; [exact E |]. split; [exact Hr |].
  destruct H as [[H _]|(H1 & _ & H2 & _)]; [congruence | by split].
Defined.
