(* ===== verification/Shell.v ===== *)
(** * user/sh.c: the parser of the shell

    The line is the list [buf] of its bytes before the NUL, a pointer into it
    an index; [ps] of the source is the state of the parser.  A recursive
    descent without a static bound gets fuel; what is enough is proved.  A
    parsed command refers to the line by indices, as the structures of the
    source do by pointers, until [nulterminate] cuts the words out of it. *)

From S2P Require Import Prelude.

Definition MAXARGS : nat := 10.

(** O_RDONLY, O_WRONLY | O_CREATE | O_TRUNC, O_WRONLY | O_CREATE *)
Definition MODE_IN : Z := 0x000.
Definition MODE_OUT : Z := Z.lor (Z.lor 0x001 0x200) 0x400.
Definition MODE_APPEND : Z := Z.lor 0x001 0x200.

(** A word: its start and its end in the line. *)
Abbreviation word := (nat * nat)%type.

Inductive cmd :=
  | EXEC (argv : list word)
  | REDIR (c : cmd) (file : word) (mode fd : Z)
  | PIPE (left right : cmd)
  | LIST (left right : cmd)
  | BACK (c : cmd).

Definition whitespace : list Z := [32; 9; 13; 10; 11].
Definition symbols : list Z := [60; 124; 62; 38; 59; 40; 41].   (* <|>&;() *)

(** [strchr(l, c)], as a condition *)
Definition strchr (l : list Z) (c : Z) : bool := bool_decide (c ∈ l).

(** The functions of the parser panic, or move [ps]. *)
Abbreviation P A := (M nat A).

Section parser.
Context (buf : list Z).

Definition es : nat := length buf.
(** [*s]; [*es] is the NUL. *)
Definition at_ (s : nat) : Z := nth s buf 0.

(** [while (s < es && strchr(whitespace, *s)) s++] *)
Fixpoint skip_ws (n s : nat) : nat :=
  match n with
  | O => s
  | S n' => if (s <? es)%nat && strchr whitespace (at_ s) then skip_ws n' (S s) else s
  end.

(** [while (s < es && !strchr(whitespace, *s) && !strchr(symbols, *s)) s++] *)
Fixpoint skip_word (n s : nat) : nat :=
  match n with
  | O => s
  | S n' =>
      if (s <? es)%nat && negb (strchr whitespace (at_ s)) && negb (strchr symbols (at_ s)) then skip_word n' (S s) else s
  end.

(** The value returned, and [*q] and [*eq]. *)
Definition gettoken : P (Z * word) := fun ps =>
  let s := skip_ws es ps in
  let q := s in
  let c := at_ s in
  let '(ret, s) :=
    if c =? 0 then (c, s)
    else if (c =? 124) || (c =? 40) || (c =? 41) || (c =? 59) || (c =? 38) || (c =? 60) then (c, S s)
    else if c =? 62 then (if at_ (S s) =? 62 then (43, S (S s)) else (c, S s))
    else (97, skip_word es s) in
  Ok (ret, (q, s)) (skip_ws es s).

Definition peek (toks : list Z) : P bool := fun ps =>
  let s := skip_ws es ps in
  Ok (negb (at_ s =? 0) && strchr toks (at_ s)) s.

(** Each round of a loop takes a token, that is at least one byte. *)
Fixpoint parseredirs (n : nat) (c : cmd) : P cmd :=
  let! more := peek [60; 62] in
  if more : bool then
    match n with
    | O => out_of_fuel
    | S n' =>
        let! ' (tok, _) := gettoken in
        let! ' (w, file) := gettoken in
        if negb (w =? 97) then panic "missing file for redirection"
        else
          parseredirs n'
            (if tok =? 60 then REDIR c file MODE_IN 0
             else if tok =? 62 then REDIR c file MODE_OUT 1
             else if tok =? 43 then REDIR c file MODE_APPEND 1
             else c)
    end
  else ret c.

(** [cmd->argv[argc] = q], [cmd->eargv[argc] = eq]: [ret] is the [execcmd]
    with the redirections seen so far around it. *)
Fixpoint add_arg (c : cmd) (w : word) : cmd :=
  match c with
  | EXEC argv => EXEC (argv ++ [w])
  | REDIR c file mode fd => REDIR (add_arg c w) file mode fd
  | c => c
  end.

Fixpoint parseargs (n argc : nat) (c : cmd) : P cmd :=
  let! stop := peek [124; 41; 38; 59] in
  if stop : bool then ret c
  else
    let! ' (tok, w) := gettoken in
    if tok =? 0 then ret c
    else if negb (tok =? 97) then panic "syntax"
    else if (MAXARGS <=? S argc)%nat then panic "too many args"
    else
      match n with
      | O => out_of_fuel
      | S n' =>
          let! c := parseredirs es (add_arg c w) in
          parseargs n' (S argc) c
      end.

(** [while (peek(ps, es, "&")) { gettoken(ps, es, 0, 0); cmd = backcmd(cmd); }] *)
Fixpoint parsebacks (n : nat) (c : cmd) : P cmd :=
  let! more := peek [38] in
  if more : bool then
    match n with
    | O => out_of_fuel
    | S n' => gettoken ;;; parsebacks n' (BACK c)
    end
  else ret c.

Fixpoint parseline (n : nat) : P cmd :=
  match n with
  | O => out_of_fuel
  | S n' =>
      let! c := parsepipe n' in
      let! c := parsebacks es c in
      let! more := peek [59] in
      if more : bool then
        gettoken ;;;
        let! r := parseline n' in
        ret (LIST c r)
      else ret c
  end
with parsepipe (n : nat) : P cmd :=
  match n with
  | O => out_of_fuel
  | S n' =>
      let! c := parseexec n' in
      let! more := peek [124] in
      if more : bool then
        gettoken ;;;
        let! r := parsepipe n' in
        ret (PIPE c r)
      else ret c
  end
with parseexec (n : nat) : P cmd :=
  match n with
  | O => out_of_fuel
  | S n' =>
      let! block := peek [40] in
      if block : bool then parseblock n'
      else
        let! c := parseredirs es (EXEC []) in
        parseargs es 0 c
  end
with parseblock (n : nat) : P cmd :=
  match n with
  | O => out_of_fuel
  | S n' =>
      let! ok := peek [40] in
      if negb ok then panic "parseblock"
      else
        gettoken ;;;
        let! c := parseline n' in
        let! ok := peek [41] in
        if negb ok then panic "syntax - missing )"
        else
          gettoken ;;;
          parseredirs es c
  end.

(** [nulterminate(cmd)], on the line *)
Definition nul_at (e : nat) (b : list Z) : list Z := <[e := 0]> b.

Fixpoint nulterminate (c : cmd) (b : list Z) : list Z :=
  match c with
  | EXEC argv => foldl (fun b (w : word) => nul_at w.2 b) b argv
  | REDIR c file _ _ => nul_at file.2 (nulterminate c b)
  | PIPE l r | LIST l r => nulterminate r (nulterminate l b)
  | BACK c => nulterminate c b
  end.

(** [parsecmd]: the command, and the line it refers to. *)
Definition parsecmd : P (cmd * list Z) :=
  let! c := parseline (4 * es + 4) in
  peek [] ;;;
  let! s := get in
  if negb (s =? es)%nat then panic "syntax"
  else ret (c, nulterminate c (buf ++ [0])).
End parser.

(** A line is parsed from its start. *)
Definition parse_line (buf : list Z) : outcome nat (cmd * list Z) := parsecmd buf 0%nat.

(** ** Tokens *)

Inductive tok := TWord (w : word) | TSym (c : Z) | TAppend.

Definition mk_tok (ret : Z) (w : word) : tok :=
  if ret =? 97 then TWord w else if ret =? 43 then TAppend else TSym ret.

Definition code (t : tok) : Z := match t with TWord _ => 97 | TSym c => c | TAppend => 43 end.

(** A character of a word. *)
Definition ordinary (c : Z) : Prop := c <> 0 /\ (c ∉ whitespace) /\ (c ∉ symbols).

(** A maximal run of such characters. *)
Record word_ok (buf : list Z) (w : word) : Prop := WordOk {
  wd_lt : (w.1 < w.2 <= length buf)%nat;
  wd_in : forall i, (w.1 <= i < w.2)%nat -> ordinary (nth i buf 0);
  wd_end : ~ ordinary (nth w.2 buf 0);
}.

Definition tok_ok (buf : list Z) (t : tok) : Prop :=
  match t with TWord w => word_ok buf w | TSym c => c ∈ symbols | TAppend => True end.

(** The tokens from [s] to the end of the line. *)
Inductive lexes (buf : list Z) : nat -> list tok -> Prop :=
  | lex_end s w s' : gettoken buf s = Ok (0, w) s' -> lexes buf s []
  | lex_tok s r w s' ts : gettoken buf s = Ok (r, w) s' -> r <> 0 -> lexes buf s' ts -> lexes buf s (mk_tok r w :: ts).

(** ** The grammar *)

Definition redir_of (t : tok) : option (Z * Z) :=
  match t with
  | TSym c => if c =? 60 then Some (MODE_IN, 0) else if c =? 62 then Some (MODE_OUT, 1) else None
  | TAppend => Some (MODE_APPEND, 1)
  | TWord _ => None
  end.

(** Redirections around the command [c]. *)
Inductive gredirs : cmd -> list tok -> cmd -> Prop :=
  | gr_nil c : gredirs c [] c
  | gr_cons c t w mode fd ts c' : redir_of t = Some (mode, fd) -> gredirs (REDIR c w mode fd) ts c' ->
      gredirs c (t :: TWord w :: ts) c'.

(** Arguments, each followed by redirections, after [argc] others. *)
Inductive gargs : nat -> cmd -> list tok -> cmd -> Prop :=
  | ga_nil argc c : gargs argc c [] c
  | ga_cons argc c w ts1 c1 ts2 c2 : (S argc < MAXARGS)%nat -> gredirs (add_arg c w) ts1 c1 -> gargs (S argc) c1 ts2 c2 ->
      gargs argc c (TWord w :: ts1 ++ ts2) c2.

Abbreviation AMP := (TSym 38).
Abbreviation SEMI := (TSym 59).
Abbreviation BAR := (TSym 124).
Abbreviation LPAR := (TSym 40).
Abbreviation RPAR := (TSym 41).

Definition backs (n : nat) (c : cmd) : cmd := Nat.iter n BACK c.

Inductive gline : list tok -> cmd -> Prop :=
  | gl_pipe ts c n : gpipe ts c -> gline (ts ++ replicate n AMP) (backs n c)
  | gl_list ts c n ts' c' : gpipe ts c -> gline ts' c' -> gline (ts ++ replicate n AMP ++ SEMI :: ts') (LIST (backs n c) c')
with gpipe : list tok -> cmd -> Prop :=
  | gp_exec ts c : gexec ts c -> gpipe ts c
  | gp_pipe ts c ts' c' : gexec ts c -> gpipe ts' c' -> gpipe (ts ++ BAR :: ts') (PIPE c c')
with gexec : list tok -> cmd -> Prop :=
  | ge_exec ts c ts' c' : gredirs (EXEC []) ts c -> gargs 0 c ts' c' -> gexec (ts ++ ts') c'
  | ge_block ts c ts' c' : gline ts c -> gredirs c ts' c' -> gexec (LPAR :: ts ++ RPAR :: ts') c'.

(** ** The lexer *)

Section lexer.
Context (buf : list Z).
Hypothesis nonul : 0 ∉ buf.

Lemma at_end s : (es buf <= s)%nat -> at_ buf s = 0.
Proof. intros. unfold at_. by rewrite nth_overflow. Qed.

Lemma at_nonzero s : (s < es buf)%nat -> at_ buf s <> 0.
Proof.
  intros Hs E. apply nonul. rewrite <- E. unfold at_. destruct (nth_lookup_or_length buf s 0) as [H|H]; [| unfold es in Hs; lia].
  by eapply list_elem_of_lookup_2.
Qed.

Lemma zero_not_ws : 0 ∉ whitespace.
Proof. unfold whitespace. rewrite !elem_of_cons, elem_of_nil. lia. Qed.

Lemma sym_in c : c ∈ symbols <-> c = 60 \/ c = 124 \/ c = 62 \/ c = 38 \/ c = 59 \/ c = 40 \/ c = 41.
Proof. unfold symbols. rewrite !elem_of_cons, elem_of_nil. tauto. Qed.

Lemma skip_ws_spec n s : (es buf - s <= n)%nat -> (s <= es buf)%nat ->
  (s <= skip_ws buf n s <= es buf)%nat /\ at_ buf (skip_ws buf n s) ∉ whitespace.
Proof.
  revert s. induction n as [|n IH]; intros s Hn Hs; cbn [skip_ws].
  - split; [lia |]. rewrite at_end by lia. apply zero_not_ws.
  - unfold strchr. destruct (s <? es buf)%nat eqn:E1; cbn [andb].
    + case_bool_decide as E2; [| split; [lia | done]]. apply Nat.ltb_lt in E1. specialize (IH (S s)). destruct IH as [? ?]; [lia.. |]. split; [lia | done].
    + apply Nat.ltb_ge in E1. split; [lia |]. rewrite at_end by lia. apply zero_not_ws.
Qed.

Lemma skip_ws_stop n s : at_ buf s ∉ whitespace -> skip_ws buf n s = s.
Proof. intros H. destruct n; cbn [skip_ws]; [done |]. unfold strchr. rewrite bool_decide_eq_false_2 by done. by rewrite andb_false_r. Qed.

Lemma skip_word_spec n s : (es buf - s <= n)%nat -> (s <= es buf)%nat ->
  (s <= skip_word buf n s <= es buf)%nat /\ (forall i, (s <= i < skip_word buf n s)%nat -> ordinary (at_ buf i)) /\
  ~ ordinary (at_ buf (skip_word buf n s)).
Proof.
  revert s. induction n as [|n IH]; intros s Hn Hs; cbn [skip_word].
  - split_and!; [lia | lia | intros; lia |]. rewrite at_end by lia. unfold ordinary. tauto.
  - unfold strchr. destruct (s <? es buf)%nat eqn:E1; cbn [andb].
    + apply Nat.ltb_lt in E1. repeat case_bool_decide; cbn [negb andb]; try (split_and!; [lia | lia | intros; lia | unfold ordinary; tauto]).
      destruct (IH (S s)) as (? & Hi & He); [lia.. |]. split_and!; [lia | lia | | done]. intros i Hlt. destruct (decide (i = s)) as [->|].
      * unfold ordinary. split_and!; [by apply at_nonzero | done | done].
      * apply Hi. lia.
    + apply Nat.ltb_ge in E1. split_and!; [lia | lia | intros; lia |]. rewrite at_end by lia. unfold ordinary. tauto.
Qed.

(** The character that a token begins with. *)
Definition begins (t : tok) (c : Z) : Prop :=
  match t with TWord _ => ordinary c | TSym c' => c' = c | TAppend => c = 62 end.

Definition token_spec (s : nat) (r : Z) (w : word) (s' : nat) : Prop :=
  if decide (r = 0) then skip_ws buf (es buf) s = es buf /\ s' = es buf
  else (s < s' <= es buf)%nat /\ tok_ok buf (mk_tok r w) /\ code (mk_tok r w) = r /\ begins (mk_tok r w) (at_ buf (skip_ws buf (es buf) s)).

Lemma after_ws s n : (n <= es buf)%nat -> (s < n)%nat -> (s < skip_ws buf (es buf) n <= es buf)%nat.
Proof. intros Hn Hs. destruct (skip_ws_spec (es buf) n) as [? _]; lia. Qed.

Lemma gettoken_ok s : (s <= es buf)%nat -> exists r w s', gettoken buf s = Ok (r, w) s' /\ token_spec s r w s'.
Proof.
  intros Hs. destruct (skip_ws_spec (es buf) s) as [Hr Hw]; [lia | done |]. unfold gettoken, token_spec.
  set (q := skip_ws buf (es buf) s) in *. destruct (decide (q = es buf)) as [->|Hne].
  { rewrite at_end by lia. cbn. eexists _, _, _. split; [reflexivity |]. rewrite decide_True by done. split; [done |].
    apply skip_ws_stop. rewrite at_end by lia. apply zero_not_ws. }
  pose proof (at_nonzero q ltac:(lia)) as Hz. destruct (at_ buf q =? 0) eqn:E0; [lia |].
  destruct (_ || _) eqn:E1.
  { eexists _, _, _. split; [reflexivity |]. rewrite decide_False by done. split; [apply after_ws; lia |].
    rewrite !orb_true_iff, !Z.eqb_eq in E1.
    destruct_or! E1; rewrite E1; (split_and!; [apply sym_in; lia | done | done]). }
  destruct (at_ buf q =? 62) eqn:E2.
  { apply Z.eqb_eq in E2. destruct (at_ buf (S q) =? 62) eqn:E3.
    - assert (S q < es buf)%nat by (destruct (decide (S q < es buf)%nat); [done |]; rewrite at_end in E3 by lia; lia).
      eexists _, _, _. split; [reflexivity |]. cbn. split; [apply after_ws; lia | done].
    - eexists _, _, _. split; [reflexivity |]. rewrite E2. cbn. split; [apply after_ws; lia |].
      split_and!; [apply sym_in; lia | done | done]. }
  destruct (skip_word_spec (es buf) q) as (Hr2 & Hi & He); [lia.. |].
  assert (ordinary (at_ buf q)) as Ho.
  { split_and!; [done | done |]. rewrite sym_in. lia. }
  assert (q <> skip_word buf (es buf) q) as Hq by (intros E; rewrite <- E in He; done).
  eexists _, _, _. split; [reflexivity |]. cbn. split; [apply after_ws; lia |].
  split_and!; [| done | done]. split; cbn; [unfold es in *; lia | done | done].
Qed.

Lemma gettoken_ws s : (s <= es buf)%nat -> gettoken buf (skip_ws buf (es buf) s) = gettoken buf s.
Proof. intros Hs. destruct (skip_ws_spec (es buf) s) as [_ Hw]; [lia | done |]. unfold gettoken. by rewrite (skip_ws_stop (es buf) (skip_ws _ _ _)). Qed.

(** Every line has its tokens. *)
Lemma lexes_total s : (s <= es buf)%nat -> exists ts, lexes buf s ts.
Proof.
  remember (es buf - s)%nat as n eqn:Hn. revert s Hn. induction n as [n IH] using lt_wf_ind. intros s -> Hs.
  destruct (gettoken_ok s Hs) as (r & w & s' & E & H). unfold token_spec in H. destruct (decide (r = 0)) as [->|Hr].
  - exists []. by eapply lex_end.
  - destruct H as [Hlt _]. destruct (IH (es buf - s')%nat) with s' as [ts Hts]; [lia.. |]. eexists. by eapply lex_tok.
Qed.

Lemma lexes_len s ts : lexes buf s ts -> (s <= es buf)%nat -> (s + length ts <= es buf)%nat.
Proof.
  induction 1 as [|s r w s' ts E Hr _ IH]; intros Hs; [cbn; lia |]. destruct (gettoken_ok s Hs) as (r' & w' & s1 & E' & H).
  rewrite E in E'. injection E' as <- <- <-. unfold token_spec in H. rewrite decide_False in H by done. cbn. specialize (IH ltac:(lia)). lia.
Qed.

Lemma lexes_ok s ts : lexes buf s ts -> (s <= es buf)%nat -> Forall (tok_ok buf) ts.
Proof.
  induction 1 as [|s r w s' ts E Hr _ IH]; intros Hs; [constructor |]. destruct (gettoken_ok s Hs) as (r' & w' & s1 & E' & H).
  rewrite E in E'. injection E' as <- <- <-. unfold token_spec in H. rewrite decide_False in H by done.
  constructor; [tauto | apply IH; lia].
Qed.

Lemma lexes_det s ts ts' : lexes buf s ts -> lexes buf s ts' -> ts = ts'.
Proof.
  intros H. revert ts'. induction H as [s w s' E|s r w s' ts E Hr _ IH]; intros ts' H'; inversion H' as [? ? ? E'|? ? ? ? ? E' Hr' H1]; subst; try congruence.
  rewrite E in E'. injection E' as <- <- <-. f_equal. by apply IH.
Qed.

(** Taking a token. *)
Lemma take_tok s t ts : lexes buf s (t :: ts) -> (s <= es buf)%nat ->
  exists w s', gettoken buf s = Ok (code t, w) s' /\ lexes buf s' ts /\ (s < s' <= es buf)%nat /\
    code t <> 0 /\ tok_ok buf t /\ match t with TWord w' => w = w' | _ => True end.
Proof.
  intros H Hs. inversion H as [|? r w s' ? E Hr H1]; subst. destruct (gettoken_ok s Hs) as (r' & w' & s1 & E' & Ht).
  rewrite E in E'. injection E' as <- <- <-. unfold token_spec in Ht. rewrite decide_False in Ht by done. destruct Ht as (Hlt & Hok & Hc & _).
  exists w, s'. rewrite Hc. split_and!; try done; [lia.. |]. unfold mk_tok. by repeat case_match; simplify_eq.
Qed.

Lemma take_end s : lexes buf s [] -> (s <= es buf)%nat -> exists w, gettoken buf s = Ok (0, w) (es buf) /\ lexes buf (es buf) [].
Proof.
  intros H Hs. inversion H as [? w s' E|]; subst. destruct (gettoken_ok s Hs) as (r' & w' & s1 & E' & Ht).
  rewrite E in E'. injection E' as <- <- <-. unfold token_spec in Ht. rewrite decide_True in Ht by done. destruct Ht as [Hw ->].
  exists w. split; [done |]. pose proof (gettoken_ws s Hs) as Hg. rewrite Hw, E in Hg. by eapply lex_end.
Qed.

(** The next token begins with one of the symbols [T]. *)
Definition starts (T : list Z) (ts : list tok) : bool :=
  match ts with TSym c :: _ => strchr T c | TAppend :: _ => strchr T 62 | _ => false end.

Lemma peek_ok T s ts : lexes buf s ts -> (s <= es buf)%nat -> (forall c, c ∈ T -> c ∈ symbols) ->
  exists s', peek buf T s = Ok (starts T ts) s' /\ lexes buf s' ts /\ (s <= s' <= es buf)%nat.
Proof.
  intros H Hs HT. destruct (skip_ws_spec (es buf) s) as [Hr _]; [lia | done |]. set (q := skip_ws buf (es buf) s) in *.
  exists q. split; [| split; [| done]].
  - unfold peek. fold q. f_equal. inversion H as [? w s' E|? r w s' ts' E Hr0 H1]; subst; destruct (gettoken_ok s Hs) as (r' & w' & s1 & E' & Ht);
      rewrite E in E'; injection E' as <- <- <-; unfold token_spec in Ht.
    + rewrite decide_True in Ht by done. destruct Ht as [Hq _]. fold q in Hq. by rewrite Hq, at_end.
    + rewrite decide_False in Ht by done. destruct Ht as (_ & Hok & _ & Hb). fold q in Hb.
      destruct (mk_tok r w) as [w0|c|]; cbn in *.
      * destruct Hb as (_ & _ & Hb). unfold strchr. rewrite bool_decide_eq_false_2, andb_false_r; [done |]. intros ?. by apply Hb, HT.
      * subst c. destruct (at_ buf q =? 0) eqn:E0; [| done]. apply Z.eqb_eq in E0. rewrite E0 in Hok. apply sym_in in Hok. lia.
      * by rewrite Hb.
  - inversion H as [? w s' E|? r w s' ts' E Hr0 H1]; subst; [eapply lex_end | eapply lex_tok]; unfold q; rewrite ?gettoken_ws; done.
Qed.
End lexer.

(** ** The parser follows the grammar *)

Section descent.
Context (buf : list Z).
Hypothesis nonul : 0 ∉ buf.

(** The tokens [ts] remain. *)
Definition before (s : nat) (ts : list tok) : Prop := lexes buf s ts /\ (s <= es buf)%nat.

Lemma before_len s ts : before s ts -> (length ts <= es buf)%nat.
Proof. intros [H Hs]. pose proof (lexes_len buf nonul _ _ H Hs). lia. Qed.

Lemma run_peek {A} T s ts (k : bool -> P A) : before s ts -> (forall c, c ∈ T -> c ∈ symbols) ->
  exists s', bind (peek buf T) k s = k (starts T ts) s' /\ before s' ts.
Proof.
  intros [H Hs] HT. destruct (peek_ok buf nonul T s ts H Hs HT) as (s' & E & H' & Hs'). exists s'. split; [by apply bind_run | split; [done | lia]].
Qed.

Lemma run_take {A} s t ts (k : Z * word -> P A) : before s (t :: ts) ->
  exists w s', bind (gettoken buf) k s = k (code t, w) s' /\ before s' ts /\ code t <> 0 /\ tok_ok buf t /\
    match t with TWord w' => w = w' | _ => True end.
Proof.
  intros [H Hs]. destruct (take_tok buf nonul s t ts H Hs) as (w & s' & E & H' & Hs' & Hc). exists w, s'.
  split; [by apply bind_run | split; [split; [done | lia] | done]].
Qed.

Lemma run_end {A} s (k : Z * word -> P A) : before s [] -> exists w, bind (gettoken buf) k s = k (0, w) (es buf) /\ before (es buf) [].
Proof.
  intros [H Hs]. destruct (take_end buf nonul s H Hs) as (w & E & H'). exists w. split; [by apply bind_run | by split].
Qed.

(** An outcome that is no running out of fuel; what has been parsed is what
    [G] says. *)
Definition result (G : list tok -> cmd -> Prop) (ts : list tok) (o : outcome nat cmd) : Prop :=
  match o with
  | Ok c s' => exists ts1 ts2, ts = ts1 ++ ts2 /\ G ts1 c /\ before s' ts2
  | Panic _ => True
  | _ => False
  end.

Lemma result_bind (G G' : list tok -> cmd -> Prop) ts (m : P cmd) (k : cmd -> P cmd) s :
  result G ts (m s) ->
  (forall c s' ts1 ts2, ts = ts1 ++ ts2 -> G ts1 c -> before s' ts2 ->
     result (fun ts2' c' => G' (ts1 ++ ts2') c') ts2 (k c s')) ->
  result G' ts (bind m k s).
Proof.
  unfold bind. destruct (m s) as [c s'|msg| |]; cbn; try done. intros (ts1 & ts2 & -> & HG & Hb) Hk.
  specialize (Hk c s' ts1 ts2 eq_refl HG Hb). destruct (k c s') as [c' s2|msg| |]; cbn in *; try done.
  destruct Hk as (ts3 & ts4 & -> & HG' & Hb'). exists (ts1 ++ ts3), ts4. by rewrite app_assoc.
Qed.

Lemma result_ret (G : list tok -> cmd -> Prop) ts c s : G [] c -> before s ts -> result G ts (ret c s).
Proof. intros. by exists [], ts. Qed.

Ltac sub_symbols := let c := fresh "c" in intros c; rewrite ?elem_of_cons, ?elem_of_nil, sym_in; lia.
Tactic Notation "peeking" constr(T) hyp(H) ident(s') :=
  let E := fresh "E" in let H' := fresh "H" in
  match type of H with before ?s ?ts =>
    match goal with |- context [bind (peek buf T) ?k s] =>
      destruct (run_peek T s ts k H ltac:(sub_symbols)) as (s' & E & H'); rewrite E; clear E; clear H; rename H' into H end end.

Lemma starts_true T ts : starts T ts = true -> exists t ts', ts = t :: ts' /\
  (t = TAppend /\ 62 ∈ T \/ exists c, t = TSym c /\ c ∈ T).
Proof.
  destruct ts as [|[w|c|] ts]; cbn; try done; unfold strchr; rewrite bool_decide_eq_true; intros H; eexists _, _; (split; [reflexivity |]).
  - right. by exists c.
  - by left.
Qed.

Tactic Notation "taking" hyp(H) ident(s') "as" simple_intropattern(p) :=
  let E := fresh "E" in let H' := fresh "H" in
  match type of H with before ?s (?t :: ?ts) =>
    match goal with |- context [bind (gettoken buf) ?k s] =>
      let w := fresh "w" in
      destruct (run_take s t ts k H) as (w & s' & E & H' & p); rewrite E; clear E; clear H; rename H' into H end end.

Tactic Notation "ending" hyp(H) :=
  let w := fresh "w" in let E := fresh "E" in let H' := fresh "H" in
  match type of H with before ?s [] =>
    match goal with |- context [bind (gettoken buf) ?k s] =>
      destruct (run_end s k H) as (w & E & H'); rewrite E; clear E; clear H; rename H' into H end end.

Lemma result_prefix (G G' : list tok -> cmd -> Prop) pre ts o : result G ts o ->
  (forall ts1 c, G ts1 c -> G' (pre ++ ts1) c) -> result G' (pre ++ ts) o.
Proof.
  intros H HG. destruct o as [c s'|msg| |]; cbn in *; try done. destruct H as (ts1 & ts2 & -> & H1 & H2).
  exists (pre ++ ts1), ts2. split; [by rewrite app_assoc | auto].
Qed.

Lemma redir_cases T ts : T = [60; 62] -> starts T ts = true -> exists t ts' mode fd, ts = t :: ts' /\ redir_of t = Some (mode, fd) /\
  forall c w, (if code t =? 60 then REDIR c w MODE_IN 0 else if code t =? 62 then REDIR c w MODE_OUT 1
             else if code t =? 43 then REDIR c w MODE_APPEND 1 else c) = REDIR c w mode fd.
Proof.
  intros -> (t & ts' & -> & [[-> _]|(c & -> & Hc)])%starts_true; [by eexists _, _, _, _ |].
  rewrite !elem_of_cons, elem_of_nil in Hc. destruct Hc as [->|[->|[]]]; by eexists _, _, _, _.
Qed.

Lemma parseredirs_sound n c s ts : before s ts -> (length ts <= n)%nat -> result (gredirs c) ts (parseredirs buf n c s).
Proof.
  revert c s ts. induction n as [|n IH]; intros c s ts H Hn; cbn [parseredirs]; peeking [60; 62] H s1.
  - destruct ts; [| cbn in Hn; lia]. by apply result_ret; [constructor |].
  - destruct (starts [60; 62] ts) eqn:Es; [| by apply result_ret; [constructor |]].
    apply (redir_cases _ _ eq_refl) in Es as (t & ts' & mode & fd & -> & Ht & Hr). taking H s2 as _. destruct ts' as [|t' ts'].
    + ending H. done.
    + taking H s3 as (_ & Htok & Hword). rewrite Hr. destruct t' as [w2|c2|]; cbn [code]; [| | done].
      * rewrite Hword. cbn [Z.eqb Pos.eqb negb]. apply (result_prefix (gredirs (REDIR c w2 mode fd)) _ [t; TWord w2]).
        -- apply IH; [done | cbn in Hn; lia].
        -- intros ts1 c' HG. by eapply gr_cons.
      * destruct (c2 =? 97) eqn:E97; [| done]. apply sym_in in Htok. lia.
Qed.

Lemma parseargs_sound n argc c s ts : before s ts -> (length ts <= n)%nat -> result (gargs argc c) ts (parseargs buf n argc c s).
Proof.
  revert argc c s ts. induction n as [n IH] using lt_wf_ind; intros argc c s ts H Hn. destruct n as [|n]; cbn [parseargs]; peeking [124; 41; 38; 59] H s1.
  - destruct ts; [| cbn in Hn; lia]. cbn [starts].
    ending H. by apply result_ret; [constructor |].
  - destruct (starts [124; 41; 38; 59] ts) eqn:Es; [by apply result_ret; [constructor |] |]. destruct ts as [|t ts].
    + ending H. by apply result_ret; [constructor |].
    + taking H s2 as (Hcode & Htok & Hword). apply Z.eqb_neq in Hcode. rewrite Hcode. destruct (negb (code t =? 97)) eqn:E97; [done |].
      destruct (MAXARGS <=? S argc)%nat eqn:Em; [done |]. apply Nat.leb_gt in Em.
      destruct t as [w2|c2|]; [| apply sym_in in Htok; cbn in E97; lia | done]. subst w2.
      apply (result_prefix (fun ts1 c' => gargs argc c (TWord w :: ts1) c') _ [TWord w]); [| done].
      eapply result_bind; [by apply parseredirs_sound; [| by eapply before_len] |]. intros c1 s3 ts1 ts2 -> HG H3.
      apply (result_prefix (gargs (S argc) c1) _ []); [| intros; by eapply ga_cons].
      apply IH; [lia | done |]. cbn in Hn. rewrite length_app in Hn. lia.
Qed.

Lemma backs_succ k c : backs k (BACK c) = backs (S k) c.
Proof. induction k as [|k IH]; [done |]. change (BACK (backs k (BACK c)) = BACK (backs (S k) c)). by rewrite IH. Qed.

Lemma starts_sym T ts c : T = [c] -> c <> 62 -> starts T ts = true -> exists ts', ts = TSym c :: ts'.
Proof.
  intros -> Hc (t & ts' & -> & [[_ H]|(c' & -> & H)])%starts_true; apply list_elem_of_singleton in H; [lia |]. subst. by exists ts'.
Qed.

Lemma parsebacks_sound n c s ts : before s ts -> (length ts <= n)%nat ->
  result (fun ts1 c' => exists k, ts1 = replicate k AMP /\ c' = backs k c) ts (parsebacks buf n c s).
Proof.
  revert c s ts. induction n as [|n IH]; intros c s ts H Hn; cbn [parsebacks]; peeking [38] H s1.
  - destruct ts; [| cbn in Hn; lia]. apply result_ret; [by exists 0%nat | done].
  - destruct (starts [38] ts) eqn:Es; [| apply result_ret; [by exists 0%nat | done]].
    apply (starts_sym _ _ 38) in Es as [ts' ->]; [| done | done]. taking H s2 as _.
    apply (result_prefix (fun ts1 c' => exists k, ts1 = replicate k AMP /\ c' = backs k (BACK c)) _ [TSym 38]).
    + apply IH; [done | cbn in Hn; lia].
    + intros ts1 c' (k & -> & ->). exists (S k). split; [done | by rewrite backs_succ].
Qed.

Definition sound_at (n : nat) : Prop := forall s ts, before s ts ->
  ((4 * length ts + 4 <= n)%nat -> result gline ts (parseline buf n s)) /\
  ((4 * length ts + 3 <= n)%nat -> result gpipe ts (parsepipe buf n s)) /\
  ((4 * length ts + 2 <= n)%nat -> result gexec ts (parseexec buf n s)) /\
  ((4 * length ts + 1 <= n)%nat -> starts [40] ts = true -> result gexec ts (parseblock buf n s)).

Lemma line_sound n : sound_at n -> forall s ts, before s ts -> (4 * length ts + 4 <= S n)%nat -> result gline ts (parseline buf (S n) s).
Proof.
  intros IH s ts H Hn. cbn [parseline]. eapply result_bind; [apply (IH s ts H); lia |]. intros c s1 ts1 ts2 -> Hp H1.
  rewrite length_app in Hn. eapply result_bind; [apply parsebacks_sound; [done | by eapply before_len] |].
  intros c' s2 ts3 ts4 -> (k & -> & ->) H2. rewrite length_app in Hn. peeking [59] H2 s3. destruct (starts [59] ts4) eqn:Es.
  - apply (starts_sym _ _ 59) in Es as [ts5 ->]; [| done | done]. cbn in Hn. taking H2 s4 as _.
    apply (result_prefix (fun ts' c' => gline (ts1 ++ replicate k AMP ++ SEMI :: ts') c') _ [SEMI]); [| done].
    eapply result_bind; [apply (IH s4 ts5 H2); lia |]. intros c' s5 ts6 ts7 -> Hl H3. apply result_ret; [| done].
    rewrite app_nil_r. by apply gl_list.
  - apply result_ret; [| done]. rewrite app_nil_r. by apply gl_pipe.
Qed.

Lemma pipe_sound n : sound_at n -> forall s ts, before s ts -> (4 * length ts + 3 <= S n)%nat -> result gpipe ts (parsepipe buf (S n) s).
Proof.
  intros IH s ts H Hn. cbn [parsepipe]. eapply result_bind; [apply (IH s ts H); lia |]. intros c s1 ts1 ts2 -> Hp H1.
  rewrite length_app in Hn. peeking [124] H1 s2. destruct (starts [124] ts2) eqn:Es.
  - apply (starts_sym _ _ 124) in Es as [ts3 ->]; [| done | done]. cbn in Hn. taking H1 s3 as _.
    apply (result_prefix (fun ts' c' => gpipe (ts1 ++ BAR :: ts') c') _ [BAR]); [| done].
    eapply result_bind; [apply (IH s3 ts3 H1); lia |]. intros c' s4 ts4 ts5 -> Hl H3. apply result_ret; [| done].
    rewrite app_nil_r. by apply gp_pipe.
  - apply result_ret; [| done]. rewrite app_nil_r. by apply gp_exec.
Qed.

Lemma exec_sound n : sound_at n -> forall s ts, before s ts -> (4 * length ts + 2 <= S n)%nat -> result gexec ts (parseexec buf (S n) s).
Proof.
  intros IH s ts H Hn. cbn [parseexec]. peeking [40] H s1. destruct (starts [40] ts) eqn:Es.
  - apply (IH s1 ts H); [lia | done].
  - eapply result_bind; [apply parseredirs_sound; [done | by eapply before_len] |]. intros c s2 ts1 ts2 -> Hr H2.
    apply (result_prefix (gargs 0 c) _ []); [| intros; by eapply ge_exec]. apply parseargs_sound; [done | by eapply before_len].
Qed.

Lemma block_sound n : sound_at n -> forall s ts, before s ts -> (4 * length ts + 1 <= S n)%nat -> starts [40] ts = true ->
  result gexec ts (parseblock buf (S n) s).
Proof.
  intros IH s ts H Hn Es. cbn [parseblock]. peeking [40] H s1. rewrite Es. cbn [negb].
  apply (starts_sym _ _ 40) in Es as [ts1 ->]; [| done | done]. cbn in Hn. taking H s2 as _.
  apply (result_prefix (fun ts' c' => gexec (LPAR :: ts') c') _ [LPAR]); [| done].
  eapply result_bind; [apply (IH s2 ts1 H); lia |]. intros c s3 ts2 ts3 -> Hl H3. peeking [41] H3 s4.
  destruct (starts [41] ts3) eqn:Es; [| done]. cbn [negb]. apply (starts_sym _ _ 41) in Es as [ts4 ->]; [| done | done]. taking H3 s5 as _.
  apply (result_prefix (gredirs c) _ [RPAR]); [apply parseredirs_sound; [done | by eapply before_len] |].
  intros ts5 c' Hr. by eapply ge_block.
Qed.

Lemma parser_sound n : sound_at n.
Proof.
  induction n as [n IH] using lt_wf_ind. destruct n as [|n]; [intros s ts _; split_and!; intros; lia |].
  specialize (IH n ltac:(lia)). intros s ts H. split_and!; [by apply line_sound | by apply pipe_sound | by apply exec_sound | by apply block_sound].
Qed.

(** *** Everything in the grammar is parsed *)

(** The tokens end, or one of the symbols [T] follows. *)
Definition stops (T : list Z) (ts : list tok) : Prop := ts = [] \/ starts T ts = true.

Lemma stops_not T T' ts : stops T ts -> (forall c, c ∈ T -> c <> 62 /\ c ∉ T') -> starts T' ts = false.
Proof.
  intros [->|(t & ts' & -> & [[_ H]|(c & -> & H)])%starts_true] HT; [done | by destruct (HT 62 H) |].
  cbn. unfold strchr. apply bool_decide_eq_false_2. by apply HT.
Qed.

Lemma stops_weaken T T' ts : stops T ts -> (forall c, c ∈ T -> c ∈ T') -> stops T' ts.
Proof.
  intros [->|(t & ts' & -> & [[-> H]|(c & -> & H)])%starts_true] HT; [by left | right..]; cbn; unfold strchr; apply bool_decide_eq_true_2; auto.
Qed.

Ltac in_list := rewrite ?elem_of_cons, ?elem_of_nil; lia.
Ltac in_lists := let c := fresh "c" in intros c; rewrite ?elem_of_cons, ?elem_of_nil; lia.

Lemma starts_here T c ts : c ∈ T -> starts T (TSym c :: ts) = true.
Proof. intros H. cbn. unfold strchr. by apply bool_decide_eq_true_2. Qed.

Definition parsed (m : P cmd) (s : nat) (c : cmd) (ts : list tok) : Prop := exists s', m s = Ok c s' /\ before s' ts.

Lemma parsed_bind m k s c c' ts ts' : parsed m s c ts -> (forall s1, before s1 ts -> parsed (k c) s1 c' ts') -> parsed (bind m k) s c' ts'.
Proof. intros (s1 & E & H1) Hk. unfold parsed. rewrite (bind_run _ _ _ _ _ E). by apply Hk. Qed.

Lemma redir_tok t mode fd c w : redir_of t = Some (mode, fd) -> (forall ts, starts [60; 62] (t :: ts) = true) /\
  (if code t =? 60 then REDIR c w MODE_IN 0 else if code t =? 62 then REDIR c w MODE_OUT 1
   else if code t =? 43 then REDIR c w MODE_APPEND 1 else c) = REDIR c w mode fd.
Proof.
  destruct t as [w'|c'|]; cbn; [done | | by intros [= <- <-]].
  destruct (c' =? 60) eqn:E1; [apply Z.eqb_eq in E1 as ->; by intros [= <- <-] |].
  destruct (c' =? 62) eqn:E2; [apply Z.eqb_eq in E2 as ->; by intros [= <- <-] | done].
Qed.

Lemma redirs_complete c ts1 c' : gredirs c ts1 c' -> forall s ts2 n, before s (ts1 ++ ts2) -> starts [60; 62] ts2 = false ->
  (length (ts1 ++ ts2) <= n)%nat -> parsed (parseredirs buf n c) s c' ts2.
Proof.
  unfold parsed. induction 1 as [c|c t w mode fd ts c' Ht Hg IH]; intros s ts2 n H Hs Hn; cbn [app] in *.
  - destruct n; cbn [parseredirs]; peeking [60; 62] H s1; rewrite Hs; by exists s1.
  - destruct n as [|n]; [cbn in Hn; lia |]. cbn [parseredirs]. destruct (redir_tok t mode fd c w Ht) as [Hst Hr]. peeking [60; 62] H s1.
    rewrite Hst. taking H s2 as _. taking H s3 as (_ & _ & Hw). cbn [code Z.eqb Pos.eqb negb]. rewrite Hw, Hr.
    apply (IH s3 ts2 n H Hs). cbn in Hn. lia.
Qed.

Lemma gargs_head argc c ts1 c' ts2 : gargs argc c ts1 c' -> starts [60; 62; 40] ts2 = false -> starts [60; 62; 40] (ts1 ++ ts2) = false.
Proof. by intros []. Qed.

Lemma starts_sub T T' ts : starts T ts = false -> (forall c, c ∈ T' -> c ∈ T) -> starts T' ts = false.
Proof.
  destruct ts as [|[w|c|] ts]; cbn; try done; unfold strchr; rewrite !bool_decide_eq_false; intros H HT H'; by apply H, HT.
Qed.

Lemma args_complete argc c ts1 c' : gargs argc c ts1 c' -> forall s ts2 n, before s (ts1 ++ ts2) -> stops [124; 41; 38; 59] ts2 ->
  (length (ts1 ++ ts2) <= n)%nat -> parsed (parseargs buf n argc c) s c' ts2.
Proof.
  induction 1 as [argc c|argc c w ts1 c1 ts3 c2 Hm Hr Hg IH]; intros s ts2 n H Hs Hn.
  - unfold parsed. cbn [app] in *. destruct Hs as [->|Hs].
    + destruct n; cbn [parseargs]; peeking [124; 41; 38; 59] H s1; cbn [starts]; ending H; by exists (es buf).
    + destruct n; cbn [parseargs]; peeking [124; 41; 38; 59] H s1; rewrite Hs; by exists s1.
  - destruct n as [|n]; [cbn in Hn; lia |]. cbn [parseargs app] in *. unfold parsed. rewrite <- app_assoc in H, Hn. peeking [124; 41; 38; 59] H s1.
    cbn [starts]. taking H s2 as (_ & _ & Hw). cbn [code Z.eqb Pos.eqb negb]. rewrite Hw. destruct (MAXARGS <=? S argc)%nat eqn:Em; [apply Nat.leb_le in Em; lia |].
    eapply parsed_bind.
    + apply (redirs_complete _ _ _ Hr s2 (ts3 ++ ts2)); [done | | by eapply before_len].
      apply (starts_sub [60; 62; 40]); [| in_lists]. eapply gargs_head; [done |]. apply (stops_not [124; 41; 38; 59]); [done | in_lists].
    + intros s3 H3. apply IH; [done | done |]. cbn in Hn. rewrite !length_app in *. lia.
Qed.

Lemma backs_complete k c s ts2 n : before s (replicate k AMP ++ ts2) -> starts [38] ts2 = false -> (length (replicate k AMP ++ ts2) <= n)%nat ->
  parsed (parsebacks buf n c) s (backs k c) ts2.
Proof.
  revert c s n. induction k as [|k IH]; intros c s n H Hs Hn; unfold parsed.
  - destruct n; cbn [parsebacks app replicate] in *; peeking [38] H s1; rewrite Hs; by exists s1.
  - destruct n as [|n]; [cbn in Hn; lia |]. cbn [parsebacks app replicate] in *. peeking [38] H s1. rewrite (starts_here [38] 38) by in_list. taking H s2 as _. rewrite <- backs_succ. apply IH; [done | done | cbn in Hn; lia].
Qed.

Lemma gredirs_head c ts1 c' ts2 : gredirs c ts1 c' -> starts [40] ts2 = false -> starts [40] (ts1 ++ ts2) = false.
Proof.
  intros [] Hs; [done |]. cbn. destruct t as [w'|c''|]; cbn; [done | | done]. unfold strchr. apply bool_decide_eq_false_2.
  rewrite list_elem_of_singleton. intros ->. done.
Qed.

Definition complete_line (ts1 : list tok) (c : cmd) : Prop := forall s ts2 n, before s (ts1 ++ ts2) -> stops [41] ts2 ->
  (4 * length (ts1 ++ ts2) + 4 <= n)%nat -> parsed (parseline buf n) s c ts2.
Definition complete_pipe (ts1 : list tok) (c : cmd) : Prop := forall s ts2 n, before s (ts1 ++ ts2) -> stops [41; 38; 59] ts2 ->
  (4 * length (ts1 ++ ts2) + 3 <= n)%nat -> parsed (parsepipe buf n) s c ts2.
Definition complete_exec (ts1 : list tok) (c : cmd) : Prop := forall s ts2 n, before s (ts1 ++ ts2) -> stops [124; 41; 38; 59] ts2 ->
  (4 * length (ts1 ++ ts2) + 2 <= n)%nat -> parsed (parseexec buf n) s c ts2.

(** A pipeline and its [&]s. *)
Lemma line_start ts c k s ts2 n K c' ts' : complete_pipe ts c -> before s (ts ++ replicate k AMP ++ ts2) -> stops [41; 59] ts2 ->
  (4 * length (ts ++ replicate k AMP ++ ts2) + 4 <= S n)%nat -> (forall s1, before s1 ts2 -> parsed (K (backs k c)) s1 c' ts') ->
  parsed (let! c := parsepipe buf n in let! c := parsebacks buf (es buf) c in K c) s c' ts'.
Proof.
  intros Hc H Hs Hn HK. eapply parsed_bind; [| intros s1 H1; eapply parsed_bind; [| exact HK]].
  - apply (Hc s (replicate k AMP ++ ts2)); [done | | lia]. destruct k; [| right; apply starts_here; in_list].
    eapply stops_weaken; [exact Hs | in_lists].
  - apply backs_complete; [done | | by eapply before_len]. apply (stops_not [41; 59]); [done | in_lists].
Qed.

Lemma complete_gl_pipe ts c k : complete_pipe ts c -> complete_line (ts ++ replicate k AMP) (backs k c).
Proof.
  intros Hc s ts2 [|n] H Hs Hn; [lia |]. rewrite <- app_assoc in H, Hn. cbn [parseline].
  eapply line_start; [done | done | eapply stops_weaken; [exact Hs | in_lists] | done |].
  intros s1 H1. unfold parsed. peeking [59] H1 s2. rewrite (stops_not [41] [59]) by (done || in_lists). by exists s2.
Qed.

Lemma complete_gl_list ts c k ts' c' : complete_pipe ts c -> complete_line ts' c' ->
  complete_line (ts ++ replicate k AMP ++ SEMI :: ts') (LIST (backs k c) c').
Proof.
  intros Hc Hl s ts2 [|n] H Hs Hn; [lia |]. rewrite <- !app_assoc in H, Hn. cbn [parseline app] in *.
  eapply line_start; [done | done | right; apply starts_here; in_list | done |].
  intros s1 H1. unfold parsed. peeking [59] H1 s2. rewrite starts_here by in_list. taking H1 s3 as _.
  eapply parsed_bind; [apply (Hl s3 ts2 n); [done | done |] | intros s4 H4; by exists s4].
  rewrite !length_app in *. cbn in Hn. rewrite length_app in Hn. lia.
Qed.

Lemma complete_gp_exec ts c : complete_exec ts c -> complete_pipe ts c.
Proof.
  intros Hc s ts2 [|n] H Hs Hn; [lia |]. cbn [parsepipe]. eapply parsed_bind.
  - apply (Hc s ts2 n); [done | eapply stops_weaken; [exact Hs | in_lists] | lia].
  - intros s1 H1. unfold parsed. peeking [124] H1 s2. rewrite (stops_not [41; 38; 59] [124]) by (done || in_lists). by exists s2.
Qed.

Lemma complete_gp_pipe ts c ts' c' : complete_exec ts c -> complete_pipe ts' c' -> complete_pipe (ts ++ BAR :: ts') (PIPE c c').
Proof.
  intros Hc Hp s ts2 [|n] H Hs Hn; [lia |]. rewrite <- app_assoc in H, Hn. cbn [parsepipe app] in *. eapply parsed_bind.
  - apply (Hc s (BAR :: ts' ++ ts2) n); [done | right; apply starts_here; in_list | lia].
  - intros s1 H1. unfold parsed. peeking [124] H1 s2. rewrite starts_here by in_list. taking H1 s3 as _.
    eapply parsed_bind; [apply (Hp s3 ts2 n); [done | done |] | intros s4 H4; by exists s4].
    rewrite !length_app in *. cbn in Hn. rewrite length_app in Hn. lia.
Qed.

Lemma complete_ge_exec ts c ts' c' : gredirs (EXEC []) ts c -> gargs 0 c ts' c' -> complete_exec (ts ++ ts') c'.
Proof.
  intros Hr Hg s ts2 [|n] H Hs Hn; [lia |]. rewrite <- app_assoc in H, Hn. cbn [parseexec] in *. unfold parsed. 
  assert (starts [60; 62; 40] (ts' ++ ts2) = false) as Hst by (eapply gargs_head; [done |]; apply (stops_not [124; 41; 38; 59]); [done | in_lists]).
  peeking [40] H s1. rewrite (gredirs_head _ _ _ _ Hr) by (apply (starts_sub [60; 62; 40]); [done | in_lists]).
  eapply parsed_bind; [apply (redirs_complete _ _ _ Hr s1 (ts' ++ ts2)); [done | | by eapply before_len] |].
  - apply (starts_sub [60; 62; 40]); [done | in_lists].
  - intros s2 H2. eapply args_complete; [done | done | done | by eapply before_len].
Qed.

Lemma complete_ge_block ts c ts' c' : complete_line ts c -> gredirs c ts' c' -> complete_exec (LPAR :: ts ++ RPAR :: ts') c'.
Proof.
  intros Hl Hr s ts2 [|n] H Hs Hn; [lia |]. cbn [parseexec app] in *. rewrite <- app_assoc in H, Hn. unfold parsed. peeking [40] H s1.
  rewrite starts_here by in_list. destruct n as [|n]; [lia |]. cbn [parseblock app] in *. peeking [40] H s2. rewrite starts_here by in_list. cbn [negb].
  taking H s3 as _. eapply parsed_bind.
  - apply (Hl s3 (RPAR :: ts' ++ ts2) n); [done | right; apply starts_here; in_list | cbn [length] in Hn; lia].
  - intros s4 H4. unfold parsed. peeking [41] H4 s5. rewrite starts_here by in_list. cbn [negb]. taking H4 s6 as _.
    apply (redirs_complete _ _ _ Hr); [done | | by eapply before_len]. apply (stops_not [124; 41; 38; 59]); [done | in_lists].
Qed.
End descent.

Scheme gline_mut := Minimality for gline Sort Prop
with gpipe_mut := Minimality for gpipe Sort Prop
with gexec_mut := Minimality for gexec Sort Prop.

(** *** The words of a command *)

Fixpoint words (c : cmd) : list word :=
  match c with
  | EXEC argv => argv
  | REDIR c file _ _ => words c ++ [file]
  | PIPE l r | LIST l r => words l ++ words r
  | BACK c => words c
  end.

(** No [argv] overruns its array: there is room for the null pointer. *)
Fixpoint argv_ok (c : cmd) : Prop :=
  match c with
  | EXEC argv => (length argv < MAXARGS)%nat
  | REDIR c _ _ _ | BACK c => argv_ok c
  | PIPE l r | LIST l r => argv_ok l /\ argv_ok r
  end.

(** The number of arguments of an [execcmd] with redirections around it. *)
Fixpoint argc_of (c : cmd) : option nat :=
  match c with EXEC argv => Some (length argv) | REDIR c _ _ _ => argc_of c | _ => None end.

Definition from (ts : list tok) (c : cmd) : Prop := forall w, w ∈ words c -> TWord w ∈ ts.

Lemma add_arg_ok c w n : argc_of c = Some n -> argc_of (add_arg c w) = Some (S n) /\ (forall v, v ∈ words (add_arg c w) -> v ∈ words c \/ v = w).
Proof.
  induction c as [argv|c IH file mode fd| | |]; cbn; try done.
  - intros [= <-]. rewrite length_app, Nat.add_1_r. split; [done |]. intros v. rewrite elem_of_app, list_elem_of_singleton. tauto.
  - intros [H1 H2]%IH. split; [done |]. intros v. rewrite !elem_of_app, list_elem_of_singleton. intros [Hv|Hv]; [apply H2 in Hv |]; tauto.
Qed.

Lemma gredirs_words c ts c' : gredirs c ts c' ->
  (forall w, w ∈ words c' -> w ∈ words c \/ TWord w ∈ ts) /\ (argv_ok c -> argv_ok c') /\ (forall n, argc_of c = Some n -> argc_of c' = Some n).
Proof.
  induction 1 as [c|c t w mode fd ts c' Ht _ (IH1 & IH2 & IH3)]; [by split_and!; auto |]. split_and!; [| done | done].
  intros v Hv. cbn in *. rewrite !elem_of_cons. destruct (IH1 v Hv) as [H|H]; [| tauto]. apply elem_of_app in H as [H|H%list_elem_of_singleton]; [tauto | subst; tauto].
Qed.

Lemma argc_argv c n : argc_of c = Some n -> (n < MAXARGS)%nat -> argv_ok c.
Proof. induction c; cbn; try done. by intros [= <-]. Qed.

Lemma gargs_words argc c ts c' : gargs argc c ts c' -> argc_of c = Some argc -> (argc < MAXARGS)%nat ->
  (forall w, w ∈ words c' -> w ∈ words c \/ TWord w ∈ ts) /\ argv_ok c'.
Proof.
  induction 1 as [argc c|argc c w ts1 c1 ts2 c2 Hm Hr Hg IH]; intros Ha Hlt; [split; [auto | by eapply argc_argv] |].
  destruct (add_arg_ok c w argc Ha) as [H1 H2]. destruct (gredirs_words _ _ _ Hr) as (H3 & _ & H4). destruct IH as [H5 H6]; [auto | done |].
  split; [| done]. intros v Hv. rewrite elem_of_cons, elem_of_app. destruct (H5 v Hv) as [Hv'|]; [| tauto].
  destruct (H3 v Hv') as [Hv''|]; [| tauto]. destruct (H2 v Hv'') as [?| ->]; tauto.
Qed.

Lemma backs_words k c : words (backs k c) = words c /\ (argv_ok (backs k c) <-> argv_ok c).
Proof. induction k as [|k [IH1 IH2]]; [done |]. split; [exact IH1 | exact IH2]. Qed.

Definition wf_cmd (ts : list tok) (c : cmd) : Prop := from ts c /\ argv_ok c.

Lemma wf_pair ts1 t ts2 c1 c2 c : words c = words c1 ++ words c2 -> (argv_ok c <-> argv_ok c1 /\ argv_ok c2) ->
  wf_cmd ts1 c1 -> wf_cmd ts2 c2 -> wf_cmd (ts1 ++ t ++ ts2) c.
Proof.
  intros Hw Ha [F1 A1] [F2 A2]. split; [| by apply Ha]. intros w. rewrite Hw, !elem_of_app. intros [H|H]; [apply F1 in H | apply F2 in H]; tauto.
Qed.

Lemma wf_redirs ts1 c ts c' : wf_cmd ts1 c -> gredirs c ts c' -> wf_cmd (ts1 ++ ts) c'.
Proof.
  intros [F A] Hr. destruct (gredirs_words _ _ _ Hr) as (H1 & H2 & _). split; [| auto]. intros w Hw. rewrite elem_of_app.
  destruct (H1 w Hw) as [H|]; [apply F in H |]; tauto.
Qed.

Lemma grammar_wf ts c : gline ts c -> wf_cmd ts c.
Proof.
  revert ts c. apply (gline_mut wf_cmd wf_cmd wf_cmd).
  - intros ts c k _ [F A]. destruct (backs_words k c) as [E1 E2]. split; [| by apply E2]. intros w. rewrite E1, elem_of_app. intros H%F. tauto.
  - intros ts c k ts' c' _ H1 _ H2. destruct (backs_words k c) as [E1 E2].
    rewrite cons_middle. rewrite (app_assoc (replicate k AMP)). apply (wf_pair _ _ _ c c'); [cbn; by rewrite E1 | cbn; by rewrite E2 | done | done].
  - done.
  - intros ts c ts' c' _ H1 _ H2. rewrite cons_middle. by apply (wf_pair _ _ _ c c').
  - intros ts c ts' c' Hr Hg. destruct (gredirs_words _ _ _ Hr) as (H1 & _ & H3). destruct (gargs_words _ _ _ _ Hg) as [H4 H5]; [by apply H3 | unfold MAXARGS; lia |].
    split; [| done]. intros w Hw. rewrite elem_of_app. destruct (H4 w Hw) as [H|]; [| tauto]. destruct (H1 w H) as [H'|]; [by apply elem_of_nil in H' | tauto].
  - intros ts c ts' c' _ H Hr. rewrite app_comm_cons, cons_middle, app_assoc. eapply wf_redirs; [| done]. destruct H as [F A]. split; [| done].
    intros w Hw%F. rewrite elem_of_app, elem_of_cons. tauto.
Qed.

Lemma grammar_complete buf ts c : 0 ∉ buf -> gline ts c -> complete_line buf ts c.
Proof.
  intros H0. revert ts c. apply (gline_mut (complete_line buf) (complete_pipe buf) (complete_exec buf)); intros.
  - by apply complete_gl_pipe.
  - by apply complete_gl_list.
  - by apply complete_gp_exec.
  - by apply complete_gp_pipe.
  - by eapply complete_ge_exec.
  - by eapply complete_ge_block.
Qed.

(** ** The parser is correct *)

Lemma lexes_end_es buf s : 0 ∉ buf -> lexes buf s [] -> (s <= es buf)%nat -> skip_ws buf (es buf) s = es buf.
Proof.
  intros H0 H Hs. inversion H as [? w s' E|]; subst. destruct (gettoken_ok buf H0 s Hs) as (r & w' & s1 & E' & Ht).
  rewrite E in E'. injection E' as <- <- <-. unfold token_spec in Ht. rewrite decide_True in Ht by done. by destruct Ht.
Qed.

Lemma lexes_es_end buf ts : 0 ∉ buf -> lexes buf (es buf) ts -> ts = [].
Proof. intros H0 H. pose proof (lexes_len buf H0 _ _ H (Nat.le_refl _)). destruct ts; [done | cbn in *; lia]. Qed.

(** The whole line has been parsed, or there are leftovers. *)
Lemma finish buf s ts : 0 ∉ buf -> before buf s ts ->
  exists s', peek buf [] s = Ok false s' /\ ((s' =? es buf)%nat = true <-> ts = []).
Proof.
  intros H0 [H Hs]. destruct (peek_ok buf H0 [] s ts H Hs) as (s' & E & H' & Hs'); [intros c Hc; by apply elem_of_nil in Hc |].
  exists s'. split; [rewrite E; f_equal; by destruct ts as [|[]] |]. rewrite Nat.eqb_eq. split.
  - intros ->. by eapply lexes_es_end.
  - intros ->. unfold peek in E. injection E as _ <-. by apply lexes_end_es.
Qed.

Lemma parse_line_correct_aux buf : 0 ∉ buf ->
  exists ts, lexes buf 0 ts /\
    match parse_line buf with
    | Ok (c, b) _ => gline ts c /\ b = nulterminate c (buf ++ [0])
    | Panic _ => ~ exists c, gline ts c
    | _ => False
    end.
Proof.
  intros H0. destruct (lexes_total buf H0 0) as [ts Hts]; [lia |]. exists ts. split; [done |].
  assert (before buf 0 ts) as Hb by (split; [done | lia]). pose proof (before_len buf H0 _ _ Hb) as Hl.
  destruct (parser_sound buf H0 (4 * es buf + 4)%nat 0%nat ts Hb) as [Hs _]. specialize (Hs ltac:(lia)).
  assert (forall c, gline ts c -> exists s', parseline buf (4 * es buf + 4)%nat 0%nat = Ok c s' /\ before buf s' []) as Hcomp.
  { intros c Hg. apply (grammar_complete buf ts c H0 Hg 0%nat [] (4 * es buf + 4)%nat); [by rewrite app_nil_r | by left | rewrite app_nil_r; lia]. }
  unfold parse_line, parsecmd. unfold bind at 1. destruct (parseline buf (4 * es buf + 4)%nat 0%nat) as [c s1|msg| |]; try done.
  - destruct Hs as (ts1 & ts2 & -> & Hg & Hb2). destruct (finish buf s1 ts2 H0 Hb2) as (s2 & E & He).
    rewrite (bind_run _ _ _ _ _ E), (bind_run get _ s2 s2 s2 eq_refl). destruct (s2 =? es buf)%nat; cbn [negb].
    + rewrite (proj1 He eq_refl), app_nil_r. by split.
    + intros [c' (s' & [= <- <-] & Hb')%Hcomp]. assert (ts2 = []) as ->; [| by destruct He as [_ He]; specialize (He eq_refl)].
      eapply lexes_det; [apply Hb2 | apply Hb'].
  - intros [c (s' & E & _)%Hcomp]. done.
Qed.

(** C11: The parser always ends.  It accepts a line exactly when the line's
    tokens are in the grammar of the shell, and then returns the command the
    grammar gives, with the words cut out of the line; otherwise it panics. *)
Theorem parse_line_correct buf : 0 ∉ buf ->
  exists ts, lexes buf 0 ts /\
    match parse_line buf with
    | Ok (c, b) _ => gline ts c /\ b = nulterminate c (buf ++ [0])
    | Panic _ => ~ exists c, gline ts c
    | _ => False
    end.
Proof. apply parse_line_correct_aux. Qed.

Lemma parse_line_witness : (0 ∉ [97; 124; 98]) /\ exists ts, lexes [97; 124; 98] 0 ts /\
  gline ts (PIPE (EXEC [(0, 1)]) (EXEC [(2, 3)]))%nat.
Proof.
  assert (0 ∉ [97; 124; 98]) as H0 by (rewrite !elem_of_cons, elem_of_nil; lia). split; [exact H0 |].
  destruct (parse_line_correct [97; 124; 98] H0) as (ts & Hl & H). exists ts. split; [exact Hl |]. vm_compute in H. exact (proj1 H).
Defined.

(** ** The words are cut out *)

(** The C string at the front of the memory [l]. *)
Fixpoint cstr (l : list Z) : list Z :=
  match l with [] => [] | c :: l' => if c =? 0 then [] else c :: cstr l' end.

Definition slice (buf : list Z) (w : word) : list Z := take (w.2 - w.1) (drop w.1 buf).

Lemma nul_at_nth e b i : nth i (nul_at e b) 0 = if decide (i = e) then 0 else nth i b 0.
Proof.
  unfold nul_at. rewrite !nth_lookup. destruct (decide (i = e)) as [->|Hne]; [| by rewrite list_lookup_insert_ne].
  destruct (decide (e < length b)%nat); [by rewrite list_lookup_insert_eq | by rewrite lookup_ge_None_2 by (rewrite length_insert; lia)].
Qed.

Lemma nulterminate_length c b : length (nulterminate c b) = length b.
Proof.
  revert b. induction c as [argv|c IH file mode fd|l IHl r IHr|l IHl r IHr|c IH]; intros b; cbn [nulterminate].
  - revert b. induction argv as [|w argv IHa]; intros b; cbn; [done |]. by rewrite IHa; unfold nul_at; rewrite length_insert.
  - unfold nul_at. by rewrite length_insert.
  - by rewrite IHr.
  - by rewrite IHr.
  - apply IH.
Qed.

Lemma nulterminate_nth c b i : nth i (nulterminate c b) 0 = if decide (i ∈ map snd (words c)) then 0 else nth i b 0.
Proof.
  revert b. induction c as [argv|c IH file mode fd|l IHl r IHr|l IHl r IHr|c IH]; intros b; cbn [nulterminate words].
  - revert b. induction argv as [|w argv IHa]; intros b; cbn; [done |]. rewrite IHa, nul_at_nth. repeat case_decide; set_solver.
  - rewrite nul_at_nth, IH, map_app. repeat case_decide; set_solver.
  - rewrite IHr, IHl, map_app. repeat case_decide; set_solver.
  - rewrite IHr, IHl, map_app. repeat case_decide; set_solver.
  - apply IH.
Qed.

Lemma drop_nth (l : list Z) q : nth q l 0 <> 0 -> drop q l = nth q l 0 :: drop (S q) l.
Proof.
  intros H. apply drop_S. destruct (nth_lookup_or_length l q 0) as [E|E]; [done |]. by rewrite nth_overflow in H.
Qed.

Lemma cstr_slice b buf q n : (forall i, (q <= i < q + n)%nat -> nth i b 0 = nth i buf 0 /\ nth i buf 0 <> 0) -> nth (q + n) b 0 = 0 ->
  cstr (drop q b) = take n (drop q buf).
Proof.
  revert q. induction n as [|n IH]; intros q Hi He.
  - cbn [take]. rewrite Nat.add_0_r in He. destruct (nth_lookup_or_length b q 0) as [E|E]; [| by rewrite drop_ge].
    rewrite (drop_S _ _ _ E), He. done.
  - destruct (Hi q) as [E1 E2]; [lia |]. rewrite (drop_nth buf q E2), (drop_nth b q) by (by rewrite E1). rewrite E1. cbn [cstr take].
    apply Z.eqb_neq in E2. rewrite E2. f_equal. apply IH; [intros i Hlt; apply Hi; lia |]. by rewrite Nat.add_succ_comm.
Qed.

(** C14: In a parsed line no argument vector overruns its [MAXARGS] entries, every
    word lies within the line and no write of [nulterminate] outside it; and
    afterwards each word is a C string with exactly the characters it had. *)
Theorem parse_line_words buf c b s : 0 ∉ buf -> parse_line buf = Ok (c, b) s ->
  argv_ok c /\ length b = S (length buf) /\
  forall w, w ∈ words c -> (w.1 < w.2 <= length buf)%nat /\ cstr (drop w.1 b) = slice buf w.
Proof.
  intros H0 E. destruct (parse_line_correct_aux buf H0) as (ts & Hts & H). rewrite E in H. destruct H as [Hg ->].
  destruct (grammar_wf ts c Hg) as [Hf Ha]. pose proof (lexes_ok buf H0 _ _ Hts ltac:(lia)) as Hok. rewrite Forall_forall in Hok.
  assert (forall w, w ∈ words c -> word_ok buf w) as Hw by (intros w Hw; apply (Hok (TWord w)), Hf, Hw).
  split_and!; [done | by rewrite nulterminate_length, length_app, Nat.add_1_r |]. intros w Hin. destruct (Hw w Hin) as [W1 W2 W3].
  split; [done |]. apply cstr_slice.
  - intros i Hi. assert (ordinary (nth i buf 0)) as Ho by (apply W2; lia). rewrite nulterminate_nth, decide_False.
    + split; [by rewrite app_nth1 by lia | by destruct Ho].
    + intros (v & -> & Hv)%list_elem_of_fmap. by apply (wd_end _ _ (Hw v Hv)).
  - replace (w.1 + (w.2 - w.1))%nat with w.2 by lia. rewrite nulterminate_nth, decide_True; [done |].
    apply list_elem_of_fmap. by exists w.
Qed.

(** "ab c>d" *)
Lemma parse_line_words_witness : exists c b s, parse_line [97; 98; 32; 99; 62; 100] = Ok (c, b) s /\
  words c = [(0, 2); (3, 4); (5, 6)]%nat /\ cstr (drop 0 b) = [97; 98] /\ cstr (drop 3 b) = [99].
Proof.
  eexists _, _, _. split; [vm_compute; reflexivity |].
  assert (0 ∉ [97; 98; 32; 99; 62; 100]) as H0 by (rewrite !elem_of_cons, elem_of_nil; lia).
  destruct (parse_line_words [97; 98; 32; 99; 62; 100] _ _ _ H0 ltac:(vm_compute; reflexivity)) as (_ & _ & Hw). split; [reflexivity |]. split.
  - apply (Hw (0, 2)%nat). apply list_elem_of_here.
  - apply (Hw (3, 4)%nat). right. apply list_elem_of_here.
Defined.
