(* ===== verification/Runcmd.v ===== *)
(** * user/sh.c: running a command

    [runcmd] as the tree of its system calls, and what these do to the tables
    of open files: which programs are executed, and with which files open. *)

From S2P Require Import Prelude Shell.

(** What a file descriptor refers to: something inherited, an opened file, an
    end of a pipe. *)
Inductive obj := OInherited (n : nat) | OFile (file : word) (mode : Z) | ORead (pipe : nat) | OWrite (pipe : nat).

(** A process that makes system calls; the continuations take their results. *)
Inductive prog :=
  | Exit (status : Z)
  | Close (fd : nat) (k : prog)
  | Open (file : word) (mode : Z) (k : Z -> prog)
  | Dup (fd : nat) (k : prog)
  | MkPipe (k : option (nat * nat) -> prog)
  | Fork (child : prog) (k : Z -> prog)
  | Wait (k : prog)
  | Exec (argv : list word) (k : prog)
  | Complain (what : string) (k : prog).

Definition sh_panic (s : string) : prog := Complain s (Exit 1).

(** [if (fork1() == 0) child; k] *)
Definition fork1 (child k : prog) : prog :=
  Fork child (fun pid => if pid =? -1 then sh_panic "fork" else k).

Fixpoint runcmd (c : cmd) : prog :=
  match c with
  | EXEC argv =>
      match argv with
      | [] => Exit 1
      | _ => Exec argv (Complain "exec failed" (Exit 0))
      end
  | REDIR c file mode fd =>
      Close (Z.to_nat fd) (Open file mode (fun r => if r <? 0 then Complain "open failed" (Exit 1) else runcmd c))
  | LIST l r => fork1 (runcmd l) (Wait (runcmd r))
  | PIPE l r =>
      MkPipe (fun p =>
        match p with
        | None => sh_panic "pipe"
        | Some (p0, p1) =>
            fork1 (Close 1 (Dup p1 (Close p0 (Close p1 (runcmd l)))))
              (fork1 (Close 0 (Dup p0 (Close p0 (Close p1 (runcmd r)))))
                 (Close p0 (Close p1 (Wait (Wait (Exit 0))))))
        end)
  | BACK c => fork1 (runcmd c) (Exit 0)
  end.

(** ** Open files *)

Abbreviation fdtable := (gmap nat obj).

(** The lowest descriptor from [fd] on that is not in use. *)
Fixpoint lowest (n fd : nat) (t : fdtable) : option nat :=
  match n with
  | O => None
  | S n' => match t !! fd with None => Some fd | Some _ => lowest n' (S fd) t end
  end.

Definition lowest_fd (t : fdtable) : option nat := lowest 16 0 t.

Section run.
(** Files that can be opened, programs that can be executed. *)
Context (can_open : word -> Z -> bool) (can_exec : list word -> bool).

(** The programs executed by a process and its descendants, each with its open
    files; [id] names the next pipe.  No process dies for lack of memory. *)
Fixpoint execs (p : prog) (t : fdtable) (id : nat) : list (list word * fdtable) * nat :=
  match p with
  | Exit _ => ([], id)
  | Close fd k => execs k (delete fd t) id
  | Open file mode k =>
      if can_open file mode then
        match lowest_fd t with
        | Some fd => execs (k (Z.of_nat fd)) (<[fd := OFile file mode]> t) id
        | None => execs (k (-1)) t id
        end
      else execs (k (-1)) t id
  | Dup fd k =>
      match t !! fd, lowest_fd t with
      | Some o, Some fd' => execs k (<[fd' := o]> t) id
      | _, _ => execs k t id
      end
  | MkPipe k =>
      match lowest_fd t with
      | Some fd0 =>
          match lowest_fd (<[fd0 := ORead id]> t) with
          | Some fd1 => execs (k (Some (fd0, fd1))) (<[fd1 := OWrite id]> (<[fd0 := ORead id]> t)) (S id)
          | None => execs (k None) t id
          end
      | None => execs (k None) t id
      end
  | Fork child k =>
      let (l, id) := execs child t id in
      let (l', id) := execs (k 1) t id in
      (l ++ l', id)
  | Wait k | Complain _ k => execs k t id
  | Exec argv k => if can_exec argv then ([(argv, t)], id) else execs k t id
  end.

(** ** What a command means *)

Definition std (i o e : obj) : fdtable := <[0%nat := i]> (<[1%nat := o]> (<[2%nat := e]> ∅)).

(** The programs of [c] with standard input [i] and output [o]: both ends of a
    pipe in its place, and nothing else open. *)
Fixpoint programs (c : cmd) (i o e : obj) (id : nat) : list (list word * fdtable) * nat :=
  match c with
  | EXEC argv => (match argv with [] => [] | _ => if can_exec argv then [(argv, std i o e)] else [] end, id)
  | REDIR c file mode fd =>
      if can_open file mode then
        if fd =? 0 then programs c (OFile file mode) o e id else programs c i (OFile file mode) e id
      else ([], id)
  | LIST l r =>
      let (x, id) := programs l i o e id in
      let (y, id) := programs r i o e id in (x ++ y, id)
  | PIPE l r =>
      let (x, id') := programs l i (OWrite id) e (S id) in
      let (y, id') := programs r (ORead id) o e id' in (x ++ y, id')
  | BACK c => programs c i o e id
  end.

(** Redirections are of standard input and output, as the parser makes them. *)
Fixpoint redirs_ok (c : cmd) : Prop :=
  match c with
  | EXEC _ => True
  | REDIR c _ _ fd => (fd = 0 \/ fd = 1) /\ redirs_ok c
  | PIPE l r | LIST l r => redirs_ok l /\ redirs_ok r
  | BACK c => redirs_ok c
  end.

(** The two children of a pipeline find its ends in place of their standard
    output and input, and the other ends closed. *)
Definition pipe_table (i o e : obj) (id : nat) : fdtable := <[4%nat := OWrite id]> (<[3%nat := ORead id]> (std i o e)).

Lemma pipe_left p i o e id id' :
  execs (Close 1 (Dup 4 (Close 3 (Close 4 p)))) (pipe_table i o e id) id' = execs p (std i (OWrite id) e) id'.
Proof. reflexivity. Qed.

Lemma pipe_right p i o e id id' :
  execs (Close 0 (Dup 3 (Close 3 (Close 4 p)))) (pipe_table i o e id) id' = execs p (std (ORead id) o e) id'.
Proof. reflexivity. Qed.

Lemma execs_fork child k t id :
  execs (fork1 child k) t id = let (x, id) := execs child t id in let (y, id) := execs k t id in (x ++ y, id).
Proof. reflexivity. Qed.

Lemma pipe_execs l r i o e id (right : nat -> list (list word * fdtable) * nat) :
  (forall id', execs (runcmd r) (std (ORead id) o e) id' = right id') ->
  execs (runcmd (PIPE l r)) (std i o e) id =
    let (x, id') := execs (runcmd l) (std i (OWrite id) e) (S id) in let (y, id') := right id' in (x ++ y, id').
Proof.
  intros Hr. change (execs (runcmd (PIPE l r)) (std i o e) id) with
    (execs (fork1 (Close 1 (Dup 4 (Close 3 (Close 4 (runcmd l)))))
              (fork1 (Close 0 (Dup 3 (Close 3 (Close 4 (runcmd r))))) (Close 3 (Close 4 (Wait (Wait (Exit 0)))))))
       (pipe_table i o e id) (S id)).
  rewrite execs_fork, pipe_left. destruct (execs (runcmd l) _ _) as [x id']. rewrite execs_fork, pipe_right, Hr.
  destruct (right id') as [y id'']. cbn. by rewrite app_nil_r.
Qed.

Lemma runcmd_programs c i o e id : redirs_ok c -> execs (runcmd c) (std i o e) id = programs c i o e id.
Proof.
  revert i o e id. induction c as [argv|c IH file mode fd|l IHl r IHr|l IHl r IHr|c IH]; intros i o e id Hr; cbn [runcmd programs].
  - destruct argv; [done |]. cbn [execs]. by destruct (can_exec _).
  - destruct Hr as [Hfd Hr]. cbn [execs]. destruct (can_open file mode); [| done]. destruct Hfd as [-> | ->].
    + cbn [Z.eqb]. rewrite <- IH by done. reflexivity.
    + cbn [Z.eqb]. rewrite <- IH by done. reflexivity.
  - destruct Hr as [H1 H2]. rewrite <- IHl by done. apply (pipe_execs l r i o e id (programs r (ORead id) o e)). intros id'. by apply IHr.
  - destruct Hr as [H1 H2]. rewrite execs_fork, IHl by done. destruct (programs l i o e id) as [x id']. cbn [execs]. by rewrite IHr.
  - rewrite execs_fork, IH by done. destruct (programs c i o e id). cbn. by rewrite app_nil_r.
Qed.
End run.

(** *** What the parser makes *)

Lemma gredirs_redirs c ts c' : gredirs c ts c' -> redirs_ok c -> redirs_ok c'.
Proof.
  induction 1 as [|c t w mode fd ts c' Ht _ IH]; [done |]. intros H. apply IH. split; [| done].
  destruct t as [w'|x|]; cbn in Ht; [done | | injection Ht as <- <-; by right].
  destruct (x =? 60); [injection Ht as <- <-; by left |]. destruct (x =? 62); [injection Ht as <- <-; by right | done].
Qed.

Lemma add_arg_redirs c w : redirs_ok c -> redirs_ok (add_arg c w).
Proof. induction c; cbn; try done. intros [H1 H2]. auto. Qed.

Lemma gargs_redirs argc c ts c' : gargs argc c ts c' -> redirs_ok c -> redirs_ok c'.
Proof.
  induction 1 as [|argc c w ts1 c1 ts2 c2 _ Hr _ IH]; [done |]. intros H. apply IH, (gredirs_redirs _ _ _ Hr). by apply add_arg_redirs.
Qed.

Lemma backs_redirs k c : redirs_ok c -> redirs_ok (backs k c).
Proof. intros H. by induction k. Qed.

Lemma gline_redirs ts c : gline ts c -> redirs_ok c.
Proof.
  revert ts c. apply (gline_mut (fun _ => redirs_ok) (fun _ => redirs_ok) (fun _ => redirs_ok)); intros.
  - by apply backs_redirs.
  - split; [by apply backs_redirs | done].
  - done.
  - by split.
  - eapply gargs_redirs; [done |]. by eapply gredirs_redirs.
  - by eapply gredirs_redirs.
Qed.

(** C12: When a line that parses is run, exactly the programs of the command are
    executed, each with its redirections and the ends of its pipes as standard
    input and output and with nothing else open; a file that cannot be opened
    stops the commands it was opened for and no others. *)
Theorem runcmd_correct can_open can_exec buf c b s i o e id : 0 ∉ buf -> parse_line buf = Ok (c, b) s ->
  execs can_open can_exec (runcmd c) (std i o e) id = programs can_open can_exec c i o e id.
Proof.
  intros H0 E. apply runcmd_programs. destruct (parse_line_correct_aux buf H0) as (ts & _ & H). rewrite E in H.
  destruct H as [Hg _]. by eapply gline_redirs.
Qed.

(** "a<b|c" *)
Lemma runcmd_correct_witness : exists c b s, parse_line [97; 60; 98; 124; 99] = Ok (c, b) s /\
  execs (fun _ _ => true) (fun _ => true) (runcmd c) (std (OInherited 0) (OInherited 1) (OInherited 2)) 0 =
  ([([(0, 1)], std (OFile (2, 3) MODE_IN) (OWrite 0) (OInherited 2)); ([(4, 5)], std (ORead 0) (OInherited 1) (OInherited 2))], 1)%nat.
Proof.
  eexists _, _, _. split; [vm_compute; reflexivity |].
  assert (0 ∉ [97; 60; 98; 124; 99]) as H0 by (rewrite !elem_of_cons, elem_of_nil; lia).
  exact (runcmd_correct (fun _ _ => true) (fun _ => true) _ _ _ _ (OInherited 0) (OInherited 1) (OInherited 2) 0 H0 ltac:(vm_compute; reflexivity)).
Defined.
