(* ===== verification/Shmain.v ===== *)
(** * user/sh.c: the main loop

    [main] opens the console until descriptors 0, 1 and 2 are in use, then
    reads a line at a time: [cd] is carried out by the shell itself, any other
    line by a child that parses and runs it. *)

From S2P Require Import Prelude KString Ulib Shell Runcmd.

(** [sizeof(buf)] *)
Definition BUFLEN : Z := 100.

(** The line in [buf], without its NUL, and the input left; [None] at the end
    of the input. *)
Definition getcmd (input : list Z) : option (list Z * list Z) :=
  let '(buf, rest) := gets BUFLEN input in
  if lview buf 0 =? 0 then None else Some (cstr_n (length buf) (lview buf) 0, rest).

(** What the shell does with a line: a system call of its own, or a child that
    parses and runs a command. *)
Inductive action := Chdir (path : list Z) | Child (p : prog).

Definition run_child (line : list Z) : prog :=
  match parse_line line with
  | Ok (c, _) _ => runcmd c
  | Panic s => sh_panic s
  | _ => Exit 1
  end.

Definition act (line : list Z) : action :=
  if (lview line 0 =? 99) && (lview line 1 =? 100) && (lview line 2 =? 32)
  then Chdir (drop 3 (take (length line - 1) line))
  else Child (run_child line).

Fixpoint main_loop (fuel : nat) (input : list Z) : option (list action) :=
  match fuel with
  | O => None
  | S fuel' =>
      match getcmd input with
      | None => Some []
      | Some (line, rest) => option_map (cons (act line)) (main_loop fuel' rest)
      end
  end.

(** The loop that opens the console; the table of open files it leaves. *)
Fixpoint open_console (fuel : nat) (console : obj) (t : fdtable) : option fdtable :=
  match fuel with
  | O => None
  | S fuel' =>
      match lowest_fd t with
      | None => Some t
      | Some fd =>
          let t := <[fd := console]> t in
          if (3 <=? fd)%nat then Some (delete fd t) else open_console fuel' console t
      end
  end.

(** ** Lines *)

Definition plain (c : Z) : Prop := c <> NL /\ c <> CR /\ c <> 0.

Lemma gets_line room l rest : Forall plain l -> (length l < room)%nat -> gets_loop room (l ++ NL :: rest) = (l ++ [NL], rest).
Proof.
  intros Hl. revert room. induction Hl as [|c l (H1 & H2 & _) _ IH]; intros [|room] Hr; cbn [length] in Hr; try lia; cbn [gets_loop app]; [done |].
  rewrite (proj2 (Z.eqb_neq c NL)), (proj2 (Z.eqb_neq c CR)) by done. cbn [orb]. by rewrite IH by lia.
Qed.

Lemma getcmd_line l rest : Forall plain l -> (length l <= 98)%nat -> getcmd (l ++ NL :: rest) = Some (l ++ [NL], rest).
Proof.
  intros Hl Hn. unfold getcmd, gets. change (Z.to_nat (BUFLEN - 1)) with 99%nat. rewrite gets_line by (done || lia).
  assert (Forall (.≠ 0) (l ++ [NL])) as Hz.
  { apply Forall_app. split; [eapply Forall_impl; [exact Hl |]; by intros c (_ & _ & ?) | by repeat constructor]. }
  assert (lview ((l ++ [NL]) ++ [0]) 0 <> 0) as H0 by (destruct l; cbn; [done | by apply Forall_cons in Hz as [? _]]).
  rewrite (proj2 (Z.eqb_neq _ _)) by done. do 2 f_equal.
  apply cstr_n_eq; [rewrite (length_app _ [0]); cbn; lia | | done |].
  - intros i Hi. unfold lview. by rewrite Nat2Z.id, lookup_app_l.
  - unfold lview. by rewrite Nat2Z.id, lookup_app_r, Nat.sub_diag.
Qed.

Lemma main_loop_step fuel input : main_loop (S fuel) input =
  match getcmd input with None => Some [] | Some (line, rest) => option_map (cons (act line)) (main_loop fuel rest) end.
Proof. done. Qed.

(** The input, line by line, is the actions of its lines: the shell carries
    out every line, and in order. *)
Lemma main_lines lines : Forall (fun l => Forall plain l /\ (length l <= 98)%nat) lines ->
  main_loop (S (length lines)) (concat (map (fun l => l ++ [NL]) lines)) = Some (map (fun l => act (l ++ [NL])) lines).
Proof.
  induction 1 as [|l lines [Hl Hn] _ IH]; [done |]. cbn [length map concat]. rewrite <- app_assoc. cbn [app].
  rewrite main_loop_step, getcmd_line by done. by rewrite IH.
Qed.

(** A parsed line is run as [runcmd] runs its command. *)
Lemma act_command line c s n : act line = Child (run_child line) -> parse_line line = Ok (c, s) n -> act line = Child (runcmd c).
Proof. intros -> E. unfold run_child. by rewrite E. Qed.

(** ** The standard descriptors *)

Lemma lowest_spec n fd t r : lowest n fd t = Some r -> (fd <= r < fd + n)%nat /\ t !! r = None /\ forall k, (fd <= k < r)%nat -> is_Some (t !! k).
Proof.
  revert fd. induction n as [|n IH]; intros fd; cbn [lowest]; [done |]. destruct (t !! fd) as [o|] eqn:E.
  - intros H. destruct (IH _ H) as (H1 & H2 & H3). split_and!; [lia | lia | done |]. intros k Hk.
    destruct (decide (k = fd)) as [->|]; [eauto | apply H3; lia].
  - intros [= ->]. split_and!; [lia | lia | done |]. intros k Hk. lia.
Qed.

Lemma lowest_some n fd t r : (fd <= r < fd + n)%nat -> t !! r = None -> is_Some (lowest n fd t).
Proof.
  revert fd. induction n as [|n IH]; intros fd Hr Ht; cbn [lowest]; [lia |]. destruct (t !! fd) as [o|] eqn:E; [| eauto].
  apply IH; [| done]. destruct (decide (r = fd)) as [->|]; [congruence | lia].
Qed.

(** The loop ends with descriptors 0, 1 and 2 in use and no descriptor
    changed that was. *)
Lemma open_console_ok console fuel t : (4 <= fuel)%nat -> t !! 15%nat = None ->
  exists t', open_console fuel console t = Some t' /\ (forall fd, (fd < 3)%nat -> is_Some (t' !! fd)) /\
    forall fd o, t !! fd = Some o -> t' !! fd = Some o.
Proof.
  assert (forall k fuel t, (k < fuel)%nat -> t !! 15%nat = None -> (forall fd, (fd < 3 - k)%nat -> is_Some (t !! fd)) ->
    exists t', open_console fuel console t = Some t' /\ (forall fd, (fd < 3)%nat -> is_Some (t' !! fd)) /\ forall fd o, t !! fd = Some o -> t' !! fd = Some o) as H.
  { induction k as [|k IH]; intros [|f] t0 Hf H15 Hlow; try lia; cbn [open_console];
      destruct (lowest_some 16 0 t0 15 ltac:(lia) H15) as [fd Efd]; destruct (lowest_spec _ _ _ _ Efd) as (Hr & Hn & Hb);
      unfold lowest_fd; rewrite Efd; destruct (Nat.leb_spec 3 fd) as [H3|H3].
    1, 3: rewrite delete_insert_id by done; exists t0; split_and!; [done | intros j Hj; apply Hb; lia | done].
    - exfalso. destruct (Hlow fd ltac:(lia)) as [o Ho]. congruence.
    - destruct (IH f (<[fd := console]> t0)) as (t' & E & H1 & H2); [lia | by rewrite lookup_insert_ne by lia | |].
      + intros j Hj. destruct (decide (j = fd)) as [->|]; [rewrite lookup_insert_eq; eauto | rewrite lookup_insert_ne by done].
        apply Hb. destruct (decide (fd < 3 - S k)%nat) as [Hlt|]; [| lia]. destruct (Hlow fd Hlt) as [o Ho]. congruence.
      + exists t'. split_and!; [done | done |]. intros j o Hj. apply H2. rewrite lookup_insert_ne; [done | congruence]. }
  intros Hf H15. apply (H 3%nat); [lia | done | intros; lia].
Qed.
