(* ===== verification/Trap.v ===== *)
(** * kernel/trap.c, kernel/plic.c and kernel/start.c

    Traps from user space and from the kernel, on one CPU: its control and
    status registers, the device registers the code writes, and what the code
    touches of the current process.  The rest of the kernel is the world [W];
    system calls, [yield], [exit] and the device drivers are interfaces, which
    may change the registers as other traps and processes do. *)

From S2P Require Import Prelude Riscv.

(** ** Registers: riscv.h *)

Inductive csr :=
  | Sstatus | Sepc | Scause | Stval | Stvec | Satp | Sip | Sie | Tp
  | Mhartid | Mstatus | Mepc | Mie | Medeleg | Mideleg | Mtvec | Mscratch | Pmpcfg0 | Pmpaddr0.

#[export] Instance csr_eq_dec : EqDecision csr.
Proof. solve_decision. Defined.

Definition MSTATUS_MPP_MASK : Z := Z.shiftl 3 11.
Definition MSTATUS_MPP_S : Z := Z.shiftl 1 11.
Definition MSTATUS_MIE : Z := Z.shiftl 1 3.
Definition SIE_SEIE : Z := Z.shiftl 1 9.
Definition SIE_STIE : Z := Z.shiftl 1 5.
Definition SIE_SSIE : Z := Z.shiftl 1 1.
Definition MIE_MTIE : Z := Z.shiftl 1 7.
Definition CLINT_MTIMECMP (hartid : Z) : Z := CLINT + 0x4000 + 8 * hartid.
Definition CLINT_MTIME : Z := CLINT + 0xBFF8.

(** The fields of [struct trapframe] that trap.c reads and writes. *)
Record tframe := Tframe {
  tf_kernel_satp : Z; tf_kernel_sp : Z; tf_kernel_trap : Z; tf_epc : Z; tf_kernel_hartid : Z }.

(** The current process, if there is one. *)
Record tproc := Tproc {
  tp_pid : Z; tp_killed : bool; tp_running : bool; tp_kstack : Z; tp_pagetable : Z; tp_frame : tframe }.

Section trap.
Context {W : Type}.

Record tst := Tst {
  t_csr : csr -> Z;
  t_mmio : gmap Z Z;          (* device registers and scratch memory written *)
  t_proc : option tproc;
  t_ticks : Z;
  t_world : W;
}.

Definition r_csr (c : csr) : M tst Z := gets (fun s => t_csr s c).
Definition w_csr (c : csr) (x : Z) : M tst unit :=
  modify (fun s => Tst (upd (t_csr s) c x) (t_mmio s) (t_proc s) (t_ticks s) (t_world s)).

Definition r_sstatus : M tst Z := r_csr Sstatus.
Definition w_sstatus (x : Z) : M tst unit := w_csr Sstatus x.
Definition r_sip : M tst Z := r_csr Sip.
Definition w_sip (x : Z) : M tst unit := w_csr Sip x.
Definition r_sie : M tst Z := r_csr Sie.
Definition w_sie (x : Z) : M tst unit := w_csr Sie x.
Definition r_sepc : M tst Z := r_csr Sepc.
Definition w_sepc (x : Z) : M tst unit := w_csr Sepc x.
Definition w_stvec (x : Z) : M tst unit := w_csr Stvec x.
Definition r_satp : M tst Z := r_csr Satp.
Definition w_satp (x : Z) : M tst unit := w_csr Satp x.
Definition r_scause : M tst Z := r_csr Scause.
Definition r_stval : M tst Z := r_csr Stval.
Definition r_tp : M tst Z := r_csr Tp.
Definition w_tp (x : Z) : M tst unit := w_csr Tp x.
Definition r_mhartid : M tst Z := r_csr Mhartid.
Definition r_mstatus : M tst Z := r_csr Mstatus.
Definition w_mstatus (x : Z) : M tst unit := w_csr Mstatus x.
Definition w_mepc (x : Z) : M tst unit := w_csr Mepc x.
Definition r_mie : M tst Z := r_csr Mie.
Definition w_mie (x : Z) : M tst unit := w_csr Mie x.
Definition w_medeleg (x : Z) : M tst unit := w_csr Medeleg x.
Definition w_mideleg (x : Z) : M tst unit := w_csr Mideleg x.
Definition w_mtvec (x : Z) : M tst unit := w_csr Mtvec x.
Definition w_mscratch (x : Z) : M tst unit := w_csr Mscratch x.
Definition w_pmpcfg0 (x : Z) : M tst unit := w_csr Pmpcfg0 x.
Definition w_pmpaddr0 (x : Z) : M tst unit := w_csr Pmpaddr0 x.

Definition tintr_on : M tst unit := let! x := r_sstatus in w_sstatus (Z.lor x SSTATUS_SIE).
Definition tintr_off : M tst unit := let! x := r_sstatus in w_sstatus (Z.land x (Z.lnot SSTATUS_SIE)).
Definition tintr_get : M tst bool := let! x := r_sstatus in ret (negb (Z.land x SSTATUS_SIE =? 0)).

Definition cpuid : M tst Z := let! id := r_tp in ret (s32 id).

Definition wmmio (a v : Z) : M tst unit :=
  modify (fun s => Tst (t_csr s) (<[a := v]> (t_mmio s)) (t_proc s) (t_ticks s) (t_world s)).

(** ** plic.c; [claim] is what reading a claim register gives. *)

Definition plicinit : M tst unit :=
  wmmio (PLIC + UART0_IRQ * 4) 1 ;;; wmmio (PLIC + VIRTIO0_IRQ * 4) 1.

Definition plicinithart : M tst unit :=
  let! hart := cpuid in
  wmmio (PLIC_SENABLE hart) (Z.lor (Z.shiftl 1 UART0_IRQ) (Z.shiftl 1 VIRTIO0_IRQ)) ;;;
  wmmio (PLIC_SPRIORITY hart) 0.

Context (claim : Z -> M tst Z).

Definition plic_claim : M tst Z :=
  let! hart := cpuid in
  let! irq := claim (PLIC_SCLAIM hart) in
  ret (s32 irq).

Definition plic_complete (irq : Z) : M tst unit :=
  let! hart := cpuid in wmmio (PLIC_SCLAIM hart) (u32 irq).

(** ** trap.c *)

(** [kernelvec], [usertrap] as addresses, and the offsets of [uservec] and
    [userret] in the trampoline page. *)
Context (kernelvec usertrap_addr uservec_off userret_off : Z).

(** The rest of the kernel. *)
Context (syscall yield uartintr virtio_disk_intr wakeup_ticks : M tst unit) (exit_ : Z -> M tst unit) (print : list Z -> M tst unit).

Definition trapinithart : M tst unit := w_stvec kernelvec.

(** [tickslock] makes this one step. *)
Definition clockintr : M tst unit :=
  modify (fun s => Tst (t_csr s) (t_mmio s) (t_proc s) (u32 (t_ticks s + 1)) (t_world s)) ;;;
  wakeup_ticks.

Definition devintr : M tst Z :=
  let! scause := r_scause in
  if negb (Z.land scause 0x8000000000000000 =? 0) && (Z.land scause 0xff =? 9) then
    let! irq := plic_claim in
    (if irq =? UART0_IRQ then uartintr
     else if irq =? VIRTIO0_IRQ then virtio_disk_intr
     else if negb (irq =? 0) then print [irq]
     else ret tt) ;;;
    (if negb (irq =? 0) then plic_complete irq else ret tt) ;;;
    ret 1
  else if scause =? 0x8000000000000001 then
    let! cpu := cpuid in
    (if cpu =? 0 then clockintr else ret tt) ;;;
    let! sip := r_sip in
    w_sip (Z.land sip (Z.lnot 2)) ;;;
    ret 2
  else ret 0.

(** [myproc()]; a null pointer traps. *)
Definition with_proc {A} (f : tproc -> M tst A) : M tst A :=
  let! p := gets t_proc in
  match p with Some p => f p | None => panic "kerneltrap" end.
Definition set_proc (f : tproc -> tproc) : M tst unit :=
  modify (fun s => Tst (t_csr s) (t_mmio s) (f <$> t_proc s) (t_ticks s) (t_world s)).
Definition set_frame (f : tframe -> tframe) : M tst unit :=
  set_proc (fun p => Tproc (tp_pid p) (tp_killed p) (tp_running p) (tp_kstack p) (tp_pagetable p) (f (tp_frame p))).
Definition set_epc (x : Z) : M tst unit :=
  set_frame (fun t => Tframe (tf_kernel_satp t) (tf_kernel_sp t) (tf_kernel_trap t) x (tf_kernel_hartid t)).

(** How [usertrap] ends: it jumps to [userret] in the trampoline with the
    user's page table, or [exit] takes over. *)
Inductive tend := ToUser (fn trapframe satp : Z) | Exits.

Definition usertrapret : M tst tend :=
  tintr_off ;;;
  w_stvec (TRAMPOLINE + uservec_off) ;;;
  let! satp := r_satp in
  let! tp := r_tp in
  with_proc (fun p =>
    set_frame (fun t => Tframe satp (u64 (tp_kstack p + PGSIZE)) usertrap_addr (tf_epc t) tp) ;;;
    let! x := r_sstatus in
    let x := Z.land x (Z.lnot SSTATUS_SPP) in
    let x := Z.lor x SSTATUS_SPIE in
    w_sstatus x ;;;
    w_sepc (tf_epc (tp_frame p)) ;;;
    ret (ToUser (TRAMPOLINE + userret_off) TRAPFRAME (MAKE_SATP (tp_pagetable p)))).

Definition is_killed : M tst bool := with_proc (fun p => ret (tp_killed p)).

Definition usertrap : M tst tend :=
  let! sstatus := r_sstatus in
  if negb (Z.land sstatus SSTATUS_SPP =? 0) then panic "usertrap: not from user mode"
  else
    w_stvec kernelvec ;;;
    let! sepc := r_sepc in
    with_proc (fun _ => set_epc sepc) ;;;
    let! scause := r_scause in
    let! which_dev :=
      (if scause =? 8 then
         let! killed := is_killed in
         if killed : bool then exit_ (-1) ;;; ret None
         else
           with_proc (fun p => set_epc (u64 (tf_epc (tp_frame p) + 4))) ;;;
           tintr_on ;;;
           syscall ;;;
           ret (Some 0)
       else
         let! which_dev := devintr in
         if negb (which_dev =? 0) then ret (Some which_dev)
         else
           let! scause := r_scause in
           with_proc (fun p => print [scause; tp_pid p]) ;;;
           let! sepc := r_sepc in
           let! stval := r_stval in
           print [sepc; stval] ;;;
           set_proc (fun p => Tproc (tp_pid p) true (tp_running p) (tp_kstack p) (tp_pagetable p) (tp_frame p)) ;;;
           ret (Some 0)) in
    match which_dev with
    | None => ret Exits
    | Some which_dev =>
        let! killed := is_killed in
        if killed : bool then exit_ (-1) ;;; ret Exits
        else
          (if which_dev =? 2 then yield else ret tt) ;;;
          usertrapret
    end.

Definition kerneltrap : M tst unit :=
  let! sepc := r_sepc in
  let! sstatus := r_sstatus in
  let! scause := r_scause in
  if Z.land sstatus SSTATUS_SPP =? 0 then panic "kerneltrap: not from supervisor mode"
  else
    let! on := tintr_get in
    if on : bool then panic "kerneltrap: interrupts enabled"
    else
      let! which_dev := devintr in
      if which_dev =? 0 then
        print [scause] ;;;
        let! epc := r_sepc in
        let! stval := r_stval in
        print [epc; stval] ;;;
        panic "kerneltrap"
      else
        let! p := gets t_proc in
        (if (which_dev =? 2) && match p with Some p => tp_running p | None => false end then yield else ret tt) ;;;
        w_sepc sepc ;;;
        w_sstatus sstatus.

(** ** start.c, up to [mret]; [rmmio] reads a device register, and
    [scratch] the address of this CPU's part of [mscratch0]. *)

Context (main_addr timervec : Z) (rmmio : Z -> Z) (scratch : Z -> Z).

Definition timerinit : M tst unit :=
  let! hartid := r_mhartid in
  let id := s32 hartid in
  let interval := 1000000 in
  wmmio (CLINT_MTIMECMP id) (u64 (rmmio CLINT_MTIME + interval)) ;;;
  wmmio (scratch id + 8 * 4) (CLINT_MTIMECMP id) ;;;
  wmmio (scratch id + 8 * 5) interval ;;;
  w_mscratch (scratch id) ;;;
  w_mtvec timervec ;;;
  let! x := r_mstatus in
  w_mstatus (Z.lor x MSTATUS_MIE) ;;;
  let! x := r_mie in
  w_mie (Z.lor x MIE_MTIE).

Context (consoleinit printfinit : M tst unit).

Definition start : M tst unit :=
  let! x := r_mstatus in
  let x := Z.land x (Z.lnot MSTATUS_MPP_MASK) in
  let x := Z.lor x MSTATUS_MPP_S in
  w_mstatus x ;;;
  w_mepc main_addr ;;;
  w_satp 0 ;;;
  w_medeleg 0xffff ;;;
  w_mideleg 0xffff ;;;
  let! x := r_sie in
  w_sie (Z.lor (Z.lor (Z.lor x SIE_SEIE) SIE_STIE) SIE_SSIE) ;;;
  w_pmpaddr0 0x1fffffffffffff ;;;
  w_pmpcfg0 0x1f ;;;
  timerinit ;;;
  let! id := r_mhartid in
  w_tp (u64 (s32 id)) ;;;
  let! cpu := cpuid in
  if cpu =? 0 then consoleinit ;;; printfinit else ret tt.

(** ** What the rest of the kernel guarantees *)

(** A function that returns, with the current process related by [R] to what
    it was. *)
Definition runs (R : relation (option tproc)) {A} (m : M tst A) : Prop :=
  forall s, wp m (fun _ s' => R (t_proc s) (t_proc s')) s.

(** The same of a function that needs a current process. *)
Definition runs_in_proc (R : relation (option tproc)) {A} (m : M tst A) : Prop :=
  forall s p, t_proc s = Some p -> wp m (fun _ s' => R (t_proc s) (t_proc s')) s.

(** [D] is what an interrupt may do to the current process (being killed by
    another CPU meanwhile included), [E] what a system call may. *)
Record kernel_ok (D E : relation (option tproc)) : Prop := KernelOk {
  ko_pre : PreOrder D;
  ko_epc : forall p o, D (Some p) o -> exists p', o = Some p' /\ tf_epc (tp_frame p) = tf_epc (tp_frame p');
  ko_live : forall p o, E (Some p) o -> is_Some o;
  ko_claim : forall a, runs D (claim a);
  ko_uart : runs D uartintr;
  ko_disk : runs D virtio_disk_intr;
  ko_wakeup : runs D wakeup_ticks;
  ko_print : forall l, runs D (print l);
  ko_yield : runs_in_proc D yield;
  ko_exit : forall z, runs_in_proc (fun _ _ => True) (exit_ z);
  ko_syscall : runs_in_proc E syscall;
}.

(** What [devintr] makes of a cause: 2 for the timer, 1 for a device. *)
Definition dev_of (scause : Z) : Z :=
  if negb (Z.land scause 0x8000000000000000 =? 0) && (Z.land scause 0xff =? 9) then 1
  else if scause =? 0x8000000000000001 then 2 else 0.

(** The CPU is ready to resume the current process in user mode at [pc]: traps
    go to [uservec], [sret] enters user mode with interrupts enabled, none can
    come before that, and the trapframe says where the next trap continues. *)
Record user_ready (s : tst) (r : tend) (pc : Z) : Prop := UserReady {
  ur_proc : exists p, t_proc s = Some p /\ r = ToUser (TRAMPOLINE + userret_off) TRAPFRAME (MAKE_SATP (tp_pagetable p)) /\
    tp_frame p = Tframe (t_csr s Satp) (u64 (tp_kstack p + PGSIZE)) usertrap_addr pc (t_csr s Tp);
  ur_spp : Z.testbit (t_csr s Sstatus) 8 = false;
  ur_spie : Z.testbit (t_csr s Sstatus) 5 = true;
  ur_sie : Z.testbit (t_csr s Sstatus) 1 = false;
  ur_stvec : t_csr s Stvec = TRAMPOLINE + uservec_off;
  ur_sepc : t_csr s Sepc = pc;
}.

(** [p] with its saved user program counter at [pc]. *)
Definition at_pc (p : tproc) (pc : Z) : tproc :=
  let t := tp_frame p in
  Tproc (tp_pid p) (tp_killed p) (tp_running p) (tp_kstack p) (tp_pagetable p)
    (Tframe (tf_kernel_satp t) (tf_kernel_sp t) (tf_kernel_trap t) pc (tf_kernel_hartid t)).

(** The end of a trap that leaves the process as [p']. *)
Definition resumes (p' : tproc) (r : tend) (s' : tst) : Prop :=
  if tp_killed p' then r = Exits else user_ready s' r (tf_epc (tp_frame p')).

Section interface.
Context (D E : relation (option tproc)) (K : kernel_ok D E).

#[local] Instance D_pre : PreOrder D := ko_pre _ _ K.

Lemma runs_bind {A B} (m : M tst A) (k : A -> M tst B) : runs D m -> (forall a, runs D (k a)) -> runs D (bind m k).
Proof.
  intros Hm Hk s. apply wp_bind. eapply wp_mono; [apply Hm |]. intros a s1 H1.
  eapply wp_mono; [apply Hk |]. intros b s2 H2. by transitivity (t_proc s1).
Qed.

Lemma runs_ret {A} (a : A) : runs D (ret a).
Proof. intros s. by apply wp_ret. Qed.
Lemma runs_gets {A} (f : tst -> A) : runs D (gets f).
Proof. intros s. by apply wp_gets. Qed.
Lemma runs_modify f : (forall s, t_proc (f s) = t_proc s) -> runs D (modify f).
Proof. intros H s. apply wp_modify. by rewrite H. Qed.

Ltac runs_tac := repeat first
  [ apply runs_ret | apply runs_gets | apply runs_modify; by intros | apply runs_bind; [| intro]
  | exact (ko_uart _ _ K) | exact (ko_disk _ _ K) | exact (ko_wakeup _ _ K) | exact (ko_claim _ _ K _) | exact (ko_print _ _ K _)
  | match goal with |- runs _ (if ?b then _ else _) => destruct b end ].

(** A step of [m] that keeps the process, then the rest. *)
Lemma runs_wp {A B} (m : M tst A) (k : A -> M tst B) Q s : runs D m ->
  (forall a s1, D (t_proc s) (t_proc s1) -> wp (k a) Q s1) -> wp (bind m k) Q s.
Proof. intros Hm Hk. apply wp_bind. eapply wp_mono; [apply Hm |]. auto. Qed.

Lemma devintr_ok s : wp devintr (fun r s' => r = dev_of (t_csr s Scause) /\ D (t_proc s) (t_proc s')) s.
Proof.
  unfold devintr, dev_of, r_scause, r_csr. apply wp_bind, wp_gets.
  destruct (_ && _); [| destruct (_ =? _); [| by apply wp_ret]].
  - eapply runs_wp; [unfold plic_claim, cpuid; runs_tac |]. intros irq s1 H1.
    eapply runs_wp; [runs_tac |]. intros [] s2 H2. eapply runs_wp; [unfold plic_complete, cpuid; runs_tac |].
    intros [] s3 H3. apply wp_ret. split; [done |]. by rewrite H1, H2.
  - eapply runs_wp; [unfold cpuid; runs_tac |]. intros cpu s1 H1. eapply runs_wp; [unfold clockintr; runs_tac |].
    intros [] s2 H2. eapply runs_wp; [unfold r_sip; runs_tac |]. intros sip s3 H3.
    eapply runs_wp; [unfold w_sip; runs_tac |]. intros [] s4 H4. apply wp_ret. split; [done |]. by rewrite H1, H2, H3.
Qed.

(** *** Back to user space *)

Lemma usertrapret_ok s p : t_proc s = Some p -> wp usertrapret (fun r s' => user_ready s' r (tf_epc (tp_frame p))) s.
Proof.
  intros Hp. unfold usertrapret, tintr_off, w_stvec, r_satp, r_tp, r_sstatus, w_sstatus, w_sepc, with_proc, set_frame, set_proc, r_csr, w_csr.
  repeat (first [apply wp_bind | apply wp_gets | apply wp_modify]). cbn [t_proc]. rewrite Hp.
  repeat (first [apply wp_bind | apply wp_gets | apply wp_modify | apply wp_ret]).
  split; cbn [t_csr t_proc fmap option_fmap option_map]; repeat first [rewrite upd_eq | rewrite upd_ne by done].
  - eexists. by split_and!.
  - rewrite Z.lor_spec, Z.land_spec. change (Z.testbit (Z.lnot SSTATUS_SPP) 8) with false. by rewrite andb_false_r.
  - rewrite Z.lor_spec. change (Z.testbit SSTATUS_SPIE 5) with true. by rewrite orb_true_r.
  - rewrite Z.lor_spec, !Z.land_spec. change (Z.testbit (Z.lnot SSTATUS_SIE) 1) with false. by rewrite andb_false_r.
  - done.
  - done.
Qed.

Lemma bit_land x n : 0 <= n -> (Z.land x (Z.shiftl 1 n) =? 0) = negb (Z.testbit x n).
Proof.
  intros Hn. destruct (Z.testbit x n) eqn:Hx; cbn [negb].
  - apply Z.eqb_neq. intros H. assert (Z.testbit (Z.land x (Z.shiftl 1 n)) n = true) as Ht; [| by rewrite H, Z.bits_0 in Ht].
    by rewrite Z.land_spec, Hx, Z.shiftl_1_l, Z.pow2_bits_true.
  - apply Z.eqb_eq, Z.bits_inj'. intros m Hm. rewrite Z.land_spec, Z.bits_0, Z.shiftl_1_l.
    destruct (decide (m = n)) as [->|Hne]; [by rewrite Hx | by rewrite Z.pow2_bits_false, andb_false_r by lia].
Qed.

Lemma set_epc_ok s p pc : t_proc s = Some p ->
  wp (set_epc pc) (fun _ s' => t_proc s' = Some (at_pc p pc) /\ t_csr s' = t_csr s) s.
Proof. intros Hp. apply wp_modify. cbn [t_proc]. by rewrite Hp. Qed.

(** The end of [usertrap], once the trap has been dealt with. *)
Lemma usertrap_finish s p which : t_proc s = Some p ->
  wp (let! killed := is_killed in
      if killed : bool then exit_ (-1) ;;; ret Exits else (if which =? 2 then yield else ret tt) ;;; usertrapret)
     (resumes p) s.
Proof.
  intros Hp. unfold is_killed, with_proc, resumes. apply wp_bind, wp_bind, wp_gets. rewrite Hp. apply wp_ret. destruct (tp_killed p).
  - apply wp_bind. eapply wp_mono; [exact (ko_exit _ _ K (-1) s p Hp) |]. intros. by apply wp_ret.
  - apply wp_bind. assert (wp (if which =? 2 then yield else ret tt) (fun _ s' => D (t_proc s) (t_proc s')) s) as H.
    { destruct (which =? 2); [exact (ko_yield _ _ K s p Hp) | by apply wp_ret]. }
    eapply wp_mono; [exact H |]. intros [] s1 H1. rewrite Hp in H1. destruct (ko_epc _ _ K _ _ H1) as (p1 & E1 & ->).
    by apply usertrapret_ok.
Qed.

(** What a trap from user mode with cause [scause] at [sepc] comes to, for the
    process [p] it interrupts. *)
Definition usertrap_result (scause sepc : Z) (p : tproc) (r : tend) (s' : tst) : Prop :=
  if scause =? 8 then
    if tp_killed p then r = Exits
    else exists p', E (Some (at_pc p (u64 (sepc + 4)))) (Some p') /\ resumes p' r s'
  else if dev_of scause =? 0 then r = Exits
  else exists p', D (Some (at_pc p sepc)) (Some p') /\ tf_epc (tp_frame p') = sepc /\ resumes p' r s'.

Lemma tintr_on_ok s : wp tintr_on (fun _ s' => t_proc s' = t_proc s) s.
Proof. unfold tintr_on. apply wp_bind, wp_gets. by apply wp_modify. Qed.


(** A trap in the kernel.  With interrupts off, as the hardware leaves
    them, a device or timer interrupt is handled and returns to the
    interrupted code with the trap registers it had, whatever other traps a
    [yield] went through; any other trap in the kernel panics. *)
Theorem kerneltrap_correct s : Z.testbit (t_csr s Sstatus) 8 = true -> Z.testbit (t_csr s Sstatus) 1 = false ->
  if dev_of (t_csr s Scause) =? 0 then kerneltrap s = Panic "kerneltrap"
  else wp kerneltrap (fun _ s' => t_csr s' Sepc = t_csr s Sepc /\ t_csr s' Sstatus = t_csr s Sstatus /\ D (t_proc s) (t_proc s')) s.
Proof.
  intros Hspp Hsie. destruct (dev_of _ =? 0) eqn:Ed.
  - destruct (proj1 (wp_ok _ _ _) (devintr_ok s)) as (d & s1 & R1 & -> & _).
    destruct (proj1 (wp_ok _ _ _) (ko_print _ _ K [t_csr s Scause] s1)) as ([] & s2 & R2 & _).
    destruct (proj1 (wp_ok _ _ _) (ko_print _ _ K [t_csr s2 Sepc; t_csr s2 Stval] s2)) as ([] & s3 & R3 & _).
    unfold kerneltrap, r_sepc, r_sstatus, r_scause, r_stval, r_csr, tintr_get, r_sstatus, r_csr. rewrite !bind_gets, (bit_land _ 8), Hspp by done.
    cbn [negb]. unfold bind at 1. rewrite bind_gets. change SSTATUS_SIE with (Z.shiftl 1 1). rewrite (bit_land _ 1), Hsie by done. cbn [negb ret].
    rewrite (bind_run _ _ _ _ _ R1), Ed, (bind_run _ _ _ _ _ R2), !bind_gets. by rewrite (bind_run _ _ _ _ _ R3).
  - unfold kerneltrap. do 3 apply wp_bind, wp_gets. rewrite (bit_land _ 8), Hspp by done. cbn [negb].
    unfold tintr_get. apply wp_bind, wp_bind, wp_gets, wp_ret. change SSTATUS_SIE with (Z.shiftl 1 1). rewrite (bit_land _ 1), Hsie by done. cbn [negb].
    apply wp_bind. eapply wp_mono; [apply devintr_ok |]. intros d s1 [-> H1]. rewrite Ed.
    apply wp_bind, wp_gets, wp_bind.
    assert (wp (if (dev_of (t_csr s Scause) =? 2) && match t_proc s1 with Some p => tp_running p | None => false end then yield else ret tt)
      (fun _ s' => D (t_proc s1) (t_proc s')) s1) as Hy.
    { destruct (_ && _) eqn:Eb; [| by apply wp_ret]. destruct (t_proc s1) as [p1|] eqn:E1; [| by rewrite andb_false_r in Eb].
      rewrite <- E1. by apply (ko_yield _ _ K _ p1). }
    eapply wp_mono; [exact Hy |]. intros [] s2 H2. apply wp_bind, wp_modify, wp_modify. cbn [t_csr t_proc].
    rewrite upd_ne, !upd_eq by done. split_and!; [done | done | by transitivity (t_proc s1)].
Qed.
End interface.

(** *** Boot: [start] leaves machine mode for [main] in supervisor mode, with
    paging off, traps delegated, the timer on, and this CPU's number in [tp]. *)
Definition booted (id : Z) (c : csr -> Z) : Prop :=
  c Mepc = main_addr /\ c Satp = 0 /\ c Tp = id /\ c Mtvec = timervec /\
  Z.testbit (c Mstatus) 11 = true /\ Z.testbit (c Mstatus) 12 = false /\ Z.testbit (c Mstatus) 3 = true /\
  Z.testbit (c Mie) 7 = true /\ Z.testbit (c Sie) 1 = true /\ Z.testbit (c Sie) 5 = true /\ Z.testbit (c Sie) 9 = true /\
  c Medeleg = 0xffff /\ c Mideleg = 0xffff.

(** Evaluate the bits of the constants. *)
Ltac const_bits := repeat match goal with |- context [Z.testbit ?k ?n] =>
  let b := eval vm_compute in (Z.testbit k n) in
  match b with true => idtac | false => idtac end; change (Z.testbit k n) with b end.

Lemma start_ok s : (forall s, wp consoleinit (fun _ s' => t_csr s' = t_csr s) s) -> (forall s, wp printfinit (fun _ s' => t_csr s' = t_csr s) s) ->
  0 <= t_csr s Mhartid < 2 ^ 31 ->
  wp start (fun _ s' => booted (t_csr s Mhartid) (t_csr s')) s.
Proof.
  intros Hc Hf Hid. assert (s32 (t_csr s Mhartid) = t_csr s Mhartid /\ u64 (t_csr s Mhartid) = t_csr s Mhartid) as [Es Eu] by (split; [apply s32_small | apply u64_small]; lia).
  unfold start, timerinit, cpuid.
  repeat (first [apply wp_bind | apply wp_gets | apply wp_modify | apply wp_ret];
    cbn [t_csr t_mmio t_proc t_ticks t_world]; repeat first [rewrite upd_eq | rewrite upd_ne by done]).
  rewrite Es, Eu.
  set (c := upd _ Tp _). assert (booted (t_csr s Mhartid) c) as H.
  { unfold booted, c. repeat first [rewrite upd_eq | rewrite upd_ne by done].
    rewrite !Z.lor_spec, !Z.land_spec. const_bits. rewrite ?orb_true_r, ?andb_false_r. by split_and!. }
  destruct (_ =? 0); [| apply wp_ret; exact H]. apply wp_bind. eapply wp_mono; [apply Hc |]. intros [] s1 E1.
  eapply wp_mono; [apply Hf |]. intros [] s2 E2. by rewrite E2, E1.
Qed.
End trap.

(** ** An instance: a kernel whose system calls and drivers do nothing, and
    whose [yield] comes back with other traps' registers. *)

Abbreviation tst0 := (tst (W := unit)).
Definition yield0 : M tst0 unit := w_csr Sepc 0 ;;; w_csr Sstatus 0x20.

Lemma kernel0_ok : kernel_ok (fun _ : Z => ret UART0_IRQ : M tst0 Z) (ret tt) yield0 (ret tt) (ret tt) (ret tt)
  (fun _ => ret tt) (fun _ => ret tt) eq eq.
Proof.
  split; try (intros; intros s; by apply wp_ret); try (intros; intros s p _; by apply wp_ret); try apply _.
  - intros p o <-. eauto.
  - intros p o <-. eauto.
  - intros s p _. apply wp_bind, wp_modify, wp_modify. done.
Qed.

(** A state of the CPU with a running process, just after a trap. *)
Definition tst_at (scause sepc sstatus : Z) : tst0 :=
  Tst (fun c => match c with Scause => scause | Sepc => sepc | Sstatus => sstatus | _ => 0 end) ∅
    (Some (Tproc 1 false true 0x4000 0x87000000 (Tframe 0 0 0 0 0))) 0 tt.


(** A timer interrupt of a running process in the kernel. *)
Lemma kerneltrap_witness :
  wp (kerneltrap (fun _ => ret UART0_IRQ) yield0 (ret tt) (ret tt) (ret tt) (fun _ => ret tt))
    (fun _ s' => t_csr s' Sepc = 0x80001234 /\ t_csr s' Sstatus = 0x120) (tst_at 0x8000000000000001 0x80001234 0x120).
Proof.
  eapply wp_mono; [exact (kerneltrap_correct _ _ _ _ _ _ _ _ eq eq kernel0_ok (tst_at 0x8000000000000001 0x80001234 0x120) eq_refl eq_refl) |].
  intros [] s' (H1 & H2 & _). by split.
Defined.
